(** * cachedpath: a shallow embedding of the resolver and its helpers

    The development follows the Go package [cachedpath] and its sub-package
    [schemes]:

    - [util.go]      : [ResourceToFilename], [ParseArchivePath], path helpers;
    - [options.go]   : the functional options;
    - [schemes/http] : [doRequestWithRetry], [GetResource], [GetSize], [GetETag];
    - [archive.go]   : whole-archive and single-entry extraction;
    - [cachedpath.go]: the freshness check and [downloadFile].

    Go strings are byte strings and are embedded as [string]; Go's [int],
    [int64] and [time.Duration] are embedded as [Z] with the 64-bit wrap-around
    written out where the code multiplies.  Everything the code does to the
    outside world (file system, network, clock) is threaded through an
    explicit [World]; what the outside world answers is an [Env]. *)

From Stdlib Require Import ZArith Lia Ascii String List Bool DecimalString.
From stdpp Require Import gmap strings list.

Local Open Scope Z_scope.

(* ===================================================================== *)
(** * Part I: definitions                                                 *)
(* ===================================================================== *)

(** ** Package [strings] (the functions the sources call) *)

(** [strings.HasPrefix(s, prefix)]. *)
Fixpoint strings_HasPrefix (s prefix : string) {struct prefix} : bool :=
  match prefix, s with
  | EmptyString, _ => true
  | String p prefix', String c s' => Ascii.eqb c p && strings_HasPrefix s' prefix'
  | String _ _, EmptyString => false
  end.

(** [strings.Join(elems, sep)]. *)
Fixpoint strings_Join (elems : list string) (sep : string) : string :=
  match elems with
  | [] => ""
  | [e] => e
  | e :: rest => e +:+ sep +:+ strings_Join rest sep
  end.

(** [strings.Cut(s, sep)] for a one-byte separator: the text before and
    after the first [sep], or [None] when [s] has no [sep]. *)
Fixpoint cut_byte (sep : ascii) (s : string) : option (string * string) :=
  match s with
  | EmptyString => None
  | String c s' =>
      if Ascii.eqb c sep then Some (EmptyString, s')
      else match cut_byte sep s' with
           | Some (before, after) => Some (String c before, after)
           | None => None
           end
  end.

(** [strings.SplitN(s, sep, 2)] for a one-byte separator: at most two
    pieces, the second one the unsplit remainder. *)
Definition strings_SplitN2 (s : string) (sep : ascii) : list string :=
  match cut_byte sep s with
  | Some (before, after) => [before; after]
  | None => [s]
  end.

(** [strings.Split(s, "/")]: every piece between separators, empty pieces
    included; never the empty list. *)
Fixpoint split_sep (sep : ascii) (s : string) : list string :=
  match s with
  | EmptyString => [EmptyString]
  | String c s' =>
      if Ascii.eqb c sep then EmptyString :: split_sep sep s'
      else match split_sep sep s' with
           | piece :: pieces => String c piece :: pieces
           | [] => [String c EmptyString]
           end
  end.

(** ** Package [path/filepath] on Unix

    Modelled from the documentation of Go's [path/filepath]: [Clean] applies,
    until nothing changes, (1) several separators become one, (2) every [.]
    element goes, (3) an inner [..] goes together with the non-[..] element
    before it, (4) a [..] that begins a rooted path goes; the empty result
    is ["."].  The lexical processing is a stack of elements. *)

Definition Separator : ascii := "/"%char.

(** One element of the path against the stack of elements kept so far
    (innermost first). *)
Definition clean_step (rooted : bool) (st : list string) (elem : string) : list string :=
  if decide (elem = "") then st
  else if decide (elem = ".") then st
  else if decide (elem = "..") then
    match st with
    | top :: below => if decide (top = "..") then ".." :: st else below
    | [] => if rooted then [] else [".."]
    end
  else elem :: st.

Definition is_rooted (path : string) : bool := strings_HasPrefix path "/".

Definition clean_stack (rooted : bool) (elems : list string) (st : list string) : list string :=
  fold_left (clean_step rooted) elems st.

(** The text of a cleaned path from its elements (outermost first). *)
Definition render (rooted : bool) (elems : list string) : string :=
  match elems with
  | [] => if rooted then "/" else "."
  | _ => (if rooted then "/" else "") +:+ strings_Join elems "/"
  end.

(** [filepath.Clean(path)]. *)
Definition filepath_Clean (path : string) : string :=
  if decide (path = "") then "."
  else render (is_rooted path)
         (rev (clean_stack (is_rooted path) (split_sep Separator path) [])).

(** [filepath.Join(elem...)]: the elements from the first non-empty one on,
    joined by the separator and cleaned; [""] when all are empty. *)
Fixpoint filepath_Join (elem : list string) : string :=
  match elem with
  | [] => ""
  | e :: rest =>
      if decide (e = "") then filepath_Join rest
      else filepath_Clean (strings_Join (e :: rest) "/")
  end.

(** The text after the last [c] of [s]; [None] when [s] has no [c]. *)
Fixpoint after_last (c : ascii) (s : string) : option string :=
  match s with
  | EmptyString => None
  | String a s' =>
      match after_last c s' with
      | Some t => Some t
      | None => if Ascii.eqb a c then Some s' else None
      end
  end.

(** The text of [s] up to and including its last [c]; [""] without one. *)
Fixpoint through_last (c : ascii) (s : string) : string :=
  match s with
  | EmptyString => EmptyString
  | String a s' =>
      match through_last c s' with
      | EmptyString => if Ascii.eqb a c then String a EmptyString else EmptyString
      | t => String a t
      end
  end.

(** [s] without its trailing separators. *)
Fixpoint trim_trailing_sep (s : string) : string :=
  match s with
  | EmptyString => EmptyString
  | String a s' =>
      match trim_trailing_sep s' with
      | EmptyString => if Ascii.eqb a Separator then EmptyString else String a EmptyString
      | t => String a t
      end
  end.

(** [filepath.Base(path)]: the last element; trailing separators are
    dropped first; ["."] for the empty path, ["/"] for separators only. *)
Definition filepath_Base (path : string) : string :=
  if decide (path = "") then "."
  else
    let p := trim_trailing_sep path in
    let last := match after_last Separator p with Some t => t | None => p end in
    if decide (last = "") then "/" else last.

(** [filepath.Dir(path)]: all but the last element, cleaned. *)
Definition filepath_Dir (path : string) : string :=
  filepath_Clean (through_last Separator path).

(** [filepath.Ext(path)]: the suffix of the last element that starts at its
    last dot; [""] when that element has no dot. *)
Definition filepath_Ext (path : string) : string :=
  let last := match after_last Separator path with Some t => t | None => path end in
  match after_last "."%char last with
  | Some t => String "."%char t
  | None => ""
  end.

(** ** Package [crypto/sha256] and [encoding/hex]

    Modelled from FIPS 180-4, which Go's [crypto/sha256] implements: words
    are 32-bit, kept as [Z] and reduced after every addition. *)

Definition w32 (x : Z) : Z := x mod 2 ^ 32.
Definition rotr (n x : Z) : Z := Z.lor (Z.shiftr x n) (w32 (Z.shiftl x (32 - n))).
Definition sha_Ch (x y z : Z) : Z :=
  Z.lxor (Z.land x y) (Z.land (Z.lxor x 4294967295) z).
Definition sha_Maj (x y z : Z) : Z :=
  Z.lxor (Z.lxor (Z.land x y) (Z.land x z)) (Z.land y z).
Definition big_sigma0 (x : Z) : Z := Z.lxor (Z.lxor (rotr 2 x) (rotr 13 x)) (rotr 22 x).
Definition big_sigma1 (x : Z) : Z := Z.lxor (Z.lxor (rotr 6 x) (rotr 11 x)) (rotr 25 x).
Definition small_sigma0 (x : Z) : Z := Z.lxor (Z.lxor (rotr 7 x) (rotr 18 x)) (Z.shiftr x 3).
Definition small_sigma1 (x : Z) : Z := Z.lxor (Z.lxor (rotr 17 x) (rotr 19 x)) (Z.shiftr x 10).

(** The constants of the standard are not tabled but computed as the
    standard defines them: the first 32 bits of the fractional parts of
    the cube roots (round constants) and of the square roots (initial
    state) of the first primes. *)
Fixpoint primes_upto (fuel : nat) (n : Z) (count : nat) (found : list Z) : list Z :=
  match fuel, count with
  | S fuel', S count' =>
      if forallb (fun p => negb (n mod p =? 0)) found
      then primes_upto fuel' (n + 1) count' (found ++ [n])
      else primes_upto fuel' (n + 1) count found
  | _, _ => found
  end.
Definition first_primes (count : nat) : list Z := primes_upto 400 2 count [].

Definition root3 (n : Z) : Z :=
  fold_left (fun r i => let r' := r + 2 ^ Z.of_nat i in if r' * r' * r' <=? n then r' else r)
    (rev (seq 0 40)) 0.
Definition frac32_root3 (p : Z) : Z := root3 (p * 2 ^ 96) mod 2 ^ 32.
Definition frac32_root2 (p : Z) : Z := Z.sqrt (p * 2 ^ 64) mod 2 ^ 32.

Definition sha_K : list Z := Eval vm_compute in map frac32_root3 (first_primes 64).

(** The eight working words of the digest. *)
Record sha_state : Type := ShaState {
  sha_a : Z; sha_b : Z; sha_c : Z; sha_d : Z;
  sha_e : Z; sha_f : Z; sha_g : Z; sha_h : Z
}.

Definition sha_init : sha_state :=
  Eval vm_compute in
    match map frac32_root2 (first_primes 8) with
    | [a; b; c; d; e; f; g; h] => ShaState a b c d e f g h
    | _ => ShaState 0 0 0 0 0 0 0 0
    end.

(** The message schedule, newest word first; [n] words are still to come. *)
Fixpoint sha_schedule (n : nat) (ws : list Z) : list Z :=
  match n with
  | O => ws
  | S n' =>
      let w := w32 (small_sigma1 (nth 1 ws 0) + nth 6 ws 0
                    + small_sigma0 (nth 14 ws 0) + nth 15 ws 0) in
      sha_schedule n' (w :: ws)
  end.

Definition sha_round (s : sha_state) (kw : Z * Z) : sha_state :=
  let t1 := w32 (sha_h s + big_sigma1 (sha_e s) + sha_Ch (sha_e s) (sha_f s) (sha_g s)
                 + fst kw + snd kw) in
  let t2 := w32 (big_sigma0 (sha_a s) + sha_Maj (sha_a s) (sha_b s) (sha_c s)) in
  ShaState (w32 (t1 + t2)) (sha_a s) (sha_b s) (sha_c s)
           (w32 (sha_d s + t1)) (sha_e s) (sha_f s) (sha_g s).

(** Big-endian 32-bit words of a block of bytes. *)
Fixpoint be_words (bytes : list Z) : list Z :=
  match bytes with
  | b0 :: b1 :: b2 :: b3 :: rest =>
      (b0 * 16777216 + b1 * 65536 + b2 * 256 + b3) :: be_words rest
  | _ => []
  end.

Definition sha_block (s : sha_state) (block : list Z) : sha_state :=
  let w := rev (sha_schedule 48 (rev (be_words block))) in
  let r := fold_left sha_round (combine sha_K w) s in
  ShaState (w32 (sha_a s + sha_a r)) (w32 (sha_b s + sha_b r))
           (w32 (sha_c s + sha_c r)) (w32 (sha_d s + sha_d r))
           (w32 (sha_e s + sha_e r)) (w32 (sha_f s + sha_f r))
           (w32 (sha_g s + sha_g r)) (w32 (sha_h s + sha_h r)).

Fixpoint sha_blocks (fuel : nat) (s : sha_state) (bytes : list Z) : sha_state :=
  match fuel, bytes with
  | S fuel', _ :: _ => sha_blocks fuel' (sha_block s (firstn 64 bytes)) (skipn 64 bytes)
  | _, _ => s
  end.

Definition be_bytes (width : nat) (x : Z) : list Z :=
  map (fun i => Z.shiftr x (8 * Z.of_nat i) mod 256) (rev (seq 0 width)).

Definition sha_pad (msg : list Z) : list Z :=
  let len := Z.of_nat (List.length msg) in
  msg ++ [128] ++ repeat 0 (Z.to_nat ((55 - len) mod 64)) ++ be_bytes 8 (8 * len).

Definition bytes_of_string (s : string) : list Z :=
  map (fun c => Z.of_N (N_of_ascii c)) (list_ascii_of_string s).

Definition string_of_bytes (bytes : list Z) : string :=
  string_of_list_ascii (map (fun b => ascii_of_N (Z.to_N b)) bytes).

Definition word_bytes (x : Z) : list Z := be_bytes 4 x.

(** [sha256.Sum256]: the 32-byte digest of a byte string. *)
Definition sha256_Sum (msg : string) : string :=
  let padded := sha_pad (bytes_of_string msg) in
  let s := sha_blocks (List.length padded) sha_init padded in
  string_of_bytes
    (word_bytes (sha_a s) ++ word_bytes (sha_b s) ++ word_bytes (sha_c s) ++ word_bytes (sha_d s)
     ++ word_bytes (sha_e s) ++ word_bytes (sha_f s) ++ word_bytes (sha_g s) ++ word_bytes (sha_h s)).

(** The [hash.Hash] of [sha256.New()]: [Write] appends to what was
    written so far and [Sum(nil)] digests it. *)
Definition hash_New : string := "".
Definition hash_Write (h data : string) : string := h +:+ data.
Definition hash_Sum (h : string) : string := sha256_Sum h.

Definition hex_digit (n : N) : ascii :=
  match n with
  | 0%N => "0" | 1%N => "1" | 2%N => "2" | 3%N => "3" | 4%N => "4" | 5%N => "5"
  | 6%N => "6" | 7%N => "7" | 8%N => "8" | 9%N => "9" | 10%N => "a" | 11%N => "b"
  | 12%N => "c" | 13%N => "d" | 14%N => "e" | _ => "f"
  end%char.

(** [hex.EncodeToString]: two lower-case digits per byte. *)
Fixpoint hex_EncodeToString (src : string) : string :=
  match src with
  | EmptyString => EmptyString
  | String c rest =>
      String (hex_digit (N.shiftr (N_of_ascii c) 4))
        (String (hex_digit (N.land (N_of_ascii c) 15)) (hex_EncodeToString rest))
  end.

(** ** Errors ([errors.go])

    An [error] is a sentinel of the package, a [fmt.Errorf] with its format
    and arguments kept apart (so no number has to be printed), or an error
    that the outside world reported. *)

Inductive error : Type :=
| errors_New (text : string)
| fmt_Errorf (format : string) (args : list fmt_arg)
| env_error (code : nat)
with fmt_arg : Type :=
| ArgString (s : string)
| ArgInt (n : Z)
| ArgError (e : error).

Definition ErrInvalidURL : error := errors_New "invalid URL".
Definition ErrFileNotFound : error := errors_New "file not found".
Definition ErrUnsupportedScheme : error := errors_New "unsupported URL scheme".
Definition ErrDownloadFailed : error := errors_New "download failed".
Definition ErrExtractionFailed : error := errors_New "extraction failed".
Definition ErrLockFailed : error := errors_New "failed to acquire file lock".

(** ** [util.go] *)

(** The fields of [url.URL] that the package reads. *)
Record url_URL : Type := { Scheme : string; Host : string; Path : string }.

Definition plain_scheme_byte (c : ascii) : bool :=
  let n := N_of_ascii c in
  ((97 <=? n) && (n <=? 122))%N || ((65 <=? n) && (n <=? 90))%N.

Definition plain_host_byte (c : ascii) : bool :=
  let n := N_of_ascii c in
  plain_scheme_byte c || ((48 <=? n) && (n <=? 57))%N || (n =? 45)%N || (n =? 46)%N.

Definition plain_path_byte (c : ascii) : bool :=
  let n := N_of_ascii c in
  plain_host_byte c || (n =? 47)%N || (n =? 95)%N || (n =? 126)%N.

Fixpoint all_bytes (p : ascii -> bool) (s : string) : bool :=
  match s with
  | EmptyString => true
  | String c s' => p c && all_bytes p s'
  end.

Definition lower_byte (c : ascii) : ascii :=
  let n := N_of_ascii c in
  if ((65 <=? n) && (n <=? 90))%N then ascii_of_N (n + 32) else c.

Fixpoint lower_ascii (s : string) : string :=
  match s with
  | EmptyString => EmptyString
  | String c s' => String (lower_byte c) (lower_ascii s')
  end.

(** [url.Parse] on plain absolute URLs [scheme://host/path]: letters in
    the scheme, letters, digits, [-] and [.] in the host, and those, [/],
    [_] and [~] in the path; neither escapes, user information, port, query
    nor fragment.  On these Go's parser returns the lower-cased scheme, the
    host and the path as they stand; every other text is declined here
    ([None]), so this instance says nothing about it. *)
Definition url_Parse_plain (rawURL : string) : option url_URL :=
  match cut_byte ":"%char rawURL with
  | Some (scheme, rest) =>
      if negb (all_bytes plain_scheme_byte scheme) || bool_decide (scheme = "")
         || negb (strings_HasPrefix rest "//") then None
      else
        let rest := match rest with String _ (String _ r) => r | _ => "" end in
        let '(host, path) :=
          match cut_byte "/"%char rest with
          | Some (h, p) => (h, String "/"%char p)
          | None => (rest, "")
          end in
        if all_bytes plain_host_byte host && all_bytes plain_path_byte path
        then Some {| Scheme := lower_ascii scheme; Host := host; Path := path |}
        else None
  | None => None
  end.

Section Util.

(** [url.Parse] of the standard library: [None] stands for its error (the
    returned [*URL] is then nil). *)
Variable url_Parse : string -> option url_URL.

(** [IsURL]. *)
Definition IsURL (path : string) : bool :=
  match url_Parse path with
  | None => false
  | Some u => negb (bool_decide (Scheme u = "")) && negb (bool_decide (Host u = ""))
  end.

(** [GetScheme]. *)
Definition GetScheme (urlStr : string) : string :=
  match url_Parse urlStr with
  | None => ""
  | Some u => Scheme u
  end.

(** [ResourceToFilename].  The error of [url.Parse] is dropped by the code
    and [u.Path] is read all the same: on a text that does not parse the
    nil dereference panics, which is the result [None]. *)
Definition ResourceToFilename (resourceURL etag : string) : option string :=
  let hash := hash_New in
  let hash := hash_Write hash resourceURL in
  let hash := if decide (etag <> "") then hash_Write hash etag else hash in
  let hashStr := hex_EncodeToString (hash_Sum hash) in
  match url_Parse resourceURL with
  | None => None
  | Some u =>
      let ext := filepath_Ext (Path u) in
      if decide (ext <> "") then Some (hashStr +:+ ext) else Some hashStr
  end.

End Util.

(** [ParseArchivePath]. *)
Definition ParseArchivePath (path : string) : string * string * bool :=
  let parts := strings_SplitN2 path "!"%char in
  match parts with
  | [archivePath; internalPath] => (archivePath, internalPath, true)
  | _ => (path, "", false)
  end.

(** [LockFilePath] and [MetaFilePath]. *)
Definition LockFilePath (cachePath : string) : string := cachePath +:+ ".lock".
Definition MetaFilePath (cachePath : string) : string := cachePath +:+ ".meta.json".

(** ** The outside world

    Headers are Go's [map[string]string]: an [option (gmap string string)],
    the nil map being [None]. *)

(** [http.Client] as far as the package configures it. *)
Record http_Transport : Type := {
  MaxIdleConns : Z; MaxIdleConnsPerHost : Z; IdleConnTimeout : Z
}.
Record http_Client : Type := {
  client_Timeout : Z;
  client_Transport : option http_Transport
}.

(** [&http.Client{}]. *)
Definition http_Client_zero : http_Client :=
  {| client_Timeout := 0; client_Transport := None |}.

Record http_Request : Type := {
  Method : string;
  URL : string;
  req_Header : gmap string string
}.

(** A response: its body is read in chunks and the read may end in an
    error (a connection that drops in the middle of a download). *)
Record http_Response : Type := {
  StatusCode : Z;
  Status : string;
  resp_Header : gmap string string;
  Body : list string;
  BodyErr : option error
}.

(** Calls on the file system. *)
Inductive FsOp : Type :=
| OpStat (path : string)
| OpReadFile (path : string)
| OpMkdirAll (path : string) (perm : Z)
| OpOpenFile (path : string) (flag : Z) (perm : Z)
| OpWrite (path : string) (data : string)
| OpClose (path : string)
| OpRemove (path : string)
| OpRename (oldpath newpath : string).

(** Everything the program does that the outside can see, in order. *)
Inductive Event : Type :=
| EvFs (op : FsOp)
| EvSleep (d : Z)
| EvDo (req : http_Request)
| EvCall (method : string) (url : string)
| EvProgressStart (total : Z) (description : string)
| EvProgressUpdate (written : Z)
| EvProgressFinish.

Inductive Node : Type :=
| Dir
| File (data : string) (perm : Z).

(** Files are named by the text of their path: links and the working
    directory are outside the model.  [past] keeps every earlier content
    of the file system, oldest first, so that what another process could
    have seen in between can be stated. *)
Record World : Type := {
  fs : gmap string Node;
  log : list Event;
  past : list (gmap string Node)
}.

(** What the outside answers, given everything that happened before:
    whether a file-system call fails for a reason of its own (permissions,
    a full disk), how many bytes a failing write still wrote, the random
    text [os.CreateTemp] puts into the [try]-th name it tries, and the
    result of [client.Do]. *)
Record Env : Type := {
  os_fault : list Event -> FsOp -> option error;
  os_short : list Event -> FsOp -> nat;
  os_random : list Event -> nat -> N;
  http_Do : http_Client -> list Event -> http_Request -> http_Response + error
}.

Definition emit (e : Event) (w : World) : World :=
  {| fs := fs w; log := log w ++ [e]; past := past w |}.

Definition set_fs (m : gmap string Node) (w : World) : World :=
  {| fs := m; log := log w; past := past w ++ [fs w] |}.

Definition ENOENT : error := errors_New "no such file or directory".
Definition EISDIR : error := errors_New "is a directory".
Definition ENOTDIR : error := errors_New "not a directory".
Definition EEXIST : error := errors_New "file exists".

(** A nil dereference panics.  The panic is carried where the error goes
    and every caller hands it on untouched. *)
Definition runtime_panic : error := errors_New "invalid memory address or nil pointer dereference".

Definition is_panic (e : error) : bool :=
  match e with
  | errors_New text => bool_decide (text = "invalid memory address or nil pointer dereference")
  | _ => false
  end.

(** Flags of [os.OpenFile] (Linux) and [fs.ModeDir]. *)
Definition O_WRONLY : Z := 1.
Definition O_RDWR : Z := 2.
Definition O_CREATE : Z := 64.
Definition O_EXCL : Z := 128.
Definition O_TRUNC : Z := 512.
Definition ModePerm : Z := 511.
Definition ModeDir : Z := 2147483648.

(** [strconv.Itoa] of a non-negative number. *)
Definition decimal (n : N) : string := NilEmpty.string_of_uint (N.to_uint n).

(** The path with its ancestors, innermost first, by repeated
    [filepath.Dir]. *)
Fixpoint ancestors (fuel : nat) (path : string) : list string :=
  match fuel with
  | O => [path]
  | S fuel' =>
      let parent := filepath_Dir path in
      if decide (parent = path) then [path] else path :: ancestors fuel' parent
  end.

Section OS.

Variable env : Env.

(** [os.Stat(path)], as far as its error goes. *)
Definition os_Stat (path : string) (w : World) : World * option error :=
  let w' := emit (EvFs (OpStat path)) w in
  match os_fault env (log w) (OpStat path) with
  | Some e => (w', Some e)
  | None =>
      match fs w !! path with
      | Some _ => (w', None)
      | None => (w', Some ENOENT)
      end
  end.

(** [FileExists] of [util.go]. *)
Definition FileExists (path : string) (w : World) : World * bool :=
  let '(w', err) := os_Stat path w in
  (w', match err with None => true | Some _ => false end).

(** [os.ReadFile(path)]; also [os.Open] followed by reading everything. *)
Definition os_ReadFile (path : string) (w : World) : World * (string * option error) :=
  let w' := emit (EvFs (OpReadFile path)) w in
  match os_fault env (log w) (OpReadFile path) with
  | Some e => (w', ("", Some e))
  | None =>
      match fs w !! path with
      | Some (File data _) => (w', (data, None))
      | Some Dir => (w', ("", Some EISDIR))
      | None => (w', ("", Some ENOENT))
      end
  end.

(** [os.MkdirAll(path, perm)]: fails on a file in the way, else makes what
    is missing of the directory and its ancestors.  The failure of the
    empty path is not built in: it is one of the failures that [os_fault]
    may report. *)
Definition os_MkdirAll (path : string) (perm : Z) (w : World) : World * option error :=
  let w' := emit (EvFs (OpMkdirAll path perm)) w in
  match os_fault env (log w) (OpMkdirAll path perm) with
  | Some e => (w', Some e)
  | None =>
      let dirs := ancestors (String.length path) path in
      if forallb (fun d => match fs w !! d with Some (File _ _) => false | _ => true end) dirs
      then (set_fs (fold_right (fun d m => <[d := Dir]> m) (fs w) dirs) w', None)
      else (w', Some ENOTDIR)
  end.

(** [EnsureDir] of [util.go]. *)
Definition EnsureDir (dir : string) (w : World) : World * option error :=
  os_MkdirAll dir 493 w.

(** [os.OpenFile(path, flag, perm)] for writing with [O_CREATE]: with
    [O_EXCL] the file must be new; with [O_TRUNC] an old file is emptied.
    The open file is named by its path from here on.  The parent
    directory is not looked up: that it is missing is one of the failures
    that [os_fault] may report. *)
Definition os_OpenFile (path : string) (flag perm : Z) (w : World) : World * option error :=
  let w' := emit (EvFs (OpOpenFile path flag perm)) w in
  match os_fault env (log w) (OpOpenFile path flag perm) with
  | Some e => (w', Some e)
  | None =>
      match fs w !! path with
      | Some node =>
          if Z.testbit flag 7 then (w', Some EEXIST)
          else match node with
               | Dir => (w', Some EISDIR)
               | File data old =>
                   if Z.testbit flag 9
                   then (set_fs (<[path := File "" old]> (fs w)) w', None)
                   else (w', None)
               end
      | None =>
          if Z.testbit flag 6 then (set_fs (<[path := File "" perm]> (fs w)) w', None)
          else (w', Some ENOENT)
      end
  end.

(** [os.Create(path)]. *)
Definition os_Create (path : string) (w : World) : World * option error :=
  os_OpenFile path (Z.lor O_RDWR (Z.lor O_CREATE O_TRUNC)) 438 w.

Definition append_data (path data : string) (m : gmap string Node) : gmap string Node :=
  match m !! path with
  | Some (File old perm) => <[path := File (old +:+ data) perm]> m
  | _ => m
  end.

Fixpoint string_take (n : nat) (s : string) : string :=
  match n, s with
  | S n', String c s' => String c (string_take n' s')
  | _, _ => EmptyString
  end.

(** [Write] of an [os.File] on the file opened at [path]: the number of
    bytes written and the error. *)
Definition file_Write (path data : string) (w : World) : World * (Z * option error) :=
  let w' := emit (EvFs (OpWrite path data)) w in
  match os_fault env (log w) (OpWrite path data) with
  | Some e =>
      let part := string_take (os_short env (log w) (OpWrite path data)) data in
      (set_fs (append_data path part (fs w)) w', (Z.of_nat (String.length part), Some e))
  | None =>
      (set_fs (append_data path data (fs w)) w', (Z.of_nat (String.length data), None))
  end.

(** [Close] of an [os.File]. *)
Definition file_Close (path : string) (w : World) : World * option error :=
  (emit (EvFs (OpClose path)) w, os_fault env (log w) (OpClose path)).

(** [os.Remove(path)]. *)
Definition os_Remove (path : string) (w : World) : World * option error :=
  let w' := emit (EvFs (OpRemove path)) w in
  match os_fault env (log w) (OpRemove path) with
  | Some e => (w', Some e)
  | None =>
      match fs w !! path with
      | Some _ => (set_fs (delete path (fs w)) w', None)
      | None => (w', Some ENOENT)
      end
  end.

(** [os.Rename(oldpath, newpath)]: the file appears under its new name
    whole, or not at all. *)
Definition os_Rename (oldpath newpath : string) (w : World) : World * option error :=
  let w' := emit (EvFs (OpRename oldpath newpath)) w in
  match os_fault env (log w) (OpRename oldpath newpath) with
  | Some e => (w', Some e)
  | None =>
      match fs w !! oldpath, fs w !! newpath with
      | None, _ => (w', Some ENOENT)
      | Some (File _ _), Some Dir => (w', Some EISDIR)
      | Some Dir, Some (File _ _) => (w', Some ENOTDIR)
      | Some node, _ => (set_fs (<[newpath := node]> (delete oldpath (fs w))) w', None)
      end
  end.

(** [os.CreateTemp(dir, pattern)]: the name is [dir], a separator, and the
    pattern with its last [*] replaced by a random number; a name that
    exists is tried again with another number, ten thousand times at most. *)
Definition temp_prefix (pattern : string) : string :=
  match through_last "*"%char pattern with
  | EmptyString => pattern
  | t => string_take (Nat.pred (String.length t)) t
  end.

Definition temp_suffix (pattern : string) : string :=
  match after_last "*"%char pattern with
  | Some t => t
  | None => ""
  end.

Fixpoint last_byte (s : string) : option ascii :=
  match s with
  | EmptyString => None
  | String c EmptyString => Some c
  | String _ s' => last_byte s'
  end.

Definition joinPath (dir base : string) : string :=
  match last_byte dir with
  | Some c => if Ascii.eqb c Separator then dir +:+ base else dir +:+ "/" +:+ base
  | None => dir +:+ "/" +:+ base
  end.

Definition is_exist (e : error) : bool :=
  match e with
  | errors_New text => bool_decide (text = "file exists")
  | _ => false
  end.

Fixpoint createTemp_try (fuel : nat) (try : nat) (dir pattern : string) (w : World)
  : World * (string * option error) :=
  match fuel with
  | O => (w, ("", Some EEXIST))
  | S fuel' =>
      let name :=
        joinPath dir (temp_prefix pattern) +:+ decimal (os_random env (log w) try)
        +:+ temp_suffix pattern in
      let '(w', err) := os_OpenFile name (Z.lor O_RDWR (Z.lor O_CREATE O_EXCL)) 384 w in
      match err with
      | None => (w', (name, None))
      | Some e =>
          if is_exist e then createTemp_try fuel' (S try) dir pattern w'
          else (w', ("", Some e))
      end
  end.

Definition os_CreateTemp (dir pattern : string) (w : World) : World * (string * option error) :=
  createTemp_try (Z.to_nat 10000) 0 dir pattern w.

End OS.

(** ** Package [net/http]: header keys, requests *)

Definition is_lower_byte (c : ascii) : bool :=
  let n := N_of_ascii c in ((97 <=? n) && (n <=? 122))%N.
Definition is_upper_byte (c : ascii) : bool :=
  let n := N_of_ascii c in ((65 <=? n) && (n <=? 90))%N.
Definition is_digit_byte (c : ascii) : bool :=
  let n := N_of_ascii c in ((48 <=? n) && (n <=? 57))%N.

(** The bytes of an HTTP token. *)
Definition validHeaderFieldByte (c : ascii) : bool :=
  is_lower_byte c || is_upper_byte c || is_digit_byte c
  || existsb (N.eqb (N_of_ascii c)) [33; 35; 36; 37; 38; 39; 42; 43; 45; 46; 94; 95; 96; 124; 126]%N.

Fixpoint canonical_case (upper : bool) (s : string) : string :=
  match s with
  | EmptyString => EmptyString
  | String c s' =>
      let c' :=
        if upper && is_lower_byte c then ascii_of_N (N_of_ascii c - 32)
        else if negb upper && is_upper_byte c then ascii_of_N (N_of_ascii c + 32)
        else c in
      String c' (canonical_case (Ascii.eqb c' "-"%char) s')
  end.

(** [textproto.CanonicalMIMEHeaderKey]: a key of token bytes gets an upper
    case letter first and after every dash and lower case elsewhere; any
    other key is left as it is. *)
Definition CanonicalMIMEHeaderKey (s : string) : string :=
  if all_bytes validHeaderFieldByte s then canonical_case true s else s.

(** [Header.Set] and [Header.Get]. *)
Definition Header_Set (h : gmap string string) (key value : string) : gmap string string :=
  <[CanonicalMIMEHeaderKey key := value]> h.
Definition Header_Get (h : gmap string string) (key : string) : string :=
  match h !! CanonicalMIMEHeaderKey key with
  | Some v => v
  | None => ""
  end.

(** [for key, value := range headers { req.Header.Set(key, value) }] and
    the default [User-Agent] after it, as the three requests of the client
    do.  Go ranges over a map in an order of its choice; [map_fold] takes
    one. *)
Definition apply_headers (headers : option (gmap string string)) (req : http_Request)
  : http_Request :=
  let h := map_fold (fun key value h => Header_Set h key value) (req_Header req)
             (match headers with Some m => m | None => ∅ end) in
  let h := if decide (Header_Get h "User-Agent" = "")
           then Header_Set h "User-Agent" "CachedPath-Go/1.0" else h in
  {| Method := Method req; URL := URL req; req_Header := h |}.

(** [strconv.ParseInt(s, 10, 64)]; [None] is its error. *)
Fixpoint parse_digits (acc : Z) (s : string) : option Z :=
  match s with
  | EmptyString => Some acc
  | String c s' =>
      if is_digit_byte c
      then parse_digits (acc * 10 + (Z.of_N (N_of_ascii c) - 48)) s'
      else None
  end.

Definition strconv_ParseInt (s : string) : option Z :=
  match s with
  | EmptyString => None
  | String c rest =>
      let '(neg, digits) :=
        if Ascii.eqb c "-"%char then (true, rest)
        else if Ascii.eqb c "+"%char then (false, rest)
        else (false, s) in
      match digits with
      | EmptyString => None
      | _ =>
          match parse_digits 0 digits with
          | None => None
          | Some un =>
              if neg then (if un <=? 2 ^ 63 then Some (- un) else None)
              else (if un <? 2 ^ 63 then Some un else None)
          end
      end
  end.

(** The product of two [int64] (a [time.Duration] by a count). *)
Definition wrap64 (z : Z) : Z := (z + 2 ^ 63) mod 2 ^ 64 - 2 ^ 63.
Definition duration_mul (d n : Z) : Z := wrap64 (d * n).

(** [io.Writer]: an object with its own state and a [Write] that returns
    the number of bytes written and the error. *)
Record io_Writer : Type := {
  w_state : Type;
  w_cur : w_state;
  w_write : w_state -> string -> World -> World * (w_state * (Z * option error))
}.

Definition io_ErrShortWrite : error := errors_New "short write".

(** [io.Copy(writer, body)]: chunk after chunk until the body ends, a
    write fails or falls short, or the read fails. *)
Fixpoint io_Copy {S : Type}
    (write : S -> string -> World -> World * (S * (Z * option error)))
    (st : S) (chunks : list string) (readErr : option error) (w : World)
  : World * option error :=
  match chunks with
  | [] => (w, readErr)
  | chunk :: rest =>
      if decide (chunk = "") then io_Copy write st rest readErr w
      else
        let '(w', (st', (n, err))) := write st chunk w in
        match err with
        | Some e => (w', Some e)
        | None =>
            if decide (n = Z.of_nat (String.length chunk))
            then io_Copy write st' rest readErr w'
            else (w', Some io_ErrShortWrite)
        end
  end.

(** ** [schemes/scheme.go] and [schemes/http.go] *)

(** The interface [SchemeClient]. *)
Record SchemeClient : Type := {
  GetResource : string -> io_Writer -> option (gmap string string) -> World -> World * option error;
  GetSize : string -> option (gmap string string) -> World -> World * (Z * option error);
  GetETag : string -> option (gmap string string) -> World -> World * (string * option error);
  SchemeOf : string
}.

(** The struct [HTTPClient] of package [schemes]. *)
Record schemes_HTTPClient : Type := {
  client : http_Client;
  maxRetries : Z;
  retryDelay : Z
}.

(** [NewHTTPClient]; durations are in nanoseconds. *)
Definition NewHTTPClient : schemes_HTTPClient :=
  {| client := {| client_Timeout := 30 * 1000000000;
                  client_Transport := Some {| MaxIdleConns := 100; MaxIdleConnsPerHost := 10;
                                              IdleConnTimeout := 90 * 1000000000 |} |};
     maxRetries := 3;
     retryDelay := 1 * 1000000000 |}.

(** [SetHTTPClient] and [SetRetryConfig]. *)
Definition SetHTTPClient (c : schemes_HTTPClient) (cl : option http_Client) : schemes_HTTPClient :=
  match cl with
  | Some cl' => {| client := cl'; maxRetries := maxRetries c; retryDelay := retryDelay c |}
  | None => c
  end.
Definition SetRetryConfig (c : schemes_HTTPClient) (maxRetries' retryDelay' : Z)
  : schemes_HTTPClient :=
  {| client := client c; maxRetries := maxRetries'; retryDelay := retryDelay' |}.

Definition StatusOK : Z := 200.

Section HTTP.

Variable env : Env.
Variable url_Parse : string -> option url_URL.

(** [http.NewRequest(method, url, nil)]: fails when the URL does not
    parse. *)
Definition http_NewRequest (method url : string) : http_Request + error :=
  match url_Parse url with
  | Some _ => inl {| Method := method; URL := url; req_Header := ∅ |}
  | None => inr (errors_New "net/url: invalid URL")
  end.

(** What [doRequestWithRetry] returns once its loop is over. *)
Definition after_attempts (c : schemes_HTTPClient)
    (resp : option http_Response) (err : option error)
  : option http_Response * option error :=
  match err with
  | Some e =>
      (None, Some (fmt_Errorf "failed after %d retries: %w" [ArgInt (maxRetries c); ArgError e]))
  | None => (resp, None)
  end.

(** The loop of [doRequestWithRetry] from [attempt] on; [resp] and [err]
    are the variables of that name.  Closing a body has no effect that the
    model sees. *)
Fixpoint attempts (fuel : nat) (c : schemes_HTTPClient) (req : http_Request) (attempt : Z)
    (resp : option http_Response) (err : option error) (w : World)
  : World * (option http_Response * option error) :=
  match fuel with
  | O => (w, after_attempts c resp err)
  | S fuel' =>
      if attempt <=? maxRetries c then
        let w1 := if 0 <? attempt
                  then emit (EvSleep (duration_mul (retryDelay c) attempt)) w else w in
        let w2 := emit (EvDo req) w1 in
        match http_Do env (client c) (log w1) req with
        | inl r =>
            if StatusCode r =? StatusOK then (w2, (Some r, None))
            else if (400 <=? StatusCode r) && (StatusCode r <? 500) then (w2, (Some r, None))
            else if attempt =? maxRetries c then (w2, after_attempts c (Some r) None)
            else attempts fuel' c req (attempt + 1) (Some r) None w2
        | inr e =>
            if attempt =? maxRetries c then (w2, after_attempts c None (Some e))
            else attempts fuel' c req (attempt + 1) None (Some e) w2
        end
      else (w, after_attempts c resp err)
  end.

(** [doRequestWithRetry]. *)
Definition doRequestWithRetry (c : schemes_HTTPClient) (req : http_Request) (w : World)
  : World * (option http_Response * option error) :=
  attempts (Z.to_nat (maxRetries c + 1)) c req 0 None None w.

(** [GetResource] of the HTTP client. *)
Definition HTTP_GetResource (c : schemes_HTTPClient) (url : string) (writer : io_Writer)
    (headers : option (gmap string string)) (w : World) : World * option error :=
  match http_NewRequest "GET" url with
  | inr e => (w, Some (fmt_Errorf "failed to create request: %w" [ArgError e]))
  | inl req =>
      let req := apply_headers headers req in
      let '(w, (resp, err)) := doRequestWithRetry c req w in
      match err, resp with
      | Some e, _ => (w, Some (fmt_Errorf "failed to download: %w" [ArgError e]))
      | None, None => (w, Some runtime_panic)
      | None, Some r =>
          if negb (StatusCode r =? StatusOK) then
            (w, Some (fmt_Errorf "download failed with status: %d %s"
                        [ArgInt (StatusCode r); ArgString (Status r)]))
          else
            let '(w, err) := io_Copy (w_write writer) (w_cur writer) (Body r) (BodyErr r) w in
            match err with
            | Some e => (w, Some (fmt_Errorf "failed to write response: %w" [ArgError e]))
            | None => (w, None)
            end
      end
  end.

(** [GetSize] of the HTTP client. *)
Definition HTTP_GetSize (c : schemes_HTTPClient) (url : string)
    (headers : option (gmap string string)) (w : World) : World * (Z * option error) :=
  match http_NewRequest "HEAD" url with
  | inr e => (w, (0, Some (fmt_Errorf "failed to create request: %w" [ArgError e])))
  | inl req =>
      let req := apply_headers headers req in
      let '(w, (resp, err)) := doRequestWithRetry c req w in
      match err, resp with
      | Some e, _ => (w, (0, Some (fmt_Errorf "failed to get size: %w" [ArgError e])))
      | None, None => (w, (0, Some runtime_panic))
      | None, Some r =>
          if negb (StatusCode r =? StatusOK) then
            (w, (0, Some (fmt_Errorf "HEAD request failed with status: %d %s"
                            [ArgInt (StatusCode r); ArgString (Status r)])))
          else
            let contentLength := Header_Get (resp_Header r) "Content-Length" in
            if decide (contentLength = "") then (w, (0, None))
            else
              match strconv_ParseInt contentLength with
              | None =>
                  (w, (0, Some (fmt_Errorf "failed to parse content length: %w"
                                  [ArgError (errors_New "strconv.ParseInt")])))
              | Some size => (w, (size, None))
              end
      end
  end.

(** [GetETag] of the HTTP client. *)
Definition HTTP_GetETag (c : schemes_HTTPClient) (url : string)
    (headers : option (gmap string string)) (w : World) : World * (string * option error) :=
  match http_NewRequest "HEAD" url with
  | inr e => (w, ("", Some (fmt_Errorf "failed to create request: %w" [ArgError e])))
  | inl req =>
      let req := apply_headers headers req in
      let '(w, (resp, err)) := doRequestWithRetry c req w in
      match err, resp with
      | Some e, _ => (w, ("", Some (fmt_Errorf "failed to get ETag: %w" [ArgError e])))
      | None, None => (w, ("", Some runtime_panic))
      | None, Some r =>
          if negb (StatusCode r =? StatusOK) then
            (w, ("", Some (fmt_Errorf "HEAD request failed with status: %d %s"
                             [ArgInt (StatusCode r); ArgString (Status r)])))
          else
            let etag := Header_Get (resp_Header r) "ETag" in
            let etag := if decide (etag = "")
                        then Header_Get (resp_Header r) "Last-Modified" else etag in
            (w, (etag, None))
      end
  end.

(** The HTTP client as a [SchemeClient]; its [Scheme()] is ["http"]. *)
Definition HTTPClient_SchemeClient (c : schemes_HTTPClient) : SchemeClient :=
  {| GetResource := HTTP_GetResource c;
     GetSize := HTTP_GetSize c;
     GetETag := HTTP_GetETag c;
     SchemeOf := "http" |}.

End HTTP.

(** ** [options.go] *)

(** A [ProgressDisplay] only receives calls; which one it is does not
    matter to the model. *)
Inductive ProgressDisplay : Type :=
| SimpleProgress (quiet : bool)
| CustomProgress (id : nat).

Record Options : Type := {
  CacheDir : string;
  Options_ExtractArchive : bool;
  ForceExtract : bool;
  Quiet : bool;
  Progress : option ProgressDisplay;
  Headers : option (gmap string string);
  HTTPClient : option http_Client;
  Timeout : Z;
  MaxRetries : Z;
  RetryDelay : Z
}.

(** An [Option] modifies the [Options] it is applied to. *)
Definition Option_ : Type := Options -> Options.

Definition set_Headers (h : option (gmap string string)) (o : Options) : Options :=
  {| CacheDir := CacheDir o; Options_ExtractArchive := Options_ExtractArchive o; ForceExtract := ForceExtract o;
     Quiet := Quiet o; Progress := Progress o; Headers := h; HTTPClient := HTTPClient o;
     Timeout := Timeout o; MaxRetries := MaxRetries o; RetryDelay := RetryDelay o |}.

Definition set_HTTPClient (c : option http_Client) (o : Options) : Options :=
  {| CacheDir := CacheDir o; Options_ExtractArchive := Options_ExtractArchive o; ForceExtract := ForceExtract o;
     Quiet := Quiet o; Progress := Progress o; Headers := Headers o; HTTPClient := c;
     Timeout := Timeout o; MaxRetries := MaxRetries o; RetryDelay := RetryDelay o |}.

(** [o.Headers[key] = value] after [if o.Headers == nil { make }]. *)
Definition put_header (key value : string) (o : Options) : Options :=
  let h := match Headers o with Some m => m | None => ∅ end in
  set_Headers (Some (<[key := value]> h)) o.

(** [WithHeaders] and [WithHeader]. *)
Definition WithHeaders (headers : option (gmap string string)) : Option_ :=
  fun o => set_Headers headers o.
Definition WithHeader (key value : string) : Option_ :=
  fun o => put_header key value o.

(** [WithHTTPClient]. *)
Definition WithHTTPClient (c : option http_Client) : Option_ :=
  fun o => set_HTTPClient c o.

(** [WithMaxRetries] and [WithRetryDelay]. *)
Definition WithMaxRetries (n : Z) : Option_ :=
  fun o =>
  {| CacheDir := CacheDir o; Options_ExtractArchive := Options_ExtractArchive o; ForceExtract := ForceExtract o;
     Quiet := Quiet o; Progress := Progress o; Headers := Headers o; HTTPClient := HTTPClient o;
     Timeout := Timeout o; MaxRetries := n; RetryDelay := RetryDelay o |}.
Definition WithRetryDelay (delay : Z) : Option_ :=
  fun o =>
  {| CacheDir := CacheDir o; Options_ExtractArchive := Options_ExtractArchive o; ForceExtract := ForceExtract o;
     Quiet := Quiet o; Progress := Progress o; Headers := Headers o; HTTPClient := HTTPClient o;
     Timeout := Timeout o; MaxRetries := MaxRetries o; RetryDelay := delay |}.

(** [WithAuth]: a bearer token in the [Authorization] header. *)
Definition WithAuth (token : string) : Option_ :=
  fun o => put_header "Authorization" ("Bearer " +:+ token) o.

(** [WithBasicAuth]: the body makes the client and the header map
    non-nil and does nothing else; neither argument is read. *)
Definition WithBasicAuth (username password : string) : Option_ :=
  fun o =>
    let o := match HTTPClient o with
             | None => set_HTTPClient (Some http_Client_zero) o
             | Some _ => o
             end in
    match Headers o with
    | None => set_Headers (Some ∅) o
    | Some _ => o
    end.

(** [WithUserAgent]. *)
Definition WithUserAgent (userAgent : string) : Option_ :=
  fun o => put_header "User-Agent" userAgent o.

(** [getHTTPClient]. *)
Definition getHTTPClient (o : Options) : http_Client :=
  match HTTPClient o with
  | Some c => c
  | None =>
      {| client_Timeout := Timeout o;
         client_Transport := Some {| MaxIdleConns := 100; MaxIdleConnsPerHost := 10;
                                     IdleConnTimeout := 90 * 1000000000 |} |}
  end.

(** The HTTP client as [handleRemoteURL] configures it from the options. *)
Definition configured_client (o : Options) : schemes_HTTPClient :=
  SetRetryConfig (SetHTTPClient NewHTTPClient (Some (getHTTPClient o)))
    (MaxRetries o) (RetryDelay o).

(** ** [meta.go] *)

Record Meta : Type := {
  meta_URL : string;
  ETag : string;
  CachedPath_ : string;
  CreatedAt : Z
}.

(** ** [cachedpath.go]: the freshness check and the download *)

Section Cache.

Variable env : Env.

(** [json.Unmarshal] into a [Meta]; [None] is its error. *)
Variable json_Unmarshal : string -> option Meta.

(** [LoadMetaFromFile]. *)
Definition LoadMetaFromFile (path : string) (w : World) : World * (option Meta * option error) :=
  let '(w, (data, err)) := os_ReadFile env path w in
  match err with
  | Some e => (w, (None, Some e))
  | None =>
      match json_Unmarshal data with
      | None => (w, (None, Some (errors_New "json: cannot unmarshal")))
      | Some meta => (w, (Some meta, None))
      end
  end.

(** [ProgressWriter]: [Write] passes the bytes on to the file and reports
    the running total. *)
Definition ProgressWriter (path : string) : io_Writer :=
  {| w_state := Z;
     w_cur := 0;
     w_write := fun written p w =>
       let '(w, (n, err)) := file_Write env path p w in
       if 0 <? n
       then (emit (EvProgressUpdate (written + n)) w, (written + n, (n, err)))
       else (w, (written, (n, err))) |}.

(** The deferred calls of [downloadFile], last one first. *)
Definition downloadFile_deferred (tmpPath : string) (w : World) : World :=
  let w := emit EvProgressFinish w in
  fst (os_Remove env tmpPath w).

(** Whether an error is a panic on its way up. *)
Definition panicked (err : option error) : bool :=
  match err with
  | Some e => is_panic e
  | None => false
  end.

(** [downloadFile].  A call of a method of the client is marked in the
    log before the method runs. *)
Definition downloadFile (client : SchemeClient) (url destPath : string) (opts : Options)
    (w : World) : World * option error :=
  let '(w, (size, err)) := GetSize client url (Headers opts) (emit (EvCall "GetSize" url) w) in
  if panicked err then (w, err) else
  let size := match err with Some _ => 0 | None => size end in
  let '(w, (tmpPath, err)) := os_CreateTemp env (filepath_Dir destPath) ".download-*" w in
  match err with
  | Some e => (w, Some (fmt_Errorf "failed to create temp file: %w" [ArgError e]))
  | None =>
      let w := emit (EvProgressStart size url) w in
      let '(w, err) := GetResource client url (ProgressWriter tmpPath) (Headers opts)
                         (emit (EvCall "GetResource" url) w) in
      if panicked err then (downloadFile_deferred tmpPath w, err) else
      let '(w, _) := file_Close env tmpPath w in
      match err with
      | Some e =>
          (downloadFile_deferred tmpPath w,
           Some (fmt_Errorf "%w: %v" [ArgError ErrDownloadFailed; ArgError e]))
      | None =>
          let '(w, err) := os_Rename env tmpPath destPath w in
          match err with
          | Some e =>
              (downloadFile_deferred tmpPath w,
               Some (fmt_Errorf "failed to move downloaded file: %w" [ArgError e]))
          | None => (downloadFile_deferred tmpPath w, None)
          end
      end
  end.

(** The function that [handleRemoteURL] runs under the lock: the cache
    is up to date, or the file is downloaded. *)
Definition handleRemoteURL_locked (client : SchemeClient) (url cachePath etag : string)
    (opts : Options) (w : World) : World * option error :=
  let '(w, inCache) := FileExists env cachePath w in
  let '(w, upToDate) :=
    if inCache then
      let metaPath := MetaFilePath cachePath in
      let '(w, hasMeta) := FileExists env metaPath w in
      if hasMeta then
        let '(w, (meta, err)) := LoadMetaFromFile metaPath w in
        match err, meta with
        | None, Some m => (w, bool_decide (ETag m = etag))
        | _, _ => (w, false)
        end
      else (w, false)
    else (w, false) in
  if upToDate then (w, None)
  else downloadFile client url cachePath opts w.

End Cache.

(** ** [archive.go] *)

(** An entry of a ZIP archive ([zip.File]): its stored name, its mode,
    and what opening and reading it gives. *)
Record zip_File : Type := {
  zf_Name : string;
  zf_Mode : Z;
  zf_OpenErr : option error;
  zf_Data : list string;
  zf_ReadErr : option error
}.

(** [f.FileInfo().IsDir()]. *)
Definition zf_IsDir (f : zip_File) : bool := Z.testbit (zf_Mode f) 31.

(** What [tr.Next()] gives: a header with its content, or an error; the
    end of the list is [io.EOF]. *)
Record tar_Header : Type := { th_Name : string; th_Typeflag : ascii }.
Inductive tar_Item : Type :=
| TarEntry (header : tar_Header) (data : list string) (readErr : option error)
| TarError (e : error).

Definition tar_TypeReg : ascii := "0"%char.
Definition tar_TypeDir : ascii := "5"%char.

Section Archive.

Variable env : Env.

(** The decoders of [archive/zip] and of [compress/gzip] with
    [archive/tar], and [strings.ToLower]. *)
Variable zip_decode : string -> option (list zip_File).
Variable targz_decode : string -> option (list tar_Item).
Variable strings_ToLower : string -> string.

(** An [os.File] as an [io.Writer]. *)
Definition FileWriter (path : string) : io_Writer :=
  {| w_state := unit;
     w_cur := tt;
     w_write := fun _ p w => let '(w, r) := file_Write env path p w in (w, (tt, r)) |}.

Definition copy_to_file (path : string) (data : list string) (readErr : option error)
    (w : World) : World * option error :=
  io_Copy (w_write (FileWriter path)) (w_cur (FileWriter path)) data readErr w.

(** The check of both extractors:
    [strings.HasPrefix(filePath, filepath.Clean(destDir)+string(os.PathSeparator))]. *)
Definition within_dest (destDir filePath : string) : bool :=
  strings_HasPrefix filePath (filepath_Clean destDir +:+ "/").

(** [extractZipFile]. *)
Definition extractZipFile (f : zip_File) (destDir : string) (w : World) : World * option error :=
  let filePath := filepath_Join [destDir; zf_Name f] in
  if negb (within_dest destDir filePath)
  then (w, Some (fmt_Errorf "invalid file path: %s" [ArgString filePath]))
  else if zf_IsDir f then os_MkdirAll env filePath ModePerm w
  else
    let '(w, err) := os_MkdirAll env (filepath_Dir filePath) ModePerm w in
    match err with
    | Some e => (w, Some e)
    | None =>
        let '(w, err) :=
          os_OpenFile env filePath (Z.lor O_WRONLY (Z.lor O_CREATE O_TRUNC)) (zf_Mode f) w in
        match err with
        | Some e => (w, Some e)
        | None =>
            match zf_OpenErr f with
            | Some e => (fst (file_Close env filePath w), Some e)
            | None =>
                let '(w, err) := copy_to_file filePath (zf_Data f) (zf_ReadErr f) w in
                (fst (file_Close env filePath w), err)
            end
        end
    end.

(** The loop of [extractZip]. *)
Fixpoint extractZip_files (files : list zip_File) (destDir : string) (w : World)
  : World * option error :=
  match files with
  | [] => (w, None)
  | f :: rest =>
      let '(w, err) := extractZipFile f destDir w in
      match err with
      | Some e => (w, Some e)
      | None => extractZip_files rest destDir w
      end
  end.

(** [zip.OpenReader]. *)
Definition zip_OpenReader (path : string) (w : World) : World * (list zip_File * option error) :=
  let '(w, (data, err)) := os_ReadFile env path w in
  match err with
  | Some e => (w, ([], Some e))
  | None =>
      match zip_decode data with
      | Some files => (w, (files, None))
      | None => (w, ([], Some (errors_New "zip: not a valid zip file")))
      end
  end.

(** [extractZip]. *)
Definition extractZip (zipPath destDir : string) (w : World) : World * option error :=
  let '(w, (files, err)) := zip_OpenReader zipPath w in
  match err with
  | Some e => (w, Some (fmt_Errorf "failed to open zip: %w" [ArgError e]))
  | None => extractZip_files files destDir w
  end.

(** The loop of [extractTarGz]. *)
Fixpoint extractTarGz_items (items : list tar_Item) (destDir : string) (w : World)
  : World * option error :=
  match items with
  | [] => (w, None)
  | TarError e :: _ => (w, Some (fmt_Errorf "failed to read tar: %w" [ArgError e]))
  | TarEntry header data readErr :: rest =>
      let target := filepath_Join [destDir; th_Name header] in
      if negb (within_dest destDir target)
      then (w, Some (fmt_Errorf "invalid file path: %s" [ArgString target]))
      else if Ascii.eqb (th_Typeflag header) tar_TypeDir then
        let '(w, err) := os_MkdirAll env target 493 w in
        match err with
        | Some e => (w, Some e)
        | None => extractTarGz_items rest destDir w
        end
      else if Ascii.eqb (th_Typeflag header) tar_TypeReg then
        let '(w, err) := os_MkdirAll env (filepath_Dir target) 493 w in
        match err with
        | Some e => (w, Some e)
        | None =>
            let '(w, err) := os_Create env target w in
            match err with
            | Some e => (w, Some e)
            | None =>
                let '(w, err) := copy_to_file target data readErr w in
                let w := fst (file_Close env target w) in
                match err with
                | Some e => (w, Some e)
                | None => extractTarGz_items rest destDir w
                end
            end
        end
      else extractTarGz_items rest destDir w
  end.

(** [os.Open] and [gzip.NewReader] of the two tar extractors: the error
    of the first is wrapped as a failure to open, that of the second as a
    failure to create the reader.  A directory at the path counts as a
    failure to open here, where Go opens it and fails in the reader. *)
Definition targz_open (path : string) (w : World) : World * (list tar_Item * option error) :=
  let '(w, (data, err)) := os_ReadFile env path w in
  match err with
  | Some e => (w, ([], Some (fmt_Errorf "failed to open tar.gz: %w" [ArgError e])))
  | None =>
      match targz_decode data with
      | Some items => (w, (items, None))
      | None =>
          (w, ([], Some (fmt_Errorf "failed to create gzip reader: %w"
                           [ArgError (errors_New "gzip: invalid header")])))
      end
  end.

(** [extractTarGz]. *)
Definition extractTarGz (tarGzPath destDir : string) (w : World) : World * option error :=
  let '(w, (items, err)) := targz_open tarGzPath w in
  match err with
  | Some e => (w, Some e)
  | None => extractTarGz_items items destDir w
  end.

(** [ExtractArchive]. *)
Definition ExtractArchive (archivePath destDir : string) (w : World) : World * option error :=
  let '(w, err) := EnsureDir env destDir w in
  match err with
  | Some e => (w, Some (fmt_Errorf "failed to create destination directory: %w" [ArgError e]))
  | None =>
      let ext := strings_ToLower (filepath_Ext archivePath) in
      if decide (ext = ".zip") then extractZip archivePath destDir w
      else if decide (ext = ".gz") then extractTarGz archivePath destDir w
      else if decide (ext = ".tgz") then extractTarGz archivePath destDir w
      else (w, Some (fmt_Errorf "unsupported archive format: %s" [ArgString ext]))
  end.

(** The loop of [extractSpecificFromZip]. *)
Fixpoint extractSpecificFromZip_files (files : list zip_File) (internalPath destDir : string)
    (w : World) : World * (string * option error) :=
  match files with
  | [] => (w, ("", Some (fmt_Errorf "file not found in archive: %s" [ArgString internalPath])))
  | f :: rest =>
      if decide (zf_Name f = internalPath) then
        let destPath := filepath_Join [destDir; filepath_Base internalPath] in
        let '(w, err) := os_MkdirAll env (filepath_Dir destPath) ModePerm w in
        match err with
        | Some e => (w, ("", Some e))
        | None =>
            let '(w, err) :=
              os_OpenFile env destPath (Z.lor O_WRONLY (Z.lor O_CREATE O_TRUNC)) (zf_Mode f) w in
            match err with
            | Some e => (w, ("", Some e))
            | None =>
                match zf_OpenErr f with
                | Some e => (fst (file_Close env destPath w), ("", Some e))
                | None =>
                    let '(w, err) := copy_to_file destPath (zf_Data f) (zf_ReadErr f) w in
                    let w := fst (file_Close env destPath w) in
                    match err with
                    | Some e => (w, ("", Some e))
                    | None => (w, (destPath, None))
                    end
                end
            end
        end
      else extractSpecificFromZip_files rest internalPath destDir w
  end.

(** [extractSpecificFromZip]. *)
Definition extractSpecificFromZip (zipPath internalPath destDir : string) (w : World)
  : World * (string * option error) :=
  let '(w, (files, err)) := zip_OpenReader zipPath w in
  match err with
  | Some e => (w, ("", Some (fmt_Errorf "failed to open zip: %w" [ArgError e])))
  | None => extractSpecificFromZip_files files internalPath destDir w
  end.

(** The loop of [extractSpecificFromTarGz]. *)
Fixpoint extractSpecificFromTarGz_items (items : list tar_Item) (internalPath destDir : string)
    (w : World) : World * (string * option error) :=
  match items with
  | [] => (w, ("", Some (fmt_Errorf "file not found in archive: %s" [ArgString internalPath])))
  | TarError e :: _ => (w, ("", Some (fmt_Errorf "failed to read tar: %w" [ArgError e])))
  | TarEntry header data readErr :: rest =>
      if bool_decide (th_Name header = internalPath) && Ascii.eqb (th_Typeflag header) tar_TypeReg
      then
        let destPath := filepath_Join [destDir; filepath_Base internalPath] in
        let '(w, err) := os_MkdirAll env (filepath_Dir destPath) 493 w in
        match err with
        | Some e => (w, ("", Some e))
        | None =>
            let '(w, err) := os_Create env destPath w in
            match err with
            | Some e => (w, ("", Some e))
            | None =>
                let '(w, err) := copy_to_file destPath data readErr w in
                let w := fst (file_Close env destPath w) in
                match err with
                | Some e => (w, ("", Some e))
                | None => (w, (destPath, None))
                end
            end
        end
      else extractSpecificFromTarGz_items rest internalPath destDir w
  end.

(** [extractSpecificFromTarGz]. *)
Definition extractSpecificFromTarGz (tarGzPath internalPath destDir : string) (w : World)
  : World * (string * option error) :=
  let '(w, (items, err)) := targz_open tarGzPath w in
  match err with
  | Some e => (w, ("", Some e))
  | None => extractSpecificFromTarGz_items items internalPath destDir w
  end.

(** [ExtractSpecificFile]. *)
Definition ExtractSpecificFile (archivePath internalPath destDir : string) (w : World)
  : World * (string * option error) :=
  let '(w, err) := EnsureDir env destDir w in
  match err with
  | Some e =>
      (w, ("", Some (fmt_Errorf "failed to create destination directory: %w" [ArgError e])))
  | None =>
      let ext := strings_ToLower (filepath_Ext archivePath) in
      if decide (ext = ".zip") then extractSpecificFromZip archivePath internalPath destDir w
      else if decide (ext = ".gz") then extractSpecificFromTarGz archivePath internalPath destDir w
      else if decide (ext = ".tgz") then extractSpecificFromTarGz archivePath internalPath destDir w
      else (w, ("", Some (fmt_Errorf "unsupported archive format: %s" [ArgString ext])))
  end.

End Archive.

(** ** Where a path leads

    The directory or file that a path names for a process whose working
    directory is [cwd], as the names from the root down.  Elements are
    taken one by one: [.] and the empty element change nothing, [..]
    drops the last name (at the root nothing), any other name is added.
    No links. *)

Definition resolve_step (st : list string) (elem : string) : list string :=
  if decide (elem = "") then st
  else if decide (elem = ".") then st
  else if decide (elem = "..") then tail st
  else elem :: st.

Definition resolve (cwd : list string) (path : string) : list string :=
  rev (fold_left resolve_step (split_sep Separator path)
         (if is_rooted path then [] else rev cwd)).

Fixpoint strip_prefix (pre l : list string) : option (list string) :=
  match pre, l with
  | [], _ => Some l
  | p :: pre', x :: l' => if decide (p = x) then strip_prefix pre' l' else None
  | _ :: _, [] => None
  end.

(** [path] lies inside the directory [dir], at any depth. *)
Definition inside (cwd : list string) (dir path : string) : bool :=
  match strip_prefix (resolve cwd dir) (resolve cwd path) with
  | Some (_ :: _) => true
  | _ => false
  end.

(** [path] is an entry of the directory [dir] itself. *)
Definition directly_inside (cwd : list string) (dir path : string) : bool :=
  match strip_prefix (resolve cwd dir) (resolve cwd path) with
  | Some [_] => true
  | _ => false
  end.

(** The file that an event creates, empties or writes to. *)
Definition written_path (e : Event) : option string :=
  match e with
  | EvFs (OpOpenFile path _ _) => Some path
  | EvFs (OpWrite path _) => Some path
  | _ => None
  end.

(** The events of [w'] that [w] does not have yet. *)
Definition new_events (w w' : World) : list Event :=
  skipn (List.length (log w)) (log w').

(** The sleeps among some events, and the time they take together (a
    sleep of a negative duration returns at once). *)
Definition sleeps (evs : list Event) : list Z :=
  omap (fun e => match e with EvSleep d => Some d | _ => None end) evs.
Definition total_wait (evs : list Event) : Z :=
  fold_right (fun d acc => Z.max 0 d + acc) 0 (sleeps evs).

(** The requests sent among some events. *)
Definition requests (evs : list Event) : list http_Request :=
  omap (fun e => match e with EvDo req => Some req | _ => None end) evs.

(** The methods of the client called among some events. *)
Definition client_calls (evs : list Event) : list string :=
  omap (fun e => match e with EvCall method _ => Some method | _ => None end) evs.

(** The requests of the methods of the HTTP client before the headers go
    in. *)
Definition bare_request (method url : string) : http_Request :=
  {| Method := method; URL := url; req_Header := ∅ |}.

(** ** Concrete surroundings for examples

    A server that answers the requests in the order of a script and then
    repeats its last answer; an operating system without failures of its
    own whose temporary names count up. *)

Definition response (code : Z) (headers : list (string * string)) (body : list string)
  : http_Response :=
  {| StatusCode := code; Status := ""; resp_Header := list_to_map headers;
     Body := body; BodyErr := None |}.

Definition scripted (script : list (http_Response + error)) (last : http_Response + error)
  : Env :=
  {| os_fault := fun _ _ => None;
     os_short := fun _ _ => O;
     os_random := fun _ try => N.of_nat try;
     http_Do := fun _ log _ => nth (List.length (requests log)) script last |}.

Definition empty_world : World := {| fs := ∅; log := []; past := [] |}.

Definition default_options : Options :=
  {| CacheDir := "/cache"; Options_ExtractArchive := false; ForceExtract := false;
     Quiet := false; Progress := None; Headers := Some ∅; HTTPClient := None;
     Timeout := 30 * 1000000000; MaxRetries := 3; RetryDelay := 1 * 1000000000 |}.

(** ** Notions that the statements and proofs about paths use *)

(** A text without separator. *)
Definition sep_free (s : string) : bool :=
  all_bytes (fun c => negb (Ascii.eqb c Separator)) s.

(** An element of a cleaned path: not empty and without separator. *)
Definition segment (e : string) : Prop := e <> "" /\ sep_free e = true.

(** A name proper: an element that is neither [.] nor [..]. *)
Definition proper_name (e : string) : Prop :=
  e <> "" /\ e <> "." /\ e <> ".." /\ sep_free e = true.

(** The stacks that [clean_stack] builds (innermost first): names proper
    on top of a run of [..]. *)
Inductive clean_shape : list string -> Prop :=
| shape_dotdots (k : nat) : clean_shape (repeat ".." k)
| shape_name (e : string) (st : list string) :
    proper_name e -> clean_shape st -> clean_shape (e :: st).

(** The client that the default options configure (three retries, one
    second), a request, and three servers: one that is unavailable twice
    and then answers, one that answers 204 and then 200, and one whose
    [Content-Length] is not a number. *)
Definition default_client : schemes_HTTPClient := configured_client default_options.
Definition get_request : http_Request :=
  apply_headers (Headers default_options) (bare_request "GET" "http://h/a").
Definition flaky_server : Env :=
  scripted [inl (response 503 [] []); inl (response 503 [] [])]
    (inl (response 200 [("Content-Length", "5")] ["he"; "llo"])).
Definition no_content_server : Env :=
  scripted [inl (response 204 [] [])] (inl (response 200 [] ["hello"])).
Definition odd_length_server : Env :=
  scripted [] (inl (response 200 [("Content-Length", "abc")] [])).
Definition head_request : http_Request :=
  apply_headers (Headers default_options) (bare_request "HEAD" "http://h/a").

(** The stack that [Clean] leaves for a path. *)
Definition stack_of (path : string) : list string :=
  clean_stack (is_rooted path) (split_sep Separator path) [].

(** Where resolving starts: at the root, or in the working directory. *)
Definition start_of (cwd : list string) (rooted : bool) : list string :=
  if rooted then [] else rev cwd.

(** [w'] is [w] after more events, all of which satisfy [P]. *)
Definition extends_with (P : Event -> Prop) (w w' : World) : Prop :=
  exists evs, log w' = log w ++ evs /\ Forall P evs.

(** An event that does not write to a file outside [destDir]. *)
Definition stays_inside (cwd : list string) (destDir : string) (e : Event) : Prop :=
  forall p, written_path e = Some p -> inside cwd destDir p = true.

(** An event that writes to no file but [target]. *)
Definition writes_only (target : string) (e : Event) : Prop :=
  forall p, written_path e = Some p -> p = target.

(** A plain file entry of a ZIP archive, mode [0644]. *)
Definition plain_entry (name : string) (data : list string) : zip_File :=
  {| zf_Name := name; zf_Mode := 420; zf_OpenErr := None; zf_Data := data; zf_ReadErr := None |}.

(** An operating system without failures of its own and no network. *)
Definition calm : Env := scripted [] (inr (env_error 0)).

(** An entry of a tar stream whose name leads outside [destDir]. *)
Definition tar_item_outside (cwd : list string) (destDir : string) (it : tar_Item) : Prop :=
  match it with
  | TarEntry header _ _ => inside cwd destDir (filepath_Join [destDir; th_Name header]) = false
  | TarError _ => False
  end.

(** [P] holds of the events that create or write to the file [path]. *)
Definition P_writes (P : Event -> Prop) (path : string) : Prop :=
  (forall flag perm, P (EvFs (OpOpenFile path flag perm)))
  /\ (forall data, P (EvFs (OpWrite path data))).

(** An archive [a.zip] with the one entry [a/..], in a world that holds
    the archive. *)
Definition dotdot_archive (data : string) : option (list zip_File) :=
  Some [plain_entry "a/.." ["x"]].
Definition world_with_archive : World :=
  {| fs := {[ "a.zip" := File "PK" 420 ]}; log := []; past := [] |}.

(** A text without the entry marker [!]. *)
Definition marker_free (s : string) : bool :=
  all_bytes (fun c => negb (Ascii.eqb c "!"%char)) s.

(** The value of a hexadecimal digit, and the byte of two digits. *)
Definition hex_value (c : ascii) : N :=
  let n := N_of_ascii c in
  if (n <? 58)%N then (n - 48)%N else (n - 87)%N.
Definition unhex_byte (hi lo : ascii) : ascii :=
  ascii_of_N (16 * hex_value hi + hex_value lo).

(** ** The retry policy, in the words of the specification

    An answer calls for another attempt when it is a transport error or a
    status that is neither 200 nor a 4xx. *)
Definition retryable (answer : http_Response + error) : bool :=
  match answer with
  | inr _ => true
  | inl r => negb (StatusCode r =? StatusOK)
             && negb ((400 <=? StatusCode r) && (StatusCode r <? 500))
  end.

(** What is returned for the answer that ends the attempts: the response
    as it is, or the error wrapped with the number of retries. *)
Definition last_result (c : schemes_HTTPClient) (answer : http_Response + error)
  : option http_Response * option error :=
  match answer with
  | inl r => (Some r, None)
  | inr e =>
      (None, Some (fmt_Errorf "failed after %d retries: %w" [ArgInt (maxRetries c); ArgError e]))
  end.

(** The wait before attempt number [attempt]: none before the first,
    then the base delay times the number of the attempt. *)
Definition backoff (c : schemes_HTTPClient) (attempt : Z) : list Event :=
  if 0 <? attempt then [EvSleep (duration_mul (retryDelay c) attempt)] else [].

(** [retry_run env c req attempt before evs result]: from attempt number
    [attempt] on, after the events [before], the transport produces the
    events [evs] and returns [result].  The attempt waits, sends the
    request and gets its answer; an answer that is not retryable (200: the
    success; 4xx: no retry) ends the run at once; a retryable answer ends
    it when the retry budget is used up, and else the next attempt
    follows. *)
Inductive retry_run (env : Env) (c : schemes_HTTPClient) (req : http_Request)
  : Z -> list Event -> list Event -> option http_Response * option error -> Prop :=
| run_final (attempt : Z) (before : list Event) (answer : http_Response + error) :
    answer = http_Do env (client c) (before ++ backoff c attempt) req ->
    retryable answer = false ->
    retry_run env c req attempt before (backoff c attempt ++ [EvDo req]) (last_result c answer)
| run_exhausted (attempt : Z) (before : list Event) (answer : http_Response + error) :
    answer = http_Do env (client c) (before ++ backoff c attempt) req ->
    retryable answer = true ->
    attempt = maxRetries c ->
    retry_run env c req attempt before (backoff c attempt ++ [EvDo req]) (last_result c answer)
| run_again (attempt : Z) (before : list Event) (answer : http_Response + error)
    (evs : list Event) (result : option http_Response * option error) :
    answer = http_Do env (client c) (before ++ backoff c attempt) req ->
    retryable answer = true ->
    attempt < maxRetries c ->
    retry_run env c req (attempt + 1) (before ++ backoff c attempt ++ [EvDo req]) evs result ->
    retry_run env c req attempt before (backoff c attempt ++ [EvDo req] ++ evs) result.

(** The events of [k] retries after a first attempt numbered [attempt]:
    each one a wait and a request. *)
Definition retries (c : schemes_HTTPClient) (req : http_Request) (attempt : Z) (k : nat)
  : list Event :=
  concat (map (fun i => [EvSleep (duration_mul (retryDelay c) (attempt + Z.of_nat i)); EvDo req])
            (seq 1 k)).

(** ** What can be seen at a path over time

    [holds_since dest Q w0 w]: in [w], and in every content that the file
    system went through since [w0], what is at [dest] satisfies [Q]. *)
Definition holds_since (dest : string) (Q : option Node -> Prop) (w0 w : World) : Prop :=
  Q (fs w !! dest)
  /\ exists snaps, past w = past w0 ++ snaps /\ Forall (fun m => Q (m !! dest)) snaps.

(** The cache file is there and its metadata record is there, can be
    read, and carries the revision token [etag]: the three probes of the
    resolver (two [os.Stat], one [os.ReadFile]) do not fail, the file
    system has something at the cache path and a file at the metadata path,
    and that file decodes to a record with that token. *)
Definition cache_is_fresh (env : Env) (json_Unmarshal : string -> option Meta)
    (cachePath etag : string) (w : World) : Prop :=
  os_fault env (log w) (OpStat cachePath) = None
  /\ is_Some (fs w !! cachePath)
  /\ os_fault env (log w ++ [EvFs (OpStat cachePath)]) (OpStat (MetaFilePath cachePath)) = None
  /\ os_fault env (log w ++ [EvFs (OpStat cachePath); EvFs (OpStat (MetaFilePath cachePath))])
       (OpReadFile (MetaFilePath cachePath)) = None
  /\ exists data perm meta,
       fs w !! MetaFilePath cachePath = Some (File data perm)
       /\ json_Unmarshal data = Some meta
       /\ ETag meta = etag.

(** The three probes of the freshness check. *)
Definition probe_events (cachePath : string) : list Event :=
  [EvFs (OpStat cachePath); EvFs (OpStat (MetaFilePath cachePath));
   EvFs (OpReadFile (MetaFilePath cachePath))].

(** All chunks of a body, one after the other. *)
Definition whole_body (chunks : list string) : string :=
  fold_right String.append "" chunks.

(** A temporary file next to [dest], named as [os.CreateTemp] names the
    files of [downloadFile]. *)
Definition temp_sibling (dest p : string) : Prop :=
  exists k : N,
    p = joinPath (filepath_Dir dest) (temp_prefix ".download-*") +:+ decimal k
        +:+ temp_suffix ".download-*".

(** A server that has nothing at any address, and the cache key of
    [http://h/a] without revision token. *)
Definition missing_server : Env := scripted [] (inl (response 404 [] [])).
Definition sample_key : string :=
  "c43fa283946b81455781ee66e2429e922951961b9f11ec301adaef81f333835e".

(** A cache that holds a file and its metadata record, whose text is the
    revision token, and a decoder for such records. *)
Definition cached_world : World :=
  {| fs := {[ "/cache/k" := File "hello" 384; "/cache/k.meta.json" := File "v1" 420 ]};
     log := []; past := [] |}.
Definition token_record (data : string) : option Meta :=
  Some {| meta_URL := "http://h/a"; ETag := data; CachedPath_ := "/cache/k"; CreatedAt := 0 |}.

(** ** More of the package

    The remaining options, [IsArchive], the default cache directory, the
    registry of scheme clients, the file lock, the metadata record on
    disk, and the resolution itself. *)

(** [strings.HasSuffix]. *)
Fixpoint string_drop (n : nat) (s : string) : string :=
  match n, s with
  | S n', String _ s' => string_drop n' s'
  | _, _ => s
  end.
Definition strings_HasSuffix (s suffix : string) : bool :=
  (String.length suffix <=? String.length s)%nat
  && bool_decide (string_drop (String.length s - String.length suffix) s = suffix).

(** [IsArchive] of [archive.go]. *)
Definition IsArchive (strings_ToLower : string -> string) (path : string) : bool :=
  let ext := strings_ToLower (filepath_Ext path) in
  if decide (ext = ".zip") then true
  else if bool_decide (ext = ".gz") && strings_HasSuffix (strings_ToLower path) ".tar.gz"
  then true
  else if decide (ext = ".tgz") then true
  else false.

(** The options of [options.go] that set one field. *)
Definition WithCacheDir (dir : string) : Option_ :=
  fun o =>
  {| CacheDir := dir; Options_ExtractArchive := Options_ExtractArchive o;
     ForceExtract := ForceExtract o; Quiet := Quiet o; Progress := Progress o;
     Headers := Headers o; HTTPClient := HTTPClient o;
     Timeout := Timeout o; MaxRetries := MaxRetries o; RetryDelay := RetryDelay o |}.
Definition WithExtractArchive (extract : bool) : Option_ :=
  fun o =>
  {| CacheDir := CacheDir o; Options_ExtractArchive := extract;
     ForceExtract := ForceExtract o; Quiet := Quiet o; Progress := Progress o;
     Headers := Headers o; HTTPClient := HTTPClient o;
     Timeout := Timeout o; MaxRetries := MaxRetries o; RetryDelay := RetryDelay o |}.
Definition WithForceExtract (force : bool) : Option_ :=
  fun o =>
  {| CacheDir := CacheDir o; Options_ExtractArchive := Options_ExtractArchive o;
     ForceExtract := force; Quiet := Quiet o; Progress := Progress o;
     Headers := Headers o; HTTPClient := HTTPClient o;
     Timeout := Timeout o; MaxRetries := MaxRetries o; RetryDelay := RetryDelay o |}.
Definition WithQuiet (quiet : bool) : Option_ :=
  fun o =>
  {| CacheDir := CacheDir o; Options_ExtractArchive := Options_ExtractArchive o;
     ForceExtract := ForceExtract o; Quiet := quiet; Progress := Progress o;
     Headers := Headers o; HTTPClient := HTTPClient o;
     Timeout := Timeout o; MaxRetries := MaxRetries o; RetryDelay := RetryDelay o |}.
Definition WithProgress (progress : option ProgressDisplay) : Option_ :=
  fun o =>
  {| CacheDir := CacheDir o; Options_ExtractArchive := Options_ExtractArchive o;
     ForceExtract := ForceExtract o; Quiet := Quiet o; Progress := progress;
     Headers := Headers o; HTTPClient := HTTPClient o;
     Timeout := Timeout o; MaxRetries := MaxRetries o; RetryDelay := RetryDelay o |}.
Definition WithTimeout (timeout : Z) : Option_ :=
  fun o =>
  {| CacheDir := CacheDir o; Options_ExtractArchive := Options_ExtractArchive o;
     ForceExtract := ForceExtract o; Quiet := Quiet o; Progress := Progress o;
     Headers := Headers o; HTTPClient := HTTPClient o;
     Timeout := timeout; MaxRetries := MaxRetries o; RetryDelay := RetryDelay o |}.

(** [GetDefaultCacheDir] of [util.go] and [defaultOptions]: the process
    environment and the home directory are given from outside. *)
Section Defaults.

Variable os_Getenv : string -> string.
Variable os_UserHomeDir : string + error.

Definition GetDefaultCacheDir : string * option error :=
  let dir := os_Getenv "CACHED_PATH_CACHE_ROOT" in
  if decide (dir <> "") then (dir, None)
  else
    match os_UserHomeDir with
    | inr e => ("", Some (fmt_Errorf "failed to get user home directory: %w" [ArgError e]))
    | inl home => (filepath_Join [home; ".cache"; "cached_path"], None)
    end.

Definition defaultOptions : Options :=
  let '(cacheDir, _) := GetDefaultCacheDir in
  {| CacheDir := cacheDir; Options_ExtractArchive := false; ForceExtract := false;
     Quiet := false; Progress := None; Headers := Some ∅; HTTPClient := None;
     Timeout := 30 * 1000000000; MaxRetries := 3; RetryDelay := 1 * 1000000000 |}.

End Defaults.

(** ** [schemes/scheme.go]: the registry

    A registered client is the HTTP client, whose settings
    [handleRemoteURL] changes in place, or any other implementation of the
    interface. *)
Inductive client_value : Type :=
| HTTPClient_value (c : schemes_HTTPClient)
| other_value (sc : SchemeClient).

Definition client_Scheme (v : client_value) : string :=
  match v with
  | HTTPClient_value _ => "http"
  | other_value sc => SchemeOf sc
  end.

(** [Register], [GetClient] and [GetSupportedSchemes] on the registry,
    which is a variable of the package; [init] registers the HTTP client.
    Go ranges over a map in an order of its choice; [map_to_list] takes
    one. *)
Definition schemes_Register (client : client_value) (registry : gmap string client_value)
  : gmap string client_value :=
  <[client_Scheme client := client]> registry.

Definition schemes_GetClient (scheme : string) (registry : gmap string client_value)
  : option client_value * bool :=
  match registry !! scheme with
  | Some client => (Some client, true)
  | None => (None, false)
  end.

Definition schemes_GetSupportedSchemes (registry : gmap string client_value) : list string :=
  map fst (map_to_list registry).

Definition schemes_init : gmap string client_value :=
  schemes_Register (HTTPClient_value NewHTTPClient) ∅.

(** ** The file lock ([FileLock], [WithLock]) *)

Record FileLock : Type := { fl_path : string; fl_file : option string }.

Definition NewFileLock (path : string) : FileLock := {| fl_path := path; fl_file := None |}.

Definition LOCK_EX : Z := 2.
Definition LOCK_NB : Z := 4.
Definition LOCK_UN : Z := 8.
Definition EWOULDBLOCK : error := errors_New "resource temporarily unavailable".
Definition is_EWOULDBLOCK (e : error) : bool :=
  match e with
  | errors_New text => bool_decide (text = "resource temporarily unavailable")
  | _ => false
  end.

Section Lock.

Variable env : Env.

(** [syscall.Flock] on the file opened at a path: what it answers depends
    on what other processes hold, which is given from outside. *)
Variable syscall_Flock : list Event -> string -> Z -> option error.

(** The loop of [Lock], [remaining] tries from its end. *)
Fixpoint Lock_tries (remaining : nat) (path : string) (w : World) : World * option error :=
  match remaining with
  | O => (fst (file_Close env path w), Some ErrLockFailed)
  | S remaining' =>
      match syscall_Flock (log w) path (Z.lor LOCK_EX LOCK_NB) with
      | None => (w, None)
      | Some e =>
          if is_EWOULDBLOCK e
          then Lock_tries remaining' path (emit (EvSleep (1 * 1000000000)) w)
          else (fst (file_Close env path w), Some e)
      end
  end.

(** [Lock]: the lock with its [file] field as the call leaves it, and the
    error. *)
Definition FileLock_Lock (fl : FileLock) (w : World) : World * (FileLock * option error) :=
  let '(w, err) := os_OpenFile env (fl_path fl) (Z.lor O_CREATE O_RDWR) 420 w in
  match err with
  | Some e => (w, (fl, Some e))
  | None =>
      let fl := {| fl_path := fl_path fl; fl_file := Some (fl_path fl) |} in
      let '(w, err) := Lock_tries 60 (fl_path fl) w in
      (w, (fl, err))
  end.

(** [Unlock]. *)
Definition FileLock_Unlock (fl : FileLock) (w : World) : World * option error :=
  match fl_file fl with
  | None => (w, None)
  | Some file =>
      match syscall_Flock (log w) file LOCK_UN with
      | Some e => (fst (file_Close env file w), Some e)
      | None => file_Close env file w
      end
  end.

(** [WithLock]: the deferred [Unlock] runs after [fn], and what it returns
    is dropped. *)
Definition WithLock (lockPath : string) (fn : World -> World * option error) (w : World)
  : World * option error :=
  let lock := NewFileLock lockPath in
  let '(w, (lock, err)) := FileLock_Lock lock w in
  match err with
  | Some e => (w, Some e)
  | None =>
      let '(w, err) := fn w in
      (fst (FileLock_Unlock lock w), err)
  end.

End Lock.

(** ** [meta.go]: the record on disk *)

Section MetaFile.

Variable env : Env.

(** [json.MarshalIndent] on a [Meta] and [time.Now]. *)
Variable json_MarshalIndent : Meta -> string + error.
Variable time_Now : list Event -> Z.

(** [os.WriteFile(name, data, perm)]. *)
Definition os_WriteFile (name data : string) (perm : Z) (w : World) : World * option error :=
  let '(w, err) := os_OpenFile env name (Z.lor O_WRONLY (Z.lor O_CREATE O_TRUNC)) perm w in
  match err with
  | Some e => (w, Some e)
  | None =>
      let '(w, (_, err)) := file_Write env name data w in
      let '(w, err1) := file_Close env name w in
      (w, match err with Some e => Some e | None => err1 end)
  end.

(** [NewMeta] and [SaveToFile]. *)
Definition NewMeta (url cachedPath etag : string) (w : World) : Meta :=
  {| meta_URL := url; ETag := etag; CachedPath_ := cachedPath; CreatedAt := time_Now (log w) |}.

Definition Meta_SaveToFile (m : Meta) (path : string) (w : World) : World * option error :=
  match json_MarshalIndent m with
  | inr e => (w, Some e)
  | inl data => os_WriteFile path data 420 w
  end.

End MetaFile.

(** ** [cachedpath.go]: the resolution *)

Section Resolution.

Variable env : Env.
Variable url_Parse : string -> option url_URL.
Variable json_Unmarshal : string -> option Meta.
Variable json_MarshalIndent : Meta -> string + error.
Variable time_Now : list Event -> Z.
Variable syscall_Flock : list Event -> string -> Z -> option error.
Variable zip_decode : string -> option (list zip_File).
Variable targz_decode : string -> option (list tar_Item).
Variable strings_ToLower : string -> string.
Variable os_Getenv : string -> string.
Variable os_UserHomeDir : string + error.

(** [handleLocalPath]. *)
Definition handleLocalPath (path internalPath : string) (hasInternalPath : bool)
    (opts : Options) (w : World) : World * (string * option error) :=
  let '(w, found) := FileExists env path w in
  if negb found
  then (w, ("", Some (fmt_Errorf "%w: %s" [ArgError ErrFileNotFound; ArgString path])))
  else if hasInternalPath then
    if negb (IsArchive strings_ToLower path)
    then (w, ("", Some (fmt_Errorf "file is not an archive: %s" [ArgString path])))
    else
      let extractDir := filepath_Join [CacheDir opts; "extracted"; filepath_Base path] in
      let '(w, (extractedPath, err)) :=
        ExtractSpecificFile env zip_decode targz_decode strings_ToLower
          path internalPath extractDir w in
      match err with
      | Some e =>
          (w, ("", Some (fmt_Errorf "%w: %v" [ArgError ErrExtractionFailed; ArgError e])))
      | None => (w, (extractedPath, None))
      end
  else if Options_ExtractArchive opts && IsArchive strings_ToLower path then
    let extractDir := filepath_Join [CacheDir opts; "extracted"; filepath_Base path] in
    let '(w, extracted) :=
      if negb (ForceExtract opts) then FileExists env extractDir w else (w, false) in
    if extracted then (w, (extractDir, None))
    else
      let '(w, err) :=
        ExtractArchive env zip_decode targz_decode strings_ToLower path extractDir w in
      match err with
      | Some e =>
          (w, ("", Some (fmt_Errorf "%w: %v" [ArgError ErrExtractionFailed; ArgError e])))
      | None => (w, (extractDir, None))
      end
  else (w, (path, None)).

(** A registered client as the interface value that the handler calls. *)
Definition as_SchemeClient (v : client_value) : SchemeClient :=
  match v with
  | HTTPClient_value c => HTTPClient_SchemeClient env url_Parse c
  | other_value sc => sc
  end.

(** [handleRemoteURL].  The registry is a variable of package [schemes]
    and the HTTP client in it is configured in place, so the registry
    comes back with the result.  The warning about metadata that could not
    be saved goes to the standard error stream, which the model leaves
    out. *)
Definition handleRemoteURL (registry : gmap string client_value)
    (url internalPath : string) (hasInternalPath : bool) (opts : Options) (w : World)
  : gmap string client_value * (World * (string * option error)) :=
  let scheme := GetScheme url_Parse url in
  if decide (scheme = "") then (registry, (w, ("", Some ErrInvalidURL)))
  else
    let scheme := if decide (scheme = "https") then "http" else scheme in
    match schemes_GetClient scheme registry with
    | (Some client, true) =>
        let client :=
          match client with
          | HTTPClient_value httpClient =>
              HTTPClient_value
                (SetRetryConfig (SetHTTPClient httpClient (Some (getHTTPClient opts)))
                   (MaxRetries opts) (RetryDelay opts))
          | other_value sc => other_value sc
          end in
        let registry := <[scheme := client]> registry in
        let '(w, (etag, err)) := GetETag (as_SchemeClient client) url (Headers opts) w in
        if panicked err then (registry, (w, ("", err))) else
        let etag := match err with Some _ => "" | None => etag end in
        match ResourceToFilename url_Parse url etag with
        | None => (registry, (w, ("", Some runtime_panic)))
        | Some filename =>
            let cachePath := filepath_Join [CacheDir opts; filename] in
            let lockPath := LockFilePath cachePath in
            let '(w, err) :=
              WithLock env syscall_Flock lockPath
                (handleRemoteURL_locked env json_Unmarshal (as_SchemeClient client)
                   url cachePath etag opts) w in
            match err with
            | Some e => (registry, (w, ("", Some e)))
            | None =>
                let meta := NewMeta time_Now url cachePath etag w in
                let metaPath := MetaFilePath cachePath in
                let '(w, _) := Meta_SaveToFile env json_MarshalIndent meta metaPath w in
                if hasInternalPath then
                  if negb (IsArchive strings_ToLower cachePath)
                  then (registry,
                        (w, ("", Some (fmt_Errorf "file is not an archive: %s"
                                         [ArgString cachePath]))))
                  else
                    let extractDir := filepath_Join [CacheDir opts; "extracted"; filename] in
                    let '(w, (extractedPath, err)) :=
                      ExtractSpecificFile env zip_decode targz_decode strings_ToLower
                        cachePath internalPath extractDir w in
                    match err with
                    | Some e =>
                        (registry,
                         (w, ("", Some (fmt_Errorf "%w: %v"
                                          [ArgError ErrExtractionFailed; ArgError e]))))
                    | None => (registry, (w, (extractedPath, None)))
                    end
                else if Options_ExtractArchive opts && IsArchive strings_ToLower cachePath then
                  let extractDir := filepath_Join [CacheDir opts; "extracted"; filename] in
                  let '(w, extracted) :=
                    if negb (ForceExtract opts) then FileExists env extractDir w
                    else (w, false) in
                  if extracted then (registry, (w, (extractDir, None)))
                  else
                    let '(w, err) :=
                      ExtractArchive env zip_decode targz_decode strings_ToLower
                        cachePath extractDir w in
                    match err with
                    | Some e =>
                        (registry,
                         (w, ("", Some (fmt_Errorf "%w: %v"
                                          [ArgError ErrExtractionFailed; ArgError e]))))
                    | None => (registry, (w, (extractDir, None)))
                    end
                else (registry, (w, (cachePath, None)))
            end
        end
    | _ =>
        (registry,
         (w, ("", Some (fmt_Errorf "%w: %s" [ArgError ErrUnsupportedScheme; ArgString scheme]))))
    end.

(** [CachedPath]. *)
Definition CachedPath (registry : gmap string client_value) (urlOrFilename : string)
    (opts : list Option_) (w : World)
  : gmap string client_value * (World * (string * option error)) :=
  let options := fold_left (fun o opt => opt o) opts (defaultOptions os_Getenv os_UserHomeDir) in
  let '(w, err) := EnsureDir env (CacheDir options) w in
  match err with
  | Some e =>
      (registry,
       (w, ("", Some (fmt_Errorf "failed to create cache directory: %w" [ArgError e]))))
  | None =>
      let '(archivePath, internalPath, hasInternalPath) := ParseArchivePath urlOrFilename in
      if negb (IsURL url_Parse archivePath)
      then (registry, handleLocalPath archivePath internalPath hasInternalPath options w)
      else handleRemoteURL registry archivePath internalPath hasInternalPath options w
  end.

End Resolution.

(** ** Notions and surroundings of the further statements *)

(** Every path that has an entry in [w] has one in [w']. *)
Definition keeps_entries (w w' : World) : Prop :=
  forall q, is_Some (fs w !! q) -> is_Some (fs w' !! q).

(** An operating system in which no call fails for a reason of its own. *)
Definition fault_free (env : Env) : Prop :=
  forall log op, os_fault env log op = None.

(** A lock that nobody else holds, a clock that stands still, an encoder
    of metadata records that writes the revision token only (the decoder
    [token_record] reads it back), a process without the environment
    variable and with a home directory. *)
Definition free_lock (log : list Event) (path : string) (how : Z) : option error := None.
Definition still_clock (log : list Event) : Z := 0.
Definition token_text (m : Meta) : string + error := inl (ETag m).
Definition no_env (name : string) : string := "".
Definition home_dir : string + error := inl "/home/u".

(** A ZIP archive of two files, one of them in a directory, that every
    text decodes to; a tar stream with a link between two files; and a
    world that holds an archive and a plain file. *)
Definition two_files (data : string) : option (list zip_File) :=
  Some [plain_entry "a.txt" ["he"; "llo"]; plain_entry "d/b.txt" ["x"]].
Definition linked_files (data : string) : option (list tar_Item) :=
  Some [TarEntry {| th_Name := "a.txt"; th_Typeflag := tar_TypeReg |} ["he"; "llo"] None;
        TarEntry {| th_Name := "l"; th_Typeflag := "2" |} [] None;
        TarEntry {| th_Name := "d/b.txt"; th_Typeflag := tar_TypeReg |} ["x"] None].
Definition local_world : World :=
  {| fs := {[ "/data/a.zip" := File "PK" 420; "/data/f.txt" := File "abc" 420 ]};
     log := []; past := [] |}.

(** The world after [k] waits of one second. *)
Definition waited (k : nat) (w : World) : World :=
  {| fs := fs w; log := log w ++ repeat (EvSleep (1 * 1000000000)) k; past := past w |}.

(** The answer of [flock] to the try number [k] of [Lock] (from 0), the
    tries before it having been answered with [EWOULDBLOCK]. *)
Definition lock_answer (syscall_Flock : list Event -> string -> Z -> option error)
    (path : string) (w : World) (k : nat) : option error :=
  syscall_Flock (log (waited k w)) path (Z.lor LOCK_EX LOCK_NB).

(** The lock is held by another process at the try number [k]. *)
Definition lock_busy (syscall_Flock : list Event -> string -> Z -> option error)
    (path : string) (w : World) (k : nat) : Prop :=
  exists e, lock_answer syscall_Flock path w k = Some e /\ is_EWOULDBLOCK e = true.

(** A lock that another process holds for good, and one that it gives up
    after two seconds. *)
Definition held_lock (log : list Event) (path : string) (how : Z) : option error :=
  Some EWOULDBLOCK.
Definition lock_freed_after_two (log : list Event) (path : string) (how : Z) : option error :=
  if (List.length (sleeps log) <? 2)%nat then Some EWOULDBLOCK else None.

(** An event that fetches nothing: no call of a method of a client, and
    no request other than a [HEAD]. *)
Definition fetches_nothing (e : Event) : Prop :=
  match e with
  | EvCall _ _ => False
  | EvDo req => Method req = "HEAD"
  | _ => True
  end.

(** A server that answers every request with the same body and the
    revision token [v1]. *)
Definition tagged_server : Env :=
  scripted [] (inl (response 200 [("Etag", "v1")] ["he"; "llo"])).

(** A world in which the cache directory [/cache] is there and empty, as
    [EnsureDir] leaves it. *)
Definition cache_dir_world : World :=
  {| fs := {[ "/" := Dir; "/cache" := Dir ]}; log := []; past := [] |}.

(** The resolution of [http://h/a] on that server, with an empty cache. *)
Definition first_visit : gmap string client_value * (World * (string * option error)) :=
  handleRemoteURL tagged_server url_Parse_plain token_record token_text still_clock free_lock
    two_files linked_files lower_ascii schemes_init "http://h/a" "" false default_options
    cache_dir_world.

(** Two clients with three retries: one whose delay of [2 ^ 62]
    nanoseconds no longer fits when it is doubled, and one whose delay is
    negative. *)
Definition long_delay_client : schemes_HTTPClient := SetRetryConfig default_client 3 (2 ^ 62).
Definition negative_delay_client : schemes_HTTPClient :=
  SetRetryConfig default_client 3 (- 1000000000).

(** A decoder that takes no text for a ZIP archive, and options that ask
    for extraction. *)
Definition no_zip (data : string) : option (list zip_File) := None.
Definition extracting : Options := WithExtractArchive true default_options.

(** The calls of the progress display among some events; [reports w w' ps]:
    between [w] and [w'] the display received the calls [ps].  Totals
    that grow, each one above the one before and the first above
    [from]. *)
Definition is_progress (e : Event) : bool :=
  match e with
  | EvProgressStart _ _ | EvProgressUpdate _ | EvProgressFinish => true
  | _ => false
  end.

Definition progress_of (evs : list Event) : list Event := List.filter is_progress evs.

Definition reports (w w' : World) (ps : list Event) : Prop :=
  exists evs, log w' = log w ++ evs /\ progress_of evs = ps.

Fixpoint increasing (from : Z) (totals : list Z) : Prop :=
  match totals with
  | [] => True
  | t :: rest => from < t /\ increasing t rest
  end.

(* ===================================================================== *)
(** * Part II: lemmas and theorems                                        *)
(* ===================================================================== *)

(** ** Strings *)

#[local] Arguments String.append !_ _ / : simpl nomatch.
#[local] Arguments Ascii.eqb : simpl never.

Lemma append_nil_r (s : string) : s +:+ "" = s.
Proof. induction s as [|c s IH]; simpl; [reflexivity | now rewrite IH]. Qed.

Lemma append_assoc (a b c : string) : (a +:+ b) +:+ c = a +:+ (b +:+ c).
Proof. induction a as [|x a IH]; simpl; [reflexivity | now rewrite IH]. Qed.

Lemma append_eq_nil (a b : string) : a +:+ b = "" -> a = "" /\ b = "".
Proof. destruct a; simpl; [auto | discriminate]. Qed.

Lemma append_length (a b : string) :
  String.length (a +:+ b) = (String.length a + String.length b)%nat.
Proof. induction a as [|x a IH]; simpl; [reflexivity | now rewrite IH]. Qed.

Lemma append_cancel_l (a b c : string) : a +:+ b = a +:+ c -> b = c.
Proof. induction a as [|x a IH]; simpl; [auto | intros H; injection H; auto]. Qed.

Lemma append_cancel_r (a b c : string) : a +:+ c = b +:+ c -> a = b.
Proof.
  revert b. induction a as [|x a IH]; intros [|y b] H; simpl in H.
  - reflexivity.
  - exfalso. apply (f_equal String.length) in H. simpl in H.
    rewrite append_length in H. lia.
  - exfalso. apply (f_equal String.length) in H. simpl in H.
    rewrite append_length in H. lia.
  - injection H as -> H. f_equal. now apply IH.
Qed.

Lemma HasPrefix_append (p s : string) : strings_HasPrefix (p +:+ s) p = true.
Proof.
  induction p as [|c p IH]; simpl; [reflexivity |].
  now rewrite Ascii.eqb_refl, IH.
Qed.

Lemma HasPrefix_inv (s p : string) :
  strings_HasPrefix s p = true -> exists t, s = p +:+ t.
Proof.
  revert s. induction p as [|c p IH]; intros s H; simpl in H.
  - now exists s.
  - destruct s as [|d s]; [discriminate |].
    apply andb_true_iff in H as [Hc Hp]. apply Ascii.eqb_eq in Hc as ->.
    destruct (IH _ Hp) as [t ->]. now exists t.
Qed.

Lemma sep_free_append (a b : string) :
  sep_free (a +:+ b) = sep_free a && sep_free b.
Proof.
  unfold sep_free. induction a as [|c a IH]; simpl; [reflexivity |].
  now rewrite IH, andb_assoc.
Qed.

Lemma sep_free_cons (c : ascii) (s : string) :
  sep_free (String c s) = negb (Ascii.eqb c Separator) && sep_free s.
Proof. reflexivity. Qed.

Lemma HasPrefix_cons (d c : ascii) (s p : string) :
  strings_HasPrefix (String d s) (String c p) = Ascii.eqb d c && strings_HasPrefix s p.
Proof. reflexivity. Qed.

Lemma sep_free_head (c : ascii) (s : string) :
  sep_free (String c s) = true -> Ascii.eqb c "/" = false /\ sep_free s = true.
Proof.
  rewrite sep_free_cons. intros H. apply andb_true_iff in H as [H1 H2].
  split; [| exact H2]. unfold Separator in H1. now destruct (Ascii.eqb c "/").
Qed.

(** Two separator-free texts, each followed by a separator, can only be
    prefixes of one another when they are equal. *)
Lemma HasPrefix_sep_cut (x y r q : string) :
  sep_free x = true -> sep_free y = true ->
  strings_HasPrefix (y +:+ "/" +:+ r) (x +:+ "/" +:+ q) = true ->
  x = y /\ strings_HasPrefix r q = true.
Proof.
  revert y. induction x as [|c x IH]; intros [|d y] Hx Hy H;
    simpl in H; rewrite ?HasPrefix_cons in H.
  - auto.
  - apply sep_free_head in Hy as [Hd _]. rewrite Hd in H. discriminate.
  - apply sep_free_head in Hx as [Hc _].
    rewrite Ascii.eqb_sym, Hc in H. discriminate.
  - apply sep_free_head in Hx as [_ Hx]. apply sep_free_head in Hy as [_ Hy].
    apply andb_true_iff in H as [Hcd H]. apply Ascii.eqb_eq in Hcd as ->.
    destruct (IH y Hx Hy H) as [-> Hr]. auto.
Qed.

(** A separator-free text has no prefix with a separator in it. *)
Lemma HasPrefix_sep_free (x y q : string) :
  sep_free y = true -> strings_HasPrefix y (x +:+ "/" +:+ q) = false.
Proof.
  revert y. induction x as [|c x IH]; intros [|d y] Hy;
    simpl; rewrite ?HasPrefix_cons; try reflexivity.
  - apply sep_free_head in Hy as [Hd _]. now rewrite Hd.
  - apply sep_free_head in Hy as [_ Hy]. specialize (IH y Hy). simpl in IH.
    rewrite IH. apply andb_false_r.
Qed.

Lemma split_sep_not_nil (s : string) : split_sep Separator s <> [].
Proof.
  destruct s as [|c s]; simpl; [discriminate |].
  destruct (Ascii.eqb c Separator); [discriminate |].
  destruct (split_sep Separator s); discriminate.
Qed.

Lemma split_sep_all_free (s : string) :
  Forall (fun e => sep_free e = true) (split_sep Separator s).
Proof.
  induction s as [|c s IH]; simpl.
  - repeat constructor.
  - destruct (Ascii.eqb c Separator) eqn:Hc.
    + constructor; [reflexivity | exact IH].
    + destruct (split_sep Separator s) as [|p ps].
      * repeat constructor. now rewrite sep_free_cons, Hc.
      * inversion IH; subst. constructor; [| assumption].
        rewrite sep_free_cons, Hc. assumption.
Qed.

Lemma split_sep_id (s : string) :
  sep_free s = true -> split_sep Separator s = [s].
Proof.
  induction s as [|c s IH]; intros H; simpl; [reflexivity |].
  rewrite sep_free_cons in H. apply andb_true_iff in H as [Hc Hs].
  destruct (Ascii.eqb c Separator); [discriminate |].
  now rewrite (IH Hs).
Qed.

Lemma split_sep_app (a b : string) :
  split_sep Separator (a +:+ "/" +:+ b)
  = split_sep Separator a ++ split_sep Separator b.
Proof.
  induction a as [|c a IH]; simpl.
  - reflexivity.
  - simpl in IH. rewrite IH. destruct (Ascii.eqb c Separator); [reflexivity |].
    destruct (split_sep Separator a) as [|p ps] eqn:Ha; [| reflexivity].
    now apply split_sep_not_nil in Ha.
Qed.

Lemma split_Join (xs : list string) :
  xs <> [] -> Forall (fun e => sep_free e = true) xs ->
  split_sep Separator (strings_Join xs "/") = xs.
Proof.
  induction xs as [|x xs IH]; intros Hne Hall; [congruence |].
  inversion Hall as [|? ? Hx Hxs]; subst.
  destruct xs as [|y t].
  - simpl. now apply split_sep_id.
  - change (strings_Join (x :: y :: t) "/") with (x +:+ "/" +:+ strings_Join (y :: t) "/").
    rewrite split_sep_app, (split_sep_id x Hx), IH; [reflexivity | discriminate | assumption].
Qed.

(** ** The shape of cleaned paths *)

Lemma proper_name_segment (e : string) : proper_name e -> segment e.
Proof. intros (H1 & _ & _ & H4). now split. Qed.

Lemma dotdot_segment : segment "..".
Proof. split; [discriminate | reflexivity]. Qed.

Lemma clean_shape_head (top : string) (below : list string) :
  clean_shape (top :: below) ->
  (top = ".." /\ exists k, below = repeat ".." k) \/ (proper_name top /\ clean_shape below).
Proof.
  intros H. inversion H as [k Hk | e st He Hst]; subst.
  - destruct k as [|k]; [discriminate |]. simpl in Hk. injection Hk as <- <-.
    left. eauto.
  - right. auto.
Qed.

Lemma clean_step_shape (rooted : bool) (st : list string) (e : string) :
  clean_shape st -> sep_free e = true -> clean_shape (clean_step rooted st e).
Proof.
  intros Hst He. unfold clean_step.
  destruct (decide (e = "")); [assumption |].
  destruct (decide (e = ".")); [assumption |].
  destruct (decide (e = "..")).
  - destruct st as [|top below].
    + destruct rooted; [apply (shape_dotdots 0) | apply (shape_dotdots 1)].
    + destruct (clean_shape_head _ _ Hst) as [[-> [k ->]] | [Htop Hbelow]].
      * rewrite decide_True by reflexivity. apply (shape_dotdots (S (S k))).
      * destruct (decide (top = "..")) as [-> |]; [| assumption].
        destruct Htop as (_ & _ & Hdd & _). congruence.
  - apply shape_name; [| assumption]. repeat split; assumption.
Qed.

Lemma clean_stack_shape (rooted : bool) (elems st : list string) :
  clean_shape st -> Forall (fun e => sep_free e = true) elems ->
  clean_shape (clean_stack rooted elems st).
Proof.
  revert st. induction elems as [|e elems IH]; intros st Hst Hall; simpl; [assumption |].
  inversion Hall; subst. apply IH; [| assumption]. now apply clean_step_shape.
Qed.

Lemma clean_shape_segments (st : list string) : clean_shape st -> Forall segment st.
Proof.
  induction 1 as [k | e st He Hst IH].
  - induction k; simpl; constructor; [apply dotdot_segment | assumption].
  - constructor; [now apply proper_name_segment | assumption].
Qed.

(** Whatever lies above a name proper in a cleaned stack is a name proper. *)
Lemma clean_shape_above (xs : list string) (e : string) (st : list string) :
  clean_shape (xs ++ e :: st) -> proper_name e -> Forall proper_name xs.
Proof.
  induction xs as [|x xs IH]; intros H He; [constructor |].
  simpl in H. destruct (clean_shape_head _ _ H) as [[-> [k Hk]] | [Hx Hrest]].
  - exfalso. assert (Hin : In e (repeat ".." k)).
    { rewrite <- Hk. apply in_or_app. right. now left. }
    apply repeat_spec in Hin. destruct He as (_ & _ & Hdd & _). congruence.
  - constructor; [assumption | now apply IH].
Qed.

(** ** [Clean] keeps the place a path names *)

Lemma resolve_step_name (st : list string) (e : string) :
  proper_name e -> resolve_step st e = e :: st.
Proof.
  intros (H1 & H2 & H3 & _). unfold resolve_step.
  now rewrite !decide_False by assumption.
Qed.

Lemma resolve_names (names st : list string) :
  Forall proper_name names -> fold_left resolve_step names st = rev names ++ st.
Proof.
  revert st. induction names as [|e names IH]; intros st H; simpl; [reflexivity |].
  inversion H; subst. rewrite resolve_step_name by assumption.
  rewrite IH by assumption. now rewrite <- app_assoc.
Qed.

Lemma resolve_clean_step (rooted : bool) (st init : list string) (e : string) :
  clean_shape st -> (rooted = true -> init = []) ->
  resolve_step (fold_left resolve_step (rev st) init) e
  = fold_left resolve_step (rev (clean_step rooted st e)) init.
Proof.
  intros Hst Hroot. unfold clean_step.
  destruct (decide (e = "")) as [-> |]; [reflexivity |].
  destruct (decide (e = ".")) as [-> |]; [reflexivity |].
  destruct (decide (e = "..")) as [-> |].
  - destruct st as [|top below].
    + destruct rooted; simpl; [now rewrite Hroot | reflexivity].
    + destruct (decide (top = "..")) as [-> |].
      * change (rev (".." :: ".." :: below)) with (rev (".." :: below) ++ [".."]).
        now rewrite fold_left_app.
      * destruct (clean_shape_head _ _ Hst) as [[-> _] | [Htop _]]; [congruence |].
        simpl. rewrite fold_left_app. simpl.
        now rewrite (resolve_step_name _ _ Htop).
  - simpl. rewrite fold_left_app. reflexivity.
Qed.

Lemma resolve_clean_stack (rooted : bool) (elems st init : list string) :
  clean_shape st -> Forall (fun e => sep_free e = true) elems ->
  (rooted = true -> init = []) ->
  fold_left resolve_step elems (fold_left resolve_step (rev st) init)
  = fold_left resolve_step (rev (clean_stack rooted elems st)) init.
Proof.
  revert st. induction elems as [|e elems IH]; intros st Hst Hall Hroot; simpl; [reflexivity |].
  inversion Hall; subst.
  rewrite (resolve_clean_step rooted) by assumption.
  apply IH; [now apply clean_step_shape | assumption | assumption].
Qed.

Lemma Join_cons2 (x y : string) (t : list string) :
  strings_Join (x :: y :: t) "/" = x +:+ "/" +:+ strings_Join (y :: t) "/".
Proof. reflexivity. Qed.

Lemma segment_first (e : string) :
  segment e -> exists c e', e = String c e' /\ Ascii.eqb c "/" = false /\ sep_free e' = true.
Proof.
  intros [Hne Hfree]. destruct e as [|c e']; [congruence |].
  apply sep_free_head in Hfree as [Hc He]. eauto.
Qed.

Lemma Join_first (e : string) (t : list string) :
  exists rest, strings_Join (e :: t) "/" = e +:+ rest.
Proof.
  destruct t as [|y t].
  - exists "". simpl. now rewrite append_nil_r.
  - exists ("/" +:+ strings_Join (y :: t) "/"). reflexivity.
Qed.

Lemma is_rooted_render (rooted : bool) (elems : list string) :
  Forall segment elems -> is_rooted (render rooted elems) = rooted.
Proof.
  intros Hall. destruct elems as [|e t]; [now destruct rooted |].
  unfold render. destruct rooted; [reflexivity |].
  inversion Hall as [|? ? He _]; subst.
  destruct (segment_first e He) as (c & e' & -> & Hc & _).
  destruct (Join_first (String c e') t) as [rest ->].
  unfold is_rooted. simpl. rewrite ?HasPrefix_cons, Hc. reflexivity.
Qed.

Lemma segments_free (elems : list string) :
  Forall segment elems -> Forall (fun e => sep_free e = true) elems.
Proof. apply List.Forall_impl. now intros e [_ H]. Qed.

Lemma resolve_render (rooted : bool) (elems init : list string) :
  Forall segment elems ->
  fold_left resolve_step (split_sep Separator (render rooted elems)) init
  = fold_left resolve_step elems init.
Proof.
  intros Hall. destruct elems as [|e t]; [now destruct rooted |].
  unfold render. destruct rooted.
  - change ("/" +:+ strings_Join (e :: t) "/")
      with ("" +:+ "/" +:+ strings_Join (e :: t) "/").
    rewrite split_sep_app, split_Join; [reflexivity | discriminate | now apply segments_free].
  - change ("" +:+ strings_Join (e :: t) "/") with (strings_Join (e :: t) "/").
    rewrite split_Join; [reflexivity | discriminate | now apply segments_free].
Qed.

Lemma Clean_render (path : string) :
  path <> "" -> filepath_Clean path = render (is_rooted path) (rev (stack_of path)).
Proof. intros H. unfold filepath_Clean. now rewrite decide_False by assumption. Qed.

Lemma stack_of_shape (path : string) : clean_shape (stack_of path).
Proof.
  apply clean_stack_shape; [apply (shape_dotdots 0) | apply split_sep_all_free].
Qed.

Lemma stack_of_segments (path : string) : Forall segment (rev (stack_of path)).
Proof.
  apply List.Forall_forall. intros e He. apply in_rev in He.
  pose proof (clean_shape_segments _ (stack_of_shape path)) as H.
  rewrite List.Forall_forall in H. now apply H.
Qed.

(** The place a path names, from the stack that [Clean] leaves for it. *)
Lemma resolve_stack_of (cwd : list string) (path : string) :
  resolve cwd path
  = rev (fold_left resolve_step (rev (stack_of path)) (start_of cwd (is_rooted path))).
Proof.
  unfold resolve, stack_of. f_equal.
  change (if is_rooted path then [] else rev cwd) with (start_of cwd (is_rooted path)).
  rewrite <- (resolve_clean_stack (is_rooted path) _ [] (start_of cwd (is_rooted path))).
  - reflexivity.
  - apply (shape_dotdots 0).
  - apply split_sep_all_free.
  - intros ->. reflexivity.
Qed.

(** [filepath.Clean] names the same place as its argument. *)
Lemma resolve_Clean (cwd : list string) (path : string) :
  resolve cwd (filepath_Clean path) = resolve cwd path.
Proof.
  destruct (decide (path = "")) as [-> | Hne]; [reflexivity |].
  rewrite (resolve_stack_of cwd path), (Clean_render path Hne).
  unfold resolve.
  rewrite is_rooted_render by apply stack_of_segments.
  rewrite resolve_render by apply stack_of_segments.
  reflexivity.
Qed.

(** A cleaned path that starts with another one and a separator has the
    elements of the other one first, and more after them. *)
Lemma HasPrefix_Join (xs ys : list string) :
  Forall segment xs -> Forall segment ys -> xs <> [] ->
  strings_HasPrefix (strings_Join ys "/") (strings_Join xs "/" +:+ "/") = true ->
  exists rest, rest <> [] /\ ys = xs ++ rest.
Proof.
  revert ys. induction xs as [|x xs IH]; intros ys Hxs Hys Hne H; [congruence |].
  inversion Hxs as [|? ? [_ Hx] Hxs']; subst.
  destruct ys as [|y ys].
  - exfalso. destruct (Join_first x xs) as [rest Hrest]. rewrite Hrest in H.
    destruct x as [|c x']; [inversion Hxs as [|? ? [Hn _] _]; congruence |].
    simpl in H. discriminate.
  - inversion Hys as [|? ? [_ Hy] Hys']; subst.
    destruct ys as [|y2 ys].
    + exfalso. simpl (strings_Join [y] "/") in H.
      destruct xs as [|x2 xs].
      * simpl (strings_Join [x] "/") in H.
        rewrite <- (append_nil_r (x +:+ "/")) in H. rewrite append_assoc in H.
        now rewrite HasPrefix_sep_free in H.
      * rewrite Join_cons2, !append_assoc in H.
        now rewrite HasPrefix_sep_free in H.
    + rewrite Join_cons2 in H. destruct xs as [|x2 xs].
      * simpl (strings_Join [x] "/") in H.
        rewrite <- (append_nil_r (x +:+ "/")) in H. rewrite append_assoc in H.
        apply HasPrefix_sep_cut in H as [-> _]; [| assumption | assumption].
        exists (y2 :: ys). split; [discriminate | reflexivity].
      * rewrite Join_cons2, !append_assoc in H.
        apply HasPrefix_sep_cut in H as [-> H]; [| assumption | assumption].
        destruct (IH (y2 :: ys)) as (rest & Hrest & Heq); [assumption .. | discriminate | exact H |].
        exists rest. split; [assumption |]. simpl. now rewrite Heq.
Qed.

(** ** [Base] *)

Lemma after_last_None_free (s : string) :
  after_last Separator s = None <-> sep_free s = true.
Proof.
  induction s as [|c s IH]; simpl; [tauto |].
  rewrite sep_free_cons. destruct (after_last Separator s) as [t|].
  - split; [discriminate |]. intros H. apply andb_true_iff in H as [_ H].
    apply IH in H. discriminate.
  - destruct (Ascii.eqb c Separator); simpl; [split; discriminate |].
    split; [intros _; now apply IH | reflexivity].
Qed.

Lemma after_last_Some_free (s t : string) :
  after_last Separator s = Some t -> sep_free t = true.
Proof.
  revert t. induction s as [|c s IH]; intros t H; simpl in H; [discriminate |].
  destruct (after_last Separator s) as [u|] eqn:Hs.
  - injection H as <-. now apply IH.
  - destruct (Ascii.eqb c Separator); [| discriminate].
    injection H as <-. now apply after_last_None_free.
Qed.

Lemma after_last_append_sep (x n : string) :
  sep_free n = true -> after_last Separator (x +:+ "/" +:+ n) = Some n.
Proof.
  intros Hn. induction x as [|c x IH]; simpl.
  - apply after_last_None_free in Hn. now rewrite Hn.
  - simpl in IH. now rewrite IH.
Qed.

Lemma trim_free (n : string) : sep_free n = true -> trim_trailing_sep n = n.
Proof.
  induction n as [|c n IH]; intros H; simpl; [reflexivity |].
  apply sep_free_head in H as [Hc Hn]. rewrite (IH Hn).
  destruct n; [| reflexivity]. unfold Separator. now rewrite Hc.
Qed.

Lemma trim_append (x n : string) :
  n <> "" -> sep_free n = true -> trim_trailing_sep (x +:+ n) = x +:+ n.
Proof.
  intros Hne Hn. induction x as [|c x IH]; simpl; [now apply trim_free |].
  rewrite IH. destruct (x +:+ n) eqn:E; [| reflexivity].
  apply append_eq_nil in E as [_ E]. congruence.
Qed.

Lemma Base_segment (n : string) : segment n -> filepath_Base n = n.
Proof.
  intros [Hne Hn]. unfold filepath_Base.
  rewrite decide_False by assumption. rewrite (trim_free n Hn).
  apply after_last_None_free in Hn. rewrite Hn. now rewrite decide_False.
Qed.

Lemma Base_append_sep (x n : string) :
  segment n -> filepath_Base (x +:+ "/" +:+ n) = n.
Proof.
  intros [Hne Hn]. unfold filepath_Base.
  rewrite decide_False.
  2:{ intros E. apply append_eq_nil in E as [_ E]. discriminate. }
  rewrite <- append_assoc, trim_append by assumption.
  rewrite append_assoc, after_last_append_sep by assumption.
  now rewrite decide_False.
Qed.

Lemma Base_shape (path : string) :
  filepath_Base path = "/" \/ segment (filepath_Base path).
Proof.
  unfold filepath_Base. destruct (decide (path = "")).
  - right. split; [discriminate | reflexivity].
  - destruct (after_last Separator (trim_trailing_sep path)) as [t|] eqn:E.
    + destruct (decide (t = "")); [now left | right].
      split; [assumption | now apply after_last_Some_free in E].
    + destruct (decide (trim_trailing_sep path = "")); [now left | right].
      split; [assumption | now apply after_last_None_free].
Qed.

Lemma Join_snoc (xs : list string) (c : string) :
  xs <> [] -> strings_Join (xs ++ [c]) "/" = strings_Join xs "/" +:+ "/" +:+ c.
Proof.
  induction xs as [|x xs IH]; intros Hne; [congruence |].
  destruct xs as [|y t]; [reflexivity |].
  change ((x :: y :: t) ++ [c]) with (x :: y :: (t ++ [c])).
  rewrite !Join_cons2. change (y :: t ++ [c]) with ((y :: t) ++ [c]).
  rewrite IH by discriminate. now rewrite !append_assoc.
Qed.

(** The last element of a path as [render] prints it is its [Base]. *)
Lemma Base_render (rooted : bool) (xs : list string) (c : string) :
  segment c -> filepath_Base (render rooted (xs ++ [c])) = c.
Proof.
  intros Hc. unfold render.
  destruct (xs ++ [c]) as [|e t] eqn:E; [now destruct xs |]. rewrite <- E. clear E e t.
  destruct xs as [|x xs].
  - simpl strings_Join. destruct rooted.
    + change ("/" +:+ c) with ("" +:+ "/" +:+ c). now apply Base_append_sep.
    + now apply Base_segment.
  - rewrite Join_snoc by discriminate. rewrite <- append_assoc.
    now apply Base_append_sep.
Qed.

(** ** The check of the extractors keeps a path inside the destination *)

Lemma strip_prefix_app (pre rest : list string) :
  strip_prefix pre (pre ++ rest) = Some rest.
Proof.
  induction pre as [|p pre IH]; simpl; [reflexivity |].
  now rewrite decide_True by reflexivity.
Qed.

(** No cleaned path starts with [./] or with two separators. *)
Lemma render_not_dot_prefix (rooted : bool) (st : list string) :
  clean_shape st -> strings_HasPrefix (render rooted (rev st)) "./" = false.
Proof.
  intros Hst. destruct rooted.
  - unfold render. now destruct (rev st).
  - pose proof (clean_shape_segments _ Hst) as Hseg.
    destruct (rev st) as [|e t] eqn:E; [reflexivity |].
    assert (He : In e st) by (apply in_rev; rewrite E; now left).
    assert (Hdot : e <> ".").
    { clear E. induction Hst as [k | e' st' He' Hst' IH].
      - apply repeat_spec in He. now subst.
      - destruct He as [<- | He]; [apply He' | now apply IH; [apply clean_shape_segments |]]. }
    unfold render. change ("" +:+ strings_Join (e :: t) "/") with (strings_Join (e :: t) "/").
    rewrite List.Forall_forall in Hseg. destruct (Hseg e He) as [Hne Hfree].
    destruct t as [|y t].
    + simpl strings_Join. change "./" with ("." +:+ "/" +:+ "").
      now apply HasPrefix_sep_free.
    + rewrite Join_cons2. change "./" with ("." +:+ "/" +:+ "").
      destruct (strings_HasPrefix (e +:+ "/" +:+ strings_Join (y :: t) "/")
                  ("." +:+ "/" +:+ "")) eqn:H; [| reflexivity].
      apply HasPrefix_sep_cut in H as [H _]; [congruence | reflexivity | assumption].
Qed.

Lemma render_not_sepsep_prefix (rooted : bool) (elems : list string) :
  Forall segment elems -> strings_HasPrefix (render rooted elems) "//" = false.
Proof.
  intros Hall. destruct elems as [|e t]; [now destruct rooted |].
  inversion Hall as [|? ? He _]; subst.
  destruct (segment_first e He) as (c & e' & -> & Hc & _).
  destruct (Join_first (String c e') t) as [rest Hrest].
  unfold render. rewrite Hrest. destruct rooted; simpl; rewrite ?HasPrefix_cons, Hc;
    reflexivity.
Qed.

Lemma HasPrefix_length (s p : string) :
  strings_HasPrefix s p = true -> (String.length p <= String.length s)%nat.
Proof.
  intros H. apply HasPrefix_inv in H as [t ->]. rewrite append_length. lia.
Qed.

Lemma is_rooted_append (d x : string) : d <> "" -> is_rooted (d +:+ x) = is_rooted d.
Proof. intros H. destruct d as [|c d]; [congruence | reflexivity]. Qed.

Lemma Join2_nonempty (destDir name : string) :
  destDir <> "" ->
  filepath_Join [destDir; name] = filepath_Clean (destDir +:+ "/" +:+ name).
Proof. intros H. simpl. now rewrite decide_False by assumption. Qed.

Lemma Join2_empty (name : string) :
  filepath_Join [""; name] = if decide (name = "") then "" else filepath_Clean name.
Proof. simpl. destruct (decide (name = "")); reflexivity. Qed.

Lemma stack_of_append (destDir name : string) :
  destDir <> "" ->
  stack_of (destDir +:+ "/" +:+ name)
  = clean_stack (is_rooted destDir) (split_sep Separator name) (stack_of destDir).
Proof.
  intros H. unfold stack_of, clean_stack.
  rewrite is_rooted_append by assumption.
  now rewrite split_sep_app, fold_left_app.
Qed.

(** The check passed: the elements of the cleaned target are those of the
    cleaned destination, which has some, and at least one more. *)
Lemma within_dest_elems (destDir name : string) :
  within_dest destDir (filepath_Join [destDir; name]) = true ->
  destDir <> "" /\ stack_of destDir <> [] /\
  exists rest, rest <> [] /\
    rev (stack_of (destDir +:+ "/" +:+ name)) = rev (stack_of destDir) ++ rest.
Proof.
  unfold within_dest. intros H.
  destruct (decide (destDir = "")) as [-> | Hne].
  { exfalso. rewrite Join2_empty in H. change (filepath_Clean "" +:+ "/") with "./" in H.
    destruct (decide (name = "")); [discriminate |].
    rewrite Clean_render in H by assumption.
    now rewrite render_not_dot_prefix in H by apply stack_of_shape. }
  split; [assumption |].
  rewrite Join2_nonempty in H by assumption.
  rewrite (Clean_render destDir Hne) in H.
  rewrite Clean_render in H.
  2:{ intros E. apply append_eq_nil in E as [E _]. congruence. }
  rewrite is_rooted_append in H by assumption.
  pose proof (stack_of_segments destDir) as Hd.
  pose proof (stack_of_segments (destDir +:+ "/" +:+ name)) as Hn.
  pose proof (stack_of_shape (destDir +:+ "/" +:+ name)) as Hshape.
  destruct (rev (stack_of destDir)) as [|e t] eqn:Ed.
  { exfalso. destruct (is_rooted destDir).
    - change (render true [] +:+ "/") with "//" in H.
      now rewrite render_not_sepsep_prefix in H.
    - change (render false [] +:+ "/") with "./" in H.
      now rewrite render_not_dot_prefix in H. }
  split.
  { intros E. rewrite E in Ed. discriminate. }
  destruct (rev (stack_of (destDir +:+ "/" +:+ name))) as [|e' t'] eqn:En.
  { exfalso. apply HasPrefix_length in H. revert H.
    inversion Hd as [|? ? He _]; subst.
    destruct (segment_first e He) as (c & e0 & -> & _).
    destruct (Join_first (String c e0) t) as [rest Hrest].
    unfold render. rewrite Hrest.
    destruct (is_rooted destDir); simpl; rewrite !append_length; simpl; lia. }
  assert (Hj : strings_HasPrefix (strings_Join (e' :: t') "/")
                 (strings_Join (e :: t) "/" +:+ "/") = true).
  { unfold render in H. destruct (is_rooted destDir); simpl in H.
    - rewrite ?HasPrefix_cons, ?Ascii.eqb_refl in H. exact H.
    - exact H. }
  apply HasPrefix_Join in Hj; [exact Hj | assumption | assumption | discriminate].
Qed.

(** The check of the extractors is sound when the cleaned destination
    does not end in [..]: a target that passes names a place inside the
    destination. *)
Lemma within_dest_resolve (cwd : list string) (destDir name : string) :
  within_dest destDir (filepath_Join [destDir; name]) = true ->
  filepath_Base (filepath_Clean destDir) <> ".." ->
  exists rest, rest <> [] /\
    resolve cwd (filepath_Join [destDir; name]) = resolve cwd destDir ++ rest.
Proof.
  intros H Hbase.
  destruct (within_dest_elems _ _ H) as (Hne & Hst & rest & Hrest & Heq).
  exists rest. split; [assumption |].
  rewrite Join2_nonempty, resolve_Clean by assumption.
  rewrite (resolve_stack_of cwd (destDir +:+ "/" +:+ name)), (resolve_stack_of cwd destDir).
  rewrite is_rooted_append by assumption.
  rewrite Heq, fold_left_app.
  destruct (stack_of destDir) as [|top below] eqn:Ed; [congruence |].
  assert (Htop : proper_name top).
  { pose proof (stack_of_shape destDir) as Hs. rewrite Ed in Hs.
    destruct (clean_shape_head _ _ Hs) as [[-> _] | [Ht _]]; [| assumption].
    exfalso. apply Hbase. rewrite Clean_render by assumption. rewrite Ed.
    simpl rev. apply Base_render, dotdot_segment. }
  assert (Hnames : Forall proper_name (rev rest)).
  { apply (clean_shape_above _ top below); [| assumption].
    pose proof (stack_of_shape (destDir +:+ "/" +:+ name)) as Hs.
    rewrite <- (rev_involutive (stack_of _)), Heq in Hs.
    rewrite rev_app_distr, rev_involutive in Hs. exact Hs. }
  rewrite resolve_names.
  - rewrite rev_app_distr, rev_involutive. reflexivity.
  - apply List.Forall_forall. intros x Hx. rewrite List.Forall_forall in Hnames.
    apply Hnames. now apply in_rev in Hx.
Qed.

Lemma within_dest_inside (cwd : list string) (destDir name : string) :
  within_dest destDir (filepath_Join [destDir; name]) = true ->
  filepath_Base (filepath_Clean destDir) <> ".." ->
  inside cwd destDir (filepath_Join [destDir; name]) = true.
Proof.
  intros H Hbase. destruct (within_dest_resolve cwd _ _ H Hbase) as (rest & Hne & Heq).
  unfold inside. rewrite Heq, strip_prefix_app. destruct rest; [congruence | reflexivity].
Qed.

(** A name proper joined to a directory is an entry of that directory. *)
Lemma Join_name_resolve (cwd : list string) (destDir b : string) :
  proper_name b -> resolve cwd (filepath_Join [destDir; b]) = resolve cwd destDir ++ [b].
Proof.
  intros Hb. pose proof Hb as (Hne & _ & _ & Hfree).
  destruct (decide (destDir = "")) as [-> | Hd].
  - rewrite Join2_empty, decide_False by assumption. rewrite resolve_Clean.
    unfold resolve. rewrite (split_sep_id b Hfree).
    destruct (segment_first b (proper_name_segment b Hb)) as (c & b' & -> & Hc & _).
    unfold is_rooted. simpl. rewrite ?HasPrefix_cons, Hc. simpl.
    rewrite (resolve_step_name _ _ Hb). reflexivity.
  - rewrite Join2_nonempty, resolve_Clean by assumption.
    unfold resolve. rewrite is_rooted_append by assumption.
    rewrite split_sep_app, (split_sep_id b Hfree), fold_left_app. simpl.
    now rewrite (resolve_step_name _ _ Hb).
Qed.

Lemma Join_name_directly_inside (cwd : list string) (destDir b : string) :
  proper_name b -> directly_inside cwd destDir (filepath_Join [destDir; b]) = true.
Proof.
  intros Hb. unfold directly_inside.
  now rewrite (Join_name_resolve cwd destDir b Hb), strip_prefix_app.
Qed.

(** An absolute entry name is joined like the same name without its
    leading separator: it lands under the destination. *)
Lemma Join_absolute_name (destDir name : string) :
  destDir <> "" ->
  filepath_Join [destDir; "/" +:+ name] = filepath_Join [destDir; name].
Proof.
  intros Hd. rewrite !Join2_nonempty by assumption.
  rewrite !Clean_render.
  2:{ intros E. apply append_eq_nil in E as [E _]. congruence. }
  2:{ intros E. apply append_eq_nil in E as [E _]. congruence. }
  rewrite !is_rooted_append by assumption. f_equal. f_equal.
  rewrite !stack_of_append by assumption.
  change ("/" +:+ name) with ("" +:+ "/" +:+ name). rewrite split_sep_app.
  reflexivity.
Qed.

(** ** Events *)

#[local] Arguments filepath_Join : simpl never.
#[local] Arguments filepath_Clean : simpl never.
#[local] Arguments filepath_Dir : simpl never.
#[local] Arguments filepath_Base : simpl never.
#[local] Arguments within_dest : simpl never.

Lemma extends_refl (P : Event -> Prop) (w : World) : extends_with P w w.
Proof. exists []. split; [now rewrite app_nil_r | constructor]. Qed.

Lemma extends_trans (P : Event -> Prop) (w1 w2 w3 : World) :
  extends_with P w1 w2 -> extends_with P w2 w3 -> extends_with P w1 w3.
Proof.
  intros (e1 & H1 & F1) (e2 & H2 & F2). exists (e1 ++ e2). split.
  - now rewrite H2, H1, app_assoc.
  - apply Forall_app. now split.
Qed.

Lemma extends_emit (P : Event -> Prop) (e : Event) (w : World) :
  P e -> extends_with P w (emit e w).
Proof. intros H. exists [e]. split; [reflexivity | now repeat constructor]. Qed.

Lemma extends_set_fs (P : Event -> Prop) (m : gmap string Node) (w w' : World) :
  extends_with P w w' -> extends_with P w (set_fs m w').
Proof. intros (evs & H & F). now exists evs. Qed.

Lemma extends_weaken (P Q : Event -> Prop) (w w' : World) :
  (forall e, P e -> Q e) -> extends_with P w w' -> extends_with Q w w'.
Proof.
  intros HPQ (evs & H & F). exists evs. split; [assumption |].
  eapply List.Forall_impl; eassumption.
Qed.

Lemma new_events_extends (P : Event -> Prop) (w w' : World) :
  extends_with P w w' -> Forall P (new_events w w').
Proof.
  intros (evs & H & F). unfold new_events. rewrite H.
  rewrite skipn_app, skipn_all, Nat.sub_diag. exact F.
Qed.

Section OSFacts.

Variable env : Env.
Variable P : Event -> Prop.

Lemma os_Stat_extends (path : string) (w : World) :
  P (EvFs (OpStat path)) -> extends_with P w (fst (os_Stat env path w)).
Proof.
  intros H. unfold os_Stat.
  destruct (os_fault env (log w) (OpStat path)); [now apply extends_emit |].
  destruct (fs w !! path); now apply extends_emit.
Qed.

Lemma os_ReadFile_extends (path : string) (w : World) :
  P (EvFs (OpReadFile path)) -> extends_with P w (fst (os_ReadFile env path w)).
Proof.
  intros H. unfold os_ReadFile.
  destruct (os_fault env (log w) (OpReadFile path)); [now apply extends_emit |].
  destruct (fs w !! path) as [[|data perm]|]; now apply extends_emit.
Qed.

Lemma os_MkdirAll_extends (path : string) (perm : Z) (w : World) :
  P (EvFs (OpMkdirAll path perm)) -> extends_with P w (fst (os_MkdirAll env path perm w)).
Proof.
  intros H. unfold os_MkdirAll.
  destruct (os_fault env (log w) (OpMkdirAll path perm)); [now apply extends_emit |].
  destruct (forallb _ _); simpl; [apply extends_set_fs |]; now apply extends_emit.
Qed.

Lemma os_OpenFile_extends (path : string) (flag perm : Z) (w : World) :
  P (EvFs (OpOpenFile path flag perm)) ->
  extends_with P w (fst (os_OpenFile env path flag perm w)).
Proof.
  intros H. unfold os_OpenFile.
  destruct (os_fault env (log w) (OpOpenFile path flag perm)); [now apply extends_emit |].
  destruct (fs w !! path) as [[|data old]|].
  - destruct (Z.testbit flag 7); now apply extends_emit.
  - destruct (Z.testbit flag 7); [now apply extends_emit |].
    destruct (Z.testbit flag 9); simpl; [apply extends_set_fs |]; now apply extends_emit.
  - destruct (Z.testbit flag 6); simpl; [apply extends_set_fs |]; now apply extends_emit.
Qed.

Lemma file_Write_extends (path data : string) (w : World) :
  P (EvFs (OpWrite path data)) -> extends_with P w (fst (file_Write env path data w)).
Proof.
  intros H. unfold file_Write.
  destruct (os_fault env (log w) (OpWrite path data)); simpl;
    apply extends_set_fs; now apply extends_emit.
Qed.

Lemma file_Close_extends (path : string) (w : World) :
  P (EvFs (OpClose path)) -> extends_with P w (fst (file_Close env path w)).
Proof. intros H. unfold file_Close. simpl. now apply extends_emit. Qed.

Lemma os_Remove_extends (path : string) (w : World) :
  P (EvFs (OpRemove path)) -> extends_with P w (fst (os_Remove env path w)).
Proof.
  intros H. unfold os_Remove.
  destruct (os_fault env (log w) (OpRemove path)); [now apply extends_emit |].
  destruct (fs w !! path); simpl; [apply extends_set_fs |]; now apply extends_emit.
Qed.

(** Copying into a file writes to that file and nowhere else. *)
Lemma copy_to_file_extends (path : string) (data : list string) (readErr : option error)
    (w : World) :
  (forall chunk, P (EvFs (OpWrite path chunk))) ->
  extends_with P w (fst (copy_to_file env path data readErr w)).
Proof.
  intros H. unfold copy_to_file. simpl.
  revert w. induction data as [|chunk rest IH]; intros w; simpl; [apply extends_refl |].
  destruct (decide (chunk = "")) as [_ | _]; [apply IH |].
  pose proof (file_Write_extends path chunk w (H chunk)) as Hw.
  destruct (file_Write env path chunk w) as [w' [k err]]. simpl in Hw.
  destruct err as [e|]; [exact Hw |].
  destruct (decide (k = Z.of_nat (String.length chunk))) as [_ | _]; [| exact Hw].
  eapply extends_trans; [exact Hw | apply IH].
Qed.

End OSFacts.

(** ** Extraction: which files the extractors write to *)

Section ArchiveFacts.

Variable env : Env.
Variable zip_decode : string -> option (list zip_File).
Variable targz_decode : string -> option (list tar_Item).
Variable strings_ToLower : string -> string.

(** A property of events that holds of every event that writes to no
    file. *)
Variable P : Event -> Prop.
Hypothesis P_quiet : forall e, written_path e = None -> P e.

Lemma extractZipFile_extends (f : zip_File) (destDir : string) (w : World) :
  (within_dest destDir (filepath_Join [destDir; zf_Name f]) = true ->
   P_writes P (filepath_Join [destDir; zf_Name f])) ->
  extends_with P w (fst (extractZipFile env f destDir w)).
Proof.
  intros HP. unfold extractZipFile.
  destruct (within_dest destDir (filepath_Join [destDir; zf_Name f])) eqn:Hin; simpl;
    [| apply extends_refl].
  destruct (HP eq_refl) as [Hopen Hwrite].
  destruct (zf_IsDir f); [apply os_MkdirAll_extends, P_quiet; reflexivity |].
  pose proof (os_MkdirAll_extends env P (filepath_Dir (filepath_Join [destDir; zf_Name f]))
                ModePerm w (P_quiet (EvFs (OpMkdirAll _ _)) eq_refl)) as H1.
  destruct (os_MkdirAll env _ ModePerm w) as [w1 [e1|]]; [exact H1 |]. simpl in H1.
  pose proof (os_OpenFile_extends env P (filepath_Join [destDir; zf_Name f])
                (Z.lor O_WRONLY (Z.lor O_CREATE O_TRUNC)) (zf_Mode f) w1 (Hopen _ _)) as H2.
  destruct (os_OpenFile env _ _ (zf_Mode f) w1) as [w2 [e2|]]; simpl in H2;
    [eapply extends_trans; eassumption |].
  assert (H12 : extends_with P w w2) by (eapply extends_trans; eassumption).
  destruct (zf_OpenErr f) as [e3|]; simpl.
  - eapply extends_trans; [exact H12 |]. first [apply file_Close_extends | apply extends_emit]; apply P_quiet; reflexivity.
  - pose proof (copy_to_file_extends env P (filepath_Join [destDir; zf_Name f])
                  (zf_Data f) (zf_ReadErr f) w2 Hwrite) as H3.
    destruct (copy_to_file env _ (zf_Data f) (zf_ReadErr f) w2) as [w3 err3]. simpl in *.
    eapply extends_trans; [exact H12 |]. eapply extends_trans; [exact H3 |].
    first [apply file_Close_extends | apply extends_emit]; apply P_quiet; reflexivity.
Qed.

Lemma extractZip_files_extends (files : list zip_File) (destDir : string) (w : World) :
  (forall name, within_dest destDir (filepath_Join [destDir; name]) = true ->
     P_writes P (filepath_Join [destDir; name])) ->
  extends_with P w (fst (extractZip_files env files destDir w)).
Proof.
  intros HP. revert w. induction files as [|f rest IH]; intros w; simpl; [apply extends_refl |].
  pose proof (extractZipFile_extends f destDir w (HP _)) as H1.
  destruct (extractZipFile env f destDir w) as [w1 [e1|]]; simpl in *; [exact H1 |].
  eapply extends_trans; [exact H1 | apply IH].
Qed.

Lemma zip_OpenReader_extends (path : string) (w : World) :
  extends_with P w (fst (zip_OpenReader env zip_decode path w)).
Proof.
  unfold zip_OpenReader.
  pose proof (os_ReadFile_extends env P path w (P_quiet (EvFs (OpReadFile _)) eq_refl)) as H1.
  destruct (os_ReadFile env path w) as [w1 [data [e1|]]]; simpl in *; [exact H1 |].
  destruct (zip_decode data); exact H1.
Qed.

Lemma extractZip_extends (zipPath destDir : string) (w : World) :
  (forall name, within_dest destDir (filepath_Join [destDir; name]) = true ->
     P_writes P (filepath_Join [destDir; name])) ->
  extends_with P w (fst (extractZip env zip_decode zipPath destDir w)).
Proof.
  intros HP. unfold extractZip.
  pose proof (zip_OpenReader_extends zipPath w) as H1.
  destruct (zip_OpenReader env zip_decode zipPath w) as [w1 [files [e1|]]]; simpl in *;
    [exact H1 |].
  eapply extends_trans; [exact H1 | now apply extractZip_files_extends].
Qed.

Lemma os_Create_extends (path : string) (w : World) :
  P_writes P path -> extends_with P w (fst (os_Create env path w)).
Proof. intros [Hopen _]. unfold os_Create. apply os_OpenFile_extends, Hopen. Qed.

Lemma extractTarGz_items_extends (items : list tar_Item) (destDir : string) (w : World) :
  (forall name, within_dest destDir (filepath_Join [destDir; name]) = true ->
     P_writes P (filepath_Join [destDir; name])) ->
  extends_with P w (fst (extractTarGz_items env items destDir w)).
Proof.
  intros HP. revert w.
  induction items as [|[header data readErr | e] rest IH]; intros w; simpl;
    [apply extends_refl | | apply extends_refl].
  destruct (within_dest destDir (filepath_Join [destDir; th_Name header])) eqn:Hin; simpl;
    [| apply extends_refl].
  pose proof (HP _ Hin) as Hw.
  destruct (Ascii.eqb (th_Typeflag header) tar_TypeDir).
  { pose proof (os_MkdirAll_extends env P (filepath_Join [destDir; th_Name header]) 493 w
                  (P_quiet (EvFs (OpMkdirAll _ _)) eq_refl)) as H1.
    destruct (os_MkdirAll env _ 493 w) as [w1 [e1|]]; simpl in *; [exact H1 |].
    eapply extends_trans; [exact H1 | apply IH]. }
  destruct (Ascii.eqb (th_Typeflag header) tar_TypeReg); [| apply IH].
  pose proof (os_MkdirAll_extends env P (filepath_Dir (filepath_Join [destDir; th_Name header]))
                493 w (P_quiet (EvFs (OpMkdirAll _ _)) eq_refl)) as H1.
  destruct (os_MkdirAll env _ 493 w) as [w1 [e1|]]; simpl in *; [exact H1 |].
  pose proof (os_Create_extends (filepath_Join [destDir; th_Name header]) w1 Hw) as H2.
  destruct (os_Create env _ w1) as [w2 [e2|]]; simpl in *;
    [eapply extends_trans; eassumption |].
  pose proof (copy_to_file_extends env P (filepath_Join [destDir; th_Name header])
                data readErr w2 (proj2 Hw)) as H3.
  destruct (copy_to_file env _ data readErr w2) as [w3 err3]. simpl in *.
  assert (H4 : extends_with P w (fst (file_Close env (filepath_Join [destDir; th_Name header]) w3))).
  { eapply extends_trans; [exact H1 |]. eapply extends_trans; [exact H2 |].
    eapply extends_trans; [exact H3 |]. first [apply file_Close_extends | apply extends_emit]; apply P_quiet; reflexivity. }
  destruct err3 as [e3|]; simpl; [exact H4 |].
  eapply extends_trans; [exact H4 | apply IH].
Qed.

Lemma targz_open_extends (path : string) (w : World) :
  extends_with P w (fst (targz_open env targz_decode path w)).
Proof.
  unfold targz_open.
  pose proof (os_ReadFile_extends env P path w (P_quiet (EvFs (OpReadFile _)) eq_refl)) as H1.
  destruct (os_ReadFile env path w) as [w1 [data [e1|]]]; simpl in *; [exact H1 |].
  destruct (targz_decode data); exact H1.
Qed.

Lemma extractTarGz_extends (tarGzPath destDir : string) (w : World) :
  (forall name, within_dest destDir (filepath_Join [destDir; name]) = true ->
     P_writes P (filepath_Join [destDir; name])) ->
  extends_with P w (fst (extractTarGz env targz_decode tarGzPath destDir w)).
Proof.
  intros HP. unfold extractTarGz.
  pose proof (targz_open_extends tarGzPath w) as H1.
  destruct (targz_open env targz_decode tarGzPath w) as [w1 [items [e1|]]]; simpl in *;
    [exact H1 |].
  eapply extends_trans; [exact H1 | now apply extractTarGz_items_extends].
Qed.

Lemma ExtractArchive_extends (archivePath destDir : string) (w : World) :
  (forall name, within_dest destDir (filepath_Join [destDir; name]) = true ->
     P_writes P (filepath_Join [destDir; name])) ->
  extends_with P w
    (fst (ExtractArchive env zip_decode targz_decode strings_ToLower archivePath destDir w)).
Proof.
  intros HP. unfold ExtractArchive, EnsureDir.
  pose proof (os_MkdirAll_extends env P destDir 493 w (P_quiet (EvFs (OpMkdirAll _ _)) eq_refl)) as H1.
  destruct (os_MkdirAll env destDir 493 w) as [w1 [e1|]]; simpl in *; [exact H1 |].
  destruct (decide (strings_ToLower (filepath_Ext archivePath) = ".zip")) as [_ | _].
  { eapply extends_trans; [exact H1 | now apply extractZip_extends]. }
  destruct (decide (strings_ToLower (filepath_Ext archivePath) = ".gz")) as [_ | _].
  { eapply extends_trans; [exact H1 | now apply extractTarGz_extends]. }
  destruct (decide (strings_ToLower (filepath_Ext archivePath) = ".tgz")) as [_ | _].
  { eapply extends_trans; [exact H1 | now apply extractTarGz_extends]. }
  exact H1.
Qed.

End ArchiveFacts.

(** ** Whole-archive extraction (C1) *)

Section Rejection.

Variable env : Env.

Lemma extractZipFile_rejects (f : zip_File) (destDir : string) (w : World) :
  within_dest destDir (filepath_Join [destDir; zf_Name f]) = false ->
  extractZipFile env f destDir w
  = (w, Some (fmt_Errorf "invalid file path: %s"
                [ArgString (filepath_Join [destDir; zf_Name f])])).
Proof. intros H. unfold extractZipFile. now rewrite H. Qed.

Lemma extractTarGz_items_rejects (header : tar_Header) (data : list string)
    (readErr : option error) (rest : list tar_Item) (destDir : string) (w : World) :
  within_dest destDir (filepath_Join [destDir; th_Name header]) = false ->
  extractTarGz_items env (TarEntry header data readErr :: rest) destDir w
  = (w, Some (fmt_Errorf "invalid file path: %s"
                [ArgString (filepath_Join [destDir; th_Name header])])).
Proof. intros H. simpl. now rewrite H. Qed.

Lemma extractZip_files_fails (files : list zip_File) (destDir : string) (w : World) :
  Exists (fun f => within_dest destDir (filepath_Join [destDir; zf_Name f]) = false) files ->
  snd (extractZip_files env files destDir w) <> None.
Proof.
  intros H. revert w. induction H as [f rest Hf | f rest _ IH]; intros w; simpl.
  - now rewrite (extractZipFile_rejects f destDir w Hf).
  - destruct (extractZipFile env f destDir w) as [w1 [e1|]]; [discriminate | apply IH].
Qed.

Lemma extractTarGz_items_fails (items : list tar_Item) (destDir : string) (w : World) :
  Exists (fun it => match it with
                    | TarEntry header _ _ =>
                        within_dest destDir (filepath_Join [destDir; th_Name header]) = false
                    | TarError _ => False
                    end) items ->
  snd (extractTarGz_items env items destDir w) <> None.
Proof.
  intros H. revert w.
  induction H as [[header data readErr | e] rest Hf | [header data readErr | e] rest _ IH];
    intros w.
  - now rewrite (extractTarGz_items_rejects header data readErr rest destDir w Hf).
  - destruct Hf.
  - simpl. destruct (negb (within_dest destDir (filepath_Join [destDir; th_Name header])));
      [discriminate |].
    destruct (Ascii.eqb (th_Typeflag header) tar_TypeDir).
    { destruct (os_MkdirAll env _ 493 w) as [w1 [e1|]]; [discriminate | apply IH]. }
    destruct (Ascii.eqb (th_Typeflag header) tar_TypeReg); [| apply IH].
    destruct (os_MkdirAll env _ 493 w) as [w1 [e1|]]; [discriminate |].
    destruct (os_Create env _ w1) as [w2 [e2|]]; [discriminate |].
    destruct (copy_to_file env _ data readErr w2) as [w3 [e3|]]; [discriminate | apply IH].
  - discriminate.
Qed.

End Rejection.

Lemma stays_inside_quiet (cwd : list string) (destDir : string) (e : Event) :
  written_path e = None -> stays_inside cwd destDir e.
Proof. intros H p Hp. congruence. Qed.

Lemma outside_fails_check (cwd : list string) (destDir name : string) :
  filepath_Base (filepath_Clean destDir) <> ".." ->
  inside cwd destDir (filepath_Join [destDir; name]) = false ->
  within_dest destDir (filepath_Join [destDir; name]) = false.
Proof.
  intros Hbase Hout.
  destruct (within_dest destDir (filepath_Join [destDir; name])) eqn:E; [| reflexivity].
  rewrite (within_dest_inside cwd _ _ E Hbase) in Hout. discriminate.
Qed.

(** C1, as amended.  For a destination directory whose cleaned form does
    not end in [..]: an entry of a ZIP archive or of a tar stream whose
    stored name, joined to the destination, names a place that is not
    inside the destination is rejected with the error [invalid file path]
    before anything is written for it; an archive with such an entry fails
    as a whole; and whatever [ExtractArchive] does, no file that it creates
    or writes to lies outside the destination.  An absolute stored name is
    not rejected as such: it is joined like the same name without its
    leading separator, that is, under the destination. *)
Theorem extraction_confined
    (env : Env) (zip_decode : string -> option (list zip_File))
    (targz_decode : string -> option (list tar_Item)) (strings_ToLower : string -> string)
    (cwd : list string) (destDir : string) :
  filepath_Base (filepath_Clean destDir) <> ".." ->
  (forall f w,
      inside cwd destDir (filepath_Join [destDir; zf_Name f]) = false ->
      extractZipFile env f destDir w
      = (w, Some (fmt_Errorf "invalid file path: %s"
                    [ArgString (filepath_Join [destDir; zf_Name f])])))
  /\ (forall header data readErr rest w,
      inside cwd destDir (filepath_Join [destDir; th_Name header]) = false ->
      extractTarGz_items env (TarEntry header data readErr :: rest) destDir w
      = (w, Some (fmt_Errorf "invalid file path: %s"
                    [ArgString (filepath_Join [destDir; th_Name header])])))
  /\ (forall files w,
      Exists (fun f => inside cwd destDir (filepath_Join [destDir; zf_Name f]) = false) files ->
      snd (extractZip_files env files destDir w) <> None)
  /\ (forall items w,
      Exists (tar_item_outside cwd destDir) items ->
      snd (extractTarGz_items env items destDir w) <> None)
  /\ (forall archivePath w,
      Forall (stays_inside cwd destDir)
        (new_events w
           (fst (ExtractArchive env zip_decode targz_decode strings_ToLower
                   archivePath destDir w))))
  /\ (forall name,
      destDir <> "" ->
      filepath_Join [destDir; "/" +:+ name] = filepath_Join [destDir; name]).
Proof.
  intros Hbase. repeat split.
  - intros f w Hout. apply extractZipFile_rejects. now apply (outside_fails_check cwd).
  - intros header data readErr rest w Hout. apply extractTarGz_items_rejects.
    now apply (outside_fails_check cwd).
  - intros files w Hex. apply extractZip_files_fails.
    eapply List.Exists_impl; [| exact Hex]. intros f Hf. now apply (outside_fails_check cwd).
  - intros items w Hex. apply extractTarGz_items_fails.
    eapply List.Exists_impl; [| exact Hex].
    intros [header data readErr | e] Hf; [| exact Hf].
    now apply (outside_fails_check cwd).
  - intros archivePath w. apply new_events_extends, ExtractArchive_extends.
    + apply stays_inside_quiet.
    + intros name Hin. pose proof (within_dest_inside cwd _ _ Hin Hbase) as Hi.
      split; intros; intros p Hp; simpl in Hp; injection Hp as <-; exact Hi.
  - intros name Hd. now apply Join_absolute_name.
Qed.

(** At the destination [dest], the entry [../../etc/passwd] is rejected
    and leaves the world as it was. *)
Lemma extraction_confined_witness :
  filepath_Base (filepath_Clean "dest") <> ".."
  /\ extractZipFile calm (plain_entry "../../etc/passwd" ["root"]) "dest" empty_world
     = (empty_world, Some (fmt_Errorf "invalid file path: %s" [ArgString "../etc/passwd"])).
Proof.
  assert (H : filepath_Base (filepath_Clean "dest") <> "..") by (vm_compute; discriminate).
  split; [exact H |].
  exact (proj1 (extraction_confined calm (fun _ => None) (fun _ => None) lower_ascii
                  ["home"] "dest" H)
           (plain_entry "../../etc/passwd" ["root"]) empty_world eq_refl).
Defined.

(** C1 as stated fails on absolute names: the entry [/etc/passwd] is not
    rejected; it is written to [dest/etc/passwd]. *)
Lemma absolute_entry_name_is_accepted :
  snd (extractZipFile calm (plain_entry "/etc/passwd" ["root"]) "dest" empty_world) = None
  /\ omap written_path
       (log (fst (extractZipFile calm (plain_entry "/etc/passwd" ["root"]) "dest" empty_world)))
     = ["dest/etc/passwd"; "dest/etc/passwd"].
Proof. split; vm_compute; reflexivity. Qed.

(** The case that the theorem leaves out: at the destination [..] the
    check lets the entry [../x] through, which is then written outside. *)
Example dotdot_destination_lets_entries_out :
  snd (extractZipFile calm (plain_entry "../x" ["data"]) ".." empty_world) = None
  /\ omap written_path
       (log (fst (extractZipFile calm (plain_entry "../x" ["data"]) ".." empty_world)))
     = ["../../x"; "../../x"]
  /\ inside ["home"; "user"] ".." "../../x" = false.
Proof. repeat split; vm_compute; reflexivity. Qed.

(** ** Single-entry extraction (C9) *)

Section SpecificFacts.

Variable env : Env.
Variable zip_decode : string -> option (list zip_File).
Variable targz_decode : string -> option (list tar_Item).
Variable strings_ToLower : string -> string.
Variable P : Event -> Prop.
Hypothesis P_quiet : forall e, written_path e = None -> P e.

Lemma extractSpecificFromZip_files_extends (files : list zip_File)
    (internalPath destDir : string) (w : World) :
  P_writes P (filepath_Join [destDir; filepath_Base internalPath]) ->
  extends_with P w (fst (extractSpecificFromZip_files env files internalPath destDir w)).
Proof.
  intros [Hopen Hwrite]. revert w.
  induction files as [|f rest IH]; intros w; simpl; [apply extends_refl |].
  destruct (decide (zf_Name f = internalPath)) as [_ | _]; [| apply IH].
  pose proof (os_MkdirAll_extends env P
                (filepath_Dir (filepath_Join [destDir; filepath_Base internalPath]))
                ModePerm w (P_quiet (EvFs (OpMkdirAll _ _)) eq_refl)) as H1.
  destruct (os_MkdirAll env _ ModePerm w) as [w1 [e1|]]; simpl in *; [exact H1 |].
  pose proof (os_OpenFile_extends env P (filepath_Join [destDir; filepath_Base internalPath])
                (Z.lor O_WRONLY (Z.lor O_CREATE O_TRUNC)) (zf_Mode f) w1 (Hopen _ _)) as H2.
  destruct (os_OpenFile env _ _ (zf_Mode f) w1) as [w2 [e2|]]; simpl in *;
    [eapply extends_trans; eassumption |].
  assert (H12 : extends_with P w w2) by (eapply extends_trans; eassumption).
  destruct (zf_OpenErr f) as [e3|]; simpl.
  - eapply extends_trans; [exact H12 |]. apply extends_emit, P_quiet. reflexivity.
  - pose proof (copy_to_file_extends env P _ (zf_Data f) (zf_ReadErr f) w2 Hwrite) as H3.
    destruct (copy_to_file env _ (zf_Data f) (zf_ReadErr f) w2) as [w3 err3]. simpl in *.
    assert (H4 : extends_with P w
                   (emit (EvFs (OpClose (filepath_Join [destDir; filepath_Base internalPath]))) w3)).
    { eapply extends_trans; [exact H12 |]. eapply extends_trans; [exact H3 |].
      apply extends_emit, P_quiet. reflexivity. }
    destruct err3; exact H4.
Qed.

Lemma extractSpecificFromZip_files_result (files : list zip_File)
    (internalPath destDir p : string) (w : World) :
  snd (extractSpecificFromZip_files env files internalPath destDir w) = (p, None) ->
  p = filepath_Join [destDir; filepath_Base internalPath].
Proof.
  revert w. induction files as [|f rest IH]; intros w; simpl; [discriminate |].
  destruct (decide (zf_Name f = internalPath)) as [_ | _]; [| apply IH].
  destruct (os_MkdirAll env _ ModePerm w) as [w1 [e1|]]; simpl; [discriminate |].
  destruct (os_OpenFile env _ _ (zf_Mode f) w1) as [w2 [e2|]]; simpl; [discriminate |].
  destruct (zf_OpenErr f) as [e3|]; simpl; [discriminate |].
  destruct (copy_to_file env _ (zf_Data f) (zf_ReadErr f) w2) as [w3 [e4|]]; simpl;
    [discriminate |].
  intros H. now injection H as <-.
Qed.

Lemma extractSpecificFromTarGz_items_extends (items : list tar_Item)
    (internalPath destDir : string) (w : World) :
  P_writes P (filepath_Join [destDir; filepath_Base internalPath]) ->
  extends_with P w (fst (extractSpecificFromTarGz_items env items internalPath destDir w)).
Proof.
  intros Hw. revert w.
  induction items as [|[header data readErr | e] rest IH]; intros w; simpl;
    [apply extends_refl | | apply extends_refl].
  destruct (bool_decide (th_Name header = internalPath)
            && Ascii.eqb (th_Typeflag header) tar_TypeReg); [| apply IH].
  pose proof (os_MkdirAll_extends env P
                (filepath_Dir (filepath_Join [destDir; filepath_Base internalPath]))
                493 w (P_quiet (EvFs (OpMkdirAll _ _)) eq_refl)) as H1.
  destruct (os_MkdirAll env _ 493 w) as [w1 [e1|]]; simpl in *; [exact H1 |].
  pose proof (os_Create_extends env P _ w1 Hw) as H2.
  destruct (os_Create env _ w1) as [w2 [e2|]]; simpl in *;
    [eapply extends_trans; eassumption |].
  pose proof (copy_to_file_extends env P _ data readErr w2 (proj2 Hw)) as H3.
  destruct (copy_to_file env _ data readErr w2) as [w3 err3]. simpl in *.
  assert (H4 : extends_with P w
                 (emit (EvFs (OpClose (filepath_Join [destDir; filepath_Base internalPath]))) w3)).
  { eapply extends_trans; [exact H1 |]. eapply extends_trans; [exact H2 |].
    eapply extends_trans; [exact H3 |]. apply extends_emit, P_quiet. reflexivity. }
  destruct err3; exact H4.
Qed.

Lemma extractSpecificFromTarGz_items_result (items : list tar_Item)
    (internalPath destDir p : string) (w : World) :
  snd (extractSpecificFromTarGz_items env items internalPath destDir w) = (p, None) ->
  p = filepath_Join [destDir; filepath_Base internalPath].
Proof.
  revert w. induction items as [|[header data readErr | e] rest IH]; intros w; simpl;
    [discriminate | | discriminate].
  destruct (bool_decide (th_Name header = internalPath)
            && Ascii.eqb (th_Typeflag header) tar_TypeReg); [| apply IH].
  destruct (os_MkdirAll env _ 493 w) as [w1 [e1|]]; simpl; [discriminate |].
  destruct (os_Create env _ w1) as [w2 [e2|]]; simpl; [discriminate |].
  destruct (copy_to_file env _ data readErr w2) as [w3 [e4|]]; simpl; [discriminate |].
  intros H. now injection H as <-.
Qed.

Lemma extractSpecificFromZip_extends (zipPath internalPath destDir : string) (w : World) :
  P_writes P (filepath_Join [destDir; filepath_Base internalPath]) ->
  extends_with P w (fst (extractSpecificFromZip env zip_decode zipPath internalPath destDir w)).
Proof.
  intros Hw. unfold extractSpecificFromZip.
  pose proof (zip_OpenReader_extends env zip_decode P P_quiet zipPath w) as H1.
  destruct (zip_OpenReader env zip_decode zipPath w) as [w1 [files [e1|]]]; simpl in *;
    [exact H1 |].
  eapply extends_trans; [exact H1 | now apply extractSpecificFromZip_files_extends].
Qed.

Lemma extractSpecificFromZip_result (zipPath internalPath destDir p : string) (w : World) :
  snd (extractSpecificFromZip env zip_decode zipPath internalPath destDir w) = (p, None) ->
  p = filepath_Join [destDir; filepath_Base internalPath].
Proof.
  unfold extractSpecificFromZip.
  destruct (zip_OpenReader env zip_decode zipPath w) as [w1 [files [e1|]]]; simpl;
    [discriminate | apply extractSpecificFromZip_files_result].
Qed.

Lemma extractSpecificFromTarGz_extends (tarGzPath internalPath destDir : string) (w : World) :
  P_writes P (filepath_Join [destDir; filepath_Base internalPath]) ->
  extends_with P w
    (fst (extractSpecificFromTarGz env targz_decode tarGzPath internalPath destDir w)).
Proof.
  intros Hw. unfold extractSpecificFromTarGz.
  pose proof (targz_open_extends env targz_decode P P_quiet tarGzPath w) as H1.
  destruct (targz_open env targz_decode tarGzPath w) as [w1 [items [e1|]]]; simpl in *;
    [exact H1 |].
  eapply extends_trans; [exact H1 | now apply extractSpecificFromTarGz_items_extends].
Qed.

Lemma extractSpecificFromTarGz_result (tarGzPath internalPath destDir p : string) (w : World) :
  snd (extractSpecificFromTarGz env targz_decode tarGzPath internalPath destDir w) = (p, None) ->
  p = filepath_Join [destDir; filepath_Base internalPath].
Proof.
  unfold extractSpecificFromTarGz.
  destruct (targz_open env targz_decode tarGzPath w) as [w1 [items [e1|]]]; simpl;
    [discriminate | apply extractSpecificFromTarGz_items_result].
Qed.

End SpecificFacts.

Lemma writes_only_quiet (target : string) (e : Event) :
  written_path e = None -> writes_only target e.
Proof. intros H p Hp. congruence. Qed.

Lemma writes_only_target (target : string) : P_writes (writes_only target) target.
Proof. split; intros; intros p Hp; simpl in Hp; now injection Hp as <-. Qed.

Lemma Base_proper_name (path : string) :
  filepath_Base path <> "." -> filepath_Base path <> ".." -> filepath_Base path <> "/" ->
  proper_name (filepath_Base path).
Proof.
  intros H1 H2 H3. destruct (Base_shape path) as [E | [Hne Hfree]]; [congruence |].
  repeat split; assumption.
Qed.

(** C9, as amended.  Single-entry extraction from a ZIP archive and from a
    tar stream creates or writes to no file but the join of the
    destination directory with the [Base] of the internal name, and on
    success returns exactly that path.  When that [Base] is a name proper
    (not [.], [..] or [/]) the path is an entry of the destination
    directory itself. *)
Theorem single_entry_target
    (env : Env) (zip_decode : string -> option (list zip_File))
    (targz_decode : string -> option (list tar_Item))
    (cwd : list string) (archivePath internalPath destDir : string) (w : World) :
  Forall (writes_only (filepath_Join [destDir; filepath_Base internalPath]))
    (new_events w
       (fst (extractSpecificFromZip env zip_decode archivePath internalPath destDir w)))
  /\ Forall (writes_only (filepath_Join [destDir; filepath_Base internalPath]))
       (new_events w
          (fst (extractSpecificFromTarGz env targz_decode archivePath internalPath destDir w)))
  /\ (forall p,
        snd (extractSpecificFromZip env zip_decode archivePath internalPath destDir w)
        = (p, None) ->
        p = filepath_Join [destDir; filepath_Base internalPath])
  /\ (forall p,
        snd (extractSpecificFromTarGz env targz_decode archivePath internalPath destDir w)
        = (p, None) ->
        p = filepath_Join [destDir; filepath_Base internalPath])
  /\ (filepath_Base internalPath <> "." -> filepath_Base internalPath <> ".." ->
      filepath_Base internalPath <> "/" ->
      directly_inside cwd destDir (filepath_Join [destDir; filepath_Base internalPath]) = true).
Proof.
  repeat split.
  - apply new_events_extends, extractSpecificFromZip_extends;
      [apply writes_only_quiet | apply writes_only_target].
  - apply new_events_extends, extractSpecificFromTarGz_extends;
      [apply writes_only_quiet | apply writes_only_target].
  - intros p Hp. eapply extractSpecificFromZip_result. exact Hp.
  - intros p Hp. eapply extractSpecificFromTarGz_result. exact Hp.
  - intros H1 H2 H3. apply Join_name_directly_inside. now apply Base_proper_name.
Qed.

(** The entry [docs/readme.txt] goes to [out/readme.txt], an entry of
    [out]. *)
Lemma single_entry_target_witness :
  (filepath_Base "docs/readme.txt" <> "." /\ filepath_Base "docs/readme.txt" <> ".."
   /\ filepath_Base "docs/readme.txt" <> "/")
  /\ directly_inside ["home"] "out" (filepath_Join ["out"; filepath_Base "docs/readme.txt"])
     = true.
Proof.
  assert (H1 : filepath_Base "docs/readme.txt" <> ".") by (vm_compute; discriminate).
  assert (H2 : filepath_Base "docs/readme.txt" <> "..") by (vm_compute; discriminate).
  assert (H3 : filepath_Base "docs/readme.txt" <> "/") by (vm_compute; discriminate).
  split; [repeat split; assumption |].
  exact (proj2 (proj2 (proj2 (proj2
           (single_entry_target calm (fun _ => None) (fun _ => None) ["home"]
              "a.zip" "docs/readme.txt" "out" empty_world)))) H1 H2 H3).
Defined.

(** C9 as stated fails on an internal name that ends in [..]: for
    [a/..] the one file that extraction opens for writing is [.], the
    parent of the destination [out] and no entry of it.  (The operating
    system refuses to open a directory for writing, so the call fails.) *)
Lemma dotdot_entry_targets_the_parent :
  filepath_Join ["out"; filepath_Base "a/.."] = "."
  /\ omap written_path
       (new_events world_with_archive
          (fst (ExtractSpecificFile calm dotdot_archive (fun _ => None) lower_ascii
                  "a.zip" "a/.." "out" world_with_archive)))
     = ["."]
  /\ directly_inside ["home"] "out" "." = false
  /\ snd (ExtractSpecificFile calm dotdot_archive (fun _ => None) lower_ascii
            "a.zip" "a/.." "out" world_with_archive)
     = ("", Some EISDIR).
Proof. repeat split; vm_compute; reflexivity. Qed.

(** ** The entry marker (C8) *)

Lemma cut_byte_Some (sep : ascii) (s before after : string) :
  cut_byte sep s = Some (before, after) <->
  s = before +:+ String sep after
  /\ all_bytes (fun c => negb (Ascii.eqb c sep)) before = true.
Proof.
  revert before. induction s as [|c s IH]; intros before; simpl.
  - split; [discriminate |]. intros [H _]. destruct before; discriminate.
  - destruct (Ascii.eqb c sep) eqn:Hc.
    + apply Ascii.eqb_eq in Hc as ->. split.
      * intros H. injection H as <- <-. now split.
      * intros [H Hfree]. destruct before as [|d before]; simpl in H.
        -- now injection H as <-.
        -- injection H as <- _. simpl in Hfree. now rewrite Ascii.eqb_refl in Hfree.
    + destruct (cut_byte sep s) as [[b a]|] eqn:Hcut.
      * split.
        -- intros H. injection H as <- <-. destruct (proj1 (IH b) eq_refl) as [-> Hfree].
           split; [reflexivity |]. simpl. now rewrite Hc, Hfree.
        -- intros [H Hfree]. destruct before as [|d before]; simpl in H.
           ++ injection H as -> _. now rewrite Ascii.eqb_refl in Hc.
           ++ injection H as <- H. simpl in Hfree. apply andb_true_iff in Hfree as [_ Hfree].
              pose proof (proj2 (IH before) (conj H Hfree)) as E.
              injection E as -> ->. reflexivity.
      * split; [discriminate |]. intros [H Hfree].
        destruct before as [|d before]; simpl in H.
        -- injection H as -> _. now rewrite Ascii.eqb_refl in Hc.
        -- injection H as <- H. simpl in Hfree. apply andb_true_iff in Hfree as [_ Hfree].
           pose proof (proj2 (IH before) (conj H Hfree)). discriminate.
Qed.

Lemma cut_byte_None (sep : ascii) (s : string) :
  cut_byte sep s = None <-> all_bytes (fun c => negb (Ascii.eqb c sep)) s = true.
Proof.
  induction s as [|c s IH]; simpl; [tauto |].
  destruct (Ascii.eqb c sep); simpl; [split; discriminate |].
  destruct (cut_byte sep s) as [[b a]|]; [| tauto].
  split; [discriminate |]. intros H. apply IH in H. discriminate.
Qed.

(** C8, as amended.  [ParseArchivePath] reports an internal entry exactly
    when the identifier contains the marker [!]; the archive path is then
    the text before the first marker and the internal entry the text
    after it, as it stands, which is empty when the first marker is the
    last byte.  Without a marker the identifier comes back whole, with an
    empty entry. *)
Theorem ParseArchivePath_splits_at_first_marker (path archivePath internalPath : string) :
  (ParseArchivePath path = (archivePath, internalPath, true) <->
   path = archivePath +:+ "!" +:+ internalPath /\ marker_free archivePath = true)
  /\ (ParseArchivePath path = (archivePath, internalPath, false) <->
      marker_free path = true /\ archivePath = path /\ internalPath = "")
  /\ (ParseArchivePath path = (archivePath, internalPath, true) ->
      (internalPath = "" <-> path = archivePath +:+ "!")).
Proof.
  unfold ParseArchivePath, strings_SplitN2, marker_free.
  assert (Hcut_intro : forall x y,
             all_bytes (fun c => negb (Ascii.eqb c "!")) x = true ->
             cut_byte "!" (x +:+ String "!" y) = Some (x, y))
    by (intros x y Hx; apply cut_byte_Some; now split).
  destruct (cut_byte "!" path) as [[b a]|] eqn:Hcut.
  - apply cut_byte_Some in Hcut as [Hpath Hfree].
    split; [| split].
    + split.
      * intros H. injection H as <- <-. now split.
      * intros [H1 H2]. simpl in H1.
        pose proof (Hcut_intro archivePath internalPath H2) as E.
        rewrite <- H1, Hpath, (Hcut_intro b a Hfree) in E. now injection E as -> ->.
    + split; [discriminate |].
      intros (H & _ & _). exfalso. apply cut_byte_None in H.
      rewrite Hpath, (Hcut_intro b a Hfree) in H. discriminate.
    + intros H. injection H as <- <-. split.
      * intros ->. exact Hpath.
      * intros H'. rewrite Hpath in H'. apply append_cancel_l in H'. now injection H'.
  - split; [| split].
    + split; [discriminate |].
      intros [H1 H2]. exfalso. simpl in H1.
      rewrite H1, (Hcut_intro archivePath internalPath H2) in Hcut. discriminate.
    + split.
      * intros H. injection H as <- <-. apply cut_byte_None in Hcut. now repeat split.
      * intros (_ & -> & ->). reflexivity.
    + discriminate.
Qed.

(** C8 as stated fails: [a.zip!] has the marker and an empty entry. *)
Lemma marker_with_empty_entry :
  ParseArchivePath "a.zip!" = ("a.zip", "", true).
Proof. reflexivity. Qed.

(** The rows of [TestParseArchivePath]. *)
Example ParseArchivePath_tests :
  ParseArchivePath "model.tar.gz!weights.th" = ("model.tar.gz", "weights.th", true)
  /\ ParseArchivePath "archive.zip!data/file.txt" = ("archive.zip", "data/file.txt", true)
  /\ ParseArchivePath "regular_file.txt" = ("regular_file.txt", "", false).
Proof. repeat split. Qed.

(** ** Basic authentication (C10) *)

Lemma apply_headers_nil_empty (req : http_Request) :
  apply_headers (Some ∅) req = apply_headers None req.
Proof. reflexivity. Qed.

(** C10.  [WithBasicAuth] reads neither the user name nor the password.
    It leaves every entry of the header map as it was, so it adds no
    [Authorization] entry; it leaves every other option as it was; after
    it the client and the header map are non-nil, the client being the
    old one or, if there was none, the zero [http.Client]; and a request
    built from the options after it has the headers of a request built
    from the options before it. *)
Theorem WithBasicAuth_carries_no_credentials (username password : string) (o : Options) :
  (forall key,
      match Headers (WithBasicAuth username password o) with Some m => m | None => ∅ end !! key
      = match Headers o with Some m => m | None => ∅ end !! key)
  /\ Headers (WithBasicAuth username password o)
     = Some (match Headers o with Some m => m | None => ∅ end)
  /\ HTTPClient (WithBasicAuth username password o)
     = Some (match HTTPClient o with Some c => c | None => http_Client_zero end)
  /\ (forall req,
        apply_headers (Headers (WithBasicAuth username password o)) req
        = apply_headers (Headers o) req)
  /\ (forall username' password',
        WithBasicAuth username' password' o = WithBasicAuth username password o)
  /\ (CacheDir (WithBasicAuth username password o) = CacheDir o
      /\ Options_ExtractArchive (WithBasicAuth username password o) = Options_ExtractArchive o
      /\ ForceExtract (WithBasicAuth username password o) = ForceExtract o
      /\ Quiet (WithBasicAuth username password o) = Quiet o
      /\ Progress (WithBasicAuth username password o) = Progress o
      /\ Timeout (WithBasicAuth username password o) = Timeout o
      /\ MaxRetries (WithBasicAuth username password o) = MaxRetries o
      /\ RetryDelay (WithBasicAuth username password o) = RetryDelay o).
Proof.
  destruct o as [cd ea fe q pr hd hc tm mr rd].
  unfold WithBasicAuth, set_HTTPClient, set_Headers.
  destruct hc as [c|], hd as [m|]; cbn [Headers HTTPClient CacheDir Options_ExtractArchive
    ForceExtract Quiet Progress Timeout MaxRetries RetryDelay];
    repeat split; try reflexivity; intros req; apply apply_headers_nil_empty.
Qed.

(** With no headers set, [WithBasicAuth "alice" "secret"] leaves a request
    without an [Authorization] header, where [WithAuth] puts one. *)
Example WithBasicAuth_request_has_no_Authorization :
  req_Header
    (apply_headers (Headers (WithBasicAuth "alice" "secret" default_options))
       {| Method := "GET"; URL := "https://example.com/f"; req_Header := ∅ |})
    !! "Authorization" = None
  /\ req_Header
       (apply_headers (Headers (WithAuth "token" default_options))
          {| Method := "GET"; URL := "https://example.com/f"; req_Header := ∅ |})
       !! "Authorization" = Some "Bearer token".
Proof. split; vm_compute; reflexivity. Qed.

(** ** The cache key (C5) *)

Lemma hex_byte_roundtrip (c : ascii) :
  unhex_byte (hex_digit (N.shiftr (N_of_ascii c) 4)) (hex_digit (N.land (N_of_ascii c) 15)) = c.
Proof. destruct c as [[] [] [] [] [] [] [] []]; reflexivity. Qed.

Lemma hex_EncodeToString_inj (a b : string) :
  hex_EncodeToString a = hex_EncodeToString b -> a = b.
Proof.
  revert b. induction a as [|c a IH]; intros [|d b] H; simpl in H; try discriminate.
  - reflexivity.
  - injection H as H1 H2 H3. f_equal; [| now apply IH].
    rewrite <- (hex_byte_roundtrip c), <- (hex_byte_roundtrip d). now rewrite H1, H2.
Qed.

Lemma hex_EncodeToString_length (a : string) :
  String.length (hex_EncodeToString a) = (2 * String.length a)%nat.
Proof. induction a as [|c a IH]; simpl; [reflexivity | rewrite IH; lia]. Qed.

Lemma string_of_list_ascii_length (l : list ascii) :
  String.length (string_of_list_ascii l) = List.length l.
Proof. induction l as [|c l IH]; simpl; [reflexivity | now rewrite IH]. Qed.

Lemma word_bytes_length (x : Z) : List.length (word_bytes x) = 4%nat.
Proof. reflexivity. Qed.

(** A digest has 32 bytes. *)
Lemma sha256_Sum_length (msg : string) : String.length (sha256_Sum msg) = 32%nat.
Proof.
  unfold sha256_Sum, string_of_bytes.
  rewrite string_of_list_ascii_length, List.length_map.
  rewrite !List.length_app, !word_bytes_length. reflexivity.
Qed.

Lemma append_split_by_length (a b c d : string) :
  a +:+ b = c +:+ d -> String.length a = String.length c -> a = c /\ b = d.
Proof.
  revert c. induction a as [|x a IH]; intros [|y c] H Hlen; simpl in *; try discriminate.
  - auto.
  - injection H as -> H. injection Hlen as Hlen.
    destruct (IH c H Hlen) as [-> ->]. auto.
Qed.

Section KeyFacts.

Variable url_Parse : string -> option url_URL.

Lemma ResourceToFilename_eq (resourceURL etag : string) :
  ResourceToFilename url_Parse resourceURL etag
  = match url_Parse resourceURL with
    | Some u =>
        Some (hex_EncodeToString (sha256_Sum (resourceURL +:+ etag)) +:+ filepath_Ext (Path u))
    | None => None
    end.
Proof.
  unfold ResourceToFilename, hash_Sum, hash_Write, hash_New.
  change ("" +:+ resourceURL) with resourceURL.
  assert (E : (if decide (etag <> "") then resourceURL +:+ etag else resourceURL)
              = resourceURL +:+ etag).
  { destruct (decide (etag <> "")) as [_ | H]; [reflexivity |].
    destruct etag; [now rewrite append_nil_r | exfalso; apply H; discriminate]. }
  rewrite E. destruct (url_Parse resourceURL) as [u|]; [| reflexivity].
  destruct (decide (filepath_Ext (Path u) <> "")) as [_ | H]; [reflexivity |].
  destruct (filepath_Ext (Path u)); [now rewrite append_nil_r | exfalso; apply H; discriminate].
Qed.

Lemma ResourceToFilename_same_key (u e u' e' k : string) :
  ResourceToFilename url_Parse u e = Some k ->
  ResourceToFilename url_Parse u' e' = Some k ->
  sha256_Sum (u +:+ e) = sha256_Sum (u' +:+ e').
Proof.
  rewrite !ResourceToFilename_eq.
  destruct (url_Parse u) as [p|]; [| discriminate].
  destruct (url_Parse u') as [p'|]; [| discriminate].
  intros H1 H2. rewrite <- H1 in H2. apply (inj Some) in H2.
  apply append_split_by_length in H2 as [H2 _].
  - symmetry. now apply hex_EncodeToString_inj.
  - now rewrite !hex_EncodeToString_length, !sha256_Sum_length.
Qed.

End KeyFacts.

(** C5, as amended.  The cache key is a function of the identifier and the
    revision token alone: the hexadecimal SHA-256 digest of the identifier
    followed by the token, with the extension of the identifier's path
    appended (and no key at all, a panic, when the identifier does not
    parse).  Two pairs have the same key only if the digests of their
    concatenations are equal; changing the token alone, or the identifier
    alone, changes the concatenation that is digested. *)
Theorem ResourceToFilename_key
    (url_Parse : string -> option url_URL) (resourceURL etag : string) :
  ResourceToFilename url_Parse resourceURL etag
  = match url_Parse resourceURL with
    | Some u =>
        Some (hex_EncodeToString (sha256_Sum (resourceURL +:+ etag)) +:+ filepath_Ext (Path u))
    | None => None
    end
  /\ (forall resourceURL' etag' key,
        ResourceToFilename url_Parse resourceURL etag = Some key ->
        ResourceToFilename url_Parse resourceURL' etag' = Some key ->
        sha256_Sum (resourceURL +:+ etag) = sha256_Sum (resourceURL' +:+ etag'))
  /\ (forall etag', etag' <> etag -> resourceURL +:+ etag' <> resourceURL +:+ etag)
  /\ (forall resourceURL', resourceURL' <> resourceURL ->
        resourceURL' +:+ etag <> resourceURL +:+ etag).
Proof.
  split; [apply ResourceToFilename_eq |]. split; [| split].
  - intros u' e' k. apply ResourceToFilename_same_key.
  - intros e' Hne H. apply Hne. now apply append_cancel_l in H.
  - intros u' Hne H. apply Hne. now apply append_cancel_r in H.
Qed.

(** The two URLs of [TestResourceToFilename] have different digests with
    the tag [abc123], hence different keys. *)
Lemma ResourceToFilename_key_witness :
  sha256_Sum ("https://example.com/file.txt" +:+ "abc123")
  <> sha256_Sum ("https://example.com/other.txt" +:+ "abc123")
  /\ (forall key,
        ResourceToFilename url_Parse_plain "https://example.com/file.txt" "abc123" = Some key ->
        ResourceToFilename url_Parse_plain "https://example.com/other.txt" "abc123" <> Some key).
Proof.
  assert (H : sha256_Sum ("https://example.com/file.txt" +:+ "abc123")
              <> sha256_Sum ("https://example.com/other.txt" +:+ "abc123"))
    by (vm_compute; discriminate).
  split; [exact H |].
  intros key H1 H2. apply H.
  exact (proj1 (proj2 (ResourceToFilename_key url_Parse_plain
                         "https://example.com/file.txt" "abc123"))
           "https://example.com/other.txt" "abc123" key H1 H2).
Defined.

(** C5 as stated fails: these two pairs differ in both parts and have the
    same key, whatever the digest does, since their concatenations are
    the same text and neither path has an extension. *)
Lemma shifted_boundary_gives_same_key :
  ("http://h/a", "bc") <> ("http://h/ab", "c")
  /\ ResourceToFilename url_Parse_plain "http://h/a" "bc"
     = ResourceToFilename url_Parse_plain "http://h/ab" "c"
  /\ ResourceToFilename url_Parse_plain "http://h/a" "bc"
     = Some "f817e59476076fd804ed4be9141243599239a22707fb27e068636a8838263656".
Proof. split; [discriminate | split; vm_compute; reflexivity]. Qed.

(** The digest is SHA-256: the test vector of the standard. *)
Example sha256_abc :
  hex_EncodeToString (sha256_Sum "abc")
  = "ba7816bf8f01cfea414140de5dae2223b00361a396177a9cb410ff61f20015ad".
Proof. vm_compute. reflexivity. Qed.

(** ** The retry loop (C3, C6) *)

Section RetryFacts.

Variable env : Env.
Variable c : schemes_HTTPClient.
Variable req : http_Request.

Lemma log_backoff (attempt : Z) (w : World) :
  log (if 0 <? attempt then emit (EvSleep (duration_mul (retryDelay c) attempt)) w else w)
  = log w ++ backoff c attempt.
Proof.
  unfold backoff. destruct (0 <? attempt); simpl; [reflexivity | now rewrite app_nil_r].
Qed.

Lemma fs_backoff (attempt : Z) (w : World) :
  fs (if 0 <? attempt then emit (EvSleep (duration_mul (retryDelay c) attempt)) w else w) = fs w
  /\ past (if 0 <? attempt then emit (EvSleep (duration_mul (retryDelay c) attempt)) w else w)
     = past w.
Proof. destruct (0 <? attempt); simpl; auto. Qed.

(** The loop of [doRequestWithRetry] follows the retry policy and leaves
    the files alone. *)
Lemma attempts_run (fuel : nat) :
  forall (attempt : Z) (resp : option http_Response) (err : option error) (w : World),
    0 <= attempt <= maxRetries c ->
    fuel = Z.to_nat (maxRetries c + 1 - attempt) ->
    exists evs,
      log (fst (attempts env fuel c req attempt resp err w)) = log w ++ evs
      /\ fs (fst (attempts env fuel c req attempt resp err w)) = fs w
      /\ past (fst (attempts env fuel c req attempt resp err w)) = past w
      /\ retry_run env c req attempt (log w) evs
           (snd (attempts env fuel c req attempt resp err w)).
Proof.
  induction fuel as [|fuel IH]; intros attempt resp err w Hrange Hfuel; [lia |].
  simpl. destruct (attempt <=? maxRetries c) eqn:Hle; [| lia].
  pose proof (log_backoff attempt w) as Hlog.
  pose proof (fs_backoff attempt w) as [Hfs Hpast].
  set (w1 := if 0 <? attempt
             then emit (EvSleep (duration_mul (retryDelay c) attempt)) w else w) in *.
  rewrite Hlog.
  destruct (http_Do env (client c) (log w ++ backoff c attempt) req) as [r | e] eqn:Hanswer.
  - destruct (StatusCode r =? StatusOK) eqn:H200.
    { exists (backoff c attempt ++ [EvDo req]). simpl. rewrite Hlog, app_assoc.
      repeat split; try assumption.
      apply (run_final env c req attempt (log w) (inl r)); [now rewrite Hanswer |].
      simpl. now rewrite H200. }
    destruct ((400 <=? StatusCode r) && (StatusCode r <? 500)) eqn:H4xx.
    { exists (backoff c attempt ++ [EvDo req]). simpl. rewrite Hlog, app_assoc.
      repeat split; try assumption.
      apply (run_final env c req attempt (log w) (inl r)); [now rewrite Hanswer |].
      simpl. rewrite H4xx. apply andb_false_r. }
    destruct (attempt =? maxRetries c) eqn:Hlast.
    { exists (backoff c attempt ++ [EvDo req]). simpl. rewrite Hlog, app_assoc.
      repeat split; try assumption.
      apply (run_exhausted env c req attempt (log w) (inl r));
        [now rewrite Hanswer | simpl; now rewrite H200, H4xx | lia]. }
    destruct (IH (attempt + 1) (Some r) None (emit (EvDo req) w1))
      as (evs & Hl & Hf & Hp & Hrun); [lia | lia |].
    exists (backoff c attempt ++ [EvDo req] ++ evs).
    rewrite Hl, Hf, Hp. simpl. rewrite Hlog, <- !app_assoc.
    repeat split; try assumption.
    apply (run_again env c req attempt (log w) (inl r));
      [now rewrite Hanswer | simpl; now rewrite H200, H4xx | lia |].
    simpl in Hrun. rewrite Hlog, <- app_assoc in Hrun. exact Hrun.
  - destruct (attempt =? maxRetries c) eqn:Hlast.
    { exists (backoff c attempt ++ [EvDo req]). simpl. rewrite Hlog, app_assoc.
      repeat split; try assumption.
      apply (run_exhausted env c req attempt (log w) (inr e));
        [now rewrite Hanswer | reflexivity | lia]. }
    destruct (IH (attempt + 1) None (Some e) (emit (EvDo req) w1))
      as (evs & Hl & Hf & Hp & Hrun); [lia | lia |].
    exists (backoff c attempt ++ [EvDo req] ++ evs).
    rewrite Hl, Hf, Hp. simpl. rewrite Hlog, <- !app_assoc.
    repeat split; try assumption.
    apply (run_again env c req attempt (log w) (inr e));
      [now rewrite Hanswer | reflexivity | lia |].
    simpl in Hrun. rewrite Hlog, <- app_assoc in Hrun. exact Hrun.
Qed.

Lemma doRequestWithRetry_run (w : World) :
  0 <= maxRetries c ->
  exists evs,
    log (fst (doRequestWithRetry env c req w)) = log w ++ evs
    /\ fs (fst (doRequestWithRetry env c req w)) = fs w
    /\ past (fst (doRequestWithRetry env c req w)) = past w
    /\ retry_run env c req 0 (log w) evs (snd (doRequestWithRetry env c req w)).
Proof.
  intros H. unfold doRequestWithRetry. apply attempts_run; [lia |]. f_equal. lia.
Qed.

(** With a negative retry count nothing is sent and nothing returned. *)
Lemma doRequestWithRetry_negative (w : World) :
  maxRetries c < 0 -> doRequestWithRetry env c req w = (w, (None, None)).
Proof.
  intros H. unfold doRequestWithRetry.
  destruct (Z.to_nat (maxRetries c + 1)) eqn:E; [reflexivity | lia].
Qed.

Lemma retries_succ (attempt : Z) (k : nat) :
  retries c req attempt (S k)
  = EvSleep (duration_mul (retryDelay c) (attempt + 1)) :: EvDo req
      :: retries c req (attempt + 1) k.
Proof.
  unfold retries. cbn [seq map concat app]. do 2 f_equal.
  rewrite <- seq_shift, map_map. f_equal.
  apply map_ext. intros i. do 3 f_equal. lia.
Qed.

(** A run is a first attempt and then retries, each a wait of the base
    delay times its number followed by the request. *)
Lemma retry_run_shape (attempt : Z) (before evs : list Event)
    (result : option http_Response * option error) :
  retry_run env c req attempt before evs result ->
  0 <= attempt ->
  exists k : nat,
    attempt + Z.of_nat k <= Z.max attempt (maxRetries c)
    /\ evs = backoff c attempt ++ [EvDo req] ++ retries c req attempt k.
Proof.
  induction 1 as [a b o Ho Hr | a b o Ho Hr Ha | a b o evs res Ho Hr Ha Hrun IH]; intros Hpos.
  - exists O. split; [lia | reflexivity].
  - exists O. split; [lia | reflexivity].
  - destruct IH as (k & Hk & Hevs); [lia |].
    exists (S k). split; [lia |].
    rewrite retries_succ, Hevs. unfold backoff at 2.
    replace (0 <? a + 1) with true by (symmetry; apply Z.ltb_lt; lia).
    reflexivity.
Qed.

End RetryFacts.

Lemma new_events_app (w w' : World) (evs : list Event) :
  log w' = log w ++ evs -> new_events w w' = evs.
Proof.
  intros H. unfold new_events. rewrite H.
  now rewrite skipn_app, skipn_all, Nat.sub_diag.
Qed.

Lemma requests_app (a b : list Event) : requests (a ++ b) = requests a ++ requests b.
Proof. unfold requests. apply omap_app. Qed.

Lemma sleeps_app (a b : list Event) : sleeps (a ++ b) = sleeps a ++ sleeps b.
Proof. unfold sleeps. apply omap_app. Qed.

Lemma requests_retries (c : schemes_HTTPClient) (req : http_Request) (attempt : Z) (k : nat) :
  requests (retries c req attempt k) = repeat req k.
Proof.
  revert attempt. induction k as [|k IH]; intros attempt; [reflexivity |].
  rewrite retries_succ. unfold requests in *. simpl. f_equal. apply IH.
Qed.

Lemma sleeps_retries (c : schemes_HTTPClient) (req : http_Request) (attempt : Z) (k : nat) :
  sleeps (retries c req attempt k)
  = map (fun i => duration_mul (retryDelay c) (attempt + Z.of_nat i)) (seq 1 k).
Proof.
  revert attempt. induction k as [|k IH]; intros attempt; [reflexivity |].
  rewrite retries_succ. unfold sleeps in *. simpl. f_equal.
  rewrite IH, <- (seq_shift k 1), map_map. apply map_ext. intros i. f_equal. lia.
Qed.

(** In range, the product of a delay and a count is the product. *)
Lemma duration_mul_exact (d n : Z) :
  - 2 ^ 63 <= d * n < 2 ^ 63 -> duration_mul d n = d * n.
Proof.
  intros H. unfold duration_mul, wrap64.
  rewrite Z.mod_small by lia. lia.
Qed.

Section PolicyFacts.

Variable env : Env.
Variable url_Parse : string -> option url_URL.
Variable c : schemes_HTTPClient.

Lemma doRequestWithRetry_first_final (req : http_Request) (w : World)
    (answer : http_Response + error) :
  0 <= maxRetries c ->
  http_Do env (client c) (log w) req = answer ->
  retryable answer = false ->
  doRequestWithRetry env c req w = (emit (EvDo req) w, last_result c answer).
Proof.
  intros HM Ha Hr. unfold doRequestWithRetry.
  destruct (Z.to_nat (maxRetries c + 1)) as [|fuel] eqn:E; [lia |].
  simpl. replace (0 <=? maxRetries c) with true by (symmetry; apply Z.leb_le; lia).
  rewrite Ha. destruct answer as [r | e]; [| discriminate].
  simpl in Hr. destruct (StatusCode r =? StatusOK); [reflexivity |].
  destruct ((400 <=? StatusCode r) && (StatusCode r <? 500)); [reflexivity | discriminate].
Qed.

Lemma HTTP_GetResource_wraps (url : string) (writer : io_Writer)
    (headers : option (gmap string string)) (w : World) :
  url_Parse url <> None ->
  (forall e,
      snd (doRequestWithRetry env c (apply_headers headers (bare_request "GET" url)) w)
      = (None, Some e) ->
      snd (HTTP_GetResource env url_Parse c url writer headers w)
      = Some (fmt_Errorf "failed to download: %w" [ArgError e]))
  /\ (forall r,
      snd (doRequestWithRetry env c (apply_headers headers (bare_request "GET" url)) w)
      = (Some r, None) ->
      StatusCode r <> 200 ->
      snd (HTTP_GetResource env url_Parse c url writer headers w)
      = Some (fmt_Errorf "download failed with status: %d %s"
                [ArgInt (StatusCode r); ArgString (Status r)])).
Proof.
  intros Hparse. unfold HTTP_GetResource, http_NewRequest.
  destruct (url_Parse url) as [u|]; [| congruence].
  fold (bare_request "GET" url).
  destruct (doRequestWithRetry env c (apply_headers headers (bare_request "GET" url)) w)
    as [w' [resp err]].
  split.
  - intros e H. simpl in H. injection H as -> ->. reflexivity.
  - intros r H Hcode. simpl in H. injection H as -> ->.
    replace (StatusCode r =? StatusOK) with false; [reflexivity |].
    symmetry. apply Z.eqb_neq. exact Hcode.
Qed.

End PolicyFacts.

(** C3, as amended.  With a retry count that is not negative the
    transport follows the retry policy [retry_run]: an attempt answered
    with status 200 succeeds at once with no further attempt; one answered
    with a 4xx status is returned without retry; a transport error or any
    other status (the 5xx, but also a 2xx other than 200) calls for a
    retry, which follows after a wait as long as the budget lasts; at most
    [maxRetries + 1] requests are sent; when the budget is used up the
    last error comes back wrapped (failed after n retries) or the last
    response as it is, and [GetResource] turns either into a download
    failure. *)
Theorem doRequestWithRetry_policy
    (env : Env) (url_Parse : string -> option url_URL) (c : schemes_HTTPClient)
    (req : http_Request) (w : World) :
  0 <= maxRetries c ->
  retry_run env c req 0 (log w)
    (new_events w (fst (doRequestWithRetry env c req w)))
    (snd (doRequestWithRetry env c req w))
  /\ (forall r,
        http_Do env (client c) (log w) req = inl r -> StatusCode r = 200 ->
        doRequestWithRetry env c req w = (emit (EvDo req) w, (Some r, None)))
  /\ (forall r,
        http_Do env (client c) (log w) req = inl r -> 400 <= StatusCode r < 500 ->
        doRequestWithRetry env c req w = (emit (EvDo req) w, (Some r, None)))
  /\ (forall answer,
        http_Do env (client c) (log w) req = answer -> retryable answer = true ->
        0 < maxRetries c ->
        exists evs,
          new_events w (fst (doRequestWithRetry env c req w))
          = EvDo req :: EvSleep (duration_mul (retryDelay c) 1) :: EvDo req :: evs)
  /\ Z.of_nat (List.length (requests (new_events w (fst (doRequestWithRetry env c req w)))))
     <= maxRetries c + 1
  /\ (forall url writer headers w0,
        url_Parse url <> None ->
        (forall e,
            snd (doRequestWithRetry env c (apply_headers headers (bare_request "GET" url)) w0)
            = (None, Some e) ->
            snd (HTTP_GetResource env url_Parse c url writer headers w0)
            = Some (fmt_Errorf "failed to download: %w" [ArgError e]))
        /\ (forall r,
            snd (doRequestWithRetry env c (apply_headers headers (bare_request "GET" url)) w0)
            = (Some r, None) ->
            StatusCode r <> 200 ->
            snd (HTTP_GetResource env url_Parse c url writer headers w0)
            = Some (fmt_Errorf "download failed with status: %d %s"
                      [ArgInt (StatusCode r); ArgString (Status r)]))).
Proof.
  intros HM.
  destruct (doRequestWithRetry_run env c req w HM) as (evs & Hlog & _ & _ & Hrun).
  rewrite (new_events_app _ _ _ Hlog).
  split; [exact Hrun |]. split; [| split; [| split; [| split]]].
  - intros r Ha H200.
    apply (doRequestWithRetry_first_final env c req w (inl r) HM Ha).
    simpl. rewrite H200. reflexivity.
  - intros r Ha H4xx.
    apply (doRequestWithRetry_first_final env c req w (inl r) HM Ha).
    simpl. replace ((400 <=? StatusCode r) && (StatusCode r <? 500)) with true.
    + apply andb_false_r.
    + symmetry. apply andb_true_iff. split; [apply Z.leb_le | apply Z.ltb_lt]; lia.
  - intros answer Ha Hr Hbudget. subst answer.
    inversion Hrun as [a b o Ho Hf | a b o Ho Hf Hlast | a b o evs' res Ho Hf Hlt Hnext].
    + exfalso. rewrite Ho in Hf. unfold backoff in Hf. simpl in Hf.
      rewrite app_nil_r in Hf. congruence.
    + lia.
    + destruct (retry_run_shape env c req _ _ _ _ Hnext) as (k & _ & ->); [lia |].
      eexists. reflexivity.
  - destruct (retry_run_shape env c req _ _ _ _ Hrun) as (k & Hk & ->); [lia |].
    simpl. unfold requests at 1. simpl. fold (requests (retries c req 0 k)).
    rewrite requests_retries, repeat_length. lia.
  - intros url writer headers w0. apply HTTP_GetResource_wraps.
Qed.

(** With the default client against a server that is unavailable twice,
    four requests are allowed and three are sent. *)
Lemma doRequestWithRetry_policy_witness :
  0 <= maxRetries default_client
  /\ Z.of_nat (List.length (requests (new_events empty_world
                 (fst (doRequestWithRetry flaky_server default_client get_request
                         empty_world)))))
     <= maxRetries default_client + 1
  /\ List.length (requests (new_events empty_world
        (fst (doRequestWithRetry flaky_server default_client get_request empty_world))))
     = 3%nat.
Proof.
  assert (H : 0 <= maxRetries default_client) by (vm_compute; discriminate).
  split; [exact H |]. split.
  - exact (proj1 (proj2 (proj2 (proj2 (proj2
             (doRequestWithRetry_policy flaky_server url_Parse_plain default_client
                get_request empty_world H)))))).
  - vm_compute. reflexivity.
Defined.

(** C3 as stated fails on a 2xx status other than 200: the answer 204 is
    followed by a wait and a second request. *)
Lemma status_204_is_retried :
  List.length (requests (log (fst (doRequestWithRetry no_content_server default_client
                                     get_request empty_world))))
  = 2%nat
  /\ sleeps (log (fst (doRequestWithRetry no_content_server default_client
                         get_request empty_world)))
     = [1000000000]
  /\ option_map StatusCode
       (fst (snd (doRequestWithRetry no_content_server default_client get_request
                    empty_world)))
     = Some 200.
Proof. repeat split; vm_compute; reflexivity. Qed.

(** ** The waits between attempts (C6) *)

Section RunInversion.

Variable env : Env.
Variable c : schemes_HTTPClient.
Variable req : http_Request.

(** After a retryable answer with budget left, the run goes on. *)
Lemma retry_run_again_inv (attempt : Z) (before evs : list Event)
    (result : option http_Response * option error) :
  retry_run env c req attempt before evs result ->
  retryable (http_Do env (client c) (before ++ backoff c attempt) req) = true ->
  attempt < maxRetries c ->
  exists evs',
    evs = backoff c attempt ++ [EvDo req] ++ evs'
    /\ retry_run env c req (attempt + 1) (before ++ backoff c attempt ++ [EvDo req])
         evs' result.
Proof.
  intros Hrun Hr Hlt.
  inversion Hrun as [a b o Ho Hf | a b o Ho Hf Hlast | a b o evs' res Ho Hf Hl Hnext]; subst.
  - congruence.
  - lia.
  - exists evs'. split; [reflexivity | exact Hnext].
Qed.

(** After an answer that is not retryable, the run is over. *)
Lemma retry_run_final_inv (attempt : Z) (before evs : list Event)
    (result : option http_Response * option error) :
  retry_run env c req attempt before evs result ->
  retryable (http_Do env (client c) (before ++ backoff c attempt) req) = false ->
  evs = backoff c attempt ++ [EvDo req]
  /\ result = last_result c (http_Do env (client c) (before ++ backoff c attempt) req).
Proof.
  intros Hrun Hr.
  inversion Hrun as [a b o Ho Hf | a b o Ho Hf Hlast | a b o evs' res Ho Hf Hl Hnext]; subst.
  - split; reflexivity.
  - congruence.
  - congruence.
Qed.

End RunInversion.



Lemma total_wait_two (d1 d2 : Z) (req : http_Request) :
  0 <= d1 -> 0 <= d2 ->
  total_wait [EvDo req; EvSleep d1; EvDo req; EvSleep d2; EvDo req] = d1 + d2.
Proof. intros H1 H2. unfold total_wait, sleeps. simpl. lia. Qed.

(** C6, as amended.  With a retry count that is not negative, what the
    transport does is a first request and then, for [i] from 1 up to the number of
    retries made (at most [maxRetries]), a sleep of the base delay times
    [i] followed by the request: the wait before retry [i] is
    [retryDelay * i] as [time.Duration] multiplies, which is the exact
    product whenever the delay is not negative and the largest product
    fits in 63 bits.  With three retries and the answers 503, 503 and 200
    the third response is returned after waits of [retryDelay * 1] and
    [retryDelay * 2]. *)
Theorem retry_waits_grow_linearly
    (env : Env) (c : schemes_HTTPClient) (req : http_Request) (w : World) :
  0 <= maxRetries c ->
  (exists k : nat,
      Z.of_nat k <= maxRetries c
      /\ new_events w (fst (doRequestWithRetry env c req w)) = EvDo req :: retries c req 0 k
      /\ sleeps (new_events w (fst (doRequestWithRetry env c req w)))
         = map (fun i => duration_mul (retryDelay c) (Z.of_nat i)) (seq 1 k))
  /\ (forall i,
        1 <= i <= maxRetries c -> 0 <= retryDelay c -> retryDelay c * maxRetries c < 2 ^ 63 ->
        duration_mul (retryDelay c) i = retryDelay c * i)
  /\ (forall r1 r2 r3,
        maxRetries c = 3 ->
        StatusCode r1 = 503 -> StatusCode r2 = 503 -> StatusCode r3 = 200 ->
        http_Do env (client c) (log w) req = inl r1 ->
        http_Do env (client c)
          (log w ++ [EvDo req; EvSleep (duration_mul (retryDelay c) 1)]) req = inl r2 ->
        http_Do env (client c)
          (log w ++ [EvDo req; EvSleep (duration_mul (retryDelay c) 1);
                     EvDo req; EvSleep (duration_mul (retryDelay c) 2)]) req = inl r3 ->
        snd (doRequestWithRetry env c req w) = (Some r3, None)
        /\ new_events w (fst (doRequestWithRetry env c req w))
           = [EvDo req; EvSleep (duration_mul (retryDelay c) 1);
              EvDo req; EvSleep (duration_mul (retryDelay c) 2); EvDo req]
        /\ (0 <= retryDelay c -> retryDelay c * 3 < 2 ^ 63 ->
            total_wait (new_events w (fst (doRequestWithRetry env c req w)))
            = retryDelay c * 1 + retryDelay c * 2)).
Proof.
  intros HM. split; [| split].
  - destruct (doRequestWithRetry_run env c req w HM) as (evs & Hlog & _ & _ & Hrun).
    rewrite (new_events_app _ _ _ Hlog).
    destruct (retry_run_shape env c req _ _ _ _ Hrun) as (k & Hk & ->); [lia |].
    exists k. split; [lia |]. split; [reflexivity |].
    change (backoff c 0 ++ [EvDo req] ++ retries c req 0 k)
      with (EvDo req :: retries c req 0 k).
    unfold sleeps at 1. simpl. fold (sleeps (retries c req 0 k)).
    rewrite sleeps_retries. apply map_ext. intros i. reflexivity.
  - intros i Hi Hd Hfit. apply duration_mul_exact. nia.
  - intros r1 r2 r3 H3 Hc1 Hc2 Hc3 Ha1 Ha2 Ha3.
    destruct (doRequestWithRetry_run env c req w HM) as (evs & Hlog & _ & _ & Hrun).
    rewrite (new_events_app _ _ _ Hlog).
    assert (Hr1 : retryable (inl r1) = true) by (simpl; now rewrite Hc1).
    assert (Hr2 : retryable (inl r2) = true) by (simpl; now rewrite Hc2).
    assert (Hr3 : retryable (inl r3) = false) by (simpl; now rewrite Hc3).
    assert (Hb0 : backoff c 0 = []) by reflexivity.
    assert (Hb1 : backoff c (0 + 1) = [EvSleep (duration_mul (retryDelay c) 1)])
      by reflexivity.
    assert (Hb2 : backoff c (0 + 1 + 1) = [EvSleep (duration_mul (retryDelay c) 2)])
      by reflexivity.
    apply (retry_run_again_inv env c req) in Hrun as (evs1 & -> & Hrun);
      [| rewrite Hb0, app_nil_r, Ha1; exact Hr1 | lia].
    apply (retry_run_again_inv env c req) in Hrun as (evs2 & -> & Hrun);
      [| rewrite Hb0, Hb1, <- app_assoc; cbn [app]; rewrite Ha2; exact Hr2 | lia].
    apply (retry_run_final_inv env c req) in Hrun as [-> Hres];
      [| rewrite Hb0, Hb1, Hb2, <- !app_assoc; cbn [app]; rewrite Ha3; exact Hr3].
    rewrite Hb0, Hb1, Hb2, <- !app_assoc in Hres. cbn [app] in Hres. rewrite Ha3 in Hres.
    rewrite Hb0, Hb1, Hb2. cbn [app].
    split; [exact Hres |]. split; [reflexivity |].
    intros Hd Hfit. rewrite !duration_mul_exact by lia.
    apply total_wait_two; lia.
Qed.

(** With the default client against the server that is unavailable
    twice, the waits are one and two seconds. *)
Lemma retry_waits_grow_linearly_witness :
  0 <= maxRetries default_client
  /\ total_wait (new_events empty_world
       (fst (doRequestWithRetry flaky_server default_client get_request empty_world)))
     = retryDelay default_client * 1 + retryDelay default_client * 2.
Proof.
  assert (H : 0 <= maxRetries default_client) by (vm_compute; discriminate).
  split; [exact H |].
  refine (proj2 (proj2 (proj2 (proj2
            (retry_waits_grow_linearly flaky_server default_client get_request empty_world H))
            (response 503 [] []) (response 503 [] [])
            (response 200 [("Content-Length", "5")] ["he"; "llo"])
            eq_refl eq_refl eq_refl eq_refl eq_refl eq_refl eq_refl)) _ _).
  - vm_compute. discriminate.
  - vm_compute. reflexivity.
Defined.

(** C6 as stated fails outside these bounds.  With a delay of [2 ^ 62]
    nanoseconds the product for the second retry wraps: after the answers
    503, 503 and 200 the sleeps asked for are [2 ^ 62] and [- 2 ^ 63],
    the second of which returns at once, so the wait is not the delay
    times 1 plus the delay times 2.  With a negative delay no sleep waits
    at all. *)
Lemma wrapped_delay_is_not_linear :
  sleeps (new_events empty_world
            (fst (doRequestWithRetry flaky_server long_delay_client get_request empty_world)))
  = [2 ^ 62; - 2 ^ 63]
  /\ option_map StatusCode
       (fst (snd (doRequestWithRetry flaky_server long_delay_client get_request empty_world)))
     = Some 200
  /\ total_wait (new_events empty_world
                   (fst (doRequestWithRetry flaky_server long_delay_client get_request
                           empty_world)))
     <> retryDelay long_delay_client * 1 + retryDelay long_delay_client * 2
  /\ sleeps (new_events empty_world
               (fst (doRequestWithRetry flaky_server negative_delay_client get_request
                       empty_world)))
     = [- 1000000000; - 2000000000]
  /\ total_wait (new_events empty_world
                   (fst (doRequestWithRetry flaky_server negative_delay_client get_request
                           empty_world))) = 0.
Proof.
  split; [vm_compute; reflexivity |]. split; [vm_compute; reflexivity |].
  split; [vm_compute; discriminate |]. split; vm_compute; reflexivity.
Qed.

(** ** The size probe (C7) *)

Lemma apply_headers_Method (headers : option (gmap string string)) (req : http_Request) :
  Method (apply_headers headers req) = Method req /\ URL (apply_headers headers req) = URL req.
Proof. split; reflexivity. Qed.

(** C7, as amended.  The size probe sends [HEAD] requests for the URL and
    nothing else.  When the transport hands it a response with status 200,
    it returns 0 without error if [Content-Length] is absent or empty, the
    declared length without error if the header parses as a decimal
    [int64], and 0 together with the error [failed to parse content
    length] if the header is there and does not parse. *)
Theorem GetSize_reads_content_length
    (env : Env) (url_Parse : string -> option url_URL) (c : schemes_HTTPClient)
    (url : string) (headers : option (gmap string string)) (w w' : World)
    (r : http_Response) :
  url_Parse url <> None ->
  doRequestWithRetry env c (apply_headers headers (bare_request "HEAD" url)) w
  = (w', (Some r, None)) ->
  StatusCode r = 200 ->
  fst (HTTP_GetSize env url_Parse c url headers w) = w'
  /\ (exists k : nat,
        requests (new_events w w')
        = repeat (apply_headers headers (bare_request "HEAD" url)) (S k))
  /\ (forall req, In req (requests (new_events w w')) -> Method req = "HEAD" /\ URL req = url)
  /\ (Header_Get (resp_Header r) "Content-Length" = "" ->
      snd (HTTP_GetSize env url_Parse c url headers w) = (0, None))
  /\ (forall n,
        Header_Get (resp_Header r) "Content-Length" <> "" ->
        strconv_ParseInt (Header_Get (resp_Header r) "Content-Length") = Some n ->
        snd (HTTP_GetSize env url_Parse c url headers w) = (n, None))
  /\ (Header_Get (resp_Header r) "Content-Length" <> "" ->
      strconv_ParseInt (Header_Get (resp_Header r) "Content-Length") = None ->
      snd (HTTP_GetSize env url_Parse c url headers w)
      = (0, Some (fmt_Errorf "failed to parse content length: %w"
                    [ArgError (errors_New "strconv.ParseInt")]))).
Proof.
  intros Hparse Hrun H200.
  assert (HM : 0 <= maxRetries c).
  { destruct (Z_lt_le_dec (maxRetries c) 0) as [Hneg | Hpos]; [| exact Hpos].
    rewrite (doRequestWithRetry_negative env c _ w Hneg) in Hrun. discriminate. }
  assert (Hshape : exists k : nat,
             requests (new_events w w')
             = repeat (apply_headers headers (bare_request "HEAD" url)) (S k)).
  { destruct (doRequestWithRetry_run env c (apply_headers headers (bare_request "HEAD" url)) w HM)
      as (evs & Hlog & _ & _ & Hr).
    rewrite Hrun in Hlog, Hr. simpl in Hlog, Hr.
    rewrite (new_events_app _ _ _ Hlog).
    destruct (retry_run_shape env c _ _ _ _ _ Hr) as (k & _ & ->); [lia |].
    exists k. change (backoff c 0 ++ [EvDo ?q] ++ ?l) with (EvDo q :: l).
    unfold requests at 1. simpl. fold (requests (retries c (apply_headers headers
                                                  (bare_request "HEAD" url)) 0 k)).
    now rewrite requests_retries. }
  assert (Hsize : HTTP_GetSize env url_Parse c url headers w
                  = (w', if decide (Header_Get (resp_Header r) "Content-Length" = "")
                         then (0, None)
                         else match strconv_ParseInt (Header_Get (resp_Header r) "Content-Length")
                              with
                              | None =>
                                  (0, Some (fmt_Errorf "failed to parse content length: %w"
                                              [ArgError (errors_New "strconv.ParseInt")]))
                              | Some size => (size, None)
                              end)).
  { unfold HTTP_GetSize, http_NewRequest.
    destruct (url_Parse url) as [u|]; [| congruence].
    fold (bare_request "HEAD" url). rewrite Hrun, H200. cbn [negb Z.eqb StatusOK].
    change (negb (200 =? StatusOK)) with false. cbv iota.
    destruct (decide (Header_Get (resp_Header r) "Content-Length" = "")) as [_ | _];
      [reflexivity |].
    destruct (strconv_ParseInt (Header_Get (resp_Header r) "Content-Length")); reflexivity. }
  rewrite Hsize. cbn [fst snd].
  split; [reflexivity |]. split; [exact Hshape |]. split; [| split; [| split]].
  - destruct Hshape as [k ->]. intros q Hq. apply repeat_spec in Hq as ->.
    split; reflexivity.
  - intros H0. now rewrite decide_True by assumption.
  - intros n Hne Hn. rewrite decide_False by assumption. now rewrite Hn.
  - intros Hne Hn. rewrite decide_False by assumption. now rewrite Hn.
Qed.

(** Against the server that is unavailable twice and then declares five
    bytes, the probe returns 5. *)
Lemma GetSize_reads_content_length_witness :
  (url_Parse_plain "http://h/a" <> None
   /\ snd (doRequestWithRetry flaky_server default_client head_request empty_world)
      = (Some (response 200 [("Content-Length", "5")] ["he"; "llo"]), None))
  /\ snd (HTTP_GetSize flaky_server url_Parse_plain default_client "http://h/a"
            (Headers default_options) empty_world)
     = (5, None).
Proof.
  assert (H1 : url_Parse_plain "http://h/a" <> None) by (vm_compute; discriminate).
  assert (H2 : doRequestWithRetry flaky_server default_client head_request empty_world
               = (fst (doRequestWithRetry flaky_server default_client head_request empty_world),
                  (Some (response 200 [("Content-Length", "5")] ["he"; "llo"]), None)))
    by (vm_compute; reflexivity).
  split; [split; [exact H1 | now rewrite H2] |].
  refine (proj1 (proj2 (proj2 (proj2 (proj2
            (GetSize_reads_content_length flaky_server url_Parse_plain default_client
               "http://h/a" (Headers default_options) empty_world _ _ H1 H2 eq_refl)))))
            5 _ _).
  - vm_compute. discriminate.
  - vm_compute. reflexivity.
Defined.

(** C7 as stated fails on a [Content-Length] that does not parse: the
    probe returns 0 with an error, not without. *)
Lemma unparseable_length_is_an_error :
  snd (HTTP_GetSize odd_length_server url_Parse_plain default_client "http://h/a"
         (Headers default_options) empty_world)
  = (0, Some (fmt_Errorf "failed to parse content length: %w"
                [ArgError (errors_New "strconv.ParseInt")])).
Proof. vm_compute. reflexivity. Qed.

(** What [strconv.ParseInt] takes and what it refuses. *)
Example strconv_ParseInt_examples :
  strconv_ParseInt "123" = Some 123
  /\ strconv_ParseInt "-5" = Some (-5)
  /\ strconv_ParseInt "" = None
  /\ strconv_ParseInt "abc" = None
  /\ strconv_ParseInt "12 " = None
  /\ strconv_ParseInt "9223372036854775807" = Some 9223372036854775807
  /\ strconv_ParseInt "9223372036854775808" = None.
Proof. repeat split; vm_compute; reflexivity. Qed.

(** ** The download: what it leaves at the cache path (C2) *)

Section Frame.

Variable env : Env.
Variable dest : string.
Variable Q : option Node -> Prop.

Lemma holds_refl (w : World) : Q (fs w !! dest) -> holds_since dest Q w w.
Proof. intros H. split; [exact H |]. exists []. split; [now rewrite app_nil_r | constructor]. Qed.

Lemma holds_emit (e : Event) (w0 w : World) :
  holds_since dest Q w0 w -> holds_since dest Q w0 (emit e w).
Proof. intros H. exact H. Qed.

Lemma holds_set_fs (m : gmap string Node) (w0 w : World) :
  holds_since dest Q w0 w -> Q (m !! dest) -> holds_since dest Q w0 (set_fs m w).
Proof.
  intros [Hnow (snaps & Hpast & Hall)] Hm. split; [exact Hm |].
  exists (snaps ++ [fs w]). simpl. split.
  - now rewrite Hpast, app_assoc.
  - apply Forall_app. split; [exact Hall | now repeat constructor].
Qed.

Lemma holds_same_files (w0 w w' : World) :
  holds_since dest Q w0 w -> fs w' = fs w -> past w' = past w -> holds_since dest Q w0 w'.
Proof. intros [Hnow Hpast] Hf Hp. unfold holds_since. now rewrite Hf, Hp. Qed.

Lemma os_Stat_holds (path : string) (w0 w : World) :
  holds_since dest Q w0 w -> holds_since dest Q w0 (fst (os_Stat env path w)).
Proof.
  intros H. unfold os_Stat.
  destruct (os_fault env (log w) (OpStat path)); [exact H |].
  destruct (fs w !! path); exact H.
Qed.

Lemma os_ReadFile_holds (path : string) (w0 w : World) :
  holds_since dest Q w0 w -> holds_since dest Q w0 (fst (os_ReadFile env path w)).
Proof.
  intros H. unfold os_ReadFile.
  destruct (os_fault env (log w) (OpReadFile path)); [exact H |].
  destruct (fs w !! path) as [[|data perm]|]; exact H.
Qed.

Lemma os_OpenFile_holds (path : string) (flag perm : Z) (w0 w : World) :
  path <> dest ->
  holds_since dest Q w0 w -> holds_since dest Q w0 (fst (os_OpenFile env path flag perm w)).
Proof.
  intros Hne H. pose proof H as [Hnow _]. unfold os_OpenFile.
  destruct (os_fault env (log w) (OpOpenFile path flag perm)); [exact H |].
  destruct (fs w !! path) as [[|data old]|].
  - destruct (Z.testbit flag 7); exact H.
  - destruct (Z.testbit flag 7); [exact H |].
    destruct (Z.testbit flag 9); [| exact H].
    apply holds_set_fs; [exact H |]. now rewrite lookup_insert_ne.
  - destruct (Z.testbit flag 6); [| exact H].
    apply holds_set_fs; [exact H |]. now rewrite lookup_insert_ne.
Qed.

Lemma append_data_other (path data : string) (m : gmap string Node) :
  path <> dest -> append_data path data m !! dest = m !! dest.
Proof.
  intros Hne. unfold append_data.
  destruct (m !! path) as [[|old perm]|]; [reflexivity | | reflexivity].
  now rewrite lookup_insert_ne.
Qed.

Lemma file_Write_holds (path data : string) (w0 w : World) :
  path <> dest ->
  holds_since dest Q w0 w -> holds_since dest Q w0 (fst (file_Write env path data w)).
Proof.
  intros Hne H. pose proof H as [Hnow _]. unfold file_Write.
  destruct (os_fault env (log w) (OpWrite path data)); simpl;
    (apply holds_set_fs; [exact H | now rewrite append_data_other]).
Qed.

Lemma file_Close_holds (path : string) (w0 w : World) :
  holds_since dest Q w0 w -> holds_since dest Q w0 (fst (file_Close env path w)).
Proof. intros H. exact H. Qed.

Lemma os_Remove_holds (path : string) (w0 w : World) :
  path <> dest ->
  holds_since dest Q w0 w -> holds_since dest Q w0 (fst (os_Remove env path w)).
Proof.
  intros Hne H. pose proof H as [Hnow _]. unfold os_Remove.
  destruct (os_fault env (log w) (OpRemove path)); [exact H |].
  destruct (fs w !! path); [| exact H].
  apply holds_set_fs; [exact H |]. now rewrite lookup_delete_ne.
Qed.

End Frame.

Lemma decimal_sep_free (n : N) : sep_free (decimal n) = true.
Proof.
  unfold decimal. generalize (N.to_uint n). intros d.
  induction d; simpl; try reflexivity; rewrite sep_free_cons, IHd; reflexivity.
Qed.

Lemma last_byte_sep (dir : string) :
  last_byte dir = Some Separator -> exists d, dir = d +:+ "/".
Proof.
  induction dir as [|c dir IH]; simpl; [discriminate |].
  destruct dir as [|c' dir'].
  - intros H. injection H as ->. now exists "".
  - intros H. destruct (IH H) as [d Hd]. exists (String c d). simpl. now rewrite <- Hd.
Qed.

(** Every name that [os.CreateTemp] tries for the pattern [.download-*]
    has a [Base] that starts with [.download-]. *)
Lemma temp_name_Base (dir : string) (k : N) :
  strings_HasPrefix
    (filepath_Base (joinPath dir (temp_prefix ".download-*") +:+ decimal k
                    +:+ temp_suffix ".download-*"))
    ".download-" = true.
Proof.
  change (temp_prefix ".download-*") with ".download-".
  change (temp_suffix ".download-*") with "".
  rewrite append_nil_r.
  assert (Hseg : segment (".download-" +:+ decimal k)).
  { split; [discriminate |]. rewrite sep_free_append, decimal_sep_free. reflexivity. }
  assert (Hname : exists x, joinPath dir ".download-" +:+ decimal k
                            = x +:+ "/" +:+ (".download-" +:+ decimal k)).
  { unfold joinPath. destruct (last_byte dir) as [c|] eqn:Hlast.
    - destruct (Ascii.eqb c Separator) eqn:Hc.
      + apply Ascii.eqb_eq in Hc as ->. destruct (last_byte_sep dir Hlast) as [d ->].
        exists d. now rewrite !append_assoc.
      + exists dir. now rewrite !append_assoc.
    - exists dir. now rewrite !append_assoc. }
  destruct Hname as [x ->]. rewrite (Base_append_sep x _ Hseg).
  apply HasPrefix_append.
Qed.

Lemma temp_name_not_dest (dir dest : string) (k : N) :
  strings_HasPrefix (filepath_Base dest) ".download-" = false ->
  joinPath dir (temp_prefix ".download-*") +:+ decimal k +:+ temp_suffix ".download-*" <> dest.
Proof.
  intros H E. rewrite <- E, temp_name_Base in H. discriminate.
Qed.

Section TempFile.

Variable env : Env.
Variable dest : string.
Variable Q : option Node -> Prop.
Hypothesis dest_is_no_temp : strings_HasPrefix (filepath_Base dest) ".download-" = false.

(** [os.CreateTemp] leaves [dest] alone; the file it makes is new, empty
    and not [dest]. *)
Lemma createTemp_try_holds (fuel try : nat) (dir : string) (w0 w : World) :
  holds_since dest Q w0 w ->
  holds_since dest Q w0 (fst (createTemp_try env fuel try dir ".download-*" w))
  /\ (snd (snd (createTemp_try env fuel try dir ".download-*" w)) = None ->
      fst (snd (createTemp_try env fuel try dir ".download-*" w)) <> dest
      /\ fs (fst (createTemp_try env fuel try dir ".download-*" w))
           !! fst (snd (createTemp_try env fuel try dir ".download-*" w))
         = Some (File "" 384)).
Proof.
  revert try w. induction fuel as [|fuel IH]; intros try w H; simpl.
  - split; [exact H | discriminate].
  - set (name := joinPath dir (temp_prefix ".download-*")
                 +:+ decimal (os_random env (log w) try) +:+ temp_suffix ".download-*").
    assert (Hne : name <> dest) by (apply temp_name_not_dest; exact dest_is_no_temp).
    pose proof (os_OpenFile_holds env dest Q name (Z.lor O_RDWR (Z.lor O_CREATE O_EXCL)) 384
                  w0 w Hne H) as Hopen.
    assert (Hnew : snd (os_OpenFile env name (Z.lor O_RDWR (Z.lor O_CREATE O_EXCL)) 384 w) = None ->
                   fs (fst (os_OpenFile env name (Z.lor O_RDWR (Z.lor O_CREATE O_EXCL)) 384 w))
                     !! name = Some (File "" 384)).
    { unfold os_OpenFile.
      destruct (os_fault env (log w) (OpOpenFile name _ 384)); [discriminate |].
      change (Z.testbit (Z.lor O_RDWR (Z.lor O_CREATE O_EXCL)) 7) with true.
      change (Z.testbit (Z.lor O_RDWR (Z.lor O_CREATE O_EXCL)) 6) with true.
      destruct (fs w !! name); [discriminate |].
      intros _. simpl. apply lookup_insert_eq. }
    destruct (os_OpenFile env name (Z.lor O_RDWR (Z.lor O_CREATE O_EXCL)) 384 w)
      as [w1 [e|]]; simpl in *.
    + destruct (is_exist e); [apply IH; exact Hopen |]. split; [exact Hopen | discriminate].
    + split; [exact Hopen |]. intros _. split; [exact Hne | now apply Hnew].
Qed.

End TempFile.

Section TransportFiles.

Variable env : Env.
Variable url_Parse : string -> option url_URL.
Variable c : schemes_HTTPClient.

(** The retry loop does not touch the files. *)
Lemma doRequestWithRetry_files (req : http_Request) (w : World) :
  fs (fst (doRequestWithRetry env c req w)) = fs w
  /\ past (fst (doRequestWithRetry env c req w)) = past w
  /\ exists evs, log (fst (doRequestWithRetry env c req w)) = log w ++ evs.
Proof.
  destruct (Z_lt_le_dec (maxRetries c) 0) as [Hneg | Hpos].
  - rewrite (doRequestWithRetry_negative env c req w Hneg). simpl.
    repeat split. exists []. now rewrite app_nil_r.
  - destruct (doRequestWithRetry_run env c req w Hpos) as (evs & Hl & Hf & Hp & _).
    repeat split; try assumption. now exists evs.
Qed.

Lemma HTTP_GetSize_files (url : string) (headers : option (gmap string string)) (w : World) :
  fs (fst (HTTP_GetSize env url_Parse c url headers w)) = fs w
  /\ past (fst (HTTP_GetSize env url_Parse c url headers w)) = past w
  /\ exists evs, log (fst (HTTP_GetSize env url_Parse c url headers w)) = log w ++ evs.
Proof.
  unfold HTTP_GetSize.
  destruct (http_NewRequest url_Parse "HEAD" url) as [req | e].
  - pose proof (doRequestWithRetry_files (apply_headers headers req) w) as H.
    destruct (doRequestWithRetry env c (apply_headers headers req) w) as [w' [resp err]].
    simpl in H.
    destruct err as [e|]; [exact H |]. destruct resp as [r|]; [| exact H].
    destruct (negb (StatusCode r =? StatusOK)); [exact H |].
    destruct (decide (Header_Get (resp_Header r) "Content-Length" = "")) as [_ | _];
      [exact H |].
    destruct (strconv_ParseInt (Header_Get (resp_Header r) "Content-Length")); exact H.
  - simpl. repeat split. exists []. now rewrite app_nil_r.
Qed.

End TransportFiles.

Section CopyFacts.

Variable env : Env.

Lemma file_Write_ok (path data : string) (w : World) :
  snd (snd (file_Write env path data w)) = None ->
  fst (snd (file_Write env path data w)) = Z.of_nat (String.length data)
  /\ fs (fst (file_Write env path data w)) = append_data path data (fs w).
Proof.
  unfold file_Write. destruct (os_fault env (log w) (OpWrite path data)); simpl;
    [discriminate | auto].
Qed.

Lemma ProgressWriter_write_holds (dest : string) (Q : option Node -> Prop)
    (path : string) (written : Z) (chunk : string) (w0 w : World) :
  path <> dest ->
  holds_since dest Q w0 w ->
  holds_since dest Q w0 (fst (w_write (ProgressWriter env path) written chunk w)).
Proof.
  intros Hne H. simpl.
  pose proof (file_Write_holds env dest Q path chunk w0 w Hne H) as Hw.
  destruct (file_Write env path chunk w) as [w1 [k err]]. simpl in Hw.
  destruct (0 <? k); exact Hw.
Qed.

Lemma io_Copy_holds (dest : string) (Q : option Node -> Prop) (S : Type)
    (write : S -> string -> World -> World * (S * (Z * option error)))
    (chunks : list string) (readErr : option error) (w0 : World) :
  (forall st chunk w, holds_since dest Q w0 w -> holds_since dest Q w0 (fst (write st chunk w))) ->
  forall st w,
    holds_since dest Q w0 w ->
    holds_since dest Q w0 (fst (io_Copy write st chunks readErr w)).
Proof.
  intros Hwrite. induction chunks as [|chunk rest IH]; intros st w H; simpl; [exact H |].
  destruct (decide (chunk = "")) as [_ | _]; [now apply IH |].
  pose proof (Hwrite st chunk w H) as Hw.
  destruct (write st chunk w) as [w1 [st1 [k err]]]. simpl in Hw.
  destruct err as [e|]; [exact Hw |].
  destruct (decide (k = Z.of_nat (String.length chunk))) as [_ | _]; [now apply IH | exact Hw].
Qed.

(** A copy through the [ProgressWriter] that ends without error has
    appended the whole body to the file. *)
Lemma io_Copy_appends_all (path : string) (chunks : list string) (readErr : option error) :
  forall (written : Z) (w : World) (old : string) (perm : Z),
    snd (io_Copy (w_write (ProgressWriter env path)) written chunks readErr w) = None ->
    fs w !! path = Some (File old perm) ->
    readErr = None
    /\ fs (fst (io_Copy (w_write (ProgressWriter env path)) written chunks readErr w)) !! path
       = Some (File (old +:+ whole_body chunks) perm).
Proof.
  induction chunks as [|chunk rest IH]; intros written w old perm Hok Hfile; simpl in *.
  - split; [exact Hok | now rewrite append_nil_r].
  - destruct (decide (chunk = "")) as [-> | _]; [now apply IH |].
    pose proof (file_Write_ok path chunk w) as Hw.
    destruct (file_Write env path chunk w) as [w1 [k err]]. simpl in Hw.
    assert (Hstep : err = None ->
                    fs w1 !! path = Some (File (old +:+ chunk) perm)).
    { intros ->. destruct (Hw eq_refl) as [_ ->]. unfold append_data. rewrite Hfile.
      apply lookup_insert_eq. }
    destruct (0 <? k); simpl in *.
    + destruct err as [e|]; [discriminate |].
      destruct (decide (k = Z.of_nat (String.length chunk))) as [_ | _]; [| discriminate].
      destruct (IH _ _ (old +:+ chunk) perm Hok) as [Hr Hfs]; [now apply Hstep |].
      split; [exact Hr |]. rewrite Hfs. now rewrite append_assoc.
    + destruct err as [e|]; [discriminate |].
      destruct (decide (k = Z.of_nat (String.length chunk))) as [_ | _]; [| discriminate].
      destruct (IH _ _ (old +:+ chunk) perm Hok) as [Hr Hfs]; [now apply Hstep |].
      split; [exact Hr |]. rewrite Hfs. now rewrite append_assoc.
Qed.

End CopyFacts.

Section GetResourceFacts.

Variable env : Env.
Variable url_Parse : string -> option url_URL.
Variable c : schemes_HTTPClient.

Lemma HTTP_GetResource_holds (dest : string) (Q : option Node -> Prop)
    (tmp url : string) (headers : option (gmap string string)) (w0 w : World) :
  tmp <> dest ->
  holds_since dest Q w0 w ->
  holds_since dest Q w0
    (fst (HTTP_GetResource env url_Parse c url (ProgressWriter env tmp) headers w)).
Proof.
  intros Hne H. unfold HTTP_GetResource.
  destruct (http_NewRequest url_Parse "GET" url) as [req | e]; [| exact H].
  pose proof (doRequestWithRetry_files env c (apply_headers headers req) w) as (Hf & Hp & _).
  destruct (doRequestWithRetry env c (apply_headers headers req) w) as [w1 [resp err]].
  simpl in Hf, Hp.
  assert (H1 : holds_since dest Q w0 w1) by (eapply holds_same_files; eassumption).
  destruct err as [e|]; [exact H1 |]. destruct resp as [r|]; [| exact H1].
  destruct (negb (StatusCode r =? StatusOK)); [exact H1 |].
  pose proof (io_Copy_holds dest Q _ (w_write (ProgressWriter env tmp)) (Body r) (BodyErr r) w0
                (fun st chunk w' Hw => ProgressWriter_write_holds env dest Q tmp st chunk w0 w'
                                         Hne Hw)
                (w_cur (ProgressWriter env tmp)) w1 H1) as H2.
  destruct (io_Copy (w_write (ProgressWriter env tmp)) (w_cur (ProgressWriter env tmp))
              (Body r) (BodyErr r) w1) as [w2 [e|]]; exact H2.
Qed.

(** [GetResource] returns without error only after a response with
    status 200 whose body was read to its end and written whole. *)
Lemma HTTP_GetResource_success (tmp url : string) (headers : option (gmap string string))
    (w : World) (old : string) (perm : Z) :
  snd (HTTP_GetResource env url_Parse c url (ProgressWriter env tmp) headers w) = None ->
  fs w !! tmp = Some (File old perm) ->
  exists r,
    snd (doRequestWithRetry env c (apply_headers headers (bare_request "GET" url)) w)
    = (Some r, None)
    /\ StatusCode r = 200
    /\ BodyErr r = None
    /\ fs (fst (HTTP_GetResource env url_Parse c url (ProgressWriter env tmp) headers w)) !! tmp
       = Some (File (old +:+ whole_body (Body r)) perm).
Proof.
  unfold HTTP_GetResource, http_NewRequest.
  destruct (url_Parse url) as [u|]; [| discriminate].
  fold (bare_request "GET" url).
  pose proof (doRequestWithRetry_files env c (apply_headers headers (bare_request "GET" url)) w)
    as (Hf & _ & _).
  destruct (doRequestWithRetry env c (apply_headers headers (bare_request "GET" url)) w)
    as [w1 [resp err]].
  cbn [fst] in Hf. cbv beta iota.
  destruct err as [e|]; [discriminate |].
  destruct resp as [r|]; [| discriminate].
  destruct (StatusCode r =? StatusOK) eqn:H200; cbn [negb]; cbv beta iota; [| discriminate].
  pose proof (io_Copy_appends_all env tmp (Body r) (BodyErr r)
                (w_cur (ProgressWriter env tmp)) w1 old perm) as Hcopy.
  destruct (io_Copy (w_write (ProgressWriter env tmp)) (w_cur (ProgressWriter env tmp))
              (Body r) (BodyErr r) w1) as [w2 [e|]]; [discriminate |].
  cbn [fst snd] in *. intros _ Hfile.
  destruct Hcopy as [Hr Hfs]; [reflexivity | now rewrite Hf |].
  exists r. repeat split; try assumption. now apply Z.eqb_eq.
Qed.

End GetResourceFacts.

Lemma holds_weaken (dest : string) (Q Q' : option Node -> Prop) (w0 w : World) :
  (forall n, Q n -> Q' n) -> holds_since dest Q w0 w -> holds_since dest Q' w0 w.
Proof.
  intros HQ [Hnow (snaps & Hpast & Hall)]. split; [now apply HQ |].
  exists snaps. split; [exact Hpast |].
  eapply List.Forall_impl; [| exact Hall]. intros m. apply HQ.
Qed.

Lemma panicked_Some (err : option error) : panicked err = true -> err <> None.
Proof. destruct err; [discriminate | discriminate]. Qed.

Section DownloadFacts.

Variable env : Env.
Variable url_Parse : string -> option url_URL.
Variable c : schemes_HTTPClient.
Variable url destPath : string.
Variable opts : Options.
Hypothesis dest_is_no_temp :
  strings_HasPrefix (filepath_Base destPath) ".download-" = false.

(** [downloadFile] with the HTTP client: when it fails the cache path
    holds what it held, and held nothing else in between; when it
    succeeds the cache path holds the whole body of a 200 response, and
    held only its old content before. *)
Lemma downloadFile_cache_path (w : World) :
  (snd (downloadFile env (HTTPClient_SchemeClient env url_Parse c) url destPath opts w) <> None ->
   holds_since destPath (fun n => n = fs w !! destPath) w
     (fst (downloadFile env (HTTPClient_SchemeClient env url_Parse c) url destPath opts w)))
  /\ (snd (downloadFile env (HTTPClient_SchemeClient env url_Parse c) url destPath opts w) = None ->
      exists w1 r,
        snd (doRequestWithRetry env c
               (apply_headers (Headers opts) (bare_request "GET" url)) w1) = (Some r, None)
        /\ StatusCode r = 200
        /\ BodyErr r = None
        /\ fs (fst (downloadFile env (HTTPClient_SchemeClient env url_Parse c)
                      url destPath opts w)) !! destPath
           = Some (File (whole_body (Body r)) 384)
        /\ holds_since destPath
             (fun n => n = fs w !! destPath \/ n = Some (File (whole_body (Body r)) 384)) w
             (fst (downloadFile env (HTTPClient_SchemeClient env url_Parse c)
                     url destPath opts w))).
Proof.
  set (Q := fun n : option Node => n = fs w !! destPath).
  assert (H0 : holds_since destPath Q w (emit (EvCall "GetSize" url) w))
    by (apply holds_emit, holds_refl; reflexivity).
  unfold downloadFile. cbn [GetSize GetResource HTTPClient_SchemeClient].
  pose proof (HTTP_GetSize_files env url_Parse c url (Headers opts)
                (emit (EvCall "GetSize" url) w)) as (Hf1 & Hp1 & _).
  destruct (HTTP_GetSize env url_Parse c url (Headers opts) (emit (EvCall "GetSize" url) w))
    as [w1 [size err1]].
  cbn [fst snd] in Hf1, Hp1.
  assert (H1 : holds_since destPath Q w w1) by (eapply holds_same_files; eassumption).
  destruct (panicked err1) eqn:Hpanic1.
  { cbn [fst snd]. split; [intros _; exact H1 |].
    intros E. now apply panicked_Some in Hpanic1. }
  unfold os_CreateTemp.
  pose proof (createTemp_try_holds env destPath Q dest_is_no_temp (Z.to_nat 10000) 0
                (filepath_Dir destPath) w w1 H1) as [H2 Htmp].
  destruct (createTemp_try env (Z.to_nat 10000) 0 (filepath_Dir destPath) ".download-*" w1)
    as [w2 [tmpPath err2]].
  cbn [fst snd] in H2, Htmp.
  destruct err2 as [e2|]; [cbn [fst snd]; split; [intros _; exact H2 | discriminate] |].
  destruct (Htmp eq_refl) as [Hne Hempty].
  set (w3 := emit (EvCall "GetResource" url)
               (emit (EvProgressStart (match err1 with Some _ => 0 | None => size end) url) w2)).
  assert (H3 : holds_since destPath Q w w3) by exact H2.
  pose proof (HTTP_GetResource_holds env url_Parse c destPath Q tmpPath url (Headers opts)
                w w3 Hne H3) as H4.
  pose proof (HTTP_GetResource_success env url_Parse c tmpPath url (Headers opts) w3 "" 384)
    as Hsuccess.
  destruct (HTTP_GetResource env url_Parse c url (ProgressWriter env tmpPath) (Headers opts) w3)
    as [w4 err4].
  cbn [fst snd] in H4, Hsuccess.
  assert (Hdeferred : forall Q' w', holds_since destPath Q' w w' ->
                        holds_since destPath Q' w (downloadFile_deferred env tmpPath w')).
  { intros Q' w' H'. unfold downloadFile_deferred.
    apply os_Remove_holds; [exact Hne | exact H']. }
  destruct (panicked err4) eqn:Hpanic4.
  { cbn [fst snd]. split; [intros _; now apply Hdeferred |].
    intros E. now apply panicked_Some in Hpanic4. }
  cbn [file_Close fst snd].
  set (w5 := emit (EvFs (OpClose tmpPath)) w4).
  assert (H5 : holds_since destPath Q w w5) by exact H4.
  destruct err4 as [e4|].
  { cbn [fst snd]. split; [intros _; now apply Hdeferred | discriminate]. }
  destruct (Hsuccess eq_refl Hempty) as (r & Hanswer & H200 & Hbody & Hfile).
  change ("" +:+ whole_body (Body r)) with (whole_body (Body r)) in Hfile.
  unfold os_Rename.
  destruct (os_fault env (log w5) (OpRename tmpPath destPath)) as [e5|].
  { cbn [fst snd]. split; [intros _; apply Hdeferred; exact H5 | discriminate]. }
  change (fs w5) with (fs w4). rewrite Hfile.
  destruct (fs w4 !! destPath) as [[|olddata oldperm]|] eqn:Hdest.
  { cbn [fst snd]. split; [intros _; apply Hdeferred; exact H5 | discriminate]. }
  - cbn [fst snd]. split; [congruence |]. intros _.
    exists w3, r.
    split; [exact Hanswer | split; [exact H200 | split; [exact Hbody | split]]].
    + unfold downloadFile_deferred, os_Remove.
      destruct (os_fault env _ (OpRemove tmpPath)); cbn [fst set_fs emit fs].
      * now rewrite lookup_insert_eq.
      * rewrite lookup_insert_ne, lookup_delete_eq by congruence.
        cbn [fst set_fs emit fs]. now rewrite lookup_insert_eq.
    + apply Hdeferred. apply holds_set_fs.
      * eapply holds_weaken; [| exact H5]. intros n Hn. left. exact Hn.
      * right. now rewrite lookup_insert_eq.
  - cbn [fst snd]. split; [congruence |]. intros _.
    exists w3, r.
    split; [exact Hanswer | split; [exact H200 | split; [exact Hbody | split]]].
    + unfold downloadFile_deferred, os_Remove.
      destruct (os_fault env _ (OpRemove tmpPath)); cbn [fst set_fs emit fs].
      * now rewrite lookup_insert_eq.
      * rewrite lookup_insert_ne, lookup_delete_eq by congruence.
        cbn [fst set_fs emit fs]. now rewrite lookup_insert_eq.
    + apply Hdeferred. apply holds_set_fs.
      * eapply holds_weaken; [| exact H5]. intros n Hn. left. exact Hn.
      * right. now rewrite lookup_insert_eq.
Qed.

End DownloadFacts.

(** ** The cache paths of the resolver are no temporary names *)

Lemma hex_digit_plain (n : N) :
  Ascii.eqb (hex_digit n) "/" = false /\ Ascii.eqb (hex_digit n) "." = false.
Proof.
  destruct n as [|p]; [split; reflexivity |].
  do 4 (try destruct p as [p|p|]); split; reflexivity.
Qed.

Lemma hex_sep_free (s : string) : sep_free (hex_EncodeToString s) = true.
Proof.
  induction s as [|c s IH]; simpl; [reflexivity |].
  rewrite !sep_free_cons. unfold Separator.
  rewrite (proj1 (hex_digit_plain _)), (proj1 (hex_digit_plain _)). exact IH.
Qed.

Lemma after_last_split (c : ascii) (s t : string) :
  after_last c s = Some t -> exists pre, s = pre +:+ String c t.
Proof.
  revert t. induction s as [|a s IH]; intros t H; simpl in H; [discriminate |].
  destruct (after_last c s) as [u|] eqn:Hs.
  - injection H as <-. destruct (IH u eq_refl) as [pre ->]. now exists (String a pre).
  - destruct (Ascii.eqb a c) eqn:Hac; [| discriminate].
    injection H as <-. apply Ascii.eqb_eq in Hac as ->. now exists "".
Qed.

Lemma Ext_sep_free (path : string) : sep_free (filepath_Ext path) = true.
Proof.
  unfold filepath_Ext.
  assert (Hlast : sep_free (match after_last Separator path with
                            | Some t => t | None => path end) = true).
  { destruct (after_last Separator path) as [t|] eqn:E.
    - now apply after_last_Some_free in E.
    - now apply after_last_None_free. }
  destruct (after_last "." _) as [t|] eqn:E; [| reflexivity].
  apply after_last_split in E as [pre E]. rewrite E in Hlast.
  rewrite sep_free_append in Hlast. apply andb_true_iff in Hlast as [_ Hlast].
  exact Hlast.
Qed.

Lemma Base_Join_name (dir b : string) :
  proper_name b -> filepath_Base (filepath_Join [dir; b]) = b.
Proof.
  intros Hb. pose proof Hb as (Hne & Hdot & Hdd & Hfree).
  assert (Hstep : forall rooted st, clean_stack rooted (split_sep Separator b) st = b :: st).
  { intros rooted st. rewrite (split_sep_id b Hfree). unfold clean_stack. simpl.
    unfold clean_step. now rewrite !decide_False by assumption. }
  destruct (decide (dir = "")) as [-> | Hd].
  - rewrite Join2_empty, decide_False by assumption.
    rewrite Clean_render by assumption. unfold stack_of. rewrite Hstep.
    apply (Base_render _ [] b). now apply proper_name_segment.
  - rewrite Join2_nonempty by assumption. rewrite Clean_render.
    2:{ intros E. apply append_eq_nil in E as [E _]. congruence. }
    rewrite stack_of_append, Hstep by assumption. simpl rev.
    apply Base_render. now apply proper_name_segment.
Qed.

(** A cache key is a name proper that starts with a hexadecimal digit. *)
Lemma cache_key_shape (url_Parse : string -> option url_URL) (url etag key : string) :
  ResourceToFilename url_Parse url etag = Some key ->
  proper_name key /\ strings_HasPrefix key ".download-" = false.
Proof.
  rewrite ResourceToFilename_eq. destruct (url_Parse url) as [u|]; [| discriminate].
  intros H. apply (inj Some) in H. subst key.
  pose proof (sha256_Sum_length (url +:+ etag)) as Hlen.
  pose proof (hex_sep_free (sha256_Sum (url +:+ etag))) as Hhex.
  destruct (sha256_Sum (url +:+ etag)) as [|c rest]; [discriminate |].
  cbn [hex_EncodeToString] in *.
  set (h := hex_digit (N.shiftr (N_of_ascii c) 4)) in *.
  set (tail := String (hex_digit (N.land (N_of_ascii c) 15)) (hex_EncodeToString rest)) in *.
  destruct (hex_digit_plain (N.shiftr (N_of_ascii c) 4)) as [_ Hdot]. fold h in Hdot.
  change (String h tail +:+ filepath_Ext (Path u))
    with (String h (tail +:+ filepath_Ext (Path u))).
  split.
  - repeat split.
    + discriminate.
    + intros E. injection E as E _. rewrite E in Hdot. discriminate.
    + intros E. injection E as E _. rewrite E in Hdot. discriminate.
    + change (String h (tail +:+ filepath_Ext (Path u)))
        with (String h tail +:+ filepath_Ext (Path u)).
      now rewrite sep_free_append, Hhex, Ext_sep_free.
  - simpl. now rewrite ?HasPrefix_cons, Hdot.
Qed.

Lemma cache_path_is_no_temp (url_Parse : string -> option url_URL)
    (url etag key cacheDir : string) :
  ResourceToFilename url_Parse url etag = Some key ->
  strings_HasPrefix (filepath_Base (filepath_Join [cacheDir; key])) ".download-" = false.
Proof.
  intros H. destruct (cache_key_shape url_Parse url etag key H) as [Hname Hprefix].
  now rewrite Base_Join_name.
Qed.

(** ** What a download writes to, and how it starts *)

Lemma retry_run_quiet (env : Env) (c : schemes_HTTPClient) (req : http_Request)
    (attempt : Z) (before evs : list Event) (result : option http_Response * option error) :
  retry_run env c req attempt before evs result ->
  Forall (fun e => written_path e = None) evs.
Proof.
  assert (Hb : forall a, Forall (fun e => written_path e = None) (backoff c a)).
  { intros a. unfold backoff. destruct (0 <? a); repeat constructor. }
  induction 1 as [a b ans _ _ | a b ans _ _ _ | a b ans evs res _ _ _ _ IH].
  - apply Forall_app. split; [apply Hb | repeat constructor].
  - apply Forall_app. split; [apply Hb | repeat constructor].
  - apply Forall_app. split; [apply Hb |]. constructor; [reflexivity | exact IH].
Qed.

Section DownloadTrace.

Variable env : Env.
Variable url_Parse : string -> option url_URL.
Variable c : schemes_HTTPClient.

(** A property of events that holds of every event that writes to no
    file. *)
Variable P : Event -> Prop.
Hypothesis P_quiet : forall e, written_path e = None -> P e.

Lemma doRequestWithRetry_extends (req : http_Request) (w : World) :
  extends_with P w (fst (doRequestWithRetry env c req w)).
Proof.
  destruct (Z_lt_le_dec (maxRetries c) 0) as [Hneg | Hpos].
  - rewrite (doRequestWithRetry_negative env c req w Hneg). apply extends_refl.
  - destruct (doRequestWithRetry_run env c req w Hpos) as (evs & Hl & _ & _ & Hrun).
    exists evs. split; [exact Hl |].
    eapply List.Forall_impl; [| exact (retry_run_quiet _ _ _ _ _ _ _ Hrun)].
    exact P_quiet.
Qed.

Lemma HTTP_GetSize_extends (url : string) (headers : option (gmap string string)) (w : World) :
  extends_with P w (fst (HTTP_GetSize env url_Parse c url headers w)).
Proof.
  unfold HTTP_GetSize.
  destruct (http_NewRequest url_Parse "HEAD" url) as [req | e]; [| apply extends_refl].
  pose proof (doRequestWithRetry_extends (apply_headers headers req) w) as H.
  destruct (doRequestWithRetry env c (apply_headers headers req) w) as [w' [resp err]].
  simpl in H.
  destruct err as [e|]; [exact H |]. destruct resp as [r|]; [| exact H].
  destruct (negb (StatusCode r =? StatusOK)); [exact H |].
  destruct (decide (Header_Get (resp_Header r) "Content-Length" = "")) as [_ | _]; [exact H |].
  destruct (strconv_ParseInt (Header_Get (resp_Header r) "Content-Length")); exact H.
Qed.

Lemma os_Rename_extends (old new : string) (w : World) :
  extends_with P w (fst (os_Rename env old new w)).
Proof.
  assert (HP : P (EvFs (OpRename old new))) by now apply P_quiet.
  unfold os_Rename.
  destruct (os_fault env (log w) (OpRename old new)); [now apply extends_emit |].
  destruct (fs w !! old) as [[|d p]|], (fs w !! new) as [[|d' p']|]; simpl;
    try apply extends_set_fs; now apply extends_emit.
Qed.

(** [os.CreateTemp] opens files of its own naming only, and returns one of
    these names. *)
Lemma createTemp_try_extends (fuel try : nat) (dir pattern : string) (w : World) :
  (forall k, P_writes P (joinPath dir (temp_prefix pattern) +:+ decimal k
                         +:+ temp_suffix pattern)) ->
  extends_with P w (fst (createTemp_try env fuel try dir pattern w))
  /\ (snd (snd (createTemp_try env fuel try dir pattern w)) = None ->
      exists k, fst (snd (createTemp_try env fuel try dir pattern w))
                = joinPath dir (temp_prefix pattern) +:+ decimal k +:+ temp_suffix pattern).
Proof.
  intros HP. revert try w. induction fuel as [|fuel IH]; intros try w; simpl.
  - split; [apply extends_refl | discriminate].
  - set (name := joinPath dir (temp_prefix pattern) +:+ decimal (os_random env (log w) try)
                 +:+ temp_suffix pattern).
    pose proof (os_OpenFile_extends env P name (Z.lor O_RDWR (Z.lor O_CREATE O_EXCL)) 384 w
                  (proj1 (HP _) _ _)) as Hopen.
    destruct (os_OpenFile env name (Z.lor O_RDWR (Z.lor O_CREATE O_EXCL)) 384 w) as [w1 [e|]];
      simpl in *.
    + destruct (is_exist e); [| split; [exact Hopen | discriminate]].
      destruct (IH (S try) w1) as [H1 H2].
      split; [eapply extends_trans; eassumption | exact H2].
    + split; [exact Hopen |]. intros _. now exists (os_random env (log w) try).
Qed.

Lemma ProgressWriter_write_extends (path : string) (written : Z) (chunk : string) (w : World) :
  P_writes P path ->
  extends_with P w (fst (w_write (ProgressWriter env path) written chunk w)).
Proof.
  intros [_ HP]. simpl.
  pose proof (file_Write_extends env P path chunk w (HP _)) as Hw.
  destruct (file_Write env path chunk w) as [w1 [k err]]. simpl in Hw.
  destruct (0 <? k); simpl; [| exact Hw].
  eapply extends_trans; [exact Hw | now apply extends_emit, P_quiet].
Qed.

Lemma io_Copy_extends (S : Type)
    (write : S -> string -> World -> World * (S * (Z * option error)))
    (chunks : list string) (readErr : option error) :
  (forall st chunk w, extends_with P w (fst (write st chunk w))) ->
  forall st w, extends_with P w (fst (io_Copy write st chunks readErr w)).
Proof.
  intros Hwrite. induction chunks as [|chunk rest IH]; intros st w; simpl; [apply extends_refl |].
  destruct (decide (chunk = "")) as [_ | _]; [apply IH |].
  pose proof (Hwrite st chunk w) as Hw.
  destruct (write st chunk w) as [w1 [st1 [k err]]]. simpl in Hw.
  destruct err as [e|]; [exact Hw |].
  destruct (decide (k = Z.of_nat (String.length chunk))) as [_ | _]; [| exact Hw].
  eapply extends_trans; [exact Hw | apply IH].
Qed.

Lemma HTTP_GetResource_extends (tmp url : string) (headers : option (gmap string string))
    (w : World) :
  P_writes P tmp ->
  extends_with P w (fst (HTTP_GetResource env url_Parse c url (ProgressWriter env tmp) headers w)).
Proof.
  intros HP. unfold HTTP_GetResource.
  destruct (http_NewRequest url_Parse "GET" url) as [req | e]; [| apply extends_refl].
  pose proof (doRequestWithRetry_extends (apply_headers headers req) w) as Hl.
  destruct (doRequestWithRetry env c (apply_headers headers req) w) as [w1 [resp err]].
  simpl in Hl.
  destruct err as [e|]; [exact Hl |]. destruct resp as [r|]; [| exact Hl].
  destruct (negb (StatusCode r =? StatusOK)); [exact Hl |].
  pose proof (io_Copy_extends _ (w_write (ProgressWriter env tmp)) (Body r) (BodyErr r)
                (fun st chunk w' => ProgressWriter_write_extends tmp st chunk w' HP)
                (w_cur (ProgressWriter env tmp)) w1) as H2.
  destruct (io_Copy (w_write (ProgressWriter env tmp)) (w_cur (ProgressWriter env tmp))
              (Body r) (BodyErr r) w1) as [w2 [e|]]; simpl in H2;
    eapply extends_trans; eassumption.
Qed.

Lemma downloadFile_deferred_extends (tmp : string) (w : World) :
  extends_with P w (downloadFile_deferred env tmp w).
Proof.
  unfold downloadFile_deferred.
  eapply extends_trans; [now apply (extends_emit _ EvProgressFinish), P_quiet |].
  now apply os_Remove_extends, P_quiet.
Qed.

(** A download marks the call of [GetSize] first, and opens and writes to
    temporary files next to its destination only. *)
Lemma downloadFile_extends (url destPath : string) (opts : Options) (w : World) :
  (forall k, P_writes P (joinPath (filepath_Dir destPath) (temp_prefix ".download-*")
                         +:+ decimal k +:+ temp_suffix ".download-*")) ->
  extends_with P (emit (EvCall "GetSize" url) w)
    (fst (downloadFile env (HTTPClient_SchemeClient env url_Parse c) url destPath opts w)).
Proof.
  intros HP. unfold downloadFile. cbn [GetSize GetResource HTTPClient_SchemeClient].
  pose proof (HTTP_GetSize_extends url (Headers opts) (emit (EvCall "GetSize" url) w)) as Hl.
  destruct (HTTP_GetSize env url_Parse c url (Headers opts) (emit (EvCall "GetSize" url) w))
    as [w1 [size err]]. cbn [fst] in Hl.
  destruct (panicked err); [exact Hl |].
  destruct (createTemp_try_extends (Z.to_nat 10000) 0 (filepath_Dir destPath) ".download-*" w1 HP)
    as [Htmp Hname].
  unfold os_CreateTemp.
  destruct (createTemp_try env (Z.to_nat 10000) 0 (filepath_Dir destPath) ".download-*" w1)
    as [w2 [tmpPath err2]]. cbn [fst snd] in Htmp, Hname.
  assert (H2 : extends_with P (emit (EvCall "GetSize" url) w) w2)
    by (eapply extends_trans; eassumption).
  destruct err2 as [e|]; [exact H2 |].
  destruct (Hname eq_refl) as [k ->]. clear Hname.
  set (tmpPath := joinPath (filepath_Dir destPath) (temp_prefix ".download-*")
                  +:+ decimal k +:+ temp_suffix ".download-*") in *.
  set (size' := match err with Some _ => 0 | None => size end).
  set (w3 := emit (EvCall "GetResource" url) (emit (EvProgressStart size' url) w2)).
  assert (H3 : extends_with P (emit (EvCall "GetSize" url) w) w3).
  { eapply extends_trans; [exact H2 |].
    eapply extends_trans; now apply extends_emit, P_quiet. }
  pose proof (HTTP_GetResource_extends tmpPath url (Headers opts) w3 (HP k)) as Hget.
  destruct (HTTP_GetResource env url_Parse c url (ProgressWriter env tmpPath) (Headers opts) w3)
    as [w4 err4]. cbn [fst] in Hget.
  assert (H4 : extends_with P (emit (EvCall "GetSize" url) w) w4)
    by (eapply extends_trans; eassumption).
  destruct (panicked err4).
  { eapply extends_trans; [exact H4 | apply downloadFile_deferred_extends]. }
  pose proof (file_Close_extends env P tmpPath w4 (P_quiet (EvFs (OpClose tmpPath)) eq_refl))
    as Hclose.
  destruct (file_Close env tmpPath w4) as [w5 errc]. cbn [fst] in Hclose.
  assert (H5 : extends_with P (emit (EvCall "GetSize" url) w) w5)
    by (eapply extends_trans; eassumption).
  destruct err4 as [e|].
  { eapply extends_trans; [exact H5 | apply downloadFile_deferred_extends]. }
  pose proof (os_Rename_extends tmpPath destPath w5) as Hren.
  destruct (os_Rename env tmpPath destPath w5) as [w6 err6]. cbn [fst] in Hren.
  assert (H6 : extends_with P (emit (EvCall "GetSize" url) w) w6)
    by (eapply extends_trans; eassumption).
  destruct err6 as [e|];
    (eapply extends_trans; [exact H6 | apply downloadFile_deferred_extends]).
Qed.

End DownloadTrace.

Lemma downloadFile_starts_with_GetSize (env : Env) (url_Parse : string -> option url_URL)
    (c : schemes_HTTPClient) (url destPath : string) (opts : Options) (w : World) :
  exists evs,
    log (fst (downloadFile env (HTTPClient_SchemeClient env url_Parse c) url destPath opts w))
    = log w ++ EvCall "GetSize" url :: evs.
Proof.
  destruct (downloadFile_extends env url_Parse c (fun _ => True) (fun _ _ => I)
              url destPath opts w) as (evs & Hl & _).
  { intros k. split; intros; exact I. }
  exists evs. rewrite Hl. simpl. now rewrite <- app_assoc.
Qed.

(** ** The freshness check under the lock *)

Section LockedBody.

Variable env : Env.
Variable json_Unmarshal : string -> option Meta.
Variable client : SchemeClient.
Variables url cachePath etag : string.
Variable opts : Options.

(** The body either finds the cache fresh and returns after its three
    probes, or it is not fresh and the body downloads, after one, two or
    three probes that leave the files alone and call no client. *)
Lemma handleRemoteURL_locked_cases (w : World) :
  (cache_is_fresh env json_Unmarshal cachePath etag w
   /\ handleRemoteURL_locked env json_Unmarshal client url cachePath etag opts w
      = ({| fs := fs w; log := log w ++ probe_events cachePath; past := past w |}, None))
  \/ (~ cache_is_fresh env json_Unmarshal cachePath etag w
      /\ exists wp evs,
           fs wp = fs w /\ past wp = past w /\ log wp = log w ++ evs
           /\ client_calls evs = []
           /\ Forall (fun e => written_path e = None) evs
           /\ handleRemoteURL_locked env json_Unmarshal client url cachePath etag opts w
              = downloadFile env client url cachePath opts wp).
Proof.
  unfold handleRemoteURL_locked, FileExists, LoadMetaFromFile, os_Stat, os_ReadFile,
    cache_is_fresh.
  set (metaPath := MetaFilePath cachePath).
  set (e1 := EvFs (OpStat cachePath)). set (e2 := EvFs (OpStat metaPath)).
  set (e3 := EvFs (OpReadFile metaPath)).
  assert (Hno1 : forall w1, fs w1 = fs w -> past w1 = past w -> log w1 = log w ++ [e1] ->
            exists wp evs, fs wp = fs w /\ past wp = past w /\ log wp = log w ++ evs
              /\ client_calls evs = []
              /\ Forall (fun e => written_path e = None) evs
              /\ downloadFile env client url cachePath opts w1
                 = downloadFile env client url cachePath opts wp).
  { intros w1 Hf Hp Hl. exists w1, [e1]. repeat split; try assumption; repeat constructor. }
  assert (Hno2 : forall w1, fs w1 = fs w -> past w1 = past w -> log w1 = (log w ++ [e1]) ++ [e2] ->
            exists wp evs, fs wp = fs w /\ past wp = past w /\ log wp = log w ++ evs
              /\ client_calls evs = []
              /\ Forall (fun e => written_path e = None) evs
              /\ downloadFile env client url cachePath opts w1
                 = downloadFile env client url cachePath opts wp).
  { intros w1 Hf Hp Hl. exists w1, [e1; e2]. rewrite <- app_assoc in Hl.
    repeat split; try assumption; repeat constructor. }
  assert (Hno3 : forall w1, fs w1 = fs w -> past w1 = past w ->
            log w1 = ((log w ++ [e1]) ++ [e2]) ++ [e3] ->
            exists wp evs, fs wp = fs w /\ past wp = past w /\ log wp = log w ++ evs
              /\ client_calls evs = []
              /\ Forall (fun e => written_path e = None) evs
              /\ downloadFile env client url cachePath opts w1
                 = downloadFile env client url cachePath opts wp).
  { intros w1 Hf Hp Hl. exists w1, [e1; e2; e3]. rewrite <- !app_assoc in Hl.
    repeat split; try assumption; repeat constructor. }
  cbn [emit fs log past].
  destruct (os_fault env (log w) (OpStat cachePath)) as [f1|] eqn:F1.
  { right. split; [intros (H & _); discriminate | now apply Hno1]. }
  destruct (fs w !! cachePath) as [node|] eqn:N1.
  2:{ right. split; [intros (_ & [n H] & _); discriminate | now apply Hno1]. }
  cbv beta iota zeta. cbn [emit fs log past].
  destruct (os_fault env (log w ++ [e1]) (OpStat metaPath)) as [f2|] eqn:F2.
  { right. split; [intros (_ & _ & H & _); discriminate | now apply Hno2]. }
  destruct (fs w !! metaPath) as [node2|] eqn:N2.
  2:{ right. split; [| now apply Hno2].
      intros (_ & _ & _ & _ & data & perm & meta & H & _). discriminate. }
  cbv beta iota zeta. cbn [emit fs log past]. rewrite N2.
  assert (Hlog3 : log w ++ [e1; e2] = (log w ++ [e1]) ++ [e2]) by now rewrite <- app_assoc.
  destruct (os_fault env ((log w ++ [e1]) ++ [e2]) (OpReadFile metaPath)) as [f3|] eqn:F3.
  { right. split; [| now apply Hno3].
    intros (_ & _ & _ & H & _). rewrite Hlog3 in H. congruence. }
  destruct node2 as [|data perm].
  { right. split; [| now apply Hno3].
    intros (_ & _ & _ & _ & data & perm & meta & H & _). discriminate. }
  cbv beta iota zeta.
  destruct (json_Unmarshal data) as [meta|] eqn:J.
  2:{ right. split; [| now apply Hno3].
      intros (_ & _ & _ & _ & data' & perm' & meta & H & H' & _). congruence. }
  destruct (bool_decide (ETag meta = etag)) eqn:B.
  - left. apply bool_decide_eq_true in B. split.
    + split; [reflexivity |]. split; [now exists node |]. split; [reflexivity |].
      split; [now rewrite Hlog3 |]. exists data, perm, meta. now repeat split.
    + cbv beta iota zeta. unfold probe_events. fold metaPath e1 e2 e3.
      unfold emit. cbn [fs log past]. now rewrite <- !app_assoc.
  - right. apply bool_decide_eq_false in B. split; [| cbv beta iota zeta; now apply Hno3].
    intros (_ & _ & _ & _ & data' & perm' & meta' & H & H' & H''). congruence.
Qed.

End LockedBody.

(** ** A failed fetch and the cache path (C2) *)

Lemma holds_since_from (dest : string) (Q : option Node -> Prop) (w0 w0' w : World) :
  past w0' = past w0 -> holds_since dest Q w0' w -> holds_since dest Q w0 w.
Proof. intros Hp H. unfold holds_since in *. now rewrite <- Hp. Qed.

Section RemoteResolution.

Variable env : Env.
Variable url_Parse : string -> option url_URL.
Variable json_Unmarshal : string -> option Meta.
Variable c : schemes_HTTPClient.
Variables url etag key : string.
Variable opts : Options.
Variable w : World.

Local Abbreviation cachePath := (filepath_Join [CacheDir opts; key]).
Local Abbreviation run :=
  (handleRemoteURL_locked env json_Unmarshal (HTTPClient_SchemeClient env url_Parse c)
     url cachePath etag opts w).

(** C2.  Take a remote resolution: the cache path is the cache directory
    joined with the key of the address and its revision token, and the
    body that runs under the lock checks the cache and downloads.  Then
    (1) every file that the run creates or writes to is a temporary file
    next to the cache path, never the cache path itself; (2) if the run
    fails, for whatever reason, what is at the cache path is at every
    moment of the run what was there before, so a cache path without file
    is left without file; (3) if the run succeeds, either the cache was
    found fresh and the files are as before, or a request was answered
    with status 200, its body was read to the end, the cache path holds
    exactly that body, and at every moment of the run the cache path held
    what was there before or that whole body, never a part of it. *)
Theorem failed_fetch_leaves_cache_path_alone :
  ResourceToFilename url_Parse url etag = Some key ->
  Forall (fun e => forall p, written_path e = Some p -> temp_sibling cachePath p /\ p <> cachePath)
    (new_events w (fst run))
  /\ (snd run <> None ->
      holds_since cachePath (fun n => n = fs w !! cachePath) w (fst run)
      /\ (fs w !! cachePath = None -> fs (fst run) !! cachePath = None))
  /\ (snd run = None ->
      (cache_is_fresh env json_Unmarshal cachePath etag w
       /\ fs (fst run) = fs w /\ past (fst run) = past w)
      \/ exists w1 r,
           snd (doRequestWithRetry env c
                  (apply_headers (Headers opts) (bare_request "GET" url)) w1) = (Some r, None)
           /\ StatusCode r = 200
           /\ BodyErr r = None
           /\ fs (fst run) !! cachePath = Some (File (whole_body (Body r)) 384)
           /\ holds_since cachePath
                (fun n => n = fs w !! cachePath \/ n = Some (File (whole_body (Body r)) 384))
                w (fst run)).
Proof.
  intros Hkey.
  pose proof (cache_path_is_no_temp url_Parse url etag key (CacheDir opts) Hkey) as Hno.
  set (P := fun e => forall p, written_path e = Some p ->
                               temp_sibling cachePath p /\ p <> cachePath).
  assert (P_quiet : forall e, written_path e = None -> P e).
  { intros e He p Hp. congruence. }
  assert (P_temp : forall k, P_writes P (joinPath (filepath_Dir cachePath)
                                           (temp_prefix ".download-*")
                                         +:+ decimal k +:+ temp_suffix ".download-*")).
  { intros k. split; [intros flag perm | intros data]; intros p Hp; simpl in Hp;
      injection Hp as <-; (split; [now exists k | now apply temp_name_not_dest]). }
  destruct (handleRemoteURL_locked_cases env json_Unmarshal
              (HTTPClient_SchemeClient env url_Parse c) url cachePath etag opts w)
    as [[Hfresh Hrun] | (Hstale & wp & evs & Hf & Hp & Hl & _ & Hq & Hrun)];
    rewrite Hrun.
  - cbn [fst snd]. split; [| split].
    + rewrite (new_events_app w {| fs := fs w; log := log w ++ probe_events cachePath;
                                   past := past w |} (probe_events cachePath) eq_refl).
      unfold probe_events.
      do 3 (apply List.Forall_cons; [apply P_quiet; reflexivity |]). apply List.Forall_nil.
    + intros H. now contradiction H.
    + intros _. left. split; [exact Hfresh | split; reflexivity].
  - destruct (downloadFile_cache_path env url_Parse c url cachePath opts Hno wp)
      as [Hfail Hok].
    rewrite Hf in Hfail, Hok.
    split; [| split].
    + apply new_events_extends.
      apply (extends_trans P w wp).
      { exists evs. split; [exact Hl |]. eapply List.Forall_impl; [| exact Hq]. exact P_quiet. }
      apply (extends_trans P wp (emit (EvCall "GetSize" url) wp)).
      { apply extends_emit, P_quiet. reflexivity. }
      now apply downloadFile_extends.
    + intros H. specialize (Hfail H). apply (holds_since_from _ _ w wp) in Hfail; [| exact Hp].
      split; [exact Hfail |]. intros Habsent. destruct Hfail as [Hnow _]. congruence.
    + intros H. right. destruct (Hok H) as (w1 & r & H1 & H2 & H3 & H4 & H5).
      exists w1, r. repeat split; try assumption;
        apply (holds_since_from _ _ w wp) in H5; try exact Hp; apply H5.
Qed.

(** C4.  The body that runs under the lock calls no method of the client,
    that is, it skips the fetch, exactly if the cache is fresh: the probe
    of the cache path finds something there, the probe of the metadata
    path finds the record, the record can be read and decoded, and its
    revision token is the probed one.  A fresh cache ends the body after
    the three probes, without error and with the files as they were.  A
    cache that is not fresh makes the body download: after the probes it
    runs [downloadFile], whose first act is to call [GetSize].  No cache
    file, no metadata record, a record that cannot be read and a record
    that cannot be decoded all count as not fresh. *)
Theorem fetch_skipped_iff_cache_fresh (path : string) :
  (client_calls
     (new_events w
        (fst (handleRemoteURL_locked env json_Unmarshal
                (HTTPClient_SchemeClient env url_Parse c) url path etag opts w))) = []
   <-> cache_is_fresh env json_Unmarshal path etag w)
  /\ (cache_is_fresh env json_Unmarshal path etag w ->
      handleRemoteURL_locked env json_Unmarshal (HTTPClient_SchemeClient env url_Parse c)
        url path etag opts w
      = ({| fs := fs w; log := log w ++ probe_events path; past := past w |}, None))
  /\ (~ cache_is_fresh env json_Unmarshal path etag w ->
      exists wp probes evs,
        handleRemoteURL_locked env json_Unmarshal (HTTPClient_SchemeClient env url_Parse c)
          url path etag opts w
        = downloadFile env (HTTPClient_SchemeClient env url_Parse c) url path opts wp
        /\ fs wp = fs w
        /\ log wp = log w ++ probes
        /\ client_calls probes = []
        /\ new_events w
             (fst (handleRemoteURL_locked env json_Unmarshal
                     (HTTPClient_SchemeClient env url_Parse c) url path etag opts w))
           = probes ++ EvCall "GetSize" url :: evs)
  /\ (fs w !! path = None -> ~ cache_is_fresh env json_Unmarshal path etag w)
  /\ (fs w !! MetaFilePath path = None -> ~ cache_is_fresh env json_Unmarshal path etag w)
  /\ (os_fault env (log w ++ [EvFs (OpStat path); EvFs (OpStat (MetaFilePath path))])
        (OpReadFile (MetaFilePath path)) <> None ->
      ~ cache_is_fresh env json_Unmarshal path etag w)
  /\ (forall data perm,
        fs w !! MetaFilePath path = Some (File data perm) ->
        json_Unmarshal data = None ->
        ~ cache_is_fresh env json_Unmarshal path etag w)
  /\ (forall data perm meta,
        fs w !! MetaFilePath path = Some (File data perm) ->
        json_Unmarshal data = Some meta ->
        ETag meta <> etag ->
        ~ cache_is_fresh env json_Unmarshal path etag w).
Proof.
  assert (Hstale_run : ~ cache_is_fresh env json_Unmarshal path etag w ->
      exists wp probes evs,
        handleRemoteURL_locked env json_Unmarshal (HTTPClient_SchemeClient env url_Parse c)
          url path etag opts w
        = downloadFile env (HTTPClient_SchemeClient env url_Parse c) url path opts wp
        /\ fs wp = fs w
        /\ log wp = log w ++ probes
        /\ client_calls probes = []
        /\ new_events w
             (fst (handleRemoteURL_locked env json_Unmarshal
                     (HTTPClient_SchemeClient env url_Parse c) url path etag opts w))
           = probes ++ EvCall "GetSize" url :: evs).
  { intros Hstale.
    destruct (handleRemoteURL_locked_cases env json_Unmarshal
                (HTTPClient_SchemeClient env url_Parse c) url path etag opts w)
      as [[Hfresh _] | (_ & wp & probes & Hf & Hp & Hl & Hc & _ & Hrun)]; [contradiction |].
    destruct (downloadFile_starts_with_GetSize env url_Parse c url path opts wp) as [evs Hevs].
    exists wp, probes, evs. repeat split; try assumption.
    rewrite Hrun. apply new_events_app. now rewrite Hevs, Hl, <- app_assoc. }
  assert (Hfresh_run : cache_is_fresh env json_Unmarshal path etag w ->
      handleRemoteURL_locked env json_Unmarshal (HTTPClient_SchemeClient env url_Parse c)
        url path etag opts w
      = ({| fs := fs w; log := log w ++ probe_events path; past := past w |}, None)).
  { intros Hfresh.
    destruct (handleRemoteURL_locked_cases env json_Unmarshal
                (HTTPClient_SchemeClient env url_Parse c) url path etag opts w)
      as [[_ Hrun] | [Hstale _]]; [exact Hrun | contradiction]. }
  split; [| split; [exact Hfresh_run | split; [exact Hstale_run |]]].
  - split.
    + intros Hcalls.
      destruct (handleRemoteURL_locked_cases env json_Unmarshal
                  (HTTPClient_SchemeClient env url_Parse c) url path etag opts w)
        as [[Hfresh _] | [Hstale _]]; [exact Hfresh |].
      destruct (Hstale_run Hstale) as (wp & probes & evs & _ & _ & _ & _ & Hnew).
      rewrite Hnew in Hcalls. unfold client_calls in Hcalls.
      rewrite omap_app in Hcalls. apply app_eq_nil in Hcalls as [_ Hcalls]. discriminate.
    + intros Hfresh. rewrite (Hfresh_run Hfresh). cbn [fst].
      now rewrite (new_events_app w {| fs := fs w; log := log w ++ probe_events path;
                                       past := past w |} (probe_events path) eq_refl).
  - split; [| split; [| split; [| split]]].
    + intros Hnone (_ & [n Hn] & _). congruence.
    + intros Hnone (_ & _ & _ & _ & data & perm & meta & H & _). congruence.
    + intros Hfault (_ & _ & _ & H & _). contradiction.
    + intros data perm Hfile Hjson (_ & _ & _ & _ & data' & perm' & meta & H & H' & _).
      congruence.
    + intros data perm meta Hfile Hjson Hne
        (_ & _ & _ & _ & data' & perm' & meta' & H & H' & H''). congruence.
Qed.

End RemoteResolution.

(** Against a server that answers 404, with an empty cache: the run
    fails and there is no file at the cache path afterwards. *)
Lemma failed_fetch_leaves_cache_path_alone_witness :
  ResourceToFilename url_Parse_plain "http://h/a" "" = Some sample_key
  /\ snd (handleRemoteURL_locked missing_server (fun _ => None)
            (HTTPClient_SchemeClient missing_server url_Parse_plain default_client)
            "http://h/a" (filepath_Join [CacheDir default_options; sample_key]) ""
            default_options empty_world) <> None
  /\ fs (fst (handleRemoteURL_locked missing_server (fun _ => None)
                (HTTPClient_SchemeClient missing_server url_Parse_plain default_client)
                "http://h/a" (filepath_Join [CacheDir default_options; sample_key]) ""
                default_options empty_world))
       !! filepath_Join [CacheDir default_options; sample_key] = None.
Proof.
  assert (Hkey : ResourceToFilename url_Parse_plain "http://h/a" "" = Some sample_key)
    by (vm_compute; reflexivity).
  assert (Hfails : snd (handleRemoteURL_locked missing_server (fun _ => None)
            (HTTPClient_SchemeClient missing_server url_Parse_plain default_client)
            "http://h/a" (filepath_Join [CacheDir default_options; sample_key]) ""
            default_options empty_world) <> None)
    by (vm_compute; discriminate).
  split; [exact Hkey | split; [exact Hfails |]].
  refine (proj2 (proj1 (proj2 (failed_fetch_leaves_cache_path_alone missing_server
                                 url_Parse_plain (fun _ => None) default_client
                                 "http://h/a" "" sample_key default_options empty_world Hkey))
                   Hfails) _).
  vm_compute. reflexivity.
Defined.

(** With the record of token [v1] in the cache, a probed token [v1] skips
    the fetch and a probed token [v2] fetches. *)
Example fresh_and_stale_cache :
  cache_is_fresh flaky_server token_record "/cache/k" "v1" cached_world
  /\ client_calls
       (new_events cached_world
          (fst (handleRemoteURL_locked flaky_server token_record
                  (HTTPClient_SchemeClient flaky_server url_Parse_plain default_client)
                  "http://h/a" "/cache/k" "v1" default_options cached_world))) = []
  /\ client_calls
       (new_events cached_world
          (fst (handleRemoteURL_locked flaky_server token_record
                  (HTTPClient_SchemeClient flaky_server url_Parse_plain default_client)
                  "http://h/a" "/cache/k" "v2" default_options cached_world)))
     = ["GetSize"; "GetResource"].
Proof.
  split; [| split; vm_compute; reflexivity].
  split; [reflexivity |]. split; [now exists (File "hello" 384) |].
  split; [reflexivity |]. split; [reflexivity |].
  exists "v1", 420, {| meta_URL := "http://h/a"; ETag := "v1"; CachedPath_ := "/cache/k";
                        CreatedAt := 0 |}.
  split; [vm_compute; reflexivity | split; reflexivity].
Qed.

(* ===================================================================== *)
(** * Part III: more properties of the code                               *)
(* ===================================================================== *)

(** ** The cache files are entries of the cache directory *)

Lemma render_snoc_append (rooted : bool) (xs : list string) (c s : string) :
  render rooted (xs ++ [c]) +:+ s = render rooted (xs ++ [c +:+ s]).
Proof.
  unfold render.
  destruct (xs ++ [c]) as [|e t] eqn:E; [now destruct xs |]. rewrite <- E. clear E e t.
  destruct (xs ++ [c +:+ s]) as [|e t] eqn:E; [now destruct xs |]. rewrite <- E. clear E e t.
  destruct xs as [|x xs].
  - simpl strings_Join. now rewrite append_assoc.
  - rewrite !Join_snoc by discriminate. now rewrite !append_assoc.
Qed.

Lemma proper_name_not_rooted (b : string) : proper_name b -> is_rooted b = false.
Proof.
  intros Hb. destruct (segment_first b (proper_name_segment b Hb)) as (c & b' & -> & Hc & _).
  unfold is_rooted. simpl. now rewrite ?HasPrefix_cons, Hc.
Qed.

(** Joining a directory with a name proper prints the elements of the
    directory and then the name. *)
Lemma Join_name_render (dir : string) :
  exists rooted xs,
    forall b, proper_name b -> filepath_Join [dir; b] = render rooted (xs ++ [b]).
Proof.
  assert (Hstep : forall b rooted st, proper_name b ->
             clean_stack rooted (split_sep Separator b) st = b :: st).
  { intros b rooted st (Hne & Hdot & Hdd & Hfree). rewrite (split_sep_id b Hfree).
    unfold clean_stack. simpl. unfold clean_step. now rewrite !decide_False by assumption. }
  destruct (decide (dir = "")) as [-> | Hd].
  - exists false, []. intros b Hb. pose proof Hb as (Hne & _).
    rewrite Join2_empty, decide_False by assumption.
    rewrite Clean_render by assumption. unfold stack_of.
    now rewrite Hstep, proper_name_not_rooted by assumption.
  - exists (is_rooted dir), (rev (stack_of dir)). intros b Hb.
    rewrite Join2_nonempty by assumption. rewrite Clean_render.
    2:{ intros E. apply append_eq_nil in E as [E _]. congruence. }
    rewrite stack_of_append, Hstep by assumption.
    now rewrite is_rooted_append by assumption.
Qed.

Lemma Join_name_suffix (dir b s : string) :
  proper_name b -> proper_name (b +:+ s) ->
  filepath_Join [dir; b] +:+ s = filepath_Join [dir; b +:+ s].
Proof.
  intros Hb Hbs. destruct (Join_name_render dir) as (rooted & xs & H).
  rewrite (H b Hb), (H _ Hbs). apply render_snoc_append.
Qed.

(** A cache key starts with a hexadecimal digit and has no separator. *)
Lemma cache_key_head (url_Parse : string -> option url_URL) (url etag key : string) :
  ResourceToFilename url_Parse url etag = Some key ->
  exists c t, key = String c t /\ Ascii.eqb c "." = false /\ sep_free key = true.
Proof.
  intros H. destruct (cache_key_shape url_Parse url etag key H) as [(Hne & _ & _ & Hfree) _].
  revert H. rewrite ResourceToFilename_eq. destruct (url_Parse url) as [u|]; [| discriminate].
  intros H. apply (inj Some) in H.
  pose proof (sha256_Sum_length (url +:+ etag)) as Hlen.
  destruct (sha256_Sum (url +:+ etag)) as [|c rest]; [discriminate |].
  cbn [hex_EncodeToString] in H.
  destruct (hex_digit_plain (N.shiftr (N_of_ascii c) 4)) as [_ Hdot].
  rewrite <- H in Hfree |- *.
  eexists _, _. split; [reflexivity |]. split; [exact Hdot | exact Hfree].
Qed.

Lemma key_with_suffix_proper (c : ascii) (t s : string) :
  Ascii.eqb c "." = false -> sep_free (String c t) = true -> sep_free s = true ->
  proper_name (String c t +:+ s).
Proof.
  intros Hc Hfree Hs. simpl. repeat split.
  - discriminate.
  - intros E. injection E as E _. rewrite E in Hc. discriminate.
  - intros E. injection E as E _. rewrite E in Hc. discriminate.
  - change (String c (t +:+ s)) with (String c t +:+ s).
    now rewrite sep_free_append, Hfree, Hs.
Qed.

(** X1.  For every address that parses, every revision token and every
    cache directory, the cache key has no separator and is neither [.] nor
    [..], so that the cache file, its lock file and its metadata file are
    entries of the cache directory itself, the cache file under the name
    of the key: nothing in the address can steer them elsewhere. *)
Theorem cache_files_are_entries_of_cache_dir
    (url_Parse : string -> option url_URL) (url etag key cacheDir : string)
    (cwd : list string) :
  ResourceToFilename url_Parse url etag = Some key ->
  sep_free key = true
  /\ filepath_Base (filepath_Join [cacheDir; key]) = key
  /\ directly_inside cwd cacheDir (filepath_Join [cacheDir; key]) = true
  /\ LockFilePath (filepath_Join [cacheDir; key]) = filepath_Join [cacheDir; key +:+ ".lock"]
  /\ directly_inside cwd cacheDir (LockFilePath (filepath_Join [cacheDir; key])) = true
  /\ MetaFilePath (filepath_Join [cacheDir; key])
     = filepath_Join [cacheDir; key +:+ ".meta.json"]
  /\ directly_inside cwd cacheDir (MetaFilePath (filepath_Join [cacheDir; key])) = true.
Proof.
  intros H.
  destruct (cache_key_shape url_Parse url etag key H) as [Hname _].
  destruct (cache_key_head url_Parse url etag key H) as (c & t & -> & Hc & Hfree).
  assert (Hlock : proper_name (String c t +:+ ".lock"))
    by (apply key_with_suffix_proper; [assumption | assumption | reflexivity]).
  assert (Hmeta : proper_name (String c t +:+ ".meta.json"))
    by (apply key_with_suffix_proper; [assumption | assumption | reflexivity]).
  unfold LockFilePath, MetaFilePath.
  rewrite (Join_name_suffix cacheDir _ ".lock" Hname Hlock).
  rewrite (Join_name_suffix cacheDir _ ".meta.json" Hname Hmeta).
  split; [exact Hfree |]. split; [now apply Base_Join_name |].
  split; [now apply Join_name_directly_inside |]. split; [reflexivity |].
  split; [now apply Join_name_directly_inside |]. split; [reflexivity |].
  now apply Join_name_directly_inside.
Qed.

(** The key of [http://h/a] in the cache directory [/cache]. *)
Lemma cache_files_are_entries_of_cache_dir_witness :
  ResourceToFilename url_Parse_plain "http://h/a" "" = Some sample_key
  /\ filepath_Join ["/cache"; sample_key] = "/cache/" +:+ sample_key
  /\ directly_inside [] "/cache" ("/cache/" +:+ sample_key) = true.
Proof.
  assert (Hkey : ResourceToFilename url_Parse_plain "http://h/a" "" = Some sample_key)
    by (vm_compute; reflexivity).
  assert (Hjoin : filepath_Join ["/cache"; sample_key] = "/cache/" +:+ sample_key)
    by (vm_compute; reflexivity).
  split; [exact Hkey | split; [exact Hjoin |]].
  rewrite <- Hjoin.
  exact (proj1 (proj2 (proj2 (cache_files_are_entries_of_cache_dir url_Parse_plain
                                "http://h/a" "" sample_key "/cache" [] Hkey)))).
Defined.

(** ** Options: the client and the timeout *)

(** X2.  Once the options hold an HTTP client, [WithTimeout] has no
    effect on the client that the downloads use.  [WithBasicAuth] puts the
    zero [http.Client] there when there was none, so that after it, in
    either order with [WithTimeout], requests are made by a client without
    timeout and without the transport settings; without a client in the
    options the timeout option is the timeout of the client. *)
Theorem client_in_options_overrides_timeout
    (o : Options) (timeout : Z) (username password : string) :
  (HTTPClient o <> None -> getHTTPClient (WithTimeout timeout o) = getHTTPClient o)
  /\ (HTTPClient o = None ->
      client_Timeout (getHTTPClient (WithTimeout timeout o)) = timeout)
  /\ getHTTPClient (WithTimeout timeout (WithBasicAuth username password o))
     = match HTTPClient o with Some c => c | None => http_Client_zero end
  /\ getHTTPClient (WithBasicAuth username password (WithTimeout timeout o))
     = match HTTPClient o with Some c => c | None => http_Client_zero end
  /\ (HTTPClient o = None ->
      client (configured_client (WithTimeout timeout (WithBasicAuth username password o)))
      = http_Client_zero
      /\ client_Timeout
           (client (configured_client
                      (WithTimeout timeout (WithBasicAuth username password o)))) = 0).
Proof.
  destruct o as [cd ea fe q pr hd hc tm mr rd].
  unfold configured_client, getHTTPClient, WithTimeout, WithBasicAuth, set_HTTPClient,
    set_Headers, SetRetryConfig, SetHTTPClient.
  cbn [HTTPClient Headers Timeout CacheDir Options_ExtractArchive ForceExtract Quiet Progress
       MaxRetries RetryDelay].
  destruct hc as [c|], hd as [m|];
    cbn [HTTPClient Headers Timeout client client_Timeout];
    repeat split; try reflexivity; try congruence; intros H; congruence.
Qed.

(** ** Options: the headers of a request *)

Section HeaderFacts.

Local Abbreviation fold_headers :=
  (map_fold (fun key value h => Header_Set h key value) (∅ : gmap string string)).


End HeaderFacts.





(** A request after [WithHeader] and [WithAuth] on the default options. *)
Example headers_of_a_request :
  req_Header (apply_headers
                (Headers (WithAuth "t0k" (WithHeader "x-custom" "1" default_options)))
                (bare_request "GET" "http://h/a"))
  = {[ "X-Custom" := "1"; "Authorization" := "Bearer t0k";
       "User-Agent" := "CachedPath-Go/1.0" ]}.
Proof. apply map_eq. intros k. vm_compute. reflexivity. Qed.

(** ** The registry of scheme clients *)

(** X4.  A client that is registered is found under its scheme name, where
    it replaces the client registered under that name before; the other
    names keep their clients; [GetSupportedSchemes] lists the names that
    [GetClient] finds, each once; and after [init] the one name is [http],
    so that [https] is not found. *)
Theorem registered_client_is_found
    (client : client_value) (registry : gmap string client_value) :
  schemes_GetClient (client_Scheme client) (schemes_Register client registry)
  = (Some client, true)
  /\ (forall scheme,
        scheme <> client_Scheme client ->
        schemes_GetClient scheme (schemes_Register client registry)
        = schemes_GetClient scheme registry)
  /\ (forall scheme,
        In scheme (schemes_GetSupportedSchemes registry)
        <-> snd (schemes_GetClient scheme registry) = true)
  /\ NoDup (schemes_GetSupportedSchemes registry)
  /\ schemes_GetSupportedSchemes schemes_init = ["http"]
  /\ schemes_GetClient "http" schemes_init = (Some (HTTPClient_value NewHTTPClient), true)
  /\ schemes_GetClient "https" schemes_init = (None, false).
Proof.
  unfold schemes_GetClient, schemes_Register, schemes_GetSupportedSchemes.
  split; [now rewrite lookup_insert_eq |].
  split; [intros scheme Hne; now rewrite lookup_insert_ne by congruence |].
  split; [| split; [| split; [| split]]].
  - intros scheme. rewrite <- list_elem_of_In.
    change (map fst (map_to_list registry)) with ((map_to_list registry).*1).
    split.
    + intros H. apply list_elem_of_fmap in H as ([k v] & -> & H).
      apply elem_of_map_to_list in H. simpl. now rewrite H.
    + destruct (registry !! scheme) as [v|] eqn:E; [| discriminate]. intros _.
      apply list_elem_of_fmap. exists (scheme, v). split; [reflexivity |].
      now apply elem_of_map_to_list.
  - change (map fst (map_to_list registry)) with ((map_to_list registry).*1).
    apply NoDup_fst_map_to_list.
  - unfold schemes_init, schemes_Register. simpl. now rewrite insert_empty, map_to_list_singleton.
  - reflexivity.
  - reflexivity.
Qed.

(** ** A negative retry count *)

(** X5.  With a negative retry count the loop of the transport sends
    nothing and returns neither response nor error, and each of the three
    methods of the HTTP client then reads the missing response: for an
    address that parses, the method panics with a nil dereference and has
    sent no request and touched no file. *)
Theorem negative_retry_count_panics
    (env : Env) (url_Parse : string -> option url_URL) (c : schemes_HTTPClient)
    (url : string) (headers : option (gmap string string)) (writer : io_Writer) (w : World) :
  maxRetries c < 0 ->
  url_Parse url <> None ->
  HTTP_GetETag env url_Parse c url headers w = (w, ("", Some runtime_panic))
  /\ HTTP_GetSize env url_Parse c url headers w = (w, (0, Some runtime_panic))
  /\ HTTP_GetResource env url_Parse c url writer headers w = (w, Some runtime_panic)
  /\ (forall req, doRequestWithRetry env c req w = (w, (None, None))).
Proof.
  intros Hneg Hurl.
  unfold HTTP_GetETag, HTTP_GetSize, HTTP_GetResource, http_NewRequest.
  destruct (url_Parse url) as [u|]; [| congruence].
  rewrite !(doRequestWithRetry_negative env c _ w Hneg).
  repeat split. intros req. now apply doRequestWithRetry_negative.
Qed.

(** The client of options with [WithMaxRetries (-1)] against any server. *)
Lemma negative_retry_count_panics_witness :
  maxRetries (configured_client (WithMaxRetries (-1) default_options)) < 0
  /\ url_Parse_plain "http://h/a" <> None
  /\ HTTP_GetETag flaky_server url_Parse_plain
       (configured_client (WithMaxRetries (-1) default_options)) "http://h/a"
       (Headers default_options) empty_world
     = (empty_world, ("", Some runtime_panic)).
Proof.
  assert (H1 : maxRetries (configured_client (WithMaxRetries (-1) default_options)) < 0)
    by (vm_compute; reflexivity).
  assert (H2 : url_Parse_plain "http://h/a" <> None) by (vm_compute; discriminate).
  split; [exact H1 | split; [exact H2 |]].
  exact (proj1 (negative_retry_count_panics flaky_server url_Parse_plain
                  (configured_client (WithMaxRetries (-1) default_options)) "http://h/a"
                  (Headers default_options) (ProgressWriter flaky_server "/tmp/x")
                  empty_world H1 H2)).
Defined.

(** ** What the file operations leave in place *)

Lemma mkdirs_lookup (dirs : list string) (m : gmap string Node) (q : string) :
  fold_right (fun d m => <[d := Dir]> m) m dirs !! q
  = if bool_decide (q ∈ dirs) then Some Dir else m !! q.
Proof.
  induction dirs as [|d dirs IH]; simpl; [reflexivity |].
  destruct (decide (d = q)) as [-> | Hne].
  - rewrite lookup_insert_eq, bool_decide_eq_true_2; [reflexivity | constructor].
  - rewrite lookup_insert_ne, IH by assumption.
    destruct (bool_decide (q ∈ dirs)) eqn:E.
    + apply bool_decide_eq_true in E. rewrite bool_decide_eq_true_2; [reflexivity |].
      now constructor.
    + apply bool_decide_eq_false in E. rewrite bool_decide_eq_false_2; [reflexivity |].
      intros H. apply elem_of_cons in H as [-> | H]; [congruence | contradiction].
Qed.

Section FsFrame.

Variable env : Env.

(** [os.MkdirAll] never replaces a file. *)
Lemma os_MkdirAll_keeps_files (path : string) (perm : Z) (w : World) (q data : string)
    (mode : Z) :
  fs w !! q = Some (File data mode) ->
  fs (fst (os_MkdirAll env path perm w)) !! q = Some (File data mode).
Proof.
  intros Hq. unfold os_MkdirAll.
  destruct (os_fault env (log w) (OpMkdirAll path perm)); [exact Hq |].
  destruct (forallb _ _) eqn:Hall; [| exact Hq].
  cbn [fst set_fs fs emit]. rewrite mkdirs_lookup.
  destruct (bool_decide (q ∈ ancestors (String.length path) path)) eqn:E; [| exact Hq].
  apply bool_decide_eq_true in E. apply list_elem_of_In in E.
  rewrite forallb_forall in Hall. specialize (Hall q E). rewrite Hq in Hall. discriminate.
Qed.

(** Opening a file for writing changes no other path; opened with
    [O_TRUNC] the file is there and empty. *)
Lemma os_OpenFile_other (path : string) (flag perm : Z) (w : World) (q : string) :
  q <> path ->
  fs (fst (os_OpenFile env path flag perm w)) !! q = fs w !! q.
Proof.
  intros Hne. unfold os_OpenFile.
  destruct (os_fault env (log w) (OpOpenFile path flag perm)); [reflexivity |].
  destruct (fs w !! path) as [[|data old]|].
  - destruct (Z.testbit flag 7); reflexivity.
  - destruct (Z.testbit flag 7); [reflexivity |].
    destruct (Z.testbit flag 9); [| reflexivity].
    cbn [fst set_fs fs]. now rewrite lookup_insert_ne by congruence.
  - destruct (Z.testbit flag 6); [| reflexivity].
    cbn [fst set_fs fs]. now rewrite lookup_insert_ne by congruence.
Qed.

Lemma os_OpenFile_truncates (path : string) (flag perm : Z) (w : World) :
  Z.testbit flag 9 = true ->
  snd (os_OpenFile env path flag perm w) = None ->
  exists mode, fs (fst (os_OpenFile env path flag perm w)) !! path = Some (File "" mode).
Proof.
  intros Htrunc. unfold os_OpenFile.
  destruct (os_fault env (log w) (OpOpenFile path flag perm)); [discriminate |].
  destruct (fs w !! path) as [[|data old]|].
  - destruct (Z.testbit flag 7); discriminate.
  - destruct (Z.testbit flag 7); [discriminate |]. rewrite Htrunc. intros _.
    exists old. cbn [fst set_fs fs]. apply lookup_insert_eq.
  - destruct (Z.testbit flag 6); [| discriminate]. intros _.
    exists perm. cbn [fst set_fs fs]. apply lookup_insert_eq.
Qed.

Lemma file_Write_other (path data : string) (w : World) (q : string) :
  q <> path -> fs (fst (file_Write env path data w)) !! q = fs w !! q.
Proof.
  intros Hne. unfold file_Write.
  destruct (os_fault env (log w) (OpWrite path data)); cbn [fst set_fs fs];
    apply append_data_other; congruence.
Qed.

Lemma file_Close_files (path : string) (w : World) :
  fs (fst (file_Close env path w)) = fs w.
Proof. reflexivity. Qed.

Lemma copy_to_file_other (path : string) (data : list string) (readErr : option error)
    (q : string) :
  q <> path ->
  forall w, fs (fst (copy_to_file env path data readErr w)) !! q = fs w !! q.
Proof.
  intros Hne. unfold copy_to_file. simpl.
  induction data as [|chunk rest IH]; intros w; simpl; [reflexivity |].
  destruct (decide (chunk = "")) as [_ | _]; [apply IH |].
  pose proof (file_Write_other path chunk w q Hne) as Hw.
  destruct (file_Write env path chunk w) as [w1 [k err]]. simpl in Hw |- *.
  destruct err as [e|]; [exact Hw |].
  destruct (decide (k = Z.of_nat (String.length chunk))) as [_ | _]; [| exact Hw].
  now rewrite IH.
Qed.

(** A copy into a file that ends without error has appended all of the
    data, and the reading had no error. *)
Lemma copy_to_file_appends_all (path : string) (data : list string)
    (readErr : option error) :
  forall (w : World) (old : string) (mode : Z),
    snd (copy_to_file env path data readErr w) = None ->
    fs w !! path = Some (File old mode) ->
    readErr = None
    /\ fs (fst (copy_to_file env path data readErr w)) !! path
       = Some (File (old +:+ whole_body data) mode).
Proof.
  unfold copy_to_file. simpl.
  induction data as [|chunk rest IH]; intros w old mode Hok Hfile; simpl in *.
  - split; [exact Hok | now rewrite append_nil_r].
  - destruct (decide (chunk = "")) as [-> | _]; [now apply IH |].
    pose proof (file_Write_ok env path chunk w) as Hw.
    destruct (file_Write env path chunk w) as [w1 [k err]]. simpl in Hw, Hok |- *.
    destruct err as [e|]; [discriminate |].
    destruct (decide (k = Z.of_nat (String.length chunk))) as [_ | _]; [| discriminate].
    destruct (Hw eq_refl) as [_ Hfs].
    destruct (IH w1 (old +:+ chunk) mode Hok) as [Hr Hnew].
    { rewrite Hfs. unfold append_data. rewrite Hfile. apply lookup_insert_eq. }
    split; [exact Hr |]. rewrite Hnew. now rewrite append_assoc.
Qed.

End FsFrame.

Lemma os_MkdirAll_files_back (env : Env) (path : string) (perm : Z) (w : World)
    (q data : string) (mode : Z) :
  fs (fst (os_MkdirAll env path perm w)) !! q = Some (File data mode) ->
  fs w !! q = Some (File data mode).
Proof.
  unfold os_MkdirAll.
  destruct (os_fault env (log w) (OpMkdirAll path perm)); [auto |].
  destruct (forallb _ _); [| auto].
  cbn [fst set_fs fs emit]. rewrite mkdirs_lookup.
  destruct (bool_decide _); [discriminate | auto].
Qed.

(** ** What an extraction leaves in the files *)

Section ZipContent.

Variable env : Env.
Variable zip_decode : string -> option (list zip_File).
Variable targz_decode : string -> option (list tar_Item).
Variable strings_ToLower : string -> string.
Variable destDir : string.

Local Abbreviation target := (fun f : zip_File => filepath_Join [destDir; zf_Name f]).

Lemma extractZipFile_keeps (f : zip_File) (w : World) (q data : string) (mode : Z) :
  fs w !! q = Some (File data mode) ->
  (zf_IsDir f = false -> target f <> q) ->
  fs (fst (extractZipFile env f destDir w)) !! q = Some (File data mode).
Proof.
  intros Hq Hne. unfold extractZipFile.
  destruct (negb (within_dest destDir (target f))); [exact Hq |].
  destruct (zf_IsDir f); [now apply os_MkdirAll_keeps_files |].
  specialize (Hne eq_refl).
  pose proof (os_MkdirAll_keeps_files env (filepath_Dir (target f)) ModePerm w q data mode Hq)
    as H1.
  destruct (os_MkdirAll env (filepath_Dir (target f)) ModePerm w) as [w1 [e|]];
    [exact H1 |]. cbn [fst] in H1.
  pose proof (os_OpenFile_other env (target f) (Z.lor O_WRONLY (Z.lor O_CREATE O_TRUNC))
                (zf_Mode f) w1 q (not_eq_sym Hne)) as H2.
  destruct (os_OpenFile env (target f) _ (zf_Mode f) w1) as [w2 [e|]]; cbn [fst] in H2 |- *;
    [now rewrite H2 |].
  destruct (zf_OpenErr f) as [e|]; [cbn [fst]; now rewrite file_Close_files, H2 |].
  pose proof (copy_to_file_other env (target f) (zf_Data f) (zf_ReadErr f) q
                (not_eq_sym Hne) w2) as H3.
  destruct (copy_to_file env (target f) (zf_Data f) (zf_ReadErr f) w2) as [w3 err].
  cbn [fst] in H3 |- *. now rewrite file_Close_files, H3, H2.
Qed.

Lemma extractZipFile_content (f : zip_File) (w : World) :
  snd (extractZipFile env f destDir w) = None ->
  zf_IsDir f = false ->
  zf_OpenErr f = None /\ zf_ReadErr f = None
  /\ exists mode,
       fs (fst (extractZipFile env f destDir w)) !! target f
       = Some (File (whole_body (zf_Data f)) mode).
Proof.
  unfold extractZipFile. intros Hok Hfile. rewrite Hfile in Hok |- *.
  destruct (negb (within_dest destDir (target f))); [discriminate |].
  destruct (os_MkdirAll env (filepath_Dir (target f)) ModePerm w) as [w1 [e|]];
    [discriminate |].
  pose proof (os_OpenFile_truncates env (target f) (Z.lor O_WRONLY (Z.lor O_CREATE O_TRUNC))
                (zf_Mode f) w1 eq_refl) as Hopen.
  destruct (os_OpenFile env (target f) _ (zf_Mode f) w1) as [w2 [e|]]; [discriminate |].
  destruct (Hopen eq_refl) as [mode Hempty]. cbn [fst] in Hempty.
  destruct (zf_OpenErr f) as [e|]; [discriminate |].
  pose proof (copy_to_file_appends_all env (target f) (zf_Data f) (zf_ReadErr f) w2 "" mode)
    as Hcopy.
  destruct (copy_to_file env (target f) (zf_Data f) (zf_ReadErr f) w2) as [w3 err].
  cbn [fst snd] in *. subst err.
  destruct (Hcopy eq_refl Hempty) as [Hr Hfs].
  split; [reflexivity |]. split; [exact Hr |]. exists mode. now rewrite file_Close_files.
Qed.

Lemma extractZip_files_keeps (files : list zip_File) (q data : string) (mode : Z) :
  (forall g, In g files -> zf_IsDir g = false -> target g <> q) ->
  forall w,
    fs w !! q = Some (File data mode) ->
    fs (fst (extractZip_files env files destDir w)) !! q = Some (File data mode).
Proof.
  induction files as [|g rest IH]; intros Hne w Hq; simpl; [exact Hq |].
  pose proof (extractZipFile_keeps g w q data mode Hq (Hne g (or_introl eq_refl))) as H1.
  destruct (extractZipFile env g destDir w) as [w1 [e|]]; [exact H1 |].
  apply IH; [| exact H1]. intros g' Hg'. apply Hne. now right.
Qed.

Lemma extractZip_files_content (pre : list zip_File) (f : zip_File) (post : list zip_File) :
  zf_IsDir f = false ->
  (forall g, In g post -> zf_IsDir g = false -> target g <> target f) ->
  forall w,
    snd (extractZip_files env (pre ++ f :: post) destDir w) = None ->
    zf_OpenErr f = None /\ zf_ReadErr f = None
    /\ exists mode,
         fs (fst (extractZip_files env (pre ++ f :: post) destDir w)) !! target f
         = Some (File (whole_body (zf_Data f)) mode).
Proof.
  intros Hfile Hlater. induction pre as [|g pre IH]; intros w Hok; simpl in Hok |- *.
  - pose proof (extractZipFile_content f w) as Hc.
    destruct (extractZipFile env f destDir w) as [w1 [e|]]; [discriminate |].
    destruct (Hc eq_refl Hfile) as (Ho & Hr & mode & Hfs). cbn [fst] in Hfs.
    split; [exact Ho |]. split; [exact Hr |]. exists mode.
    now apply extractZip_files_keeps.
  - destruct (extractZipFile env g destDir w) as [w1 [e|]]; [discriminate |].
    now apply IH.
Qed.

(** X6.  After [ExtractArchive] has extracted a ZIP archive without
    error, the archive was a file that decodes to a list of entries, and
    every file entry that is the last file entry for its path has its
    bytes, all of them and nothing else, at the destination joined with
    its name. *)
Theorem extracted_zip_entries_hold_their_bytes (archivePath : string) (w : World) :
  strings_ToLower (filepath_Ext archivePath) = ".zip" ->
  snd (ExtractArchive env zip_decode targz_decode strings_ToLower archivePath destDir w)
  = None ->
  exists data amode files,
    fs w !! archivePath = Some (File data amode)
    /\ zip_decode data = Some files
    /\ forall pre f post,
         files = pre ++ f :: post ->
         zf_IsDir f = false ->
         (forall g, In g post -> zf_IsDir g = false ->
            filepath_Join [destDir; zf_Name g] <> filepath_Join [destDir; zf_Name f]) ->
         exists mode,
           fs (fst (ExtractArchive env zip_decode targz_decode strings_ToLower
                      archivePath destDir w))
             !! filepath_Join [destDir; zf_Name f]
           = Some (File (whole_body (zf_Data f)) mode).
Proof.
  intros Hext. unfold ExtractArchive, EnsureDir.
  pose proof (os_MkdirAll_files_back env destDir 493 w archivePath) as Hback.
  destruct (os_MkdirAll env destDir 493 w) as [w1 [e|]]; [discriminate |].
  cbn [fst] in Hback. cbv zeta. rewrite Hext, decide_True by reflexivity.
  unfold extractZip, zip_OpenReader, os_ReadFile.
  destruct (os_fault env (log w1) (OpReadFile archivePath)); [discriminate |].
  destruct (fs w1 !! archivePath) as [[|data amode]|] eqn:Ha; [discriminate | | discriminate].
  destruct (zip_decode data) as [files|] eqn:Hd; [| discriminate].
  intros Hok. exists data, amode, files.
  split; [now apply Hback |]. split; [exact Hd |].
  intros pre f post -> Hfile Hlater.
  destruct (extractZip_files_content pre f post Hfile Hlater _ Hok) as (_ & _ & mode & H).
  now exists mode.
Qed.

End ZipContent.

Section TarContent.

Variable env : Env.
Variable zip_decode : string -> option (list zip_File).
Variable targz_decode : string -> option (list tar_Item).
Variable strings_ToLower : string -> string.
Variable destDir : string.

(** The regular entries of a tar stream and where each one goes. *)
Local Abbreviation regular_target :=
  (fun (it : tar_Item) (q : string) =>
     match it with
     | TarEntry h _ _ =>
         Ascii.eqb (th_Typeflag h) tar_TypeReg = true
         /\ Ascii.eqb (th_Typeflag h) tar_TypeDir = false
         /\ filepath_Join [destDir; th_Name h] = q
     | TarError _ => False
     end).

Lemma tar_entry_keeps (h : tar_Header) (data : list string) (readErr : option error)
    (w : World) (q old : string) (mode : Z) :
  fs w !! q = Some (File old mode) ->
  filepath_Join [destDir; th_Name h] <> q ->
  let target := filepath_Join [destDir; th_Name h] in
  fs (fst (file_Close env target
             (fst (copy_to_file env target data readErr
                     (fst (os_Create env target
                             (fst (os_MkdirAll env (filepath_Dir target) 493 w)))))))) !! q
  = Some (File old mode).
Proof.
  intros Hq Hne target. rewrite file_Close_files.
  rewrite copy_to_file_other by (apply not_eq_sym; exact Hne).
  unfold os_Create. rewrite os_OpenFile_other by (apply not_eq_sym; exact Hne).
  now apply os_MkdirAll_keeps_files.
Qed.

Lemma extractTarGz_items_keeps (items : list tar_Item) (q old : string) (mode : Z) :
  (forall it, In it items -> ~ regular_target it q) ->
  forall w,
    fs w !! q = Some (File old mode) ->
    fs (fst (extractTarGz_items env items destDir w)) !! q = Some (File old mode).
Proof.
  induction items as [|[h data readErr | e] rest IH]; intros Hne w Hq; simpl;
    [exact Hq | | exact Hq].
  assert (Hrest : forall it, In it rest -> ~ regular_target it q)
    by (intros it Hit; apply Hne; now right).
  pose proof (Hne (TarEntry h data readErr) (or_introl eq_refl)) as Hh. simpl in Hh.
  destruct (negb (within_dest destDir (filepath_Join [destDir; th_Name h]))); [exact Hq |].
  destruct (Ascii.eqb (th_Typeflag h) tar_TypeDir) eqn:Hdir.
  - pose proof (os_MkdirAll_keeps_files env (filepath_Join [destDir; th_Name h]) 493 w
                  q old mode Hq) as H1.
    destruct (os_MkdirAll env (filepath_Join [destDir; th_Name h]) 493 w) as [w1 [e|]];
      [exact H1 | now apply IH].
  - destruct (Ascii.eqb (th_Typeflag h) tar_TypeReg) eqn:Hreg; [| now apply IH].
    assert (Hq' : filepath_Join [destDir; th_Name h] <> q) by (intros E; apply Hh; auto).
    pose proof (tar_entry_keeps h data readErr w q old mode Hq Hq') as H.
    cbv zeta in H.
    destruct (os_MkdirAll env (filepath_Dir (filepath_Join [destDir; th_Name h])) 493 w)
      as [w1 [e|]] eqn:E1.
    { pose proof (os_MkdirAll_keeps_files env
                    (filepath_Dir (filepath_Join [destDir; th_Name h])) 493 w q old mode Hq)
        as H1. now rewrite E1 in H1. }
    cbn [fst] in H.
    destruct (os_Create env (filepath_Join [destDir; th_Name h]) w1) as [w2 [e|]] eqn:E2.
    { pose proof (os_MkdirAll_keeps_files env
                    (filepath_Dir (filepath_Join [destDir; th_Name h])) 493 w q old mode Hq)
        as H1. rewrite E1 in H1. cbn [fst] in H1 |- *.
      pose proof (os_OpenFile_other env (filepath_Join [destDir; th_Name h])
                    (Z.lor O_RDWR (Z.lor O_CREATE O_TRUNC)) 438 w1 q (not_eq_sym Hq')) as H2.
      unfold os_Create in E2. rewrite E2 in H2. cbn [fst] in H2. now rewrite H2. }
    cbn [fst] in H.
    destruct (copy_to_file env (filepath_Join [destDir; th_Name h]) data readErr w2)
      as [w3 err]. cbn [fst] in H.
    destruct err as [e|]; [exact H | now apply IH].
Qed.

Lemma extractTarGz_items_content (pre : list tar_Item) (h : tar_Header)
    (data : list string) (readErr : option error) (post : list tar_Item) :
  Ascii.eqb (th_Typeflag h) tar_TypeReg = true ->
  (forall it, In it post -> ~ regular_target it (filepath_Join [destDir; th_Name h])) ->
  forall w,
    snd (extractTarGz_items env (pre ++ TarEntry h data readErr :: post) destDir w) = None ->
    readErr = None
    /\ exists mode,
         fs (fst (extractTarGz_items env (pre ++ TarEntry h data readErr :: post) destDir w))
           !! filepath_Join [destDir; th_Name h]
         = Some (File (whole_body data) mode).
Proof.
  intros Hreg Hlater.
  assert (Hdir : Ascii.eqb (th_Typeflag h) tar_TypeDir = false).
  { apply Ascii.eqb_eq in Hreg. rewrite Hreg. reflexivity. }
  induction pre as [|[h' data' readErr' | e'] pre IH]; intros w Hok; simpl in Hok |- *.
  - destruct (negb (within_dest destDir (filepath_Join [destDir; th_Name h])));
      [discriminate |].
    rewrite Hdir, Hreg in Hok |- *.
    destruct (os_MkdirAll env (filepath_Dir (filepath_Join [destDir; th_Name h])) 493 w)
      as [w1 [e|]]; [discriminate |].
    pose proof (os_OpenFile_truncates env (filepath_Join [destDir; th_Name h])
                  (Z.lor O_RDWR (Z.lor O_CREATE O_TRUNC)) 438 w1 eq_refl) as Hopen.
    unfold os_Create in Hok |- *.
    destruct (os_OpenFile env (filepath_Join [destDir; th_Name h]) _ 438 w1) as [w2 [e|]];
      [discriminate |].
    destruct (Hopen eq_refl) as [mode Hempty]. cbn [fst] in Hempty.
    pose proof (copy_to_file_appends_all env (filepath_Join [destDir; th_Name h]) data readErr
                  w2 "" mode) as Hcopy.
    destruct (copy_to_file env (filepath_Join [destDir; th_Name h]) data readErr w2)
      as [w3 [e|]]; [discriminate |].
    destruct (Hcopy eq_refl Hempty) as [Hr Hfs]. cbn [fst] in Hfs.
    split; [exact Hr |]. exists mode.
    apply extractTarGz_items_keeps; [exact Hlater | exact Hfs].
  - destruct (negb (within_dest destDir (filepath_Join [destDir; th_Name h'])));
      [discriminate |].
    destruct (Ascii.eqb (th_Typeflag h') tar_TypeDir).
    + destruct (os_MkdirAll env (filepath_Join [destDir; th_Name h']) 493 w) as [w1 [e|]];
        [discriminate | now apply IH].
    + destruct (Ascii.eqb (th_Typeflag h') tar_TypeReg); [| now apply IH].
      destruct (os_MkdirAll env (filepath_Dir (filepath_Join [destDir; th_Name h'])) 493 w)
        as [w1 [e|]]; [discriminate |].
      destruct (os_Create env (filepath_Join [destDir; th_Name h']) w1) as [w2 [e|]];
        [discriminate |].
      destruct (copy_to_file env (filepath_Join [destDir; th_Name h']) data' readErr' w2)
        as [w3 [e|]]; [discriminate | now apply IH].
  - discriminate.
Qed.

(** An entry that is neither a regular file nor a directory and whose
    name passes the check of the path is passed over. *)
Lemma extractTarGz_items_skips (pre : list tar_Item) (h : tar_Header)
    (data : list string) (readErr : option error) (post : list tar_Item) :
  Ascii.eqb (th_Typeflag h) tar_TypeReg = false ->
  Ascii.eqb (th_Typeflag h) tar_TypeDir = false ->
  within_dest destDir (filepath_Join [destDir; th_Name h]) = true ->
  forall w,
    extractTarGz_items env (pre ++ TarEntry h data readErr :: post) destDir w
    = extractTarGz_items env (pre ++ post) destDir w.
Proof.
  intros Hreg Hdir Hin.
  induction pre as [|[h' data' readErr' | e'] pre IH]; intros w; simpl.
  - now rewrite Hin, Hdir, Hreg.
  - destruct (negb (within_dest destDir (filepath_Join [destDir; th_Name h'])));
      [reflexivity |].
    destruct (Ascii.eqb (th_Typeflag h') tar_TypeDir).
    + destruct (os_MkdirAll env (filepath_Join [destDir; th_Name h']) 493 w) as [w1 [e|]];
        [reflexivity | apply IH].
    + destruct (Ascii.eqb (th_Typeflag h') tar_TypeReg); [| apply IH].
      destruct (os_MkdirAll env (filepath_Dir (filepath_Join [destDir; th_Name h'])) 493 w)
        as [w1 [e|]]; [reflexivity |].
      destruct (os_Create env (filepath_Join [destDir; th_Name h']) w1) as [w2 [e|]];
        [reflexivity |].
      destruct (copy_to_file env (filepath_Join [destDir; th_Name h']) data' readErr' w2)
        as [w3 [e|]]; [reflexivity | apply IH].
  - reflexivity.
Qed.

End TarContent.

(** X7.  After [ExtractArchive] has extracted a tar+gzip archive without
    error, the archive was a file that decodes to a stream of entries,
    and every regular entry that is the last regular entry for its path
    has its bytes, all of them and nothing else, at the destination joined
    with its name.  An entry that is neither a regular file nor a
    directory (a link, a device) and whose name passes the check of the
    path is passed over: the extraction goes as if the entry were not in
    the stream. *)
Theorem extracted_tar_entries_hold_their_bytes
    (env : Env) (zip_decode : string -> option (list zip_File))
    (targz_decode : string -> option (list tar_Item)) (strings_ToLower : string -> string)
    (archivePath destDir : string) (w : World) :
  (strings_ToLower (filepath_Ext archivePath) = ".gz"
   \/ strings_ToLower (filepath_Ext archivePath) = ".tgz" ->
   snd (ExtractArchive env zip_decode targz_decode strings_ToLower archivePath destDir w)
   = None ->
   exists data amode items,
     fs w !! archivePath = Some (File data amode)
     /\ targz_decode data = Some items
     /\ forall pre h d e post,
          items = pre ++ TarEntry h d e :: post ->
          th_Typeflag h = tar_TypeReg ->
          (forall h' d' e', In (TarEntry h' d' e') post -> th_Typeflag h' = tar_TypeReg ->
             filepath_Join [destDir; th_Name h'] <> filepath_Join [destDir; th_Name h]) ->
          exists mode,
            fs (fst (ExtractArchive env zip_decode targz_decode strings_ToLower
                       archivePath destDir w))
              !! filepath_Join [destDir; th_Name h]
            = Some (File (whole_body d) mode))
  /\ (forall pre h d e post w',
        th_Typeflag h <> tar_TypeReg -> th_Typeflag h <> tar_TypeDir ->
        within_dest destDir (filepath_Join [destDir; th_Name h]) = true ->
        extractTarGz_items env (pre ++ TarEntry h d e :: post) destDir w'
        = extractTarGz_items env (pre ++ post) destDir w').
Proof.
  split.
  - intros Hext. unfold ExtractArchive, EnsureDir.
    pose proof (os_MkdirAll_files_back env destDir 493 w archivePath) as Hback.
    destruct (os_MkdirAll env destDir 493 w) as [w1 [e|]]; [discriminate |].
    cbn [fst] in Hback. cbv zeta.
    assert (Hrun : (if decide (strings_ToLower (filepath_Ext archivePath) = ".zip")
                    then extractZip env zip_decode archivePath destDir w1
                    else if decide (strings_ToLower (filepath_Ext archivePath) = ".gz")
                    then extractTarGz env targz_decode archivePath destDir w1
                    else if decide (strings_ToLower (filepath_Ext archivePath) = ".tgz")
                    then extractTarGz env targz_decode archivePath destDir w1
                    else (w1, Some (fmt_Errorf "unsupported archive format: %s"
                                      [ArgString (strings_ToLower (filepath_Ext archivePath))])))
                   = extractTarGz env targz_decode archivePath destDir w1).
    { destruct Hext as [-> | ->]; reflexivity. }
    rewrite Hrun. clear Hrun.
    unfold extractTarGz, targz_open, os_ReadFile.
    destruct (os_fault env (log w1) (OpReadFile archivePath)); [discriminate |].
    destruct (fs w1 !! archivePath) as [[|data amode]|] eqn:Ha;
      [discriminate | | discriminate].
    destruct (targz_decode data) as [items|] eqn:Hd; [| discriminate].
    intros Hok. exists data, amode, items.
    split; [now apply Hback |]. split; [exact Hd |].
    intros pre h d e post -> Hreg Hlater.
    destruct (extractTarGz_items_content env destDir pre h d e post) with (w := emit (EvFs (OpReadFile archivePath)) w1)
      as (_ & mode & H).
    + rewrite Hreg. reflexivity.
    + intros [h' d' e' | e'] Hin; [| tauto]. intros (Hr & _ & Ht).
      apply (Hlater h' d' e' Hin); [| exact Ht]. now apply Ascii.eqb_eq.
    + exact Hok.
    + now exists mode.
  - intros pre h d e post w' Hreg Hdir Hin.
    apply extractTarGz_items_skips; [| | exact Hin].
    + now apply Ascii.eqb_neq.
    + now apply Ascii.eqb_neq.
Qed.

(** ** The entry that [ExtractSpecificFile] extracts *)

Section SpecificContent.

Variable env : Env.
Variable zip_decode : string -> option (list zip_File).
Variable targz_decode : string -> option (list tar_Item).
Variable strings_ToLower : string -> string.
Variables internalPath destDir : string.

Local Abbreviation destPath := (filepath_Join [destDir; filepath_Base internalPath]).

Lemma extractSpecificFromZip_files_content (files : list zip_File) :
  forall (w : World) (p : string),
    snd (extractSpecificFromZip_files env files internalPath destDir w) = (p, None) ->
    exists pre f post mode,
      files = pre ++ f :: post
      /\ (forall g, In g pre -> zf_Name g <> internalPath)
      /\ zf_Name f = internalPath
      /\ p = destPath
      /\ fs (fst (extractSpecificFromZip_files env files internalPath destDir w)) !! p
         = Some (File (whole_body (zf_Data f)) mode).
Proof.
  induction files as [|g rest IH]; intros w p Hok; simpl in Hok |- *; [discriminate |].
  destruct (decide (zf_Name g = internalPath)) as [Hname | Hname].
  - destruct (os_MkdirAll env (filepath_Dir destPath) ModePerm w) as [w1 [e|]];
      [discriminate |].
    pose proof (os_OpenFile_truncates env destPath (Z.lor O_WRONLY (Z.lor O_CREATE O_TRUNC))
                  (zf_Mode g) w1 eq_refl) as Hopen.
    destruct (os_OpenFile env destPath _ (zf_Mode g) w1) as [w2 [e|]]; [discriminate |].
    destruct (Hopen eq_refl) as [mode Hempty]. cbn [fst] in Hempty.
    destruct (zf_OpenErr g) as [e|]; [discriminate |].
    pose proof (copy_to_file_appends_all env destPath (zf_Data g) (zf_ReadErr g) w2 "" mode)
      as Hcopy.
    destruct (copy_to_file env destPath (zf_Data g) (zf_ReadErr g) w2) as [w3 [e|]];
      [discriminate |].
    destruct (Hcopy eq_refl Hempty) as [_ Hfs]. cbn [fst snd] in Hfs, Hok |- *.
    injection Hok as <-.
    exists [], g, rest, mode. split; [reflexivity |]. split; [intros g' [] |].
    split; [exact Hname |]. split; [reflexivity | exact Hfs].
  - destruct (IH w p Hok) as (pre & f & post & mode & -> & Hpre & Hf & Hp & Hfs).
    exists (g :: pre), f, post, mode. split; [reflexivity |].
    split; [| now repeat split].
    intros g' [<- | Hg']; [exact Hname | now apply Hpre].
Qed.

Lemma extractSpecificFromZip_files_not_found (files : list zip_File) (w : World) :
  (forall g, In g files -> zf_Name g <> internalPath) ->
  extractSpecificFromZip_files env files internalPath destDir w
  = (w, ("", Some (fmt_Errorf "file not found in archive: %s" [ArgString internalPath]))).
Proof.
  induction files as [|g rest IH]; intros Hno; simpl; [reflexivity |].
  rewrite decide_False by (apply Hno; now left). apply IH. intros g' Hg'. apply Hno. now right.
Qed.

(** An item of a tar stream that is not the regular entry looked for. *)
Local Abbreviation passed_over :=
  (fun it : tar_Item =>
     match it with
     | TarEntry h _ _ => th_Name h <> internalPath \/ th_Typeflag h <> tar_TypeReg
     | TarError _ => False
     end).

Lemma extractSpecificFromTarGz_items_content (items : list tar_Item) :
  forall (w : World) (p : string),
    snd (extractSpecificFromTarGz_items env items internalPath destDir w) = (p, None) ->
    exists pre h d e post mode,
      items = pre ++ TarEntry h d e :: post
      /\ (forall it, In it pre -> passed_over it)
      /\ th_Name h = internalPath /\ th_Typeflag h = tar_TypeReg
      /\ p = destPath
      /\ fs (fst (extractSpecificFromTarGz_items env items internalPath destDir w)) !! p
         = Some (File (whole_body d) mode).
Proof.
  induction items as [|[h d e | err] rest IH]; intros w p Hok; simpl in Hok |- *;
    [discriminate | | discriminate].
  destruct (bool_decide (th_Name h = internalPath)) eqn:Hname;
    destruct (Ascii.eqb (th_Typeflag h) tar_TypeReg) eqn:Hreg; cbn [andb] in Hok |- *.
  - apply bool_decide_eq_true in Hname. apply Ascii.eqb_eq in Hreg.
    destruct (os_MkdirAll env (filepath_Dir destPath) 493 w) as [w1 [e1|]]; [discriminate |].
    pose proof (os_OpenFile_truncates env destPath (Z.lor O_RDWR (Z.lor O_CREATE O_TRUNC))
                  438 w1 eq_refl) as Hopen.
    unfold os_Create in Hok |- *.
    destruct (os_OpenFile env destPath _ 438 w1) as [w2 [e2|]]; [discriminate |].
    destruct (Hopen eq_refl) as [mode Hempty]. cbn [fst] in Hempty.
    pose proof (copy_to_file_appends_all env destPath d e w2 "" mode) as Hcopy.
    destruct (copy_to_file env destPath d e w2) as [w3 [e3|]]; [discriminate |].
    destruct (Hcopy eq_refl Hempty) as [_ Hfs]. cbn [fst snd] in Hfs, Hok |- *.
    injection Hok as <-.
    exists [], h, d, e, rest, mode. split; [reflexivity |]. split; [intros it [] |].
    split; [exact Hname |]. split; [exact Hreg |]. split; [reflexivity | exact Hfs].
  - apply Ascii.eqb_neq in Hreg.
    destruct (IH w p Hok) as (pre & h' & d' & e' & post & mode & -> & Hpre & Hrest).
    exists (TarEntry h d e :: pre), h', d', e', post, mode. split; [reflexivity |].
    split; [| exact Hrest]. intros it [<- | Hit]; [now right | now apply Hpre].
  - apply bool_decide_eq_false in Hname.
    destruct (IH w p Hok) as (pre & h' & d' & e' & post & mode & -> & Hpre & Hrest).
    exists (TarEntry h d e :: pre), h', d', e', post, mode. split; [reflexivity |].
    split; [| exact Hrest]. intros it [<- | Hit]; [now left | now apply Hpre].
  - apply bool_decide_eq_false in Hname.
    destruct (IH w p Hok) as (pre & h' & d' & e' & post & mode & -> & Hpre & Hrest).
    exists (TarEntry h d e :: pre), h', d', e', post, mode. split; [reflexivity |].
    split; [| exact Hrest]. intros it [<- | Hit]; [now left | now apply Hpre].
Qed.

Lemma extractSpecificFromTarGz_items_not_found (items : list tar_Item) (w : World) :
  (forall it, In it items -> passed_over it) ->
  extractSpecificFromTarGz_items env items internalPath destDir w
  = (w, ("", Some (fmt_Errorf "file not found in archive: %s" [ArgString internalPath]))).
Proof.
  induction items as [|[h d e | err] rest IH]; intros Hno; simpl; [reflexivity | |].
  - assert (Hrest : forall it, In it rest -> passed_over it)
      by (intros it Hit; apply Hno; now right).
    destruct (Hno (TarEntry h d e) (or_introl eq_refl)) as [Hname | Hreg].
    + rewrite bool_decide_eq_false_2 by assumption. now apply IH.
    + apply Ascii.eqb_neq in Hreg. rewrite Hreg, andb_false_r. now apply IH.
  - destruct (Hno (TarError err) (or_introl eq_refl)).
Qed.

(** X8.  When [ExtractSpecificFile] returns a path without error, the
    archive was a file that decodes; the entry extracted is the first one
    with the requested name (for tar+gzip: the first regular one), and the
    returned path, the destination joined with the base of that name,
    holds the bytes of that entry, all of them and nothing else.  When no
    entry has the name (for tar+gzip: no regular entry), the search ends
    with the error that the file was not found in the archive and has
    changed nothing. *)
Theorem single_entry_is_the_first_match (archivePath p : string) (w : World) :
  (snd (ExtractSpecificFile env zip_decode targz_decode strings_ToLower
          archivePath internalPath destDir w) = (p, None) ->
   p = filepath_Join [destDir; filepath_Base internalPath]
   /\ exists data amode,
        fs w !! archivePath = Some (File data amode)
        /\ ((strings_ToLower (filepath_Ext archivePath) = ".zip"
             /\ exists pre f post mode,
                  zip_decode data = Some (pre ++ f :: post)
                  /\ (forall g, In g pre -> zf_Name g <> internalPath)
                  /\ zf_Name f = internalPath
                  /\ fs (fst (ExtractSpecificFile env zip_decode targz_decode strings_ToLower
                                archivePath internalPath destDir w)) !! p
                     = Some (File (whole_body (zf_Data f)) mode))
            \/ (strings_ToLower (filepath_Ext archivePath) <> ".zip"
                /\ exists pre h d e post mode,
                     targz_decode data = Some (pre ++ TarEntry h d e :: post)
                     /\ (forall h' d' e', In (TarEntry h' d' e') pre ->
                           th_Name h' <> internalPath \/ th_Typeflag h' <> tar_TypeReg)
                     /\ (forall err, ~ In (TarError err) pre)
                     /\ th_Name h = internalPath /\ th_Typeflag h = tar_TypeReg
                     /\ fs (fst (ExtractSpecificFile env zip_decode targz_decode
                                   strings_ToLower archivePath internalPath destDir w)) !! p
                        = Some (File (whole_body d) mode))))
  /\ (forall files w',
        (forall g, In g files -> zf_Name g <> internalPath) ->
        extractSpecificFromZip_files env files internalPath destDir w'
        = (w', ("", Some (fmt_Errorf "file not found in archive: %s"
                            [ArgString internalPath]))))
  /\ (forall items w',
        (forall h d e, In (TarEntry h d e) items ->
           th_Name h <> internalPath \/ th_Typeflag h <> tar_TypeReg) ->
        (forall err, ~ In (TarError err) items) ->
        extractSpecificFromTarGz_items env items internalPath destDir w'
        = (w', ("", Some (fmt_Errorf "file not found in archive: %s"
                            [ArgString internalPath])))).
Proof.
  split; [| split].
  - unfold ExtractSpecificFile, EnsureDir.
    pose proof (os_MkdirAll_files_back env destDir 493 w archivePath) as Hback.
    destruct (os_MkdirAll env destDir 493 w) as [w1 [e|]]; [discriminate |].
    cbn [fst] in Hback. cbv zeta.
    destruct (decide (strings_ToLower (filepath_Ext archivePath) = ".zip")) as [Hzip | Hzip].
    + unfold extractSpecificFromZip, zip_OpenReader, os_ReadFile.
      destruct (os_fault env (log w1) (OpReadFile archivePath)); [discriminate |].
      destruct (fs w1 !! archivePath) as [[|data amode]|] eqn:Ha;
        [discriminate | | discriminate].
      destruct (zip_decode data) as [files|] eqn:Hd; [| discriminate].
      intros Hok.
      destruct (extractSpecificFromZip_files_content files _ p Hok)
        as (pre & f & post & mode & -> & Hpre & Hf & Hp & Hfs).
      split; [exact Hp |]. exists data, amode. split; [now apply Hback |].
      left. split; [exact Hzip |]. exists pre, f, post, mode.
      split; [exact Hd |]. now repeat split.
    + assert (Hrun : forall x : World * (string * option error),
                 snd (if decide (strings_ToLower (filepath_Ext archivePath) = ".gz")
                      then extractSpecificFromTarGz env targz_decode archivePath internalPath
                             destDir w1
                      else if decide (strings_ToLower (filepath_Ext archivePath) = ".tgz")
                      then extractSpecificFromTarGz env targz_decode archivePath internalPath
                             destDir w1
                      else x) = (p, None) ->
                 snd x = (p, None)
                 \/ (if decide (strings_ToLower (filepath_Ext archivePath) = ".gz")
                     then extractSpecificFromTarGz env targz_decode archivePath internalPath
                            destDir w1
                     else if decide (strings_ToLower (filepath_Ext archivePath) = ".tgz")
                     then extractSpecificFromTarGz env targz_decode archivePath internalPath
                            destDir w1
                     else x)
                    = extractSpecificFromTarGz env targz_decode archivePath internalPath
                        destDir w1).
      { intros x Hx. destruct (decide (_ = ".gz")); [now right |].
        destruct (decide (_ = ".tgz")); [now right | now left]. }
      intros Hok. destruct (Hrun _ Hok) as [Hbad | Heq]; [discriminate |].
      rewrite Heq in Hok |- *. clear Hrun Heq.
      unfold extractSpecificFromTarGz, targz_open, os_ReadFile in Hok |- *.
      destruct (os_fault env (log w1) (OpReadFile archivePath)); [discriminate |].
      destruct (fs w1 !! archivePath) as [[|data amode]|] eqn:Ha;
        [discriminate | | discriminate].
      destruct (targz_decode data) as [items|] eqn:Hd; [| discriminate].
      destruct (extractSpecificFromTarGz_items_content items _ p Hok)
        as (pre & h & d & e & post & mode & -> & Hpre & Hh & Hreg & Hp & Hfs).
      split; [exact Hp |]. exists data, amode. split; [now apply Hback |].
      right. split; [exact Hzip |]. exists pre, h, d, e, post, mode.
      split; [exact Hd |]. split; [| split; [| now repeat split]].
      * intros h' d' e' Hin. exact (Hpre _ Hin).
      * intros err Hin. exact (Hpre _ Hin).
  - intros files w'. apply extractSpecificFromZip_files_not_found.
  - intros items w' Hno Herr. apply extractSpecificFromTarGz_items_not_found.
    intros [h d e | err] Hin; [now apply (Hno h d e) | now apply (Herr err)].
Qed.

End SpecificContent.

(** ** Which names are archives *)

(** X9.  A path that [IsArchive] accepts has, in lower case, the
    extension [.zip] or [.tgz], or the extension [.gz] after [.tar]; for
    such a path [ExtractArchive] and [ExtractSpecificFile] never answer
    that the format is unsupported: once the destination directory is
    there they hand the archive to the ZIP or to the tar+gzip extractor.
    The two functions do not agree on every name: one that ends in [.gz]
    but not in [.tar.gz] is no archive for [IsArchive], and
    [ExtractArchive] reads it as tar+gzip all the same.  For every other
    name that [IsArchive] rejects, [ExtractArchive] makes the destination
    directory and then fails with the unsupported format. *)
Theorem archives_by_name_are_extracted
    (env : Env) (zip_decode : string -> option (list zip_File))
    (targz_decode : string -> option (list tar_Item)) (strings_ToLower : string -> string)
    (path internalPath destDir : string) (w : World) :
  (IsArchive strings_ToLower path = true <->
   strings_ToLower (filepath_Ext path) = ".zip"
   \/ (strings_ToLower (filepath_Ext path) = ".gz"
       /\ strings_HasSuffix (strings_ToLower path) ".tar.gz" = true)
   \/ strings_ToLower (filepath_Ext path) = ".tgz")
  /\ (IsArchive strings_ToLower path = true ->
      snd (EnsureDir env destDir w) = None ->
      ExtractArchive env zip_decode targz_decode strings_ToLower path destDir w
      = (if decide (strings_ToLower (filepath_Ext path) = ".zip")
         then extractZip env zip_decode path destDir (fst (EnsureDir env destDir w))
         else extractTarGz env targz_decode path destDir (fst (EnsureDir env destDir w)))
      /\ ExtractSpecificFile env zip_decode targz_decode strings_ToLower
           path internalPath destDir w
         = (if decide (strings_ToLower (filepath_Ext path) = ".zip")
            then extractSpecificFromZip env zip_decode path internalPath destDir
                   (fst (EnsureDir env destDir w))
            else extractSpecificFromTarGz env targz_decode path internalPath destDir
                   (fst (EnsureDir env destDir w))))
  /\ (strings_ToLower (filepath_Ext path) = ".gz" ->
      strings_HasSuffix (strings_ToLower path) ".tar.gz" = false ->
      snd (EnsureDir env destDir w) = None ->
      IsArchive strings_ToLower path = false
      /\ ExtractArchive env zip_decode targz_decode strings_ToLower path destDir w
         = extractTarGz env targz_decode path destDir (fst (EnsureDir env destDir w)))
  /\ (IsArchive strings_ToLower path = false ->
      strings_ToLower (filepath_Ext path) <> ".gz" ->
      snd (EnsureDir env destDir w) = None ->
      ExtractArchive env zip_decode targz_decode strings_ToLower path destDir w
      = (fst (EnsureDir env destDir w),
         Some (fmt_Errorf "unsupported archive format: %s"
                 [ArgString (strings_ToLower (filepath_Ext path))]))).
Proof.
  unfold IsArchive, ExtractArchive, ExtractSpecificFile.
  destruct (EnsureDir env destDir w) as [w1 err]. cbn [fst snd]. cbv zeta.
  destruct (decide (strings_ToLower (filepath_Ext path) = ".zip")) as [Hzip | Hzip];
    [repeat split; intros; subst; try reflexivity; try discriminate;
     try (intuition (congruence || discriminate)) |].
  destruct (decide (strings_ToLower (filepath_Ext path) = ".gz")) as [Hgz | Hgz].
  { rewrite bool_decide_eq_true_2 by assumption. cbn [andb].
    destruct (strings_HasSuffix (strings_ToLower path) ".tar.gz") eqn:Hsuf.
    - repeat split; intros; subst; try reflexivity; try discriminate;
        try (intuition (congruence || discriminate)).
    - rewrite decide_False by (rewrite Hgz; discriminate).
      repeat split; intros; subst; try reflexivity; try discriminate;
        try (intuition (congruence || discriminate)). }
  rewrite bool_decide_eq_false_2 by assumption. cbn [andb].
  destruct (decide (strings_ToLower (filepath_Ext path) = ".tgz")) as [Htgz | Htgz];
    repeat split; intros; subst; try reflexivity; try discriminate;
    try (intuition (congruence || discriminate)).
Qed.

(** The rows of [TestIsArchive], and a name on which [IsArchive] and
    [ExtractArchive] differ. *)
Example IsArchive_tests :
  IsArchive lower_ascii "file.zip" = true
  /\ IsArchive lower_ascii "file.tar.gz" = true
  /\ IsArchive lower_ascii "file.tgz" = true
  /\ IsArchive lower_ascii "file.txt" = false
  /\ IsArchive lower_ascii "file.pdf" = false
  /\ IsArchive lower_ascii "FILE.TAR.GZ" = true
  /\ IsArchive lower_ascii "notes.gz" = false.
Proof. repeat split. Qed.

(** ** The resolution of a local path *)

Lemma ParseArchivePath_no_marker (path : string) :
  marker_free path = true -> ParseArchivePath path = (path, "", false).
Proof.
  intros H. unfold ParseArchivePath, strings_SplitN2.
  now rewrite (proj2 (cut_byte_None "!" path) H).
Qed.

Lemma os_Stat_files (env : Env) (path : string) (w : World) :
  fs (fst (os_Stat env path w)) = fs w /\ past (fst (os_Stat env path w)) = past w.
Proof.
  unfold os_Stat. destruct (os_fault env (log w) (OpStat path)); [split; reflexivity |].
  destruct (fs w !! path); split; reflexivity.
Qed.

Lemma FileExists_files (env : Env) (path : string) (w : World) :
  fs (fst (FileExists env path w)) = fs w /\ past (fst (FileExists env path w)) = past w.
Proof.
  unfold FileExists. pose proof (os_Stat_files env path w) as H.
  destruct (os_Stat env path w) as [w' err]. exact H.
Qed.

(** What [FileExists] says: the path has an entry, file or directory, and
    the call went through. *)
Lemma FileExists_true (env : Env) (path : string) (w : World) :
  snd (FileExists env path w) = true
  <-> os_fault env (log w) (OpStat path) = None /\ is_Some (fs w !! path).
Proof.
  unfold FileExists, os_Stat.
  destruct (os_fault env (log w) (OpStat path)) as [e|]; cbn [snd].
  - split; [discriminate | intros [H _]; discriminate].
  - destruct (fs w !! path) as [n|]; cbn [snd].
    + split; [intros _; split; [reflexivity | now exists n] | reflexivity].
    + split; [discriminate | intros [_ [n H]]; discriminate].
Qed.

Section LocalResolution.

Variable env : Env.
Variable url_Parse : string -> option url_URL.
Variable json_Unmarshal : string -> option Meta.
Variable json_MarshalIndent : Meta -> string + error.
Variable time_Now : list Event -> Z.
Variable syscall_Flock : list Event -> string -> Z -> option error.
Variable zip_decode : string -> option (list zip_File).
Variable targz_decode : string -> option (list tar_Item).
Variable strings_ToLower : string -> string.
Variable os_Getenv : string -> string.
Variable os_UserHomeDir : string + error.

Variable registry : gmap string client_value.
Variable path : string.
Variable opts : list Option_.
Variable w : World.

Local Abbreviation options :=
  (fold_left (fun o opt => opt o) opts (defaultOptions os_Getenv os_UserHomeDir)).
Local Abbreviation resolved :=
  (CachedPath env url_Parse json_Unmarshal json_MarshalIndent time_Now syscall_Flock
     zip_decode targz_decode strings_ToLower os_Getenv os_UserHomeDir
     registry path opts w).

(** X10.  Take an identifier without the marker [!] that is no URL, and
    options that do not ask for extraction or a name that is no archive.
    [CachedPath] first makes the cache directory, although the resolution
    needs none, and fails if it cannot be made.  It then asks for the
    status of the path once: if the call succeeds, whether for a file or
    for a directory, the identifier comes back as it was given; if it
    fails for any reason, the error is [ErrFileNotFound] with the path.
    No file is changed or removed, no request is sent and the registry is
    left as it was. *)
Theorem CachedPath_of_a_local_file :
  marker_free path = true ->
  IsURL url_Parse path = false ->
  Options_ExtractArchive options = false \/ IsArchive strings_ToLower path = false ->
  (forall e,
      snd (EnsureDir env (CacheDir options) w) = Some e ->
      resolved
      = (registry,
         (fst (EnsureDir env (CacheDir options) w),
          ("", Some (fmt_Errorf "failed to create cache directory: %w" [ArgError e])))))
  /\ (snd (EnsureDir env (CacheDir options) w) = None ->
      resolved
      = (registry,
         (fst (FileExists env path (fst (EnsureDir env (CacheDir options) w))),
          if snd (FileExists env path (fst (EnsureDir env (CacheDir options) w)))
          then (path, None)
          else ("", Some (fmt_Errorf "%w: %s" [ArgError ErrFileNotFound; ArgString path])))))
  /\ (forall p,
        snd (snd resolved) = (p, None) ->
        p = path /\ is_Some (fs (fst (snd resolved)) !! path))
  /\ (forall q data mode,
        fs w !! q = Some (File data mode) ->
        fs (fst (snd resolved)) !! q = Some (File data mode))
  /\ requests (new_events w (fst (snd resolved))) = []
  /\ fst resolved = registry.
Proof.
  intros Hmarker Hurl Hplain.
  assert (Hrun : resolved
                 = match snd (EnsureDir env (CacheDir options) w) with
                   | Some e =>
                       (registry,
                        (fst (EnsureDir env (CacheDir options) w),
                         ("", Some (fmt_Errorf "failed to create cache directory: %w"
                                      [ArgError e]))))
                   | None =>
                       (registry,
                        (fst (FileExists env path (fst (EnsureDir env (CacheDir options) w))),
                         if snd (FileExists env path
                                   (fst (EnsureDir env (CacheDir options) w)))
                         then (path, None)
                         else ("", Some (fmt_Errorf "%w: %s"
                                           [ArgError ErrFileNotFound; ArgString path]))))
                   end).
  { unfold CachedPath.
    destruct (EnsureDir env (CacheDir options) w) as [w1 [e|]]; cbn [fst snd];
      [reflexivity |].
    rewrite (ParseArchivePath_no_marker path Hmarker). cbv beta iota.
    rewrite Hurl. cbn [negb]. unfold handleLocalPath.
    destruct (FileExists env path w1) as [w2 [|]]; cbn [fst snd negb]; [| reflexivity].
    destruct Hplain as [-> | ->]; [reflexivity |].
    now rewrite andb_false_r. }
  pose proof (os_MkdirAll_keeps_files env (CacheDir options) 493 w) as Hkeep.
  pose proof (os_MkdirAll_extends env (fun e => forall req, e <> EvDo req)
                (CacheDir options) 493 w) as Hdirlog.
  unfold EnsureDir in Hrun |- *.
  destruct (os_MkdirAll env (CacheDir options) 493 w) as [w1 [e|]] eqn:Edir;
    cbn [fst snd] in Hrun, Hkeep |- *.
  - rewrite Hrun. cbn [fst snd].
    split; [intros e' H; now injection H as <- |]. split; [discriminate |].
    split; [discriminate |]. split; [exact Hkeep |]. split; [| reflexivity].
    destruct Hdirlog as (evs & Hl & Hall); [discriminate |]. cbn [fst] in Hl.
    rewrite (new_events_app w w1 evs Hl).
    clear -Hall. induction Hall as [|ev evs Hev _ IH]; [reflexivity |].
    destruct ev; try exact IH. now contradiction (Hev req).
  - pose proof (FileExists_files env path w1) as [Hf _].
    pose proof (FileExists_true env path w1) as Htrue.
    pose proof (os_Stat_extends env (fun e => forall req, e <> EvDo req) path w1) as Hstat.
    unfold FileExists in Hrun, Hf, Htrue |- *.
    destruct (os_Stat env path w1) as [w2 err] eqn:Estat. cbn [fst snd] in *.
    rewrite Hrun. cbn [fst snd].
    split; [discriminate |]. split; [reflexivity |]. split; [| split; [| split]].
    + intros p. destruct err as [e|]; [discriminate |]. intros H. injection H as <-.
      split; [reflexivity |]. rewrite Hf. now apply Htrue.
    + intros q data mode Hq. rewrite Hf. now apply Hkeep.
    + destruct Hdirlog as (evs1 & Hl1 & Hall1); [discriminate |]. cbn [fst] in Hl1.
      destruct Hstat as (evs2 & Hl2 & Hall2); [discriminate |]. cbn [fst] in Hl2.
      rewrite (new_events_app w w2 (evs1 ++ evs2)).
      2:{ now rewrite Hl2, Hl1, app_assoc. }
      assert (Hall : Forall (fun e => forall req, e <> EvDo req) (evs1 ++ evs2))
        by (apply Forall_app; now split).
      clear -Hall. induction Hall as [|ev evs Hev _ IH]; [reflexivity |].
      destruct ev; try exact IH. now contradiction (Hev req).
    + reflexivity.
Qed.

End LocalResolution.

(** The default options with the cache directory [/cache] resolve the
    plain file [/data/f.txt] to itself. *)
Lemma CachedPath_of_a_local_file_witness :
  (marker_free "/data/f.txt" = true
   /\ IsURL url_Parse_plain "/data/f.txt" = false)
  /\ snd (snd (CachedPath calm url_Parse_plain token_record token_text still_clock free_lock
                 two_files linked_files lower_ascii no_env home_dir
                 schemes_init "/data/f.txt" [WithCacheDir "/cache"] local_world))
     = ("/data/f.txt", None)
  /\ is_Some (fs (fst (snd (CachedPath calm url_Parse_plain token_record token_text
                              still_clock free_lock two_files linked_files lower_ascii
                              no_env home_dir schemes_init "/data/f.txt"
                              [WithCacheDir "/cache"] local_world)))
                !! "/data/f.txt").
Proof.
  assert (H1 : marker_free "/data/f.txt" = true) by reflexivity.
  assert (H2 : IsURL url_Parse_plain "/data/f.txt" = false) by (vm_compute; reflexivity).
  assert (H3 : snd (snd (CachedPath calm url_Parse_plain token_record token_text still_clock
                           free_lock two_files linked_files lower_ascii no_env home_dir
                           schemes_init "/data/f.txt" [WithCacheDir "/cache"] local_world))
               = ("/data/f.txt", None)) by (vm_compute; reflexivity).
  split; [split; [exact H1 | exact H2] |]. split; [exact H3 |].
  exact (proj2 (proj1 (proj2 (proj2
           (CachedPath_of_a_local_file calm url_Parse_plain token_record token_text
              still_clock free_lock two_files linked_files lower_ascii no_env home_dir
              schemes_init "/data/f.txt" [WithCacheDir "/cache"] local_world
              H1 H2 (or_introl eq_refl)))) "/data/f.txt" H3)).
Defined.

(** The archive of two files extracted to [/out]. *)
Lemma extracted_zip_entries_hold_their_bytes_witness :
  (lower_ascii (filepath_Ext "/data/a.zip") = ".zip"
   /\ snd (ExtractArchive calm two_files linked_files lower_ascii "/data/a.zip" "/out"
             local_world) = None)
  /\ exists mode,
       fs (fst (ExtractArchive calm two_files linked_files lower_ascii "/data/a.zip" "/out"
                  local_world)) !! "/out/d/b.txt"
       = Some (File "x" mode).
Proof.
  assert (H1 : lower_ascii (filepath_Ext "/data/a.zip") = ".zip") by reflexivity.
  assert (H2 : snd (ExtractArchive calm two_files linked_files lower_ascii "/data/a.zip"
                      "/out" local_world) = None) by (vm_compute; reflexivity).
  split; [split; [exact H1 | exact H2] |].
  destruct (extracted_zip_entries_hold_their_bytes calm two_files linked_files lower_ascii
              "/out" "/data/a.zip" local_world H1 H2)
    as (data & amode & files & _ & Hdec & Hall).
  injection Hdec as <-.
  apply (Hall [plain_entry "a.txt" ["he"; "llo"]] (plain_entry "d/b.txt" ["x"]) []);
    [reflexivity | reflexivity | intros g []].
Defined.

(** The stream with a link extracted to [/out]: both files are there, and
    the link is passed over. *)
Example tar_with_a_link :
  snd (ExtractArchive calm two_files linked_files lower_ascii "/data/a.tgz" "/out"
         {| fs := {[ "/data/a.tgz" := File "gz" 420 ]}; log := []; past := [] |}) = None
  /\ fs (fst (ExtractArchive calm two_files linked_files lower_ascii "/data/a.tgz" "/out"
                {| fs := {[ "/data/a.tgz" := File "gz" 420 ]}; log := []; past := [] |}))
     = {[ "/data/a.tgz" := File "gz" 420; "/" := Dir; "/out" := Dir; "/out/d" := Dir;
          "/out/a.txt" := File "hello" 438; "/out/d/b.txt" := File "x" 438 ]}.
Proof. split; [vm_compute; reflexivity |]. apply map_eq. intros k. vm_compute. reflexivity. Qed.

(** ** The file lock *)

Lemma waited_O (w : World) : waited 0 w = w.
Proof. destruct w as [f l p]. unfold waited. simpl. now rewrite app_nil_r. Qed.

Lemma waited_S (k : nat) (w : World) :
  waited (S k) w = waited k (emit (EvSleep (1 * 1000000000)) w).
Proof. unfold waited, emit. cbn [fs log past]. now rewrite <- app_assoc. Qed.

Lemma sleeps_repeat (d : Z) (k : nat) : sleeps (repeat (EvSleep d) k) = repeat d k.
Proof. induction k as [|k IH]; [reflexivity |]. simpl. unfold sleeps in *. simpl. now rewrite IH. Qed.

Lemma total_wait_repeat (d : Z) (k : nat) :
  0 <= d -> total_wait (repeat (EvSleep d) k) = Z.of_nat k * d.
Proof.
  intros Hd. unfold total_wait. rewrite sleeps_repeat.
  induction k as [|k IH]; [reflexivity |]. cbn [repeat fold_right]. rewrite IH. lia.
Qed.

Section LockFacts.

Variable env : Env.
Variable syscall_Flock : list Event -> string -> Z -> option error.
Variable path : string.

(** The loop of [Lock] against the answers of [flock]: it ends at the
    first answer that is not [EWOULDBLOCK], and after [remaining] busy
    answers it gives up. *)
Lemma Lock_tries_run (remaining : nat) :
  forall w,
    ((forall k, (k < remaining)%nat -> lock_busy syscall_Flock path w k) ->
     Lock_tries env syscall_Flock remaining path w
     = (fst (file_Close env path (waited remaining w)), Some ErrLockFailed))
    /\ (forall k,
          (k < remaining)%nat ->
          (forall j, (j < k)%nat -> lock_busy syscall_Flock path w j) ->
          (lock_answer syscall_Flock path w k = None ->
           Lock_tries env syscall_Flock remaining path w = (waited k w, None))
          /\ (forall e,
                lock_answer syscall_Flock path w k = Some e ->
                is_EWOULDBLOCK e = false ->
                Lock_tries env syscall_Flock remaining path w
                = (fst (file_Close env path (waited k w)), Some e))).
Proof.
  induction remaining as [|n IH]; intros w.
  - split; [intros _; simpl; now rewrite waited_O | intros k Hk; lia].
  - destruct (IH (emit (EvSleep (1 * 1000000000)) w)) as [IHall IHk].
    assert (Hshift : forall j, lock_answer syscall_Flock path
                                 (emit (EvSleep (1 * 1000000000)) w) j
                               = lock_answer syscall_Flock path w (S j)).
    { intros j. unfold lock_answer. now rewrite waited_S. }
    assert (H0 : lock_answer syscall_Flock path w 0 = syscall_Flock (log w) path
                                                        (Z.lor LOCK_EX LOCK_NB)).
    { unfold lock_answer. now rewrite waited_O. }
    split.
    + intros Hbusy. simpl. rewrite <- H0.
      destruct (Hbusy 0%nat ltac:(lia)) as (e & -> & ->).
      rewrite IHall; [now rewrite <- waited_S |].
      intros k Hk. destruct (Hbusy (S k) ltac:(lia)) as (e' & He' & Hb).
      exists e'. now rewrite Hshift.
    + intros k Hk Hbusy. destruct k as [|k].
      * rewrite waited_O. simpl. rewrite <- H0. split.
        -- now intros ->.
        -- intros e -> ->. reflexivity.
      * destruct (Hbusy 0%nat ltac:(lia)) as (e0 & He0 & Hb0).
        simpl. rewrite <- H0, He0, Hb0. rewrite waited_S.
        destruct (IHk k ltac:(lia)) as [Hnone Hsome].
        { intros j Hj. destruct (Hbusy (S j) ltac:(lia)) as (e' & He' & Hb).
          exists e'. now rewrite Hshift. }
        split.
        -- intros H. apply Hnone. now rewrite Hshift.
        -- intros e H He. apply Hsome; [now rewrite Hshift | exact He].
Qed.

End LockFacts.

Lemma os_OpenFile_created (env : Env) (path : string) (flag perm : Z) (w : World) :
  snd (os_OpenFile env path flag perm w) = None ->
  is_Some (fs (fst (os_OpenFile env path flag perm w)) !! path).
Proof.
  unfold os_OpenFile.
  destruct (os_fault env (log w) (OpOpenFile path flag perm)); [discriminate |].
  destruct (fs w !! path) as [[|data old]|] eqn:E.
  - destruct (Z.testbit flag 7); discriminate.
  - destruct (Z.testbit flag 7); [discriminate |].
    destruct (Z.testbit flag 9); intros _; cbn [fst set_fs fs emit].
    + rewrite lookup_insert_eq. now eexists.
    + rewrite E. now eexists.
  - destruct (Z.testbit flag 6); [| discriminate]. intros _. cbn [fst set_fs fs].
    rewrite lookup_insert_eq. now eexists.
Qed.

Section LockTheorems.

Variable env : Env.
Variable syscall_Flock : list Event -> string -> Z -> option error.
Variable path : string.
Variable w : World.

Local Abbreviation opened := (os_OpenFile env path (Z.lor O_CREATE O_RDWR) 420 w).
Local Abbreviation held := {| fl_path := path; fl_file := Some path |}.
Local Abbreviation locked := (FileLock_Lock env syscall_Flock (NewFileLock path) w).

Lemma FileLock_Lock_eq :
  locked
  = match snd opened with
    | Some e => (fst opened, (NewFileLock path, Some e))
    | None =>
        (fst (Lock_tries env syscall_Flock 60 path (fst opened)),
         (held, snd (Lock_tries env syscall_Flock 60 path (fst opened))))
    end.
Proof.
  unfold FileLock_Lock. cbn [fl_path NewFileLock].
  destruct opened as [w1 [e|]]; cbn [fst snd]; [reflexivity |].
  now destruct (Lock_tries env syscall_Flock 60 path w1).
Qed.

(** The lock file has an entry once it could be opened, and the tries
    change no file. *)
Lemma Lock_tries_files (remaining : nat) (w1 : World) :
  fs (fst (Lock_tries env syscall_Flock remaining path w1)) = fs w1.
Proof.
  revert w1. induction remaining as [|n IH]; intros w1; simpl; [reflexivity |].
  destruct (syscall_Flock (log w1) path (Z.lor LOCK_EX LOCK_NB)) as [e|]; [| reflexivity].
  destruct (is_EWOULDBLOCK e); [| reflexivity]. now rewrite IH.
Qed.

Lemma lock_file_is_there :
  snd opened = None ->
  is_Some (fs (fst (Lock_tries env syscall_Flock 60 path (fst opened))) !! path).
Proof.
  intros H. rewrite Lock_tries_files. now apply os_OpenFile_created.
Qed.

(** X11.  [Lock] opens the lock file, creating it if need be, and returns
    the error if that fails.  It then asks for the lock without blocking,
    at most sixty times, sleeping one second after each answer that the
    lock is held elsewhere: a free lock is taken at the try that finds it
    free, after as many seconds as there were tries before it; any other
    error of [flock] ends the tries with that error; and after sixty busy
    answers, that is after sixty seconds of sleep, [Lock] returns
    [ErrLockFailed].  In the last two cases the file is closed.  Apart
    from the lock file that it may create, [Lock] changes no file. *)
Theorem Lock_gives_up_after_sixty_tries :
  (forall e, snd opened = Some e -> locked = (fst opened, (NewFileLock path, Some e)))
  /\ (snd opened = None ->
      (forall k, (k < 60)%nat -> lock_busy syscall_Flock path (fst opened) k) ->
      locked
      = (fst (file_Close env path (waited 60 (fst opened))), (held, Some ErrLockFailed))
      /\ total_wait (new_events (fst opened) (fst locked)) = 60 * 1000000000)
  /\ (snd opened = None ->
      forall k,
        (k < 60)%nat ->
        (forall j, (j < k)%nat -> lock_busy syscall_Flock path (fst opened) j) ->
        (lock_answer syscall_Flock path (fst opened) k = None ->
         locked = (waited k (fst opened), (held, None))
         /\ total_wait (new_events (fst opened) (fst locked)) = Z.of_nat k * 1000000000)
        /\ (forall e,
              lock_answer syscall_Flock path (fst opened) k = Some e ->
              is_EWOULDBLOCK e = false ->
              locked = (fst (file_Close env path (waited k (fst opened))), (held, Some e))))
  /\ fs (fst locked) = fs (fst opened)
  /\ (forall q, q <> path -> fs (fst locked) !! q = fs w !! q)
  /\ (snd opened = None -> is_Some (fs (fst locked) !! path)).
Proof.
  rewrite FileLock_Lock_eq.
  pose proof (os_OpenFile_created env path (Z.lor O_CREATE O_RDWR) 420 w) as Hcreated.
  assert (Hother : forall q, q <> path -> fs (fst opened) !! q = fs w !! q)
    by (intros q Hq; now apply os_OpenFile_other).
  destruct opened as [w1 [e|]]; cbn [fst snd] in *.
  { split; [intros e' H; now injection H as <- |].
    split; [discriminate |]. split; [discriminate |].
    split; [reflexivity |]. split; [exact Hother | discriminate]. }
  destruct (Lock_tries_run env syscall_Flock path 60 w1) as [Hall Hk].
  pose proof (Lock_tries_files 60 w1) as Hfs.
  split; [discriminate |]. split; [| split; [| split; [| split]]].
  - intros _ Hbusy. rewrite (Hall Hbusy). cbn [fst snd]. split; [reflexivity |].
    rewrite (new_events_app w1 _ (repeat (EvSleep (1 * 1000000000)) 60
                                   ++ [EvFs (OpClose path)])).
    2:{ cbn [fst file_Close emit waited log]. now rewrite <- app_assoc. }
    unfold total_wait. rewrite sleeps_app.
    change (sleeps [EvFs (OpClose path)]) with (@nil Z). rewrite app_nil_r.
    change (fold_right (fun d acc => Z.max 0 d + acc) 0
              (sleeps (repeat (EvSleep (1 * 1000000000)) 60)))
      with (total_wait (repeat (EvSleep (1 * 1000000000)) 60)).
    rewrite total_wait_repeat by lia. reflexivity.
  - intros _ k Hlt Hbusy. destruct (Hk k Hlt Hbusy) as [Hnone Hsome]. split.
    + intros Hfree. rewrite (Hnone Hfree). cbn [fst snd]. split; [reflexivity |].
      rewrite (new_events_app w1 (waited k w1) (repeat (EvSleep (1 * 1000000000)) k) eq_refl).
      rewrite total_wait_repeat by lia. lia.
    + intros e He Hne. now rewrite (Hsome e He Hne).
  - exact Hfs.
  - intros q Hq. rewrite Hfs. now apply Hother.
  - intros _. rewrite Hfs. now apply Hcreated.
Qed.

End LockTheorems.

(** A lock that is never free: sixty seconds and [ErrLockFailed]. *)
Example Lock_on_a_held_lock :
  snd (snd (FileLock_Lock calm held_lock (NewFileLock "/cache/k.lock") cache_dir_world))
  = Some ErrLockFailed
  /\ sleeps (log (fst (FileLock_Lock calm held_lock (NewFileLock "/cache/k.lock")
                         cache_dir_world)))
     = repeat (1 * 1000000000) 60.
Proof. split; vm_compute; reflexivity. Qed.

(** A lock that is freed after two seconds is taken at the third try. *)
Example Lock_on_a_lock_freed_later :
  snd (snd (FileLock_Lock calm lock_freed_after_two (NewFileLock "/cache/k.lock")
              cache_dir_world)) = None
  /\ sleeps (log (fst (FileLock_Lock calm lock_freed_after_two (NewFileLock "/cache/k.lock")
                         cache_dir_world)))
     = [1 * 1000000000; 1 * 1000000000].
Proof. split; vm_compute; reflexivity. Qed.

Lemma FileLock_Unlock_files (env : Env)
    (syscall_Flock : list Event -> string -> Z -> option error) (fl : FileLock) (w : World) :
  fs (fst (FileLock_Unlock env syscall_Flock fl w)) = fs w
  /\ past (fst (FileLock_Unlock env syscall_Flock fl w)) = past w.
Proof.
  unfold FileLock_Unlock. destruct (fl_file fl) as [file|]; [| split; reflexivity].
  destruct (syscall_Flock (log w) file LOCK_UN); split; reflexivity.
Qed.

(** X12.  [WithLock] runs the function only when [Lock] has succeeded:
    when [Lock] fails, its error is returned and the function has not
    run.  Otherwise the function runs once, [Unlock] follows whatever the
    function returned, and the result is the error of the function alone:
    an error of [Unlock] is dropped.  [Unlock] changes no file, and the
    lock file, which is there while the function runs, is not removed
    afterwards. *)
Theorem WithLock_runs_under_the_lock
    (env : Env) (syscall_Flock : list Event -> string -> Z -> option error)
    (lockPath : string) (fn : World -> World * option error) (w : World) :
  (forall e,
      snd (snd (FileLock_Lock env syscall_Flock (NewFileLock lockPath) w)) = Some e ->
      WithLock env syscall_Flock lockPath fn w
      = (fst (FileLock_Lock env syscall_Flock (NewFileLock lockPath) w), Some e))
  /\ (snd (snd (FileLock_Lock env syscall_Flock (NewFileLock lockPath) w)) = None ->
      WithLock env syscall_Flock lockPath fn w
      = (fst (FileLock_Unlock env syscall_Flock
                {| fl_path := lockPath; fl_file := Some lockPath |}
                (fst (fn (fst (FileLock_Lock env syscall_Flock (NewFileLock lockPath) w))))),
         snd (fn (fst (FileLock_Lock env syscall_Flock (NewFileLock lockPath) w))))
      /\ fs (fst (WithLock env syscall_Flock lockPath fn w))
         = fs (fst (fn (fst (FileLock_Lock env syscall_Flock (NewFileLock lockPath) w))))
      /\ is_Some (fs (fst (FileLock_Lock env syscall_Flock (NewFileLock lockPath) w))
                    !! lockPath)).
Proof.
  pose proof (lock_file_is_there env syscall_Flock lockPath w) as Haux.
  unfold WithLock.
  rewrite (FileLock_Lock_eq env syscall_Flock lockPath w) in *.
  destruct (os_OpenFile env lockPath (Z.lor O_CREATE O_RDWR) 420 w) as [w1 [e|]];
    cbn [fst snd] in *.
  { split; [intros e' H; now injection H as <- | discriminate]. }
  destruct (Lock_tries env syscall_Flock 60 lockPath w1) as [w2 [e|]]; cbn [fst snd] in *.
  { split; [intros e' H; now injection H as <- | discriminate]. }
  split; [discriminate |]. intros _.
  destruct (fn w2) as [w3 err]. cbn [fst snd].
  split; [reflexivity |]. split; [apply FileLock_Unlock_files | now apply Haux].
Qed.

(** ** The metadata record on disk *)

Section MetaFacts.

Variable env : Env.
Variable json_Unmarshal : string -> option Meta.
Variable json_MarshalIndent : Meta -> string + error.

Lemma os_WriteFile_other (name data : string) (perm : Z) (w : World) (q : string) :
  q <> name -> fs (fst (os_WriteFile env name data perm w)) !! q = fs w !! q.
Proof.
  intros Hne. unfold os_WriteFile.
  pose proof (os_OpenFile_other env name (Z.lor O_WRONLY (Z.lor O_CREATE O_TRUNC)) perm w q Hne)
    as H1.
  destruct (os_OpenFile env name _ perm w) as [w1 [e|]]; cbn [fst] in H1 |- *; [exact H1 |].
  pose proof (file_Write_other env name data w1 q Hne) as H2.
  destruct (file_Write env name data w1) as [w2 [n err]]. cbn [fst] in H2.
  unfold file_Close. cbn [fst emit fs]. now rewrite H2.
Qed.

Lemma os_WriteFile_content (name data : string) (perm : Z) (w : World) :
  snd (os_WriteFile env name data perm w) = None ->
  exists mode, fs (fst (os_WriteFile env name data perm w)) !! name = Some (File data mode).
Proof.
  unfold os_WriteFile.
  pose proof (os_OpenFile_truncates env name (Z.lor O_WRONLY (Z.lor O_CREATE O_TRUNC)) perm w
                eq_refl) as Hopen.
  destruct (os_OpenFile env name _ perm w) as [w1 [e|]]; [discriminate |].
  destruct (Hopen eq_refl) as [mode Hempty]. cbn [fst] in Hempty.
  pose proof (file_Write_ok env name data w1) as Hw.
  destruct (file_Write env name data w1) as [w2 [n [e|]]]; [discriminate |].
  destruct (Hw eq_refl) as [_ Hfs]. cbn [fst snd] in Hfs.
  unfold file_Close. cbn [fst snd emit fs]. intros _. exists mode.
  rewrite Hfs. unfold append_data. rewrite Hempty. apply lookup_insert_eq.
Qed.

(** X13.  A metadata record that [SaveToFile] has saved without error is
    on disk as its JSON text, every other path is as before, and as long
    as the file stays as saved and can be read, [LoadMetaFromFile] returns
    what the text decodes to: the record that was saved, when decoding
    inverts encoding on it. *)
Theorem saved_metadata_is_read_back (m : Meta) (path text : string) (w : World) :
  json_MarshalIndent m = inl text ->
  snd (Meta_SaveToFile env json_MarshalIndent m path w) = None ->
  (exists mode,
      fs (fst (Meta_SaveToFile env json_MarshalIndent m path w)) !! path
      = Some (File text mode))
  /\ (forall q, q <> path ->
        fs (fst (Meta_SaveToFile env json_MarshalIndent m path w)) !! q = fs w !! q)
  /\ (forall w2 m',
        fs w2 !! path = fs (fst (Meta_SaveToFile env json_MarshalIndent m path w)) !! path ->
        os_fault env (log w2) (OpReadFile path) = None ->
        json_Unmarshal text = Some m' ->
        snd (LoadMetaFromFile env json_Unmarshal path w2) = (Some m', None))
  /\ (forall w2,
        fs w2 !! path = fs (fst (Meta_SaveToFile env json_MarshalIndent m path w)) !! path ->
        os_fault env (log w2) (OpReadFile path) = None ->
        json_Unmarshal text = None ->
        fst (snd (LoadMetaFromFile env json_Unmarshal path w2)) = None
        /\ snd (snd (LoadMetaFromFile env json_Unmarshal path w2)) <> None).
Proof.
  intros Htext Hok. unfold Meta_SaveToFile in *. rewrite Htext in *.
  destruct (os_WriteFile_content path text 420 w Hok) as [mode Hfile].
  split; [now exists mode |]. split; [intros q Hq; now apply os_WriteFile_other |].
  split.
  - intros w2 m' Hsame Hread Hdec. unfold LoadMetaFromFile, os_ReadFile.
    rewrite Hread, Hsame, Hfile. cbn [fst snd]. now rewrite Hdec.
  - intros w2 Hsame Hread Hdec. unfold LoadMetaFromFile, os_ReadFile.
    rewrite Hread, Hsame, Hfile. cbn [fst snd]. rewrite Hdec. cbn [fst snd].
    split; [reflexivity | discriminate].
Qed.

End MetaFacts.

(** A record saved and read back. *)
Lemma saved_metadata_is_read_back_witness :
  (token_text {| meta_URL := "http://h/a"; ETag := "v1"; CachedPath_ := "/cache/k";
                 CreatedAt := 0 |} = inl "v1"
   /\ snd (Meta_SaveToFile calm token_text
             {| meta_URL := "http://h/a"; ETag := "v1"; CachedPath_ := "/cache/k";
                CreatedAt := 0 |} "/cache/k.meta.json" cache_dir_world) = None)
  /\ snd (LoadMetaFromFile calm token_record "/cache/k.meta.json"
            (fst (Meta_SaveToFile calm token_text
                    {| meta_URL := "http://h/a"; ETag := "v1"; CachedPath_ := "/cache/k";
                       CreatedAt := 0 |} "/cache/k.meta.json" cache_dir_world)))
     = (Some {| meta_URL := "http://h/a"; ETag := "v1"; CachedPath_ := "/cache/k";
                CreatedAt := 0 |}, None).
Proof.
  assert (H1 : token_text {| meta_URL := "http://h/a"; ETag := "v1";
                             CachedPath_ := "/cache/k"; CreatedAt := 0 |} = inl "v1")
    by reflexivity.
  assert (H2 : snd (Meta_SaveToFile calm token_text
                      {| meta_URL := "http://h/a"; ETag := "v1"; CachedPath_ := "/cache/k";
                         CreatedAt := 0 |} "/cache/k.meta.json" cache_dir_world) = None)
    by (vm_compute; reflexivity).
  split; [split; [exact H1 | exact H2] |].
  apply (proj1 (proj2 (proj2
           (saved_metadata_is_read_back calm token_record token_text _ "/cache/k.meta.json"
              "v1" cache_dir_world H1 H2)))); reflexivity.
Defined.

(** ** What a download changes in the files *)

Section DownloadFrame.

Variable env : Env.
Variable url_Parse : string -> option url_URL.
Variable c : schemes_HTTPClient.

(** [os.CreateTemp] makes one new empty file and changes nothing else;
    when it fails it has changed nothing. *)
Lemma createTemp_try_files (fuel try : nat) (dir pattern : string) (w : World) :
  (snd (snd (createTemp_try env fuel try dir pattern w)) = None ->
   fs w !! fst (snd (createTemp_try env fuel try dir pattern w)) = None
   /\ fs (fst (createTemp_try env fuel try dir pattern w))
      = <[fst (snd (createTemp_try env fuel try dir pattern w)) := File "" 384]> (fs w))
  /\ (snd (snd (createTemp_try env fuel try dir pattern w)) <> None ->
      fs (fst (createTemp_try env fuel try dir pattern w)) = fs w).
Proof.
  revert try w. induction fuel as [|fuel IH]; intros try w; simpl.
  - split; [discriminate | reflexivity].
  - set (name := joinPath dir (temp_prefix pattern) +:+ decimal (os_random env (log w) try)
                 +:+ temp_suffix pattern).
    assert (Hopen : match os_OpenFile env name (Z.lor O_RDWR (Z.lor O_CREATE O_EXCL)) 384 w with
                    | (w1, None) => fs w !! name = None
                                    /\ fs w1 = <[name := File "" 384]> (fs w)
                    | (w1, Some _) => fs w1 = fs w
                    end).
    { unfold os_OpenFile.
      destruct (os_fault env (log w) (OpOpenFile name _ 384)); [reflexivity |].
      change (Z.testbit (Z.lor O_RDWR (Z.lor O_CREATE O_EXCL)) 7) with true.
      change (Z.testbit (Z.lor O_RDWR (Z.lor O_CREATE O_EXCL)) 6) with true.
      destruct (fs w !! name); [reflexivity |]. split; reflexivity. }
    destruct (os_OpenFile env name (Z.lor O_RDWR (Z.lor O_CREATE O_EXCL)) 384 w) as [w1 [e|]].
    + destruct (is_exist e).
      * destruct (IH (S try) w1) as [IH1 IH2]. rewrite Hopen in IH1, IH2. now split.
      * cbn [fst snd]. split; [discriminate | intros _; exact Hopen].
    + cbn [fst snd]. split; [intros _; exact Hopen | congruence].
Qed.

Lemma ProgressWriter_write_other (path : string) (written : Z) (chunk : string) (w : World)
    (q : string) :
  q <> path ->
  fs (fst (w_write (ProgressWriter env path) written chunk w)) !! q = fs w !! q.
Proof.
  intros Hne. simpl.
  pose proof (file_Write_other env path chunk w q Hne) as Hw.
  destruct (file_Write env path chunk w) as [w1 [k err]]. cbn [fst] in Hw.
  destruct (0 <? k); exact Hw.
Qed.

Lemma io_Copy_other (S : Type)
    (write : S -> string -> World -> World * (S * (Z * option error)))
    (chunks : list string) (readErr : option error) (q : string) :
  (forall st chunk w, fs (fst (write st chunk w)) !! q = fs w !! q) ->
  forall st w, fs (fst (io_Copy write st chunks readErr w)) !! q = fs w !! q.
Proof.
  intros Hwrite. induction chunks as [|chunk rest IH]; intros st w; simpl; [reflexivity |].
  destruct (decide (chunk = "")) as [_ | _]; [apply IH |].
  pose proof (Hwrite st chunk w) as Hw.
  destruct (write st chunk w) as [w1 [st1 [k err]]]. cbn [fst] in Hw.
  destruct err as [e|]; [exact Hw |].
  destruct (decide (k = Z.of_nat (String.length chunk))) as [_ | _]; [| exact Hw].
  now rewrite IH.
Qed.

Lemma HTTP_GetResource_other (tmp url : string) (headers : option (gmap string string))
    (w : World) (q : string) :
  q <> tmp ->
  fs (fst (HTTP_GetResource env url_Parse c url (ProgressWriter env tmp) headers w)) !! q
  = fs w !! q.
Proof.
  intros Hne. unfold HTTP_GetResource.
  destruct (http_NewRequest url_Parse "GET" url) as [req | e]; [| reflexivity].
  pose proof (doRequestWithRetry_files env c (apply_headers headers req) w) as (Hf & _ & _).
  destruct (doRequestWithRetry env c (apply_headers headers req) w) as [w1 [resp err]].
  cbn [fst] in Hf.
  destruct err as [e|]; [cbn [fst]; now rewrite Hf |].
  destruct resp as [r|]; [| cbn [fst]; now rewrite Hf].
  destruct (negb (StatusCode r =? StatusOK)); [cbn [fst]; now rewrite Hf |].
  pose proof (io_Copy_other _ (w_write (ProgressWriter env tmp)) (Body r) (BodyErr r) q
                (fun st chunk w' => ProgressWriter_write_other tmp st chunk w' q Hne)
                (w_cur (ProgressWriter env tmp)) w1) as H2.
  destruct (io_Copy (w_write (ProgressWriter env tmp)) (w_cur (ProgressWriter env tmp))
              (Body r) (BodyErr r) w1) as [w2 [e|]]; cbn [fst] in H2 |- *; now rewrite H2, Hf.
Qed.

(** The deferred calls leave the other paths alone, and remove the
    temporary file when the removal does not fail for a reason of its
    own. *)
Lemma downloadFile_deferred_other (tmp : string) (w : World) (q : string) :
  q <> tmp -> fs (downloadFile_deferred env tmp w) !! q = fs w !! q.
Proof.
  intros Hne. unfold downloadFile_deferred, os_Remove. cbn [emit log fs].
  destruct (os_fault env _ (OpRemove tmp)); [reflexivity |].
  destruct (fs w !! tmp); cbn [fst set_fs fs emit]; [| reflexivity].
  now rewrite lookup_delete_ne by congruence.
Qed.

Lemma downloadFile_deferred_removes (tmp : string) (w : World) :
  (forall log p, os_fault env log (OpRemove p) = None) ->
  fs (downloadFile_deferred env tmp w) !! tmp = None.
Proof.
  intros Hcalm. unfold downloadFile_deferred, os_Remove. cbn [emit log fs].
  rewrite Hcalm. destruct (fs w !! tmp) eqn:E; cbn [fst set_fs fs emit].
  - apply lookup_delete_eq.
  - exact E.
Qed.

End DownloadFrame.

Lemma downloadFile_deferred_absent (env : Env) (tmp : string) (w : World) :
  fs w !! tmp = None -> fs (downloadFile_deferred env tmp w) !! tmp = None.
Proof.
  intros H. unfold downloadFile_deferred, os_Remove. cbn [emit log fs].
  destruct (os_fault env _ (OpRemove tmp)); [exact H |].
  rewrite H. exact H.
Qed.

Section DownloadEffect.

Variable env : Env.
Variable url_Parse : string -> option url_URL.
Variable c : schemes_HTTPClient.
Variable url destPath : string.
Variable opts : Options.
Hypothesis dest_is_no_temp :
  strings_HasPrefix (filepath_Base destPath) ".download-" = false.

Local Abbreviation download :=
  (downloadFile env (HTTPClient_SchemeClient env url_Parse c) url destPath opts).

(** X14.  A download that succeeds changes the files in one place: the
    destination holds the whole body of a response with status 200, and
    every other path, the temporary file included, is as it was before.
    A download that fails leaves the files exactly as they were when
    removing a file does not fail for a reason of its own: no temporary
    file stays behind.  Whatever the outcome, a path that is neither the
    destination nor a temporary file next to it is as it was. *)
Theorem download_changes_the_destination_only (w : World) :
  (snd (download w) = None ->
   exists w1 r,
     snd (doRequestWithRetry env c
            (apply_headers (Headers opts) (bare_request "GET" url)) w1) = (Some r, None)
     /\ StatusCode r = 200
     /\ BodyErr r = None
     /\ fs (fst (download w)) = <[destPath := File (whole_body (Body r)) 384]> (fs w))
  /\ (snd (download w) <> None ->
      (forall log p, os_fault env log (OpRemove p) = None) ->
      fs (fst (download w)) = fs w)
  /\ (forall q,
        q <> destPath -> ~ temp_sibling destPath q ->
        fs (fst (download w)) !! q = fs w !! q).
Proof.
  unfold downloadFile. cbn [GetSize GetResource HTTPClient_SchemeClient].
  pose proof (HTTP_GetSize_files env url_Parse c url (Headers opts)
                (emit (EvCall "GetSize" url) w)) as (Hf1 & _ & _).
  destruct (HTTP_GetSize env url_Parse c url (Headers opts) (emit (EvCall "GetSize" url) w))
    as [w1 [size err1]].
  cbn [fst snd emit fs] in Hf1.
  destruct (panicked err1) eqn:Hpanic1.
  { cbn [fst snd]. split; [intros E; now apply panicked_Some in Hpanic1 |].
    split; [intros _ _; exact Hf1 | intros q _ _; now rewrite Hf1]. }
  unfold os_CreateTemp.
  destruct (createTemp_try_files env (Z.to_nat 10000) 0 (filepath_Dir destPath)
              ".download-*" w1) as [Hmade Hnot].
  destruct (createTemp_try_extends env (fun _ => True) (Z.to_nat 10000) 0
              (filepath_Dir destPath) ".download-*" w1) as [_ Hname].
  { intros k. split; intros; exact I. }
  destruct (createTemp_try env (Z.to_nat 10000) 0 (filepath_Dir destPath) ".download-*" w1)
    as [w2 [tmpPath err2]].
  cbn [fst snd] in Hmade, Hnot, Hname.
  destruct err2 as [e2|].
  { cbn [fst snd]. rewrite Hnot by discriminate.
    split; [discriminate |]. split; [intros _ _; exact Hf1 | intros q _ _; now rewrite Hf1]. }
  destruct (Hmade eq_refl) as [Hfresh Hfs2]. destruct (Hname eq_refl) as [k Hk].
  assert (Hne : tmpPath <> destPath)
    by (rewrite Hk; apply temp_name_not_dest; exact dest_is_no_temp).
  assert (Hsib : temp_sibling destPath tmpPath) by (exists k; exact Hk).
  clear Hmade Hnot Hname.
  set (w3 := emit (EvCall "GetResource" url)
               (emit (EvProgressStart (match err1 with Some _ => 0 | None => size end) url) w2)).
  assert (Hempty : fs w3 !! tmpPath = Some (File "" 384)).
  { unfold w3. cbn [emit fs]. rewrite Hfs2. apply lookup_insert_eq. }
  pose proof (HTTP_GetResource_other env url_Parse c tmpPath url (Headers opts) w3) as Hother.
  pose proof (HTTP_GetResource_success env url_Parse c tmpPath url (Headers opts) w3 "" 384)
    as Hsuccess.
  destruct (HTTP_GetResource env url_Parse c url (ProgressWriter env tmpPath) (Headers opts) w3)
    as [w4 err4].
  cbn [fst snd] in Hother, Hsuccess.
  assert (Hchain : forall q, q <> tmpPath -> fs w4 !! q = fs w !! q).
  { intros q Hq. rewrite (Hother q Hq). unfold w3. cbn [emit fs].
    now rewrite Hfs2, lookup_insert_ne, Hf1 by congruence. }
  assert (Hfresh0 : fs w !! tmpPath = None) by now rewrite <- Hf1.
  assert (Hfailed : forall w5,
             fs w5 = fs w4 ->
             ((forall log p, os_fault env log (OpRemove p) = None) ->
              fs (downloadFile_deferred env tmpPath w5) = fs w)
             /\ (forall q, q <> destPath -> ~ temp_sibling destPath q ->
                   fs (downloadFile_deferred env tmpPath w5) !! q = fs w !! q)).
  { intros w5 H5. split.
    - intros Hcalm. apply map_eq. intros q.
      destruct (decide (q = tmpPath)) as [-> | Hq].
      + now rewrite downloadFile_deferred_removes, Hfresh0.
      + now rewrite downloadFile_deferred_other, H5, Hchain by assumption.
    - intros q _ Hq.
      assert (q <> tmpPath) by (intros ->; contradiction).
      now rewrite downloadFile_deferred_other, H5, Hchain by assumption. }
  destruct (panicked err4) eqn:Hpanic4.
  { cbn [fst snd]. destruct (Hfailed w4 eq_refl) as [Ha Hb].
    split; [intros E; now apply panicked_Some in Hpanic4 |].
    split; [intros _; exact Ha | exact Hb]. }
  cbn [file_Close fst snd].
  set (w5 := emit (EvFs (OpClose tmpPath)) w4).
  destruct err4 as [e4|].
  { cbn [fst snd]. destruct (Hfailed w5 eq_refl) as [Ha Hb].
    split; [discriminate |]. split; [intros _; exact Ha | exact Hb]. }
  destruct (Hsuccess eq_refl Hempty) as (r & Hanswer & H200 & Hbody & Hfile).
  change ("" +:+ whole_body (Body r)) with (whole_body (Body r)) in Hfile.
  unfold os_Rename.
  destruct (os_fault env (log w5) (OpRename tmpPath destPath)) as [e5|].
  { cbn [fst snd]. destruct (Hfailed (emit (EvFs (OpRename tmpPath destPath)) w5) eq_refl)
      as [Ha Hb].
    split; [discriminate |]. split; [intros _; exact Ha | exact Hb]. }
  change (fs w5) with (fs w4). rewrite Hfile.
  assert (Hrenamed : forall w6,
             fs w6 = <[destPath := File (whole_body (Body r)) 384]> (delete tmpPath (fs w4)) ->
             fs (downloadFile_deferred env tmpPath w6)
             = <[destPath := File (whole_body (Body r)) 384]> (fs w)).
  { intros w6 H6. apply map_eq. intros q.
    destruct (decide (q = tmpPath)) as [-> | Hq].
    - rewrite downloadFile_deferred_absent.
      + now rewrite lookup_insert_ne, Hfresh0 by congruence.
      + now rewrite H6, lookup_insert_ne, lookup_delete_eq by congruence.
    - rewrite downloadFile_deferred_other, H6 by assumption.
      destruct (decide (q = destPath)) as [-> | Hd].
      + now rewrite !lookup_insert_eq.
      + now rewrite !lookup_insert_ne, lookup_delete_ne, Hchain by congruence. }
  destruct (fs w4 !! destPath) as [[|olddata oldperm]|] eqn:Hdest.
  { cbn [fst snd]. destruct (Hfailed (emit (EvFs (OpRename tmpPath destPath)) w5) eq_refl)
      as [Ha Hb].
    split; [discriminate |]. split; [intros _; exact Ha | exact Hb]. }
  - cbn [fst snd]. split; [| split; [congruence |]].
    + intros _. exists w3, r.
      split; [exact Hanswer | split; [exact H200 | split; [exact Hbody |]]].
      now apply Hrenamed.
    + intros q Hq Hnot. rewrite Hrenamed by reflexivity.
      assert (q <> tmpPath) by (intros ->; contradiction).
      now rewrite lookup_insert_ne by congruence.
  - cbn [fst snd]. split; [| split; [congruence |]].
    + intros _. exists w3, r.
      split; [exact Hanswer | split; [exact H200 | split; [exact Hbody |]]].
      now apply Hrenamed.
    + intros q Hq Hnot. rewrite Hrenamed by reflexivity.
      now rewrite lookup_insert_ne by congruence.
Qed.

End DownloadEffect.

Lemma download_changes_the_destination_only_witness :
  strings_HasPrefix (filepath_Base "/cache/k") ".download-" = false
  /\ snd (downloadFile flaky_server
            (HTTPClient_SchemeClient flaky_server url_Parse_plain default_client)
            "http://h/a" "/cache/k" default_options cache_dir_world) = None
  /\ exists w1 r,
       snd (doRequestWithRetry flaky_server default_client
              (apply_headers (Headers default_options) (bare_request "GET" "http://h/a")) w1)
       = (Some r, None)
       /\ StatusCode r = 200
       /\ BodyErr r = None
       /\ fs (fst (downloadFile flaky_server
                     (HTTPClient_SchemeClient flaky_server url_Parse_plain default_client)
                     "http://h/a" "/cache/k" default_options cache_dir_world))
          = <[ "/cache/k" := File (whole_body (Body r)) 384 ]> (fs cache_dir_world).
Proof.
  assert (Hname : strings_HasPrefix (filepath_Base "/cache/k") ".download-" = false)
    by (vm_compute; reflexivity).
  assert (Hdone : snd (downloadFile flaky_server
            (HTTPClient_SchemeClient flaky_server url_Parse_plain default_client)
            "http://h/a" "/cache/k" default_options cache_dir_world) = None)
    by (vm_compute; reflexivity).
  split; [exact Hname | split; [exact Hdone |]].
  exact (proj1 (download_changes_the_destination_only flaky_server url_Parse_plain
                  default_client "http://h/a" "/cache/k" default_options Hname cache_dir_world)
           Hdone).
Defined.

(** ** The resolution of an address *)

Lemma GetScheme_parses (url_Parse : string -> option url_URL) (url : string) :
  GetScheme url_Parse url <> "" -> exists u, url_Parse url = Some u.
Proof.
  unfold GetScheme. destruct (url_Parse url) as [u|]; [now exists u | congruence].
Qed.

Section RemoteFacts.

Variable env : Env.
Variable url_Parse : string -> option url_URL.
Variable json_Unmarshal : string -> option Meta.
Variable json_MarshalIndent : Meta -> string + error.
Variable time_Now : list Event -> Z.
Variable syscall_Flock : list Event -> string -> Z -> option error.
Variable zip_decode : string -> option (list zip_File).
Variable targz_decode : string -> option (list tar_Item).
Variable strings_ToLower : string -> string.

Local Abbreviation resolve_remote :=
  (handleRemoteURL env url_Parse json_Unmarshal json_MarshalIndent time_Now syscall_Flock
     zip_decode targz_decode strings_ToLower).
Local Abbreviation probe opts url w :=
  (HTTP_GetETag env url_Parse (configured_client opts) url (Headers opts) w).
Local Abbreviation token_of opts url w :=
  (match snd (snd (probe opts url w)) with
   | Some _ => ""
   | None => fst (snd (probe opts url w))
   end).
Local Abbreviation under_lock opts url etag cachePath w :=
  (WithLock env syscall_Flock (LockFilePath cachePath)
     (handleRemoteURL_locked env json_Unmarshal
        (HTTPClient_SchemeClient env url_Parse (configured_client opts))
        url cachePath etag opts) w).

(** The steps of [handleRemoteURL] for an address whose scheme is served
    by the HTTP client. *)
Lemma handleRemoteURL_http_cases (registry : gmap string client_value)
    (c : schemes_HTTPClient) (url internalPath : string) (hasInternalPath : bool)
    (opts : Options) (w : World) :
  registry !! "http" = Some (HTTPClient_value c) ->
  GetScheme url_Parse url = "http" \/ GetScheme url_Parse url = "https" ->
  fst (resolve_remote registry url internalPath hasInternalPath opts w)
  = <["http" := HTTPClient_value (configured_client opts)]> registry
  /\ (panicked (snd (snd (probe opts url w))) = true ->
      snd (resolve_remote registry url internalPath hasInternalPath opts w)
      = (fst (probe opts url w), ("", snd (snd (probe opts url w)))))
  /\ (panicked (snd (snd (probe opts url w))) = false ->
      exists key,
        ResourceToFilename url_Parse url (token_of opts url w) = Some key
        /\ (forall e,
              snd (under_lock opts url (token_of opts url w)
                     (filepath_Join [CacheDir opts; key]) (fst (probe opts url w))) = Some e ->
              snd (resolve_remote registry url internalPath hasInternalPath opts w)
              = (fst (under_lock opts url (token_of opts url w)
                        (filepath_Join [CacheDir opts; key]) (fst (probe opts url w))),
                 ("", Some e)))
        /\ (snd (under_lock opts url (token_of opts url w)
                   (filepath_Join [CacheDir opts; key]) (fst (probe opts url w))) = None ->
            hasInternalPath = false ->
            Options_ExtractArchive opts
            && IsArchive strings_ToLower (filepath_Join [CacheDir opts; key]) = false ->
            snd (resolve_remote registry url internalPath hasInternalPath opts w)
            = (fst (Meta_SaveToFile env json_MarshalIndent
                      (NewMeta time_Now url (filepath_Join [CacheDir opts; key])
                         (token_of opts url w)
                         (fst (under_lock opts url (token_of opts url w)
                                 (filepath_Join [CacheDir opts; key]) (fst (probe opts url w)))))
                      (MetaFilePath (filepath_Join [CacheDir opts; key]))
                      (fst (under_lock opts url (token_of opts url w)
                              (filepath_Join [CacheDir opts; key]) (fst (probe opts url w))))),
               (filepath_Join [CacheDir opts; key], None)))).
Proof.
  intros Hreg Hscheme.
  assert (Hne : GetScheme url_Parse url <> "") by (destruct Hscheme as [-> | ->]; discriminate).
  destruct (GetScheme_parses url_Parse url Hne) as [u Hu].
  unfold handleRemoteURL.
  rewrite (decide_False (P := GetScheme url_Parse url = "")) by exact Hne.
  assert (Hnorm : (if decide (GetScheme url_Parse url = "https") then "http"
                   else GetScheme url_Parse url) = "http").
  { destruct Hscheme as [-> | ->]; reflexivity. }
  cbv zeta. rewrite Hnorm. unfold schemes_GetClient. rewrite Hreg.
  cbn [as_SchemeClient GetETag HTTPClient_SchemeClient].
  change (SetRetryConfig (SetHTTPClient c (Some (getHTTPClient opts)))
            (MaxRetries opts) (RetryDelay opts)) with (configured_client opts).
  destruct (HTTP_GetETag env url_Parse (configured_client opts) url (Headers opts) w)
    as [w1 [etag err]].
  cbn [fst snd].
  destruct (panicked err) eqn:Hpanic.
  { split; [reflexivity |]. split; [reflexivity | discriminate]. }
  set (token := match err with Some _ => "" | None => etag end).
  rewrite (ResourceToFilename_eq url_Parse url token), Hu.
  set (key := hex_EncodeToString (sha256_Sum (url +:+ token)) +:+ filepath_Ext (Path u)).
  destruct (WithLock env syscall_Flock (LockFilePath (filepath_Join [CacheDir opts; key]))
              (handleRemoteURL_locked env json_Unmarshal
                 (HTTPClient_SchemeClient env url_Parse (configured_client opts))
                 url (filepath_Join [CacheDir opts; key]) token opts) w1)
    as [w2 [e|]] eqn:Hlock.
  { cbn [fst snd]. split; [reflexivity |]. split; [discriminate |]. intros _.
    exists key. split; [reflexivity |]. rewrite Hlock. cbn [fst snd].
    split; [intros e' H; now injection H as <- | discriminate]. }
  split.
  { destruct (Meta_SaveToFile _ _ _ _ w2) as [w3 saved].
    destruct hasInternalPath.
    - destruct (negb _); [reflexivity |].
      destruct (ExtractSpecificFile _ _ _ _ _ _ _ w3) as [w4 [p [e|]]]; reflexivity.
    - destruct (Options_ExtractArchive opts && _); [| reflexivity].
      destruct (if negb (ForceExtract opts) then _ else _) as [w4 [|]]; [reflexivity |].
      destruct (ExtractArchive _ _ _ _ _ _ w4) as [w5 [e|]]; reflexivity. }
  split; [discriminate |]. intros _.
  exists key. split; [reflexivity |]. rewrite Hlock. cbn [fst snd].
  split; [discriminate |]. intros _ -> Hplain. rewrite Hplain.
  now destruct (Meta_SaveToFile _ _ _ _ w2) as [w3 saved].
Qed.

(** X15.  An identifier for which [IsURL] holds, as [CachedPath] requires
    of what it sends to [handleRemoteURL], has a scheme.  The scheme [https]
    is looked up as [http]; a scheme without client in the registry gives
    [ErrUnsupportedScheme] with the name that was looked up, and nothing
    has been done.  After [init] the registry holds the HTTP client under
    [http] and nothing else.  When the client found is the HTTP client,
    [handleRemoteURL] first overwrites all its settings from the options
    of the call: whatever the client was configured with before has no
    effect on the call, and whatever the outcome of the call, the client
    in the registry is left with these settings. *)
Theorem remote_resolution_configures_the_shared_client
    (registry : gmap string client_value) (c c' : schemes_HTTPClient)
    (url internalPath : string) (hasInternalPath : bool) (opts : Options) (w : World) :
  (IsURL url_Parse url = true -> GetScheme url_Parse url <> "")
  /\ (forall looked_up,
        GetScheme url_Parse url <> "" ->
        looked_up = (if decide (GetScheme url_Parse url = "https") then "http"
                     else GetScheme url_Parse url) ->
        registry !! looked_up = None ->
        resolve_remote registry url internalPath hasInternalPath opts w
        = (registry,
           (w, ("", Some (fmt_Errorf "%w: %s"
                            [ArgError ErrUnsupportedScheme; ArgString looked_up])))))
  /\ (schemes_init !! "http" = Some (HTTPClient_value NewHTTPClient)
      /\ forall name, name <> "http" -> schemes_init !! name = None)
  /\ (GetScheme url_Parse url = "http" \/ GetScheme url_Parse url = "https" ->
      registry !! "http" = Some (HTTPClient_value c) ->
      fst (resolve_remote registry url internalPath hasInternalPath opts w)
      = <["http" := HTTPClient_value
                      {| client := getHTTPClient opts; maxRetries := MaxRetries opts;
                         retryDelay := RetryDelay opts |}]> registry
      /\ resolve_remote (<["http" := HTTPClient_value c']> registry)
           url internalPath hasInternalPath opts w
         = resolve_remote registry url internalPath hasInternalPath opts w).
Proof.
  split.
  { unfold IsURL, GetScheme. destruct (url_Parse url) as [u|]; [| discriminate].
    intros H. apply andb_true_iff in H as [H _].
    apply negb_true_iff, bool_decide_eq_false in H. exact H. }
  split.
  { intros looked_up Hne -> Hnone. unfold handleRemoteURL.
    rewrite (decide_False (P := GetScheme url_Parse url = "")) by exact Hne.
    cbv zeta. unfold schemes_GetClient. now rewrite Hnone. }
  split.
  { unfold schemes_init, schemes_Register. cbn [client_Scheme].
    split; [apply lookup_insert_eq |].
    intros name Hname. now rewrite lookup_insert_ne, lookup_empty by congruence. }
  intros Hscheme Hreg.
  split; [exact (proj1 (handleRemoteURL_http_cases registry c url internalPath hasInternalPath
                          opts w Hreg Hscheme)) |].
  assert (Hne : GetScheme url_Parse url <> "") by (destruct Hscheme as [-> | ->]; discriminate).
  assert (Hnorm : (if decide (GetScheme url_Parse url = "https") then "http"
                   else GetScheme url_Parse url) = "http").
  { destruct Hscheme as [-> | ->]; reflexivity. }
  unfold handleRemoteURL.
  destruct (decide (GetScheme url_Parse url = "")) as [E | _]; [contradiction |].
  cbv zeta. rewrite Hnorm. unfold schemes_GetClient.
  rewrite lookup_insert_eq, Hreg, insert_insert_eq. reflexivity.
Qed.

End RemoteFacts.

Section DownloadOther.

Variable env : Env.
Variable url_Parse : string -> option url_URL.
Variable c : schemes_HTTPClient.

(** [downloadFile] touches the destination and temporary files next to
    it, and no other path. *)
Lemma downloadFile_other (url destPath : string) (opts : Options) (w : World) (q : string) :
  q <> destPath -> ~ temp_sibling destPath q ->
  fs (fst (downloadFile env (HTTPClient_SchemeClient env url_Parse c) url destPath opts w)) !! q
  = fs w !! q.
Proof.
  intros Hq Hnot.
  unfold downloadFile. cbn [GetSize GetResource HTTPClient_SchemeClient].
  pose proof (HTTP_GetSize_files env url_Parse c url (Headers opts)
                (emit (EvCall "GetSize" url) w)) as (Hf1 & _ & _).
  destruct (HTTP_GetSize env url_Parse c url (Headers opts) (emit (EvCall "GetSize" url) w))
    as [w1 [size err1]].
  cbn [fst snd emit fs] in Hf1.
  destruct (panicked err1); [cbn [fst]; now rewrite Hf1 |].
  unfold os_CreateTemp.
  destruct (createTemp_try_files env (Z.to_nat 10000) 0 (filepath_Dir destPath)
              ".download-*" w1) as [Hmade Hfailed].
  destruct (createTemp_try_extends env (fun _ => True) (Z.to_nat 10000) 0
              (filepath_Dir destPath) ".download-*" w1) as [_ Hname].
  { intros k. split; intros; exact I. }
  destruct (createTemp_try env (Z.to_nat 10000) 0 (filepath_Dir destPath) ".download-*" w1)
    as [w2 [tmpPath err2]].
  cbn [fst snd] in Hmade, Hfailed, Hname.
  destruct err2 as [e2|].
  { cbn [fst]. rewrite Hfailed by discriminate. now rewrite Hf1. }
  destruct (Hmade eq_refl) as [_ Hfs2]. destruct (Hname eq_refl) as [k Hk].
  assert (Htmp : q <> tmpPath) by (intros ->; apply Hnot; now exists k).
  clear Hmade Hfailed Hname.
  set (w3 := emit (EvCall "GetResource" url)
               (emit (EvProgressStart (match err1 with Some _ => 0 | None => size end) url) w2)).
  pose proof (HTTP_GetResource_other env url_Parse c tmpPath url (Headers opts) w3 q Htmp)
    as Hother.
  destruct (HTTP_GetResource env url_Parse c url (ProgressWriter env tmpPath) (Headers opts) w3)
    as [w4 err4].
  cbn [fst] in Hother.
  assert (Hchain : fs w4 !! q = fs w !! q).
  { rewrite Hother. unfold w3. cbn [emit fs].
    now rewrite Hfs2, lookup_insert_ne, Hf1 by congruence. }
  destruct (panicked err4).
  { cbn [fst]. now rewrite downloadFile_deferred_other. }
  cbn [file_Close fst snd].
  destruct err4 as [e4|].
  { cbn [fst]. now rewrite downloadFile_deferred_other. }
  unfold os_Rename. cbn [emit log fs].
  destruct (os_fault env _ (OpRename tmpPath destPath)).
  { cbn [fst]. now rewrite downloadFile_deferred_other. }
  destruct (fs w4 !! tmpPath) as [[|data perm]|]; destruct (fs w4 !! destPath) as [[|d p]|];
    cbn [fst]; rewrite downloadFile_deferred_other by assumption;
    cbn [set_fs emit fs];
    rewrite ?lookup_insert_ne, ?lookup_delete_ne by congruence; exact Hchain.
Qed.

End DownloadOther.

Lemma os_OpenFile_is_file (env : Env) (path : string) (flag perm : Z) (w : World) :
  snd (os_OpenFile env path flag perm w) = None ->
  exists data mode, fs (fst (os_OpenFile env path flag perm w)) !! path = Some (File data mode).
Proof.
  unfold os_OpenFile.
  destruct (os_fault env (log w) (OpOpenFile path flag perm)); [discriminate |].
  destruct (fs w !! path) as [[|data old]|] eqn:E.
  - destruct (Z.testbit flag 7); discriminate.
  - destruct (Z.testbit flag 7); [discriminate |].
    destruct (Z.testbit flag 9); intros _; cbn [fst set_fs fs emit].
    + rewrite lookup_insert_eq. now eexists _, _.
    + rewrite E. now eexists _, _.
  - destruct (Z.testbit flag 6); [| discriminate]. intros _. cbn [fst set_fs fs].
    rewrite lookup_insert_eq. now eexists _, _.
Qed.

(** The lock file after a [Lock] that succeeded is a file, and [Lock]
    leaves the other paths alone. *)
Lemma FileLock_Lock_file (env : Env)
    (syscall_Flock : list Event -> string -> Z -> option error) (path : string) (w : World) :
  (snd (snd (FileLock_Lock env syscall_Flock (NewFileLock path) w)) = None ->
   exists data mode,
     fs (fst (FileLock_Lock env syscall_Flock (NewFileLock path) w)) !! path
     = Some (File data mode))
  /\ (forall q, q <> path ->
        fs (fst (FileLock_Lock env syscall_Flock (NewFileLock path) w)) !! q = fs w !! q).
Proof.
  rewrite (FileLock_Lock_eq env syscall_Flock path w).
  pose proof (os_OpenFile_is_file env path (Z.lor O_CREATE O_RDWR) 420 w) as Hfile.
  pose proof (os_OpenFile_other env path (Z.lor O_CREATE O_RDWR) 420 w) as Hother.
  destruct (os_OpenFile env path (Z.lor O_CREATE O_RDWR) 420 w) as [w1 [e|]]; cbn [fst snd] in *.
  { split; [discriminate | exact Hother]. }
  rewrite Lock_tries_files. split; [intros _; now apply Hfile | exact Hother].
Qed.

(** The lock file and the metadata file of a cache path are apart from
    the cache path, from one another, and from the temporary files of a
    download. *)
Lemma cache_files_apart (url_Parse : string -> option url_URL)
    (url etag key cacheDir : string) :
  ResourceToFilename url_Parse url etag = Some key ->
  LockFilePath (filepath_Join [cacheDir; key]) <> filepath_Join [cacheDir; key]
  /\ MetaFilePath (filepath_Join [cacheDir; key]) <> filepath_Join [cacheDir; key]
  /\ LockFilePath (filepath_Join [cacheDir; key]) <> MetaFilePath (filepath_Join [cacheDir; key])
  /\ ~ temp_sibling (filepath_Join [cacheDir; key]) (LockFilePath (filepath_Join [cacheDir; key])).
Proof.
  intros Hkey.
  assert (Hlonger : forall (s t : string), t <> "" -> s +:+ t <> s).
  { intros s t Ht E. apply (f_equal String.length) in E. rewrite append_length in E.
    destruct t; [congruence | simpl in E; lia]. }
  split; [apply Hlonger; discriminate |]. split; [apply Hlonger; discriminate |].
  split; [intros E; apply append_cancel_l in E; discriminate |].
  intros [k Hk].
  destruct (cache_key_shape url_Parse url etag key Hkey) as [Hname _].
  destruct (cache_key_head url_Parse url etag key Hkey) as (h & t & -> & Hdot & Hfree).
  assert (Hlock : proper_name (String h t +:+ ".lock"))
    by (now apply key_with_suffix_proper).
  pose proof (temp_name_Base (filepath_Dir (filepath_Join [cacheDir; String h t])) k) as Hbase.
  rewrite <- Hk in Hbase. unfold LockFilePath in Hbase.
  rewrite (Join_name_suffix cacheDir (String h t) ".lock" Hname Hlock) in Hbase.
  rewrite (Base_Join_name cacheDir _ Hlock) in Hbase.
  change (String h t +:+ ".lock") with (String h (t +:+ ".lock")) in Hbase.
  rewrite HasPrefix_cons, Hdot in Hbase. discriminate.
Qed.

Lemma fetches_nothing_lists (evs : list Event) :
  Forall fetches_nothing evs ->
  client_calls evs = [] /\ Forall (fun req => Method req = "HEAD") (requests evs).
Proof.
  induction 1 as [|e evs He _ [IH1 IH2]]; [split; [reflexivity | constructor] |].
  destruct e; cbn in *; try (split; assumption); try contradiction.
  split; [assumption | now constructor].
Qed.

Lemma retry_run_fetches (env : Env) (c : schemes_HTTPClient) (req : http_Request)
    (attempt : Z) (before evs : list Event) (result : option http_Response * option error) :
  Method req = "HEAD" ->
  retry_run env c req attempt before evs result ->
  Forall fetches_nothing evs.
Proof.
  intros Hhead.
  assert (Hb : forall a, Forall fetches_nothing (backoff c a)).
  { intros a. unfold backoff. destruct (0 <? a); repeat constructor. }
  induction 1 as [a b ans _ _ | a b ans _ _ _ | a b ans evs res _ _ _ _ IH].
  - apply Forall_app. split; [apply Hb | now repeat constructor].
  - apply Forall_app. split; [apply Hb | now repeat constructor].
  - apply Forall_app. split; [apply Hb |]. constructor; [exact Hhead | exact IH].
Qed.

(** The probe for the revision token sends [HEAD] requests and changes no
    file. *)
Lemma HTTP_GetETag_quiet (env : Env) (url_Parse : string -> option url_URL)
    (c : schemes_HTTPClient) (url : string) (headers : option (gmap string string))
    (w : World) :
  fs (fst (HTTP_GetETag env url_Parse c url headers w)) = fs w
  /\ extends_with fetches_nothing w (fst (HTTP_GetETag env url_Parse c url headers w)).
Proof.
  unfold HTTP_GetETag, http_NewRequest.
  destruct (url_Parse url) as [u|]; [| split; [reflexivity | apply extends_refl]].
  set (req := apply_headers headers {| Method := "HEAD"; URL := url; req_Header := ∅ |}).
  assert (Hrun : fs (fst (doRequestWithRetry env c req w)) = fs w
                 /\ extends_with fetches_nothing w (fst (doRequestWithRetry env c req w))).
  { destruct (Z_lt_le_dec (maxRetries c) 0) as [Hneg | Hpos].
    - rewrite (doRequestWithRetry_negative env c req w Hneg).
      split; [reflexivity | apply extends_refl].
    - destruct (doRequestWithRetry_run env c req w Hpos) as (evs & Hl & Hf & _ & Hrun).
      split; [exact Hf |]. exists evs. split; [exact Hl |].
      exact (retry_run_fetches env c req 0 (log w) evs _ eq_refl Hrun). }
  destruct (doRequestWithRetry env c req w) as [w' [resp err]]. cbn [fst] in Hrun.
  destruct err as [e|]; [exact Hrun |]. destruct resp as [r|]; [| exact Hrun].
  destruct (negb (StatusCode r =? StatusOK)); exact Hrun.
Qed.

Section SavedRecord.

Variable env : Env.
Variable json_MarshalIndent : Meta -> string + error.
Hypothesis no_fault : fault_free env.

(** Without failures of the operating system's own, a record that encodes
    is saved unless a directory is in the way; the other paths stay as
    they are and nothing is fetched. *)
Lemma Meta_SaveToFile_cases (m : Meta) (path text : string) (w : World) :
  json_MarshalIndent m = inl text ->
  ((fs w !! path = Some Dir
    /\ fs (fst (Meta_SaveToFile env json_MarshalIndent m path w)) = fs w)
   \/ (fs w !! path <> Some Dir
       /\ exists mode,
            fs (fst (Meta_SaveToFile env json_MarshalIndent m path w)) !! path
            = Some (File text mode)))
  /\ (forall q, q <> path ->
        fs (fst (Meta_SaveToFile env json_MarshalIndent m path w)) !! q = fs w !! q)
  /\ extends_with fetches_nothing w (fst (Meta_SaveToFile env json_MarshalIndent m path w)).
Proof.
  intros Htext. unfold Meta_SaveToFile. rewrite Htext.
  split; [| split; [intros q Hq; now apply os_WriteFile_other |]].
  - unfold os_WriteFile, os_OpenFile. rewrite no_fault.
    destruct (fs w !! path) as [[|data old]|] eqn:E.
    + left. split; reflexivity.
    + right. split; [discriminate |]. exists old.
      change (Z.testbit (Z.lor O_WRONLY (Z.lor O_CREATE O_TRUNC)) 7) with false.
      change (Z.testbit (Z.lor O_WRONLY (Z.lor O_CREATE O_TRUNC)) 9) with true.
      cbv iota beta. unfold file_Write. rewrite no_fault. unfold file_Close.
      cbn [fst snd set_fs emit fs log]. unfold append_data.
      rewrite lookup_insert_eq. apply lookup_insert_eq.
    + right. split; [discriminate |]. exists 420.
      change (Z.testbit (Z.lor O_WRONLY (Z.lor O_CREATE O_TRUNC)) 6) with true.
      cbv iota beta. unfold file_Write. rewrite no_fault. unfold file_Close.
      cbn [fst snd set_fs emit fs log]. unfold append_data.
      rewrite lookup_insert_eq. apply lookup_insert_eq.
  - unfold os_WriteFile.
    pose proof (os_OpenFile_extends env fetches_nothing path
                  (Z.lor O_WRONLY (Z.lor O_CREATE O_TRUNC)) 420 w I) as H1.
    destruct (os_OpenFile env path _ 420 w) as [w1 [e|]]; cbn [fst] in H1; [exact H1 |].
    pose proof (file_Write_extends env fetches_nothing path text w1 I) as H2.
    destruct (file_Write env path text w1) as [w2 [n err]]. cbn [fst] in H2.
    unfold file_Close. cbn [fst].
    eapply extends_trans; [exact H1 |]. eapply extends_trans; [exact H2 |].
    now apply extends_emit.
Qed.

End SavedRecord.

Section FreeLock.

Variable env : Env.
Variable syscall_Flock : list Event -> string -> Z -> option error.
Hypothesis no_fault : fault_free env.
Hypothesis lock_free : forall log path how, syscall_Flock log path how = None.

(** With a lock file in place and nobody holding the lock, [WithLock]
    opens the file, runs the function and closes the file. *)
Lemma WithLock_free (lockPath : string) (fn : World -> World * option error) (w : World) :
  (exists data mode, fs w !! lockPath = Some (File data mode)) ->
  WithLock env syscall_Flock lockPath fn w
  = (emit (EvFs (OpClose lockPath))
       (fst (fn (emit (EvFs (OpOpenFile lockPath (Z.lor O_CREATE O_RDWR) 420)) w))),
     snd (fn (emit (EvFs (OpOpenFile lockPath (Z.lor O_CREATE O_RDWR) 420)) w))).
Proof.
  intros (data & mode & Hfile).
  unfold WithLock, FileLock_Lock, NewFileLock, os_OpenFile. cbn [fl_path].
  rewrite no_fault, Hfile.
  change (Z.testbit (Z.lor O_CREATE O_RDWR) 7) with false.
  change (Z.testbit (Z.lor O_CREATE O_RDWR) 9) with false.
  cbv iota beta. cbn [Lock_tries Z.to_nat Pos.to_nat Pos.iter_op Nat.add].
  change (Lock_tries env syscall_Flock 60) with (Lock_tries env syscall_Flock (S 59)).
  cbn [Lock_tries]. rewrite lock_free.
  destruct (fn _) as [w2 err]. unfold FileLock_Unlock. cbn [fl_file fst snd].
  rewrite lock_free. reflexivity.
Qed.

End FreeLock.

Section RemoteDone.

Variable env : Env.
Variable url_Parse : string -> option url_URL.
Variable json_Unmarshal : string -> option Meta.
Variable json_MarshalIndent : Meta -> string + error.
Variable time_Now : list Event -> Z.
Variable syscall_Flock : list Event -> string -> Z -> option error.
Variable zip_decode : string -> option (list zip_File).
Variable targz_decode : string -> option (list tar_Item).
Variable strings_ToLower : string -> string.

Local Abbreviation resolve_remote :=
  (handleRemoteURL env url_Parse json_Unmarshal json_MarshalIndent time_Now syscall_Flock
     zip_decode targz_decode strings_ToLower).
Local Abbreviation probe opts url w :=
  (HTTP_GetETag env url_Parse (configured_client opts) url (Headers opts) w).
Local Abbreviation token_of opts url w :=
  (match snd (snd (probe opts url w)) with
   | Some _ => ""
   | None => fst (snd (probe opts url w))
   end).

(** What the body under the lock leaves when it succeeds: something at
    the cache path, and the lock file as it was. *)
Lemma under_lock_done (c : schemes_HTTPClient) (url etag key : string) (opts : Options)
    (w : World) :
  ResourceToFilename url_Parse url etag = Some key ->
  snd (WithLock env syscall_Flock (LockFilePath (filepath_Join [CacheDir opts; key]))
         (handleRemoteURL_locked env json_Unmarshal (HTTPClient_SchemeClient env url_Parse c)
            url (filepath_Join [CacheDir opts; key]) etag opts) w) = None ->
  is_Some (fs (fst (WithLock env syscall_Flock
                      (LockFilePath (filepath_Join [CacheDir opts; key]))
                      (handleRemoteURL_locked env json_Unmarshal
                         (HTTPClient_SchemeClient env url_Parse c)
                         url (filepath_Join [CacheDir opts; key]) etag opts) w))
             !! filepath_Join [CacheDir opts; key])
  /\ exists data mode,
       fs (fst (WithLock env syscall_Flock
                  (LockFilePath (filepath_Join [CacheDir opts; key]))
                  (handleRemoteURL_locked env json_Unmarshal
                     (HTTPClient_SchemeClient env url_Parse c)
                     url (filepath_Join [CacheDir opts; key]) etag opts) w))
         !! LockFilePath (filepath_Join [CacheDir opts; key])
       = Some (File data mode).
Proof.
  intros Hkey.
  set (cachePath := filepath_Join [CacheDir opts; key]).
  destruct (cache_files_apart url_Parse url etag key (CacheDir opts) Hkey)
    as (Hlc & _ & _ & Hnotemp). fold cachePath in Hlc, Hnotemp.
  pose proof (cache_path_is_no_temp url_Parse url etag key (CacheDir opts) Hkey) as Hdest.
  fold cachePath in Hdest.
  unfold WithLock.
  destruct (FileLock_Lock_file env syscall_Flock (LockFilePath cachePath) w) as [Hfile _].
  destruct (FileLock_Lock env syscall_Flock (NewFileLock (LockFilePath cachePath)) w)
    as [w2 [lock [e|]]]; [discriminate |].
  cbn [fst snd] in Hfile. destruct (Hfile eq_refl) as (data & mode & Hlock).
  destruct (handleRemoteURL_locked_cases env json_Unmarshal
              (HTTPClient_SchemeClient env url_Parse c) url cachePath etag opts w2)
    as [[Hfresh Hrun] | (_ & wp & evs & Hfs & _ & _ & _ & _ & Hrun)]; rewrite Hrun.
  - cbn [fst snd]. intros _.
    rewrite (proj1 (FileLock_Unlock_files env syscall_Flock lock _)). cbn [fs].
    split; [exact (proj1 (proj2 Hfresh)) | now exists data, mode].
  - pose proof (downloadFile_cache_path env url_Parse c url cachePath opts Hdest wp)
      as [_ Hdone].
    pose proof (downloadFile_other env url_Parse c url cachePath opts wp
                  (LockFilePath cachePath) Hlc Hnotemp) as Hother.
    destruct (downloadFile env (HTTPClient_SchemeClient env url_Parse c) url cachePath opts wp)
      as [w3 err].
    cbn [fst snd] in *. intros ->.
    rewrite (proj1 (FileLock_Unlock_files env syscall_Flock lock w3)).
    destruct (Hdone eq_refl) as (w1 & r & _ & _ & _ & Hbody & _).
    split; [rewrite Hbody; now eexists |].
    exists data, mode. now rewrite Hother, Hfs.
Qed.

(** A resolution without extraction that returns no error: the result is
    the cache path, and the world is the one in which the metadata record
    was saved, or could not be saved, after the body under the lock. *)
Lemma handleRemoteURL_done (registry : gmap string client_value) (c : schemes_HTTPClient)
    (url : string) (opts : Options) (w : World) :
  registry !! "http" = Some (HTTPClient_value c) ->
  GetScheme url_Parse url = "http" \/ GetScheme url_Parse url = "https" ->
  Options_ExtractArchive opts = false ->
  snd (snd (snd (resolve_remote registry url "" false opts w))) = None ->
  exists key w2,
    ResourceToFilename url_Parse url (token_of opts url w) = Some key
    /\ panicked (snd (snd (probe opts url w))) = false
    /\ snd (resolve_remote registry url "" false opts w)
       = (fst (Meta_SaveToFile env json_MarshalIndent
                 (NewMeta time_Now url (filepath_Join [CacheDir opts; key])
                    (token_of opts url w) w2)
                 (MetaFilePath (filepath_Join [CacheDir opts; key])) w2),
          (filepath_Join [CacheDir opts; key], None))
    /\ is_Some (fs w2 !! filepath_Join [CacheDir opts; key])
    /\ exists data mode,
         fs w2 !! LockFilePath (filepath_Join [CacheDir opts; key]) = Some (File data mode).
Proof.
  intros Hreg Hscheme Hplain.
  destruct (handleRemoteURL_http_cases env url_Parse json_Unmarshal json_MarshalIndent
              time_Now syscall_Flock zip_decode targz_decode strings_ToLower
              registry c url "" false opts w Hreg Hscheme) as (_ & Hpanic & Hrest).
  destruct (panicked (snd (snd (probe opts url w)))) eqn:E.
  { rewrite (Hpanic eq_refl). cbn [snd]. intros H. now apply panicked_Some in E. }
  destruct (Hrest eq_refl) as (key & Hkey & Hfail & Hdone). intros Hok.
  destruct (snd (WithLock env syscall_Flock (LockFilePath (filepath_Join [CacheDir opts; key]))
                   (handleRemoteURL_locked env json_Unmarshal
                      (HTTPClient_SchemeClient env url_Parse (configured_client opts))
                      url (filepath_Join [CacheDir opts; key]) (token_of opts url w) opts)
                   (fst (probe opts url w)))) as [e|] eqn:Hlock.
  { rewrite (Hfail e eq_refl) in Hok. discriminate. }
  destruct (under_lock_done (configured_client opts) url (token_of opts url w) key opts
              (fst (probe opts url w)) Hkey Hlock) as [Hthere Hlockfile].
  eexists key, _. split; [exact Hkey |]. split; [reflexivity |].
  split; [apply Hdone; [reflexivity | reflexivity | now rewrite Hplain] |].
  split; [exact Hthere | exact Hlockfile].
Qed.

End RemoteDone.

Lemma Meta_SaveToFile_other (env : Env) (json_MarshalIndent : Meta -> string + error)
    (m : Meta) (path : string) (w : World) (q : string) :
  q <> path -> fs (fst (Meta_SaveToFile env json_MarshalIndent m path w)) !! q = fs w !! q.
Proof.
  intros Hq. unfold Meta_SaveToFile.
  destruct (json_MarshalIndent m) as [text | e]; [| reflexivity].
  now apply os_WriteFile_other.
Qed.

Section UrlResolution.

Variable env : Env.
Variable url_Parse : string -> option url_URL.
Variable json_Unmarshal : string -> option Meta.
Variable json_MarshalIndent : Meta -> string + error.
Variable time_Now : list Event -> Z.
Variable syscall_Flock : list Event -> string -> Z -> option error.
Variable zip_decode : string -> option (list zip_File).
Variable targz_decode : string -> option (list tar_Item).
Variable strings_ToLower : string -> string.
Variable os_Getenv : string -> string.
Variable os_UserHomeDir : string + error.

Variable registry : gmap string client_value.
Variable c : schemes_HTTPClient.
Variable url : string.
Variable opts : list Option_.
Variable w : World.

Local Abbreviation options :=
  (fold_left (fun o opt => opt o) opts (defaultOptions os_Getenv os_UserHomeDir)).
Local Abbreviation resolved :=
  (CachedPath env url_Parse json_Unmarshal json_MarshalIndent time_Now syscall_Flock
     zip_decode targz_decode strings_ToLower os_Getenv os_UserHomeDir
     registry url opts w).
Local Abbreviation probed :=
  (HTTP_GetETag env url_Parse (configured_client options) url (Headers options)
     (fst (EnsureDir env (CacheDir options) w))).

(** X16.  Take an [http] or [https] URL without the marker [!], the HTTP
    client in the registry, and options that do not ask for extraction.
    When [CachedPath] returns no error, the cache directory could be made
    and the path returned is the cache directory joined with the cache
    key of the URL and the revision token that the [HEAD] probe returned,
    or of the URL alone when the probe failed: a failed probe does not
    fail the resolution.  Something is at that path when the call
    returns, and the lock file next to it is left in place. *)
Theorem CachedPath_of_a_url :
  marker_free url = true ->
  IsURL url_Parse url = true ->
  GetScheme url_Parse url = "http" \/ GetScheme url_Parse url = "https" ->
  registry !! "http" = Some (HTTPClient_value c) ->
  Options_ExtractArchive options = false ->
  snd (snd (snd resolved)) = None ->
  exists key,
    snd (EnsureDir env (CacheDir options) w) = None
    /\ ResourceToFilename url_Parse url
         (match snd (snd probed) with Some _ => "" | None => fst (snd probed) end) = Some key
    /\ fst (snd (snd resolved)) = filepath_Join [CacheDir options; key]
    /\ is_Some (fs (fst (snd resolved)) !! filepath_Join [CacheDir options; key])
    /\ is_Some (fs (fst (snd resolved)) !! LockFilePath (filepath_Join [CacheDir options; key])).
Proof.
  intros Hmarker Hurl Hscheme Hreg Hplain. unfold CachedPath.
  destruct (EnsureDir env (CacheDir options) w) as [w1 [e|]]; [discriminate |].
  rewrite (ParseArchivePath_no_marker url Hmarker), Hurl. cbn [negb fst snd].
  intros Hok.
  destruct (handleRemoteURL_done env url_Parse json_Unmarshal json_MarshalIndent time_Now
              syscall_Flock zip_decode targz_decode strings_ToLower registry c url options w1
              Hreg Hscheme Hplain Hok)
    as (key & w2 & Hkey & _ & Hrun & Hthere & (data & mode & Hlock)).
  destruct (cache_files_apart url_Parse url _ key (CacheDir options) Hkey)
    as (Hlc & Hmc & Hlm & _).
  exists key. split; [reflexivity |]. split; [exact Hkey |].
  rewrite Hrun. cbn [fst snd]. split; [reflexivity |].
  rewrite !Meta_SaveToFile_other by congruence.
  split; [exact Hthere | rewrite Hlock; now eexists].
Qed.

End UrlResolution.

(** The address [http://h/a] on a server that hands out the revision
    token [v1]. *)
Lemma CachedPath_of_a_url_witness :
  (marker_free "http://h/a" = true
   /\ IsURL url_Parse_plain "http://h/a" = true
   /\ GetScheme url_Parse_plain "http://h/a" = "http"
   /\ snd (snd (snd (CachedPath tagged_server url_Parse_plain token_record token_text
                       still_clock free_lock two_files linked_files lower_ascii no_env
                       home_dir schemes_init "http://h/a" [WithCacheDir "/cache"]
                       empty_world))) = None)
  /\ exists key,
       ResourceToFilename url_Parse_plain "http://h/a" "v1" = Some key
       /\ fst (snd (snd (CachedPath tagged_server url_Parse_plain token_record token_text
                           still_clock free_lock two_files linked_files lower_ascii no_env
                           home_dir schemes_init "http://h/a" [WithCacheDir "/cache"]
                           empty_world)))
          = filepath_Join ["/cache"; key]
       /\ is_Some (fs (fst (snd (CachedPath tagged_server url_Parse_plain token_record
                                   token_text still_clock free_lock two_files linked_files
                                   lower_ascii no_env home_dir schemes_init "http://h/a"
                                   [WithCacheDir "/cache"] empty_world)))
                     !! filepath_Join ["/cache"; key]).
Proof.
  assert (H1 : marker_free "http://h/a" = true) by reflexivity.
  assert (H2 : IsURL url_Parse_plain "http://h/a" = true) by (vm_compute; reflexivity).
  assert (H3 : GetScheme url_Parse_plain "http://h/a" = "http") by (vm_compute; reflexivity).
  assert (H4 : snd (snd (snd (CachedPath tagged_server url_Parse_plain token_record token_text
                       still_clock free_lock two_files linked_files lower_ascii no_env
                       home_dir schemes_init "http://h/a" [WithCacheDir "/cache"]
                       empty_world))) = None) by (vm_compute; reflexivity).
  split; [repeat split; assumption |].
  destruct (CachedPath_of_a_url tagged_server url_Parse_plain token_record token_text
              still_clock free_lock two_files linked_files lower_ascii no_env home_dir
              schemes_init NewHTTPClient "http://h/a" [WithCacheDir "/cache"] empty_world
              H1 H2 (or_introl H3) eq_refl eq_refl H4)
    as (key & _ & Hkey & Hpath & Hthere & _).
  exists key. split; [exact Hkey |]. split; [exact Hpath | exact Hthere].
Defined.

Section SecondResolution.

Variable env : Env.
Variable url_Parse : string -> option url_URL.
Variable json_Unmarshal : string -> option Meta.
Variable json_MarshalIndent : Meta -> string + error.
Variable time_Now : list Event -> Z.
Variable syscall_Flock : list Event -> string -> Z -> option error.
Variable zip_decode : string -> option (list zip_File).
Variable targz_decode : string -> option (list tar_Item).
Variable strings_ToLower : string -> string.

Variables registry registry' : gmap string client_value.
Variables c c' : schemes_HTTPClient.
Variable url : string.
Variable opts : Options.
Variables w w' : World.

Local Abbreviation first :=
  (handleRemoteURL env url_Parse json_Unmarshal json_MarshalIndent time_Now syscall_Flock
     zip_decode targz_decode strings_ToLower registry url "" false opts w).
Local Abbreviation second :=
  (handleRemoteURL env url_Parse json_Unmarshal json_MarshalIndent time_Now syscall_Flock
     zip_decode targz_decode strings_ToLower registry' url "" false opts w').

(** X17.  Take a resolution of an [http] or [https] URL, without
    extraction, that returned a path, and suppose that no directory is in
    the way of its metadata file.  Resolve the same URL with the same
    options again, from the files as the first resolution left them and
    whatever has been logged since, while the [HEAD] probe answers as it
    did before (the same revision token, or the same failure).  If the
    operating system has no failure of its own, nobody else holds the
    lock, and decoding the text of a metadata record gives back its
    revision token, then the second resolution returns the same path
    without error and fetches nothing: it calls neither [GetSize] nor
    [GetResource] and sends no request other than [HEAD].  The only file
    that it changes is the metadata file, which it writes again. *)
Theorem second_resolution_fetches_nothing :
  fault_free env ->
  (forall log path how, syscall_Flock log path how = None) ->
  (forall m, exists text m',
      json_MarshalIndent m = inl text /\ json_Unmarshal text = Some m' /\ ETag m' = ETag m) ->
  registry !! "http" = Some (HTTPClient_value c) ->
  registry' !! "http" = Some (HTTPClient_value c') ->
  GetScheme url_Parse url = "http" \/ GetScheme url_Parse url = "https" ->
  Options_ExtractArchive opts = false ->
  snd (snd (snd first)) = None ->
  fs (fst (snd first)) !! MetaFilePath (fst (snd (snd first))) <> Some Dir ->
  fs w' = fs (fst (snd first)) ->
  snd (HTTP_GetETag env url_Parse (configured_client opts) url (Headers opts) w')
  = snd (HTTP_GetETag env url_Parse (configured_client opts) url (Headers opts) w) ->
  snd (snd second) = (fst (snd (snd first)), None)
  /\ client_calls (new_events w' (fst (snd second))) = []
  /\ Forall (fun req => Method req = "HEAD") (requests (new_events w' (fst (snd second))))
  /\ (forall q,
        q <> MetaFilePath (fst (snd (snd first))) ->
        fs (fst (snd second)) !! q = fs w' !! q).
Proof.
  intros Hcalm Hfree Hjson Hreg Hreg' Hscheme Hplain Hok Hnodir Hfiles Hprobe.
  destruct (handleRemoteURL_done env url_Parse json_Unmarshal json_MarshalIndent time_Now
              syscall_Flock zip_decode targz_decode strings_ToLower registry c url opts w
              Hreg Hscheme Hplain Hok)
    as (key & w2 & Hkey & Hpanic & Hrun & Hthere & (data & mode & Hlock)).
  set (token := match snd (snd (HTTP_GetETag env url_Parse (configured_client opts) url
                                  (Headers opts) w)) with
                | Some _ => ""
                | None => fst (snd (HTTP_GetETag env url_Parse (configured_client opts) url
                                      (Headers opts) w))
                end) in *.
  set (cachePath := filepath_Join [CacheDir opts; key]) in *.
  destruct (cache_files_apart url_Parse url token key (CacheDir opts) Hkey)
    as (Hlc & Hmc & Hlm & _). fold cachePath in Hlc, Hmc, Hlm.
  rewrite Hrun in Hnodir, Hfiles |- *. cbn [fst snd] in Hnodir, Hfiles |- *.
  (* the metadata record of the first resolution is on disk *)
  destruct (Hjson (NewMeta time_Now url cachePath token w2)) as (text & m' & Htext & Hdec & Htok).
  destruct (Meta_SaveToFile_cases env json_MarshalIndent Hcalm
              (NewMeta time_Now url cachePath token w2) (MetaFilePath cachePath) text w2 Htext)
    as ([[Hdir Hsame] | [_ (mode1 & Hsaved)]] & Hothers & _).
  { exfalso. apply Hnodir. now rewrite Hsame. }
  assert (Hcache' : is_Some (fs w' !! cachePath))
    by (rewrite Hfiles, Hothers by congruence; exact Hthere).
  assert (Hlock' : fs w' !! LockFilePath cachePath = Some (File data mode))
    by (rewrite Hfiles, Hothers by congruence; exact Hlock).
  assert (Hmeta' : fs w' !! MetaFilePath cachePath = Some (File text mode1))
    by (rewrite Hfiles; exact Hsaved).
  (* the second resolution *)
  destruct (handleRemoteURL_http_cases env url_Parse json_Unmarshal json_MarshalIndent
              time_Now syscall_Flock zip_decode targz_decode strings_ToLower
              registry' c' url "" false opts w' Hreg' Hscheme) as (_ & _ & Hrest).
  destruct (HTTP_GetETag_quiet env url_Parse (configured_client opts) url (Headers opts) w')
    as [Hfs1 Hev1].
  destruct (HTTP_GetETag env url_Parse (configured_client opts) url (Headers opts) w')
    as [w1 answer] eqn:Hanswer.
  cbn [fst snd] in Hprobe, Hrest, Hfs1, Hev1. subst answer.
  fold token in Hrest.
  destruct (Hrest Hpanic) as (key' & Hkey' & _ & Hdone). clear Hrest.
  assert (key' = key) by congruence. subst key'. fold cachePath in Hdone.
  set (body := handleRemoteURL_locked env json_Unmarshal
                 (HTTPClient_SchemeClient env url_Parse (configured_client opts))
                 url cachePath token opts) in *.
  set (opened := emit (EvFs (OpOpenFile (LockFilePath cachePath) (Z.lor O_CREATE O_RDWR) 420))
                   w1).
  assert (Hwith : WithLock env syscall_Flock (LockFilePath cachePath) body w1
                  = (emit (EvFs (OpClose (LockFilePath cachePath))) (fst (body opened)),
                     snd (body opened))).
  { apply (WithLock_free env syscall_Flock Hcalm Hfree).
    exists data, mode. now rewrite Hfs1. }
  assert (Hfresh : cache_is_fresh env json_Unmarshal cachePath token opened).
  { unfold cache_is_fresh. rewrite !Hcalm. unfold opened. cbn [emit fs]. rewrite Hfs1.
    split; [reflexivity |]. split; [exact Hcache' |].
    split; [reflexivity |]. split; [reflexivity |].
    exists text, mode1, m'. split; [exact Hmeta' |]. split; [exact Hdec | exact Htok]. }
  destruct (handleRemoteURL_locked_cases env json_Unmarshal
              (HTTPClient_SchemeClient env url_Parse (configured_client opts))
              url cachePath token opts opened)
    as [[_ Hbody] | [Hstale _]]; [| contradiction].
  fold body in Hbody. rewrite Hbody in Hwith. cbn [fst snd] in Hwith.
  rewrite Hwith in Hdone. cbn [fst snd] in Hdone.
  rewrite (Hdone eq_refl eq_refl) by now rewrite Hplain.
  cbn [fst snd].
  set (w3 := emit (EvFs (OpClose (LockFilePath cachePath)))
               {| fs := fs opened; log := log opened ++ probe_events cachePath;
                  past := past opened |}).
  destruct (Hjson (NewMeta time_Now url cachePath token w3)) as (text2 & _ & Htext2 & _).
  destruct (Meta_SaveToFile_cases env json_MarshalIndent Hcalm
              (NewMeta time_Now url cachePath token w3) (MetaFilePath cachePath) text2 w3 Htext2)
    as (_ & Hothers2 & Hev2).
  assert (Hevents : extends_with fetches_nothing w'
                      (fst (Meta_SaveToFile env json_MarshalIndent
                              (NewMeta time_Now url cachePath token w3)
                              (MetaFilePath cachePath) w3))).
  { eapply extends_trans; [exact Hev1 |]. eapply extends_trans; [| exact Hev2].
    exists (EvFs (OpOpenFile (LockFilePath cachePath) (Z.lor O_CREATE O_RDWR) 420)
              :: probe_events cachePath ++ [EvFs (OpClose (LockFilePath cachePath))]).
    split.
    - unfold w3, opened. cbn [emit log]. now rewrite <- !app_assoc.
    - constructor; [exact I |]. apply Forall_app. split; repeat constructor. }
  destruct (fetches_nothing_lists _ (new_events_extends _ _ _ Hevents)) as [Hcalls Hheads].
  split; [reflexivity |]. split; [exact Hcalls |]. split; [exact Hheads |].
  intros q Hq. rewrite (Hothers2 q Hq). unfold w3, opened. cbn [emit fs]. now rewrite Hfs1.
Qed.

End SecondResolution.

(** The address [http://h/a] resolved twice. *)
Lemma second_resolution_fetches_nothing_witness :
  (snd (snd (snd first_visit)) = None
   /\ fs (fst (snd first_visit)) !! MetaFilePath (fst (snd (snd first_visit))) <> Some Dir
   /\ snd (HTTP_GetETag tagged_server url_Parse_plain (configured_client default_options)
             "http://h/a" (Headers default_options) (fst (snd first_visit)))
      = snd (HTTP_GetETag tagged_server url_Parse_plain (configured_client default_options)
               "http://h/a" (Headers default_options) cache_dir_world))
  /\ snd (snd (handleRemoteURL tagged_server url_Parse_plain token_record token_text
                 still_clock free_lock two_files linked_files lower_ascii
                 (fst first_visit) "http://h/a" "" false default_options
                 (fst (snd first_visit))))
     = (fst (snd (snd first_visit)), None)
  /\ client_calls
       (new_events (fst (snd first_visit))
          (fst (snd (handleRemoteURL tagged_server url_Parse_plain token_record token_text
                       still_clock free_lock two_files linked_files lower_ascii
                       (fst first_visit) "http://h/a" "" false default_options
                       (fst (snd first_visit)))))) = [].
Proof.
  assert (H1 : snd (snd (snd first_visit)) = None) by (vm_compute; reflexivity).
  assert (H2 : fs (fst (snd first_visit)) !! MetaFilePath (fst (snd (snd first_visit)))
               <> Some Dir) by (vm_compute; discriminate).
  assert (H3 : snd (HTTP_GetETag tagged_server url_Parse_plain
                      (configured_client default_options)
                      "http://h/a" (Headers default_options) (fst (snd first_visit)))
               = snd (HTTP_GetETag tagged_server url_Parse_plain
                        (configured_client default_options)
                        "http://h/a" (Headers default_options) cache_dir_world))
    by (vm_compute; reflexivity).
  assert (Hjson : forall m, exists text m',
             token_text m = inl text /\ token_record text = Some m' /\ ETag m' = ETag m).
  { intros m. eexists _, _. split; [reflexivity |]. split; reflexivity. }
  assert (Hreg : fst first_visit !! "http"
                 = Some (HTTPClient_value (configured_client default_options)))
    by (vm_compute; reflexivity).
  split; [split; [exact H1 | split; [exact H2 | exact H3]] |].
  destruct (second_resolution_fetches_nothing tagged_server url_Parse_plain token_record
              token_text still_clock free_lock two_files linked_files lower_ascii
              schemes_init (fst first_visit) NewHTTPClient (configured_client default_options)
              "http://h/a" default_options cache_dir_world (fst (snd first_visit))
              (fun _ _ => eq_refl) (fun _ _ _ => eq_refl) Hjson eq_refl Hreg
              (or_introl eq_refl) eq_refl H1 H2 eq_refl H3)
    as (Hsame & Hcalls & _ & _).
  split; [exact Hsame | exact Hcalls].
Defined.

(** ** Extraction leaves its directory *)

Lemma keeps_trans (w1 w2 w3 : World) :
  keeps_entries w1 w2 -> keeps_entries w2 w3 -> keeps_entries w1 w3.
Proof. intros H1 H2 q H. apply H2, H1, H. Qed.

Lemma keeps_same (w w' : World) : fs w' = fs w -> keeps_entries w w'.
Proof. intros E q H. now rewrite E. Qed.

Lemma keeps_insert (w w' : World) (p : string) (n : Node) :
  fs w' = <[p := n]> (fs w) -> keeps_entries w w'.
Proof.
  intros E q H. rewrite E. destruct (decide (p = q)) as [-> | Hne].
  - rewrite lookup_insert_eq. now eexists.
  - now rewrite lookup_insert_ne.
Qed.

Lemma ancestors_head (fuel : nat) (path : string) :
  exists rest, ancestors fuel path = path :: rest.
Proof.
  destruct fuel as [|fuel]; simpl; [now exists [] |].
  destruct (decide (filepath_Dir path = path)); now eexists.
Qed.

Section KeepsEntries.

Variable env : Env.
Variable zip_decode : string -> option (list zip_File).
Variable targz_decode : string -> option (list tar_Item).
Variable strings_ToLower : string -> string.

Lemma os_MkdirAll_keeps (path : string) (perm : Z) (w : World) :
  keeps_entries w (fst (os_MkdirAll env path perm w)).
Proof.
  unfold os_MkdirAll.
  destruct (os_fault env (log w) (OpMkdirAll path perm)); [now apply keeps_same |].
  destruct (forallb _ _); [| now apply keeps_same].
  intros q H. cbn [fst set_fs fs emit]. rewrite mkdirs_lookup.
  destruct (bool_decide _); [now eexists | exact H].
Qed.

Lemma os_MkdirAll_made (path : string) (perm : Z) (w : World) :
  snd (os_MkdirAll env path perm w) = None ->
  fs (fst (os_MkdirAll env path perm w)) !! path = Some Dir.
Proof.
  unfold os_MkdirAll.
  destruct (os_fault env (log w) (OpMkdirAll path perm)); [discriminate |].
  destruct (forallb _ _); [| discriminate].
  intros _. cbn [fst set_fs fs emit]. rewrite mkdirs_lookup.
  destruct (ancestors_head (String.length path) path) as [rest ->].
  rewrite bool_decide_eq_true_2; [reflexivity | constructor].
Qed.

Lemma os_OpenFile_keeps (path : string) (flag perm : Z) (w : World) :
  keeps_entries w (fst (os_OpenFile env path flag perm w)).
Proof.
  unfold os_OpenFile.
  destruct (os_fault env (log w) (OpOpenFile path flag perm)); [now apply keeps_same |].
  destruct (fs w !! path) as [[|data old]|].
  - destruct (Z.testbit flag 7); now apply keeps_same.
  - destruct (Z.testbit flag 7); [now apply keeps_same |].
    destruct (Z.testbit flag 9); [| now apply keeps_same].
    now apply (keeps_insert w _ path (File "" old)).
  - destruct (Z.testbit flag 6); [| now apply keeps_same].
    now apply (keeps_insert w _ path (File "" perm)).
Qed.

Lemma file_Write_keeps (path data : string) (w : World) :
  keeps_entries w (fst (file_Write env path data w)).
Proof.
  assert (H : forall part w', fs w' = append_data path part (fs w) -> keeps_entries w w').
  { intros part w' E. unfold append_data in E.
    destruct (fs w !! path) as [[|old perm]|]; [now apply keeps_same | | now apply keeps_same].
    now apply (keeps_insert w w' path (File (old +:+ part) perm)). }
  unfold file_Write.
  destruct (os_fault env (log w) (OpWrite path data)); cbn [fst]; eapply H; reflexivity.
Qed.

Lemma copy_to_file_keeps (path : string) (data : list string) (readErr : option error) :
  forall w, keeps_entries w (fst (copy_to_file env path data readErr w)).
Proof.
  unfold copy_to_file. simpl.
  induction data as [|chunk rest IH]; intros w; simpl; [now apply keeps_same |].
  destruct (decide (chunk = "")) as [_ | _]; [apply IH |].
  pose proof (file_Write_keeps path chunk w) as Hw.
  destruct (file_Write env path chunk w) as [w1 [k err]]. simpl in Hw |- *.
  destruct err as [e|]; [exact Hw |].
  destruct (decide (k = Z.of_nat (String.length chunk))) as [_ | _]; [| exact Hw].
  eapply keeps_trans; [exact Hw | apply IH].
Qed.

Lemma extractZipFile_keeps_entries (f : zip_File) (destDir : string) (w : World) :
  keeps_entries w (fst (extractZipFile env f destDir w)).
Proof.
  unfold extractZipFile.
  set (filePath := filepath_Join [destDir; zf_Name f]).
  destruct (negb (within_dest destDir filePath)); [now apply keeps_same |].
  destruct (zf_IsDir f); [apply os_MkdirAll_keeps |].
  pose proof (os_MkdirAll_keeps (filepath_Dir filePath) ModePerm w) as H1.
  destruct (os_MkdirAll env (filepath_Dir filePath) ModePerm w) as [w1 [e|]]; [exact H1 |].
  cbn [fst] in H1.
  pose proof (os_OpenFile_keeps filePath (Z.lor O_WRONLY (Z.lor O_CREATE O_TRUNC))
                (zf_Mode f) w1) as H2.
  destruct (os_OpenFile env filePath _ (zf_Mode f) w1) as [w2 [e|]]; cbn [fst] in H2;
    [exact (keeps_trans _ _ _ H1 H2) |].
  destruct (zf_OpenErr f) as [e|]; [exact (keeps_trans _ _ _ H1 H2) |].
  pose proof (copy_to_file_keeps filePath (zf_Data f) (zf_ReadErr f) w2) as H3.
  destruct (copy_to_file env filePath (zf_Data f) (zf_ReadErr f) w2) as [w3 err].
  exact (keeps_trans _ _ _ H1 (keeps_trans _ _ _ H2 H3)).
Qed.

Lemma extractZip_files_keeps_entries (files : list zip_File) (destDir : string) :
  forall w, keeps_entries w (fst (extractZip_files env files destDir w)).
Proof.
  induction files as [|f rest IH]; intros w; simpl; [now apply keeps_same |].
  pose proof (extractZipFile_keeps_entries f destDir w) as H1.
  destruct (extractZipFile env f destDir w) as [w1 [e|]]; [exact H1 |].
  exact (keeps_trans _ _ _ H1 (IH w1)).
Qed.

Lemma extractTarGz_items_keeps_entries (items : list tar_Item) (destDir : string) :
  forall w, keeps_entries w (fst (extractTarGz_items env items destDir w)).
Proof.
  induction items as [|[h data readErr | e] rest IH]; intros w; simpl;
    [now apply keeps_same | | now apply keeps_same].
  set (target := filepath_Join [destDir; th_Name h]).
  destruct (negb (within_dest destDir target)); [now apply keeps_same |].
  destruct (Ascii.eqb (th_Typeflag h) tar_TypeDir).
  { pose proof (os_MkdirAll_keeps target 493 w) as H1.
    destruct (os_MkdirAll env target 493 w) as [w1 [e|]]; [exact H1 |].
    exact (keeps_trans _ _ _ H1 (IH w1)). }
  destruct (Ascii.eqb (th_Typeflag h) tar_TypeReg); [| apply IH].
  pose proof (os_MkdirAll_keeps (filepath_Dir target) 493 w) as H1.
  destruct (os_MkdirAll env (filepath_Dir target) 493 w) as [w1 [e|]]; [exact H1 |].
  cbn [fst] in H1. unfold os_Create.
  pose proof (os_OpenFile_keeps target (Z.lor O_RDWR (Z.lor O_CREATE O_TRUNC)) 438 w1) as H2.
  destruct (os_OpenFile env target _ 438 w1) as [w2 [e|]]; cbn [fst] in H2;
    [exact (keeps_trans _ _ _ H1 H2) |].
  pose proof (copy_to_file_keeps target data readErr w2) as H3.
  destruct (copy_to_file env target data readErr w2) as [w3 err]. cbn [fst] in H3.
  assert (H4 : keeps_entries w (fst (file_Close env target w3)))
    by exact (keeps_trans _ _ _ H1 (keeps_trans _ _ _ H2 H3)).
  destruct err as [e|]; [exact H4 |].
  exact (keeps_trans _ _ _ H4 (IH _)).
Qed.

(** Once [ExtractArchive] has made its directory, the directory is there
    when it returns, whatever it returns. *)
Lemma ExtractArchive_leaves_dir (archivePath destDir : string) (w : World) :
  snd (EnsureDir env destDir w) = None ->
  is_Some (fs (fst (ExtractArchive env zip_decode targz_decode strings_ToLower
                      archivePath destDir w)) !! destDir).
Proof.
  unfold ExtractArchive, EnsureDir.
  pose proof (os_MkdirAll_made destDir 493 w) as Hmade.
  destruct (os_MkdirAll env destDir 493 w) as [w1 [e|]]; [discriminate |].
  cbn [fst snd] in Hmade. intros _.
  assert (Hdir : is_Some (fs w1 !! destDir)) by (rewrite Hmade; now eexists).
  assert (Hzip : keeps_entries w1 (fst (extractZip env zip_decode archivePath destDir w1))).
  { unfold extractZip, zip_OpenReader, os_ReadFile.
    destruct (os_fault env (log w1) (OpReadFile archivePath)); [now apply keeps_same |].
    destruct (fs w1 !! archivePath) as [[|data perm]|]; try now apply keeps_same.
    destruct (zip_decode data) as [files|]; [| now apply keeps_same].
    eapply keeps_trans; [| apply extractZip_files_keeps_entries]. now apply keeps_same. }
  assert (Htar : keeps_entries w1 (fst (extractTarGz env targz_decode archivePath destDir w1))).
  { unfold extractTarGz, targz_open, os_ReadFile.
    destruct (os_fault env (log w1) (OpReadFile archivePath)); [now apply keeps_same |].
    destruct (fs w1 !! archivePath) as [[|data perm]|]; try now apply keeps_same.
    destruct (targz_decode data) as [items|]; [| now apply keeps_same].
    eapply keeps_trans; [| apply extractTarGz_items_keeps_entries]. now apply keeps_same. }
  cbv zeta.
  destruct (decide (strings_ToLower (filepath_Ext archivePath) = ".zip"));
    [now apply Hzip |].
  destruct (decide (strings_ToLower (filepath_Ext archivePath) = ".gz"));
    [now apply Htar |].
  destruct (decide (strings_ToLower (filepath_Ext archivePath) = ".tgz"));
    [now apply Htar | exact Hdir].
Qed.

End KeepsEntries.

Section ExtractedOnce.

Variable env : Env.
Variable zip_decode : string -> option (list zip_File).
Variable targz_decode : string -> option (list tar_Item).
Variable strings_ToLower : string -> string.
Variable opts : Options.

Local Abbreviation extractDir path :=
  (filepath_Join [CacheDir opts; "extracted"; filepath_Base path]).
Local Abbreviation resolve_local path w :=
  (handleLocalPath env zip_decode targz_decode strings_ToLower path "" false opts w).

(** X18.  Take options that ask for extraction and a local archive that
    is there.  After [handleLocalPath], unless the extraction directory
    could not be made (which the error says), the extraction directory is
    there: also when the extraction failed half way and the call returned
    [ErrExtractionFailed].  And whenever that directory is there, a call
    without [ForceExtract] for an archive with the same base name, in any
    directory, returns the extraction directory without error after two
    calls of [os.Stat], without reading the archive or writing a file: a
    failed extraction is not tried again, and archives that share a base
    name share their extraction. *)
Theorem extraction_is_not_tried_again (path path' : string) (w w' : World) :
  Options_ExtractArchive opts = true ->
  IsArchive strings_ToLower path = true ->
  (snd (FileExists env path w) = true ->
   (exists e,
       snd (snd (resolve_local path w))
       = Some (fmt_Errorf "%w: %v"
                 [ArgError ErrExtractionFailed;
                  ArgError (fmt_Errorf "failed to create destination directory: %w"
                              [ArgError e])]))
   \/ is_Some (fs (fst (resolve_local path w)) !! extractDir path))
  /\ (ForceExtract opts = false ->
      IsArchive strings_ToLower path' = true ->
      filepath_Base path' = filepath_Base path ->
      snd (FileExists env path' w') = true ->
      os_fault env (log w' ++ [EvFs (OpStat path')]) (OpStat (extractDir path)) = None ->
      is_Some (fs w' !! extractDir path) ->
      resolve_local path' w'
      = ({| fs := fs w';
            log := log w' ++ [EvFs (OpStat path'); EvFs (OpStat (extractDir path))];
            past := past w' |},
         (extractDir path, None))).
Proof.
  intros Hextract Harchive. split.
  - intros Hthere. unfold handleLocalPath.
    pose proof (FileExists_files env path w) as [Hfs0 _].
    destruct (FileExists env path w) as [w1 found]. cbn [fst snd] in Hthere, Hfs0.
    subst found. cbn [negb]. rewrite Hextract, Harchive. cbn [andb].
    destruct (ForceExtract opts); cbn [negb].
    + pose proof (ExtractArchive_leaves_dir env zip_decode targz_decode strings_ToLower
                    path (extractDir path) w1) as Hleft.
      unfold ExtractArchive in *.
      destruct (EnsureDir env (extractDir path) w1) as [w2 [e|]].
      * left. now exists e.
      * right. specialize (Hleft eq_refl). cbv zeta in *.
        destruct (if decide (strings_ToLower (filepath_Ext path) = ".zip") then _ else _)
          as [w3 [e|]]; exact Hleft.
    + pose proof (proj1 (FileExists_true env (extractDir path) w1)) as Hstat.
      pose proof (FileExists_files env (extractDir path) w1) as [Hfs1 _].
      destruct (FileExists env (extractDir path) w1) as [w2 [|]]; cbn [fst snd] in *.
      * right. rewrite Hfs1. exact (proj2 (Hstat eq_refl)).
      * pose proof (ExtractArchive_leaves_dir env zip_decode targz_decode strings_ToLower
                      path (extractDir path) w2) as Hleft.
        unfold ExtractArchive in *.
        destruct (EnsureDir env (extractDir path) w2) as [w3 [e|]].
        -- left. now exists e.
        -- right. specialize (Hleft eq_refl). cbv zeta in *.
           destruct (if decide (strings_ToLower (filepath_Ext path) = ".zip") then _ else _)
             as [w4 [e|]]; exact Hleft.
  - intros Hforce Harchive' Hbase Hthere Hstat Hdir. unfold handleLocalPath.
    rewrite Hbase.
    apply FileExists_true in Hthere as [Hstat0 Hfile].
    unfold FileExists at 1. unfold os_Stat. rewrite Hstat0.
    destruct Hfile as [n ->]. cbn [negb].
    rewrite Hextract, Harchive', Hforce. cbn [andb negb].
    unfold FileExists, os_Stat. cbn [emit log fs]. rewrite Hstat.
    destruct Hdir as [d ->]. unfold emit. cbn [fs log past].
    now rewrite <- app_assoc.
Qed.

End ExtractedOnce.

(** An archive that does not decode: the first resolution fails, and the
    second one returns the directory that the first one left. *)
Lemma extraction_is_not_tried_again_witness :
  (Options_ExtractArchive extracting = true
   /\ IsArchive lower_ascii "/data/a.zip" = true
   /\ snd (FileExists calm "/data/a.zip" local_world) = true)
  /\ snd (snd (handleLocalPath calm no_zip linked_files lower_ascii "/data/a.zip" "" false
                 extracting local_world))
     = Some (fmt_Errorf "%w: %v"
               [ArgError ErrExtractionFailed;
                ArgError (fmt_Errorf "failed to open zip: %w"
                            [ArgError (errors_New "zip: not a valid zip file")])])
  /\ is_Some (fs (fst (handleLocalPath calm no_zip linked_files lower_ascii "/data/a.zip" ""
                         false extracting local_world))
                !! filepath_Join [CacheDir extracting; "extracted"; filepath_Base "/data/a.zip"])
  /\ snd (handleLocalPath calm no_zip linked_files lower_ascii "/data/a.zip" "" false
            extracting
            (fst (handleLocalPath calm no_zip linked_files lower_ascii "/data/a.zip" "" false
                    extracting local_world)))
     = ("/cache/extracted/a.zip", None).
Proof.
  assert (H1 : Options_ExtractArchive extracting = true) by reflexivity.
  assert (H2 : IsArchive lower_ascii "/data/a.zip" = true) by (vm_compute; reflexivity).
  assert (H3 : snd (FileExists calm "/data/a.zip" local_world) = true)
    by (vm_compute; reflexivity).
  split; [split; [exact H1 | split; [exact H2 | exact H3]] |].
  split; [vm_compute; reflexivity |].
  destruct (proj1 (extraction_is_not_tried_again calm no_zip linked_files lower_ascii
                     extracting "/data/a.zip" "/data/a.zip" local_world local_world H1 H2) H3)
    as [[e He] | Hdir].
  - exfalso. revert He. vm_compute. discriminate.
  - split; [exact Hdir |]. vm_compute. reflexivity.
Defined.

(** ** What the progress display is told *)

Lemma reports_refl (w w' : World) : log w' = log w -> reports w w' [].
Proof. intros E. exists []. split; [now rewrite app_nil_r | reflexivity]. Qed.

Lemma reports_trans (w1 w2 w3 : World) (p q : list Event) :
  reports w1 w2 p -> reports w2 w3 q -> reports w1 w3 (p ++ q).
Proof.
  intros (e1 & H1 & F1) (e2 & H2 & F2). exists (e1 ++ e2). split.
  - now rewrite H2, H1, app_assoc.
  - unfold progress_of in *. now rewrite List.filter_app, F1, F2.
Qed.

Lemma reports_emit (e : Event) (w : World) :
  reports w (emit e w) (if is_progress e then [e] else []).
Proof. exists [e]. split; [reflexivity |]. unfold progress_of. simpl. now destruct (is_progress e). Qed.

Lemma reports_quiet (w w' : World) :
  extends_with (fun e => is_progress e = false) w w' -> reports w w' [].
Proof.
  intros (evs & Hl & Hall). exists evs. split; [exact Hl |]. clear Hl.
  unfold progress_of. induction Hall as [|e evs He _ IH]; [reflexivity |].
  simpl. now rewrite He.
Qed.

Lemma reports_new_events (w w' : World) (ps : list Event) :
  reports w w' ps -> progress_of (new_events w w') = ps.
Proof. intros (evs & Hl & <-). now rewrite (new_events_app w w' evs Hl). Qed.

Lemma last_cons_default (x d : Z) (l : list Z) : List.last (x :: l) d = List.last l x.
Proof.
  revert x d. induction l as [|y l IH]; intros x d; [reflexivity |].
  change (List.last (x :: y :: l) d) with (List.last (y :: l) d). now rewrite !IH.
Qed.

Lemma retry_run_no_progress (env : Env) (c : schemes_HTTPClient) (req : http_Request)
    (attempt : Z) (before evs : list Event) (result : option http_Response * option error) :
  retry_run env c req attempt before evs result ->
  Forall (fun e => is_progress e = false) evs.
Proof.
  assert (Hb : forall a, Forall (fun e => is_progress e = false) (backoff c a)).
  { intros a. unfold backoff. destruct (0 <? a); repeat constructor. }
  induction 1 as [a b ans _ _ | a b ans _ _ _ | a b ans evs res _ _ _ _ IH].
  - apply Forall_app. split; [apply Hb | repeat constructor].
  - apply Forall_app. split; [apply Hb | repeat constructor].
  - apply Forall_app. split; [apply Hb |]. constructor; [reflexivity | exact IH].
Qed.

Section ProgressFacts.

Variable env : Env.
Variable url_Parse : string -> option url_URL.
Variable c : schemes_HTTPClient.

Lemma doRequestWithRetry_reports (req : http_Request) (w : World) :
  reports w (fst (doRequestWithRetry env c req w)) [].
Proof.
  destruct (Z_lt_le_dec (maxRetries c) 0) as [Hneg | Hpos].
  - rewrite (doRequestWithRetry_negative env c req w Hneg). now apply reports_refl.
  - destruct (doRequestWithRetry_run env c req w Hpos) as (evs & Hl & _ & _ & Hrun).
    apply reports_quiet. exists evs. split; [exact Hl |].
    exact (retry_run_no_progress env c req 0 (log w) evs _ Hrun).
Qed.

Lemma HTTP_GetSize_reports (url : string) (headers : option (gmap string string)) (w : World) :
  reports w (fst (HTTP_GetSize env url_Parse c url headers w)) [].
Proof.
  unfold HTTP_GetSize.
  destruct (http_NewRequest url_Parse "HEAD" url) as [req | e]; [| now apply reports_refl].
  pose proof (doRequestWithRetry_reports (apply_headers headers req) w) as H.
  destruct (doRequestWithRetry env c (apply_headers headers req) w) as [w' [resp err]].
  cbn [fst] in H.
  destruct err as [e|]; [exact H |]. destruct resp as [r|]; [| exact H].
  destruct (negb (StatusCode r =? StatusOK)); [exact H |].
  destruct (decide (Header_Get (resp_Header r) "Content-Length" = "")); [exact H |].
  destruct (strconv_ParseInt (Header_Get (resp_Header r) "Content-Length")); exact H.
Qed.

(** Copying through the [ProgressWriter]: the display is told the running
    total after every write that wrote something, and after a copy
    without error the last total is the count before plus the length of
    what was to be copied. *)
Lemma io_Copy_reports (path : string) (chunks : list string) (readErr : option error) :
  forall (written : Z) (w : World),
    exists totals,
      reports w (fst (io_Copy (w_write (ProgressWriter env path)) written chunks readErr w))
        (map EvProgressUpdate totals)
      /\ increasing written totals
      /\ (snd (io_Copy (w_write (ProgressWriter env path)) written chunks readErr w) = None ->
          List.last totals written = written + Z.of_nat (String.length (whole_body chunks))).
Proof.
  induction chunks as [|chunk rest IH]; intros written w; simpl.
  - exists []. split; [now apply reports_refl |]. split; [exact I |]. intros _. simpl. lia.
  - destruct (decide (chunk = "")) as [-> | Hne]; [apply IH |].
    unfold file_Write.
    set (w1 := emit (EvFs (OpWrite path chunk)) w).
    assert (Hw1 : forall m, reports w (set_fs m w1) []).
    { intros m. exists [EvFs (OpWrite path chunk)]. split; reflexivity. }
    assert (Hlen : String.length (chunk +:+ whole_body rest)
                   = (String.length chunk + String.length (whole_body rest))%nat)
      by apply append_length.
    destruct (os_fault env (log w) (OpWrite path chunk)) as [e|].
    + set (n := Z.of_nat (String.length
                            (string_take (os_short env (log w) (OpWrite path chunk)) chunk))).
      destruct (0 <? n) eqn:Hn; cbn [fst snd].
      * exists [written + n]. split; [| split; [| discriminate]].
        -- eapply (reports_trans _ _ _ []); [apply Hw1 |].
           apply (reports_emit (EvProgressUpdate (written + n))).
        -- apply Z.ltb_lt in Hn. simpl. split; [lia | exact I].
      * exists []. split; [apply Hw1 |]. split; [exact I | discriminate].
    + set (n := Z.of_nat (String.length chunk)).
      assert (Hpos : 0 < n).
      { unfold n. destruct chunk; [congruence | simpl; lia]. }
      rewrite (proj2 (Z.ltb_lt 0 n) Hpos). cbn [fst snd].
      rewrite decide_True by reflexivity.
      destruct (IH (written + n) (emit (EvProgressUpdate (written + n)) (set_fs
                 (append_data path chunk (fs w)) w1))) as (totals & Hrep & Hinc & Hlast).
      exists ((written + n) :: totals). split; [| split].
      * change (map EvProgressUpdate (written + n :: totals))
          with (([] ++ [EvProgressUpdate (written + n)]) ++ map EvProgressUpdate totals).
        eapply reports_trans; [| exact Hrep].
        eapply (reports_trans _ _ _ []); [apply Hw1 |].
        apply (reports_emit (EvProgressUpdate (written + n))).
      * simpl. split; [lia | exact Hinc].
      * intros Hok. rewrite last_cons_default, (Hlast Hok), Hlen. unfold n. lia.
Qed.

(** [GetResource] through the [ProgressWriter]. *)
Lemma HTTP_GetResource_reports (tmp url : string) (headers : option (gmap string string))
    (w : World) :
  exists totals,
    reports w (fst (HTTP_GetResource env url_Parse c url (ProgressWriter env tmp) headers w))
      (map EvProgressUpdate totals)
    /\ increasing 0 totals
    /\ (snd (HTTP_GetResource env url_Parse c url (ProgressWriter env tmp) headers w) = None ->
        forall r,
          snd (doRequestWithRetry env c (apply_headers headers (bare_request "GET" url)) w)
          = (Some r, None) ->
          List.last totals 0 = Z.of_nat (String.length (whole_body (Body r)))).
Proof.
  unfold HTTP_GetResource, http_NewRequest.
  destruct (url_Parse url) as [u|].
  2:{ exists []. split; [now apply reports_refl |]. split; [exact I | discriminate]. }
  fold (bare_request "GET" url).
  pose proof (doRequestWithRetry_reports (apply_headers headers (bare_request "GET" url)) w)
    as Hsend.
  destruct (doRequestWithRetry env c (apply_headers headers (bare_request "GET" url)) w)
    as [w1 [resp err]].
  cbn [fst snd] in *.
  destruct err as [e|];
    [exists []; split; [exact Hsend |]; split; [exact I | discriminate] |].
  destruct resp as [r|];
    [| exists []; split; [exact Hsend |]; split; [exact I | discriminate]].
  destruct (negb (StatusCode r =? StatusOK));
    [exists []; split; [exact Hsend |]; split; [exact I | discriminate] |].
  destruct (io_Copy_reports tmp (Body r) (BodyErr r) 0 w1) as (totals & Hrep & Hinc & Hlast).
  change (w_cur (ProgressWriter env tmp)) with 0.
  destruct (io_Copy (w_write (ProgressWriter env tmp)) 0 (Body r) (BodyErr r) w1)
    as [w2 [e|]]; cbn [fst snd] in *.
  - exists totals. split; [exact (reports_trans _ _ _ [] _ Hsend Hrep) |].
    split; [exact Hinc | discriminate].
  - exists totals. split; [exact (reports_trans _ _ _ [] _ Hsend Hrep) |].
    split; [exact Hinc |]. intros _ r' Hr'. injection Hr' as <-.
    rewrite (Hlast eq_refl). lia.
Qed.

Lemma downloadFile_deferred_reports (tmp : string) (w : World) :
  reports w (downloadFile_deferred env tmp w) [EvProgressFinish].
Proof.
  unfold downloadFile_deferred.
  apply (reports_trans _ (emit EvProgressFinish w) _ [EvProgressFinish] []).
  - apply (reports_emit EvProgressFinish).
  - apply reports_quiet. now apply os_Remove_extends.
Qed.

End ProgressFacts.

Section ProgressOfDownload.

Variable env : Env.
Variable url_Parse : string -> option url_URL.
Variable c : schemes_HTTPClient.
Variable url destPath : string.
Variable opts : Options.
Hypothesis dest_is_no_temp :
  strings_HasPrefix (filepath_Base destPath) ".download-" = false.

Local Abbreviation download :=
  (downloadFile env (HTTPClient_SchemeClient env url_Parse c) url destPath opts).
Local Abbreviation size_probe w :=
  (HTTP_GetSize env url_Parse c url (Headers opts) (emit (EvCall "GetSize" url) w)).

(** X19.  What [downloadFile] tells the progress display.  Either the
    display is told nothing and the download has failed (the size probe
    panicked or no temporary file could be made), or it is told [Start]
    once, with the size that the size probe returned or 0 when the probe
    failed, then the updates, then [Finish] once, whether the download
    succeeds or not.  Every update is the running total of the bytes
    written so far: the totals are positive and each one is greater than
    the one before.  After a download without error the last total is
    the length of the file at the destination (with no update at all for
    an empty body). *)
Theorem progress_is_the_running_total (w : World) :
  (progress_of (new_events w (fst (download w))) = [] /\ snd (download w) <> None)
  \/ exists totals,
       progress_of (new_events w (fst (download w)))
       = EvProgressStart
           (match snd (snd (size_probe w)) with
            | Some _ => 0
            | None => fst (snd (size_probe w))
            end) url
         :: map EvProgressUpdate totals ++ [EvProgressFinish]
       /\ increasing 0 totals
       /\ (snd (download w) = None ->
           exists data,
             fs (fst (download w)) !! destPath = Some (File data 384)
             /\ List.last totals 0 = Z.of_nat (String.length data)).
Proof.
  unfold downloadFile. cbn [GetSize GetResource HTTPClient_SchemeClient].
  pose proof (HTTP_GetSize_reports env url_Parse c url (Headers opts)
                (emit (EvCall "GetSize" url) w)) as Hr1.
  destruct (HTTP_GetSize env url_Parse c url (Headers opts) (emit (EvCall "GetSize" url) w))
    as [w1 [size err1]].
  cbn [fst snd] in Hr1 |- *.
  assert (H1 : reports w w1 [])
    by exact (reports_trans _ _ _ [] [] (reports_emit (EvCall "GetSize" url) w) Hr1).
  destruct (panicked err1) eqn:Hpanic1.
  { left. cbn [fst snd]. split; [now apply reports_new_events | now apply panicked_Some]. }
  unfold os_CreateTemp.
  destruct (createTemp_try_files env (Z.to_nat 10000) 0 (filepath_Dir destPath)
              ".download-*" w1) as [Hmade _].
  destruct (createTemp_try_extends env (fun e => is_progress e = false) (Z.to_nat 10000) 0
              (filepath_Dir destPath) ".download-*" w1) as [Hquiet Hname].
  { intros k. split; intros; reflexivity. }
  destruct (createTemp_try env (Z.to_nat 10000) 0 (filepath_Dir destPath) ".download-*" w1)
    as [w2 [tmpPath err2]].
  cbn [fst snd] in Hmade, Hquiet, Hname.
  assert (H2 : reports w w2 [])
    by exact (reports_trans _ _ _ [] [] H1 (reports_quiet _ _ Hquiet)).
  destruct err2 as [e2|].
  { left. cbn [fst snd]. split; [now apply reports_new_events | discriminate]. }
  right.
  destruct (Hmade eq_refl) as [_ Hfs2]. destruct (Hname eq_refl) as [k Hk].
  assert (Hne : tmpPath <> destPath)
    by (rewrite Hk; apply temp_name_not_dest; exact dest_is_no_temp).
  clear Hmade Hname Hquiet.
  set (total := match err1 with Some _ => 0 | None => size end).
  set (w3 := emit (EvCall "GetResource" url) (emit (EvProgressStart total url) w2)).
  assert (H3 : reports w w3 [EvProgressStart total url]).
  { eapply (reports_trans _ _ _ []); [exact H2 |].
    exists [EvProgressStart total url; EvCall "GetResource" url]. split; [| reflexivity].
    unfold w3. cbn [emit log]. now rewrite <- app_assoc. }
  assert (Hempty : fs w3 !! tmpPath = Some (File "" 384)).
  { unfold w3. cbn [emit fs]. rewrite Hfs2. apply lookup_insert_eq. }
  destruct (HTTP_GetResource_reports env url_Parse c tmpPath url (Headers opts) w3)
    as (totals & Hrep & Hinc & Hlast).
  pose proof (HTTP_GetResource_success env url_Parse c tmpPath url (Headers opts) w3 "" 384)
    as Hsuccess.
  destruct (HTTP_GetResource env url_Parse c url (ProgressWriter env tmpPath) (Headers opts) w3)
    as [w4 err4].
  cbn [fst snd] in Hrep, Hlast, Hsuccess.
  exists totals.
  assert (H4 : reports w w4 (EvProgressStart total url :: map EvProgressUpdate totals))
    by exact (reports_trans _ _ _ [EvProgressStart total url] _ H3 Hrep).
  assert (Hfin : forall w5,
             reports w4 w5 [] ->
             progress_of (new_events w (downloadFile_deferred env tmpPath w5))
             = EvProgressStart total url :: map EvProgressUpdate totals ++ [EvProgressFinish]).
  { intros w5 H5. apply reports_new_events.
    pose proof (reports_trans _ _ _ _ _ (reports_trans _ _ _ _ _ H4 H5)
                  (downloadFile_deferred_reports env tmpPath w5)) as H.
    rewrite app_nil_r in H. exact H. }
  destruct (panicked err4) eqn:Hpanic4.
  { cbn [fst snd]. split; [apply Hfin; now apply reports_refl |].
    split; [exact Hinc |]. intros E. now apply panicked_Some in Hpanic4. }
  cbn [file_Close fst snd].
  set (w5 := emit (EvFs (OpClose tmpPath)) w4).
  assert (H5 : reports w4 w5 []) by (exists [EvFs (OpClose tmpPath)]; split; reflexivity).
  destruct err4 as [e4|].
  { cbn [fst snd]. split; [now apply Hfin |]. split; [exact Hinc | discriminate]. }
  destruct (Hsuccess eq_refl Hempty) as (r & Hanswer & _ & _ & Hfile).
  change ("" +:+ whole_body (Body r)) with (whole_body (Body r)) in Hfile.
  specialize (Hlast eq_refl r Hanswer).
  assert (H6 : forall m, reports w4 (set_fs m (emit (EvFs (OpRename tmpPath destPath)) w5)) []).
  { intros m. exists [EvFs (OpClose tmpPath); EvFs (OpRename tmpPath destPath)].
    split; [| reflexivity]. unfold w5. cbn [set_fs emit log]. now rewrite <- app_assoc. }
  assert (H6' : reports w4 (emit (EvFs (OpRename tmpPath destPath)) w5) []).
  { exists [EvFs (OpClose tmpPath); EvFs (OpRename tmpPath destPath)].
    split; [| reflexivity]. unfold w5. cbn [emit log]. now rewrite <- app_assoc. }
  unfold os_Rename.
  destruct (os_fault env (log w5) (OpRename tmpPath destPath)) as [e5|].
  { cbn [fst snd]. split; [now apply Hfin |]. split; [exact Hinc | discriminate]. }
  change (fs w5) with (fs w4). rewrite Hfile.
  destruct (fs w4 !! destPath) as [[|olddata oldperm]|].
  { cbn [fst snd]. split; [now apply Hfin |]. split; [exact Hinc | discriminate]. }
  - cbn [fst snd]. split; [now apply Hfin |]. split; [exact Hinc |]. intros _.
    exists (whole_body (Body r)). split; [| exact Hlast].
    rewrite downloadFile_deferred_other by congruence.
    cbn [set_fs fs]. apply lookup_insert_eq.
  - cbn [fst snd]. split; [now apply Hfin |]. split; [exact Hinc |]. intros _.
    exists (whole_body (Body r)). split; [| exact Hlast].
    rewrite downloadFile_deferred_other by congruence.
    cbn [set_fs fs]. apply lookup_insert_eq.
Qed.

End ProgressOfDownload.

(** A body that arrives in two parts, of two and three bytes. *)
Lemma progress_is_the_running_total_witness :
  strings_HasPrefix (filepath_Base "/cache/k") ".download-" = false
  /\ progress_of
       (new_events cache_dir_world
          (fst (downloadFile flaky_server
                  (HTTPClient_SchemeClient flaky_server url_Parse_plain default_client)
                  "http://h/a" "/cache/k" default_options cache_dir_world)))
     = [EvProgressStart 5 "http://h/a"; EvProgressUpdate 2; EvProgressUpdate 5;
        EvProgressFinish]
  /\ ((progress_of
         (new_events cache_dir_world
            (fst (downloadFile flaky_server
                    (HTTPClient_SchemeClient flaky_server url_Parse_plain default_client)
                    "http://h/a" "/cache/k" default_options cache_dir_world))) = []
       /\ snd (downloadFile flaky_server
                 (HTTPClient_SchemeClient flaky_server url_Parse_plain default_client)
                 "http://h/a" "/cache/k" default_options cache_dir_world) <> None)
      \/ exists totals,
           progress_of
             (new_events cache_dir_world
                (fst (downloadFile flaky_server
                        (HTTPClient_SchemeClient flaky_server url_Parse_plain default_client)
                        "http://h/a" "/cache/k" default_options cache_dir_world)))
           = EvProgressStart
               (match snd (snd (HTTP_GetSize flaky_server url_Parse_plain default_client
                                  "http://h/a" (Headers default_options)
                                  (emit (EvCall "GetSize" "http://h/a") cache_dir_world))) with
                | Some _ => 0
                | None => fst (snd (HTTP_GetSize flaky_server url_Parse_plain default_client
                                      "http://h/a" (Headers default_options)
                                      (emit (EvCall "GetSize" "http://h/a") cache_dir_world)))
                end) "http://h/a"
             :: map EvProgressUpdate totals ++ [EvProgressFinish]
           /\ increasing 0 totals
           /\ (snd (downloadFile flaky_server
                      (HTTPClient_SchemeClient flaky_server url_Parse_plain default_client)
                      "http://h/a" "/cache/k" default_options cache_dir_world) = None ->
               exists data,
                 fs (fst (downloadFile flaky_server
                            (HTTPClient_SchemeClient flaky_server url_Parse_plain
                               default_client)
                            "http://h/a" "/cache/k" default_options cache_dir_world))
                   !! "/cache/k" = Some (File data 384)
                 /\ List.last totals 0 = Z.of_nat (String.length data))).
Proof.
  assert (Hname : strings_HasPrefix (filepath_Base "/cache/k") ".download-" = false)
    by (vm_compute; reflexivity).
  split; [exact Hname |]. split; [vm_compute; reflexivity |].
  exact (progress_is_the_running_total flaky_server url_Parse_plain default_client
           "http://h/a" "/cache/k" default_options Hname cache_dir_world).
Defined.

(** ** The order of the options *)



Section OptionOrder.

Variable base : Options.
Variable before : list Option_.
Variables method url : string.

Local Abbreviation after_options opts := (fold_left (fun o opt => opt o) opts base).
Local Abbreviation sent opts :=
  (req_Header (apply_headers (Headers (after_options opts)) (bare_request method url))).


End OptionOrder.

(** A token given before and after a map of headers. *)
Example token_before_and_after_headers :
  req_Header (apply_headers
                (Headers (fold_left (fun o opt => opt o)
                            [WithAuth "t0k"; WithHeaders (Some {[ "x-custom" := "1" ]})]
                            default_options))
                (bare_request "GET" "http://h/a")) !! "Authorization" = None
  /\ req_Header (apply_headers
                   (Headers (fold_left (fun o opt => opt o)
                               [WithHeaders (Some {[ "x-custom" := "1" ]}); WithAuth "t0k"]
                               default_options))
                   (bare_request "GET" "http://h/a")) !! "Authorization"
     = Some "Bearer t0k".
Proof. split; vm_compute; reflexivity. Qed.

(** ** A lock that is held elsewhere *)

Lemma os_OpenFile_keeps_old (env : Env) (path : string) (flag perm : Z) (w : World)
    (q : string) :
  Z.testbit flag 9 = false ->
  is_Some (fs w !! q) ->
  fs (fst (os_OpenFile env path flag perm w)) !! q = fs w !! q.
Proof.
  intros Hflag Hq. destruct (decide (q = path)) as [-> | Hne];
    [| now apply os_OpenFile_other].
  unfold os_OpenFile. destruct (os_fault env (log w) (OpOpenFile path flag perm));
    [reflexivity |].
  destruct Hq as [n Hn]. rewrite Hn. destruct n as [|data old].
  - destruct (Z.testbit flag 7); cbn [fst emit fs]; now rewrite Hn.
  - destruct (Z.testbit flag 7); [cbn [fst emit fs]; now rewrite Hn |].
    rewrite Hflag. cbn [fst emit fs]. now rewrite Hn.
Qed.

Lemma os_OpenFile_log (env : Env) (path : string) (flag perm : Z) (w : World) :
  log (fst (os_OpenFile env path flag perm w)) = log w ++ [EvFs (OpOpenFile path flag perm)].
Proof.
  unfold os_OpenFile. destruct (os_fault env (log w) (OpOpenFile path flag perm));
    [reflexivity |].
  destruct (fs w !! path) as [[|data old]|].
  - destruct (Z.testbit flag 7); reflexivity.
  - destruct (Z.testbit flag 7); [reflexivity |]. destruct (Z.testbit flag 9); reflexivity.
  - destruct (Z.testbit flag 6); reflexivity.
Qed.

Section HeldLock.

Variable env : Env.
Variable syscall_Flock : list Event -> string -> Z -> option error.
Hypothesis lock_held :
  forall log path how, exists e, syscall_Flock log path how = Some e /\ is_EWOULDBLOCK e = true.

(** Against a lock that stays held, [WithLock] does not run the function:
    it fails when the lock file cannot be opened, and else after sixty
    tries. *)
Lemma WithLock_held (lockPath : string) (fn : World -> World * option error) (w : World) :
  WithLock env syscall_Flock lockPath fn w
  = match snd (os_OpenFile env lockPath (Z.lor O_CREATE O_RDWR) 420 w) with
    | Some e => (fst (os_OpenFile env lockPath (Z.lor O_CREATE O_RDWR) 420 w), Some e)
    | None =>
        (fst (file_Close env lockPath
                (waited 60 (fst (os_OpenFile env lockPath (Z.lor O_CREATE O_RDWR) 420 w)))),
         Some ErrLockFailed)
    end.
Proof.
  unfold WithLock. rewrite (FileLock_Lock_eq env syscall_Flock lockPath w).
  destruct (os_OpenFile env lockPath (Z.lor O_CREATE O_RDWR) 420 w) as [w1 [e|]];
    cbn [fst snd]; [reflexivity |].
  rewrite (proj1 (Lock_tries_run env syscall_Flock lockPath 60 w1)); [reflexivity |].
  intros k _. apply lock_held.
Qed.

End HeldLock.

Section HeldLockResolution.

Variable env : Env.
Variable url_Parse : string -> option url_URL.
Variable json_Unmarshal : string -> option Meta.
Variable json_MarshalIndent : Meta -> string + error.
Variable time_Now : list Event -> Z.
Variable syscall_Flock : list Event -> string -> Z -> option error.
Variable zip_decode : string -> option (list zip_File).
Variable targz_decode : string -> option (list tar_Item).
Variable strings_ToLower : string -> string.

Variable registry : gmap string client_value.
Variable c : schemes_HTTPClient.
Variables url internalPath : string.
Variable hasInternalPath : bool.
Variable opts : Options.
Variable w : World.

Local Abbreviation resolved :=
  (handleRemoteURL env url_Parse json_Unmarshal json_MarshalIndent time_Now syscall_Flock
     zip_decode targz_decode strings_ToLower registry url internalPath hasInternalPath opts w).
Local Abbreviation probed :=
  (HTTP_GetETag env url_Parse (configured_client opts) url (Headers opts) w).

(** X21.  While another process holds the lock, the resolution of an
    [http] or [https] URL fails and returns the empty path.  It has sent
    the [HEAD] requests of its probe, which comes before the lock, and
    nothing else: neither [GetSize] nor [GetResource] is called.  No file
    that was there is changed; the lock file may have been created.  If
    the probe did not panic and the lock file could be opened, the error
    is [ErrLockFailed], returned after sixty seconds of sleep. *)
Theorem held_lock_fails_the_resolution :
  (forall log path how,
      exists e, syscall_Flock log path how = Some e /\ is_EWOULDBLOCK e = true) ->
  registry !! "http" = Some (HTTPClient_value c) ->
  GetScheme url_Parse url = "http" \/ GetScheme url_Parse url = "https" ->
  snd (snd (snd resolved)) <> None
  /\ fst (snd (snd resolved)) = ""
  /\ client_calls (new_events w (fst (snd resolved))) = []
  /\ Forall (fun req => Method req = "HEAD") (requests (new_events w (fst (snd resolved))))
  /\ (forall q, is_Some (fs w !! q) -> fs (fst (snd resolved)) !! q = fs w !! q)
  /\ (forall key,
        panicked (snd (snd probed)) = false ->
        ResourceToFilename url_Parse url
          (match snd (snd probed) with Some _ => "" | None => fst (snd probed) end)
        = Some key ->
        snd (os_OpenFile env (LockFilePath (filepath_Join [CacheDir opts; key]))
               (Z.lor O_CREATE O_RDWR) 420 (fst probed)) = None ->
        snd (snd (snd resolved)) = Some ErrLockFailed
        /\ total_wait (new_events (fst probed) (fst (snd resolved))) = 60 * 1000000000).
Proof.
  intros Hheld Hreg Hscheme.
  destruct (handleRemoteURL_http_cases env url_Parse json_Unmarshal json_MarshalIndent
              time_Now syscall_Flock zip_decode targz_decode strings_ToLower
              registry c url internalPath hasInternalPath opts w Hreg Hscheme)
    as (_ & Hpanic & Hrest).
  destruct (HTTP_GetETag_quiet env url_Parse (configured_client opts) url (Headers opts) w)
    as [Hfs1 Hev1].
  destruct (panicked (snd (snd probed))) eqn:Hp.
  { rewrite (Hpanic eq_refl). cbn [fst snd].
    destruct (fetches_nothing_lists _ (new_events_extends _ _ _ Hev1)) as [Hcalls Hheads].
    split; [now apply panicked_Some |]. split; [reflexivity |].
    split; [exact Hcalls |]. split; [exact Hheads |].
    split; [intros q _; now rewrite Hfs1 | discriminate]. }
  destruct (Hrest eq_refl) as (key & Hkey & Hfail & _). clear Hrest Hpanic.
  set (lockPath := LockFilePath (filepath_Join [CacheDir opts; key])) in *.
  rewrite (WithLock_held env syscall_Flock Hheld lockPath) in Hfail.
  pose proof (os_OpenFile_keeps_old env lockPath (Z.lor O_CREATE O_RDWR) 420 (fst probed))
    as Hold.
  pose proof (os_OpenFile_extends env fetches_nothing lockPath (Z.lor O_CREATE O_RDWR) 420
                (fst probed) I) as Hev2.
  destruct (os_OpenFile env lockPath (Z.lor O_CREATE O_RDWR) 420 (fst probed))
    as [w1 [e|]] eqn:Hopen; cbn [fst snd] in Hfail, Hold, Hev2.
  { rewrite (Hfail e eq_refl). cbn [fst snd].
    destruct (fetches_nothing_lists _ (new_events_extends _ _ _
                (extends_trans _ _ _ _ Hev1 Hev2))) as [Hcalls Hheads].
    split; [discriminate |]. split; [reflexivity |].
    split; [exact Hcalls |]. split; [exact Hheads |].
    split; [| intros key' _ Hkey'; assert (key' = key) by congruence; subst key';
              fold lockPath; rewrite Hopen; discriminate].
    intros q Hq. rewrite Hold; [now rewrite Hfs1 | reflexivity | now rewrite Hfs1]. }
  rewrite (Hfail ErrLockFailed eq_refl). cbn [fst snd file_Close].
  assert (Hev3 : extends_with fetches_nothing w1
                   (emit (EvFs (OpClose lockPath)) (waited 60 w1))).
  { exists (repeat (EvSleep (1 * 1000000000)) 60 ++ [EvFs (OpClose lockPath)]). split.
    - cbn [emit waited log]. now rewrite <- app_assoc.
    - apply Forall_app. split; [| now repeat constructor].
      apply Forall_forall. intros ev Hin. apply list_elem_of_In, repeat_spec in Hin.
      now subst ev. }
  destruct (fetches_nothing_lists _ (new_events_extends _ _ _
              (extends_trans _ _ _ _ Hev1 (extends_trans _ _ _ _ Hev2 Hev3))))
    as [Hcalls Hheads].
  split; [discriminate |]. split; [reflexivity |].
  split; [exact Hcalls |]. split; [exact Hheads |]. split.
  - intros q Hq. cbn [emit waited fs].
    rewrite Hold; [now rewrite Hfs1 | reflexivity | now rewrite Hfs1].
  - intros key' _ Hkey' _. split; [reflexivity |].
    pose proof (os_OpenFile_log env lockPath (Z.lor O_CREATE O_RDWR) 420 (fst probed)) as Hlog1.
    rewrite Hopen in Hlog1. cbn [fst] in Hlog1.
    rewrite (new_events_app (fst probed) _
               ([EvFs (OpOpenFile lockPath (Z.lor O_CREATE O_RDWR) 420)]
                ++ repeat (EvSleep (1 * 1000000000)) 60 ++ [EvFs (OpClose lockPath)])).
    2:{ cbn [emit waited log]. rewrite Hlog1. now rewrite <- !app_assoc. }
    assert (Hsleep : sleeps [EvFs (OpOpenFile lockPath (Z.lor O_CREATE O_RDWR) 420)] = [])
      by reflexivity.
    unfold total_wait. rewrite !sleeps_app, Hsleep.
    change (sleeps [EvFs (OpClose lockPath)]) with (@nil Z). rewrite app_nil_r.
    change ([] ++ sleeps (repeat (EvSleep (1 * 1000000000)) 60))
      with (sleeps (repeat (EvSleep (1 * 1000000000)) 60)).
    change (fold_right (fun d acc => Z.max 0 d + acc) 0
              (sleeps (repeat (EvSleep (1 * 1000000000)) 60)))
      with (total_wait (repeat (EvSleep (1 * 1000000000)) 60)).
    rewrite total_wait_repeat by lia. reflexivity.
Qed.

End HeldLockResolution.

(** The address [http://h/a] while the lock is held. *)
Lemma held_lock_fails_the_resolution_witness :
  (schemes_init !! "http" = Some (HTTPClient_value NewHTTPClient)
   /\ GetScheme url_Parse_plain "http://h/a" = "http")
  /\ snd (snd (handleRemoteURL tagged_server url_Parse_plain token_record token_text
                 still_clock held_lock two_files linked_files lower_ascii schemes_init
                 "http://h/a" "" false default_options cache_dir_world))
     = ("", Some ErrLockFailed)
  /\ client_calls
       (new_events cache_dir_world
          (fst (snd (handleRemoteURL tagged_server url_Parse_plain token_record token_text
                       still_clock held_lock two_files linked_files lower_ascii schemes_init
                       "http://h/a" "" false default_options cache_dir_world)))) = [].
Proof.
  assert (H1 : schemes_init !! "http" = Some (HTTPClient_value NewHTTPClient))
    by (vm_compute; reflexivity).
  assert (H2 : GetScheme url_Parse_plain "http://h/a" = "http") by (vm_compute; reflexivity).
  assert (Hheld : forall (log : list Event) (path : string) (how : Z),
             exists e, held_lock log path how = Some e /\ is_EWOULDBLOCK e = true).
  { intros log path how. exists EWOULDBLOCK. split; reflexivity. }
  split; [split; [exact H1 | exact H2] |]. split; [vm_compute; reflexivity |].
  exact (proj1 (proj2 (proj2
           (held_lock_fails_the_resolution tagged_server url_Parse_plain token_record
              token_text still_clock held_lock two_files linked_files lower_ascii
              schemes_init NewHTTPClient "http://h/a" "" false default_options cache_dir_world
              Hheld H1 (or_introl H2))))).
Defined.
